(* ===== verification/_CoqProject ===== *)
-Q . S2P
Prelude.v
Effects.v
EffectsSum.v
ProtoEtcd.v
GoLib.v
GoTime.v
Vfs.v
Hosts.v
EtcdVersions.v
EtcdClient.v
PrivateApi.v
Binaries.v
EtcdServer.v
EtcdProcess.v
Pki.v
Volumes.v
VolumesAws.v
VolumesGce.v
VolumesClouds.v
VolumesExternal.v
VolumesAzure.v
VolumesOpenstack.v
Legacy.v
AdmConfig.v
AdmService.v
AdmInit.v
AdmEnv.v
AdmCerts.v
AdmCommands.v
AdmProofs.v
AdmReset.v
AdmRun.v
NodeProtocol.v
BackupCleanup.v
ClusterState.v
CommandStore.v
BackupStore.v
Ctl.v
BackupController.v
Locking.v
Restore.v
Dump.v
RestoreProofs.v
RestoreWorld.v
ControllerOps.v
Controller.v
ControllerDemo.v
ControllerFootprint.v
ControllerInv.v
ControllerSafety.v
ControllerGuards.v
ClusterCreation.v
ClusterMembers.v
ClusterUpgrade.v
EtcdManager.v
