(* ===== verification/Prelude.v ===== *)
(** * etcd-manager and etcdadm: a verification development

    The repository has two programs.  etcd-manager (src/etcd-manager) keeps an
    etcd cluster running: on every node it mounts the volume with the data, runs
    a peer server, a node server that owns the local etcd process, and a
    controller that acts if the node leads; command line tools talk to it through
    its stores.  etcdadm (the rest of src) installs one etcd member on a machine,
    joins it to a cluster or takes it out.  This development models both, with
    the stores, locks, certificates and cloud providers they use, and proves what
    makes them correct.

    ** How the programs are modelled

    An operation that talks to the outside is a [prog] of [Effects.v]: a tree
    that asks its environment (one constructor of a signature per call of a
    library, of the operating system or of a peer) and goes on with the answer.
    [M Σ S A] adds the mutable state [S] of the component.  There are two kinds
    of theorem:
    - "in every environment": [wpm], [runs], [guarded], [history]; nothing is
      assumed of the answers, so every failure, delay and lie is covered;
    - "on a reliable ..." : [evm] with a handler that implements the documented
      behaviour of a store or of etcd; these show that the operation returns and
      does its work.
    Go errors are texts ([error]), a Go pointer that can be nil is an [option],
    and dereferencing nil or indexing out of range is the crash [NilDeref];
    klog.Fatal and os.Exit are the crash [Fatal].  The order of a Go map iteration
    is an answer of the environment ([range]).  int64 durations, uint64 versions
    and int32 counts keep their width ([wrap64], [timeSub], [wrapU64], [int32]).

    ** Files and what they model

    Foundations
    - [Prelude.v] (this file): automation, machine integers, durations, strings,
      sorting, shuffles.
    - [Effects.v], [EffectsSum.v]: programs, loops, weakest preconditions,
      triples, traces, handlers; programs over several environments.
    - [GoLib.v], [GoTime.v]: the parts of strings, strconv, net, path and time
      that are used, byte by byte; RFC 3339 times and the calendar.
    - [ProtoEtcd.v]: the messages (pkg/apis/etcd, pkg/privateapi), pkg/urls.
    - [Vfs.v]: paths and the operations of a path store (k8s.io/kops vfs).

    Nodes
    - [PrivateApi.v]: the peer server (pkg/privateapi): peer table, pings,
      discovery, leadership (Ping, LeaderNotification, BecomeLeader,
      AssertLeadership, IsLeader).
    - [Binaries.v], [EtcdVersions.v]: location of binaries; version tables and
      the semver parser.
    - [EtcdServer.v], [NodeProtocol.v]: the node server (pkg/etcd/etcdserver.go):
      handlers, run loop, state file; the server as a state machine.
    - [EtcdProcess.v]: command and environment of etcd, endpoints of its clients
      (pkg/etcd/etcdprocess.go).
    - [EtcdClient.v]: keys and status (pkg/etcdclient).
    - [Pki.v]: certificate authorities and key pairs (pkg/pki, pkg/etcd/pki.go,
      pkg/tlsconfig).
    - [Hosts.v]: the managed block of /etc/hosts (pkg/hosts).
    - [Legacy.v]: adoption of an etcd that ran before (pkg/legacy), and the file
      with the identity of a node (pkg/privateapi/id.go).
    - [EtcdManager.v]: the start of all of this (cmd/etcd-manager).

    Volumes and discovery (pkg/volumes, pkg/privateapi/discovery)
    - [Volumes.v]: attaching, formatting and mounting one volume, for any
      provider: an instance of the class [Volumes].
    - [VolumesAws.v], [VolumesGce.v], [VolumesAzure.v], [VolumesOpenstack.v],
      [VolumesClouds.v] (Hetzner Cloud, Scaleway, DigitalOcean),
      [VolumesExternal.v] (disks that are mounted already; discovery by files):
      the providers.

    Stores, locks and tools
    - [CommandStore.v]: the control store (pkg/commands).
    - [BackupStore.v]: the backup store and the making of a backup (pkg/backup,
      pkg/etcd/backup.go).
    - [BackupCleanup.v], [BackupController.v]: retention and the stand-alone
      backup controller (pkg/backupcontroller).
    - [Restore.v], [RestoreProofs.v], [RestoreWorld.v]: restoring a backup
      (pkg/etcd/restore.go, tar.go).
    - [Locking.v]: the leader lock (pkg/locking).
    - [Ctl.v]: the command lines on the stores (cmd/etcd-manager-ctl,
      cmd/etcd-backup-ctl).
    - [Dump.v]: dumping a backup (cmd/etcd-dump, pkg/etcd/dump).

    The controller (pkg/controller)
    - [ClusterState.v]: requests to peers, calls of etcd, the snapshot of a cycle.
    - [ControllerOps.v]: the operations: backup, creation, members, upgrade,
      restore, quarantine, TLS.
    - [Controller.v]: one cycle ([run]) and the loop ([Run]).
    - [ControllerDemo.v]: a small cluster on which the cycle is executed.
    - [ControllerFootprint.v], [ControllerInv.v], [ControllerSafety.v],
      [ControllerGuards.v], [ClusterCreation.v], [ClusterMembers.v],
      [ClusterUpgrade.v]: the theorems about the controller.

    etcdadm
    - [AdmConfig.v]: configuration, defaults, etcd members (apis, constants, etcd).
    - [AdmService.v], [AdmEnv.v]: the files that are written and read back
      (service, preflight, util).
    - [AdmInit.v]: binaries and the two init systems (binary, initsystem), which
      implement the record [InitSystemOps].
    - [AdmCerts.v]: certificates (certs).
    - [AdmCommands.v]: the phases and commands (cmd).
    - [AdmProofs.v], [AdmReset.v], [AdmRun.v]: the theorems about join, reset and
      init.

    ** What the theorems show

    - Leadership: a node grants at most one leader, a bid needs every peer of the
      view, and only an asserted leader (with the lock, if one is configured)
      changes anything; its requests carry its token and the name of the cluster,
      but for the two the code sends without a header, which go to the peers that
      acknowledged it.
    - Cluster changes: creation is a two-phase commit, on the side of the
      controller and on that of the nodes; members are added and removed only
      after a backup; an upgrade touches one node per cycle, or stops the cluster
      only when it can be restored.
    - Nodes: a request without authority has no effect, the process runs the
      configuration that is stored, which survives a restart; key pairs are signed
      by the right authority, and are there when their creation succeeds; however
      the goroutines of the manager are scheduled, the node server is made after
      the scan for legacy data, whose adoption loses nothing; the hosts file keeps
      the lines outside of the managed blocks ([outside], which does not depend on
      the scan of the code).
    - Volumes: a device is formatted only if the volume is this machine's and
      nothing is mounted there, and the mounter ends with a mount that it made or
      found; what the providers promise the mounter.
    - Stores: the control store refines a queue of commands ([Queue]; a command
      added within the second of another one replaces it), and the command lines
      refine operations on it, panics included; a backup can be read back and
      restored; metadata follows data; cleaning up never loses the last backup of
      a period; locks exclude each other (with the interleavings for which they do
      not); a reader of a dump finds the keys with their values.
    - etcdadm: join adds only this machine; reset destroys data only after it
      stopped etcd and, if etcd ran, after the cluster stopped counting on the
      member (of a stopped etcd it assumes that); certificates are never
      overwritten, the environment file says what is configured, and a successful
      init has done every phase in order.
    - Where the code fails, this is a theorem or lemma, too: the crashes of a
      component are listed in its theorems, and for instance
      [relative_key_overflows], [delete_panics], [other_device_accepted] and
      [hetzner_attach_fatal] show inputs on which an operation goes wrong.

    ** Bounds

    Loops that Go bounds by a list or a counter are structural.  Fuel appears
    where Go has none; reaching it is the crash [OutOfFuel]:
    - [awaitRestoreCommand] (the wait for a restore command to become visible;
      the theorem about cycles lists this crash), the waits for volumes, devices
      and cloud operations ([WaitForVolumes], [awaitDevice], [WaitForOp],
      attachment rounds), the rounds of [sendPings] and of the run loops: any
      number;
    - [CopyTo]: one page per key and one more is enough ([CopyTo_complete]);
    - the search for a device name on AWS: one attempt per name and one more is
      enough ([aws_attach_correct]);
    - [copyDir]: the nesting of directories; [import_safe] shows that it runs out
      only on a deeper one;
    - [ensureDirs] of a dump: the depth of a key that starts with a slash is
      enough ([tar_archive]), and nothing is for other keys.
    The bounds of string functions are lengths, with lemmas that they suffice
    where it matters.

    ** Parameters

    JSON, YAML and protobuf encodings (with their round-trip law where it is
    used), SHA-256, net/url and net.ParseIP, gzip, the contents of a snapshot,
    keys and signatures, the location of a parsed time.  The random and clock
    sources are answers of the environment.  Theorems with such parameters have
    witnesses that instantiate them.

    ** Not modelled

    Parsing of flags and registration of commands (main functions, cobra), the
    start of the backup agent (cmd/etcd-backup, which constructs the controller of
    [BackupController.v]), the arguments of mount in the name space of the host
    (pkg/hostmount; a mount is one operation), metrics, logging, and the build
    tools: they have no logic beyond calls of libraries.  The network, processes,
    TLS connections and the cloud APIs are environments.  Goroutines appear as
    interleavings of operations, each of which is one step.  For the operations
    that hold their mutex throughout this is what the code allows; those of the
    peer server that take it several times ([BecomeLeader], [sendPings],
    [connect]) are one step, too, so their interleaving with other calls in the
    middle is not covered. *)

From stdpp Require Import base gmap sets list strings sorting.
From Stdlib Require Export ZArith Lia.

Declare Scope go_scope.
Delimit Scope go_scope with go.

Create HintDb etcdm.
Create Rewrite HintDb etcdm_rw.

(** ** Shared proof automation *)

(** Case analysis on the innermost scrutinee of the goal. *)
Ltac case_goal :=
  match goal with
  | |- context [match ?x with _ => _ end] =>
      lazymatch x with
      | context [match _ with _ => _ end] => fail
      | _ => destruct x eqn:?
      end
  end.

(** Case analysis on the innermost scrutinee of a hypothesis. *)
Ltac case_hyp H :=
  match type of H with
  | context [match ?x with _ => _ end] =>
      lazymatch x with
      | context [match _ with _ => _ end] => fail
      | _ => destruct x eqn:?
      end
  end.

(** Turn boolean comparisons of the context into propositions. *)
Ltac zify_bools :=
  repeat match goal with
  | H : (_ <? _)%Z = true |- _ => apply Z.ltb_lt in H
  | H : (_ <? _)%Z = false |- _ => apply Z.ltb_ge in H
  | H : (_ <=? _)%Z = true |- _ => apply Z.leb_le in H
  | H : (_ <=? _)%Z = false |- _ => apply Z.leb_gt in H
  | H : (_ =? _)%Z = true |- _ => apply Z.eqb_eq in H
  | H : (_ =? _)%Z = false |- _ => apply Z.eqb_neq in H
  | H : bool_decide _ = true |- _ => apply bool_decide_eq_true in H
  | H : bool_decide _ = false |- _ => apply bool_decide_eq_false in H
  | H : String.eqb _ _ = true |- _ => apply String.eqb_eq in H
  | H : String.eqb _ _ = false |- _ => apply String.eqb_neq in H
  | H : andb _ _ = true |- _ => apply andb_true_iff in H as [? ?]
  | H : orb _ _ = false |- _ => apply orb_false_iff in H as [? ?]
  | H : negb _ = true |- _ => apply negb_true_iff in H
  | H : negb _ = false |- _ => apply negb_false_iff in H
  end.

(** ** Machine integers *)

Definition int64_min : Z := - 2 ^ 63.
Definition int64_max : Z := 2 ^ 63 - 1.

(** Two's complement wrap-around of a signed 64-bit result. *)
Definition wrap64 (z : Z) : Z := (z + 2 ^ 63) mod 2 ^ 64 - 2 ^ 63.

(** Wrap-around of an unsigned 64-bit result. *)
Definition wrapU64 (z : Z) : Z := z mod 2 ^ 64.

Definition is_int64 (z : Z) : Prop := (int64_min <= z <= int64_max)%Z.
Definition is_uint64 (z : Z) : Prop := (0 <= z < 2 ^ 64)%Z.

Lemma wrap64_id z : is_int64 z -> wrap64 z = z.
Proof.
  unfold is_int64, int64_min, int64_max, wrap64. intros.
  rewrite Z.mod_small; lia.
Qed.

Lemma wrap64_range z : is_int64 (wrap64 z).
Proof.
  unfold is_int64, int64_min, int64_max, wrap64.
  pose proof (Z.mod_pos_bound (z + 2 ^ 63) (2 ^ 64)). lia.
Qed.

Lemma wrapU64_id z : is_uint64 z -> wrapU64 z = z.
Proof. unfold is_uint64, wrapU64. intros. apply Z.mod_small. lia. Qed.

(** Subtraction of unsigned 64-bit numbers that wraps below zero. *)
Lemma wrapU64_sub_neg a b :
  is_uint64 a -> is_uint64 b -> (a < b)%Z -> wrapU64 (a - b) = (a - b + 2 ^ 64)%Z.
Proof.
  unfold is_uint64, wrapU64. intros. symmetry.
  apply (Z.mod_unique _ _ (-1)); lia.
Qed.

#[export] Hint Resolve wrap64_range : etcdm.

(** ** Instants and durations

    An instant is a number of nanoseconds since the zero [time.Time]
    (January 1 of year 1, UTC); a [time.Duration] is a signed 64-bit number of
    nanoseconds. *)

Abbreviation time := Z (only parsing).
Abbreviation duration := Z (only parsing).

Definition zeroTime : time := 0.
Definition Nanosecond : duration := 1.
Definition Millisecond : duration := 1000000.
Definition Second : duration := 1000 * Millisecond.
Definition Minute : duration := 60 * Second.
Definition Hour : duration := 60 * Minute.

(** [Time.Sub] saturates at the bounds of [time.Duration]. *)
Definition timeSub (t u : time) : duration :=
  Z.max int64_min (Z.min int64_max (t - u)).

(** [Time.Truncate]: round down, since the zero time, to a multiple of [d]. *)
Definition timeTruncate (t : time) (d : duration) : time :=
  if (d <=? 0)%Z then t else (t - t mod d)%Z.

Lemma timeSub_exact t u : is_int64 (t - u) -> timeSub t u = (t - u)%Z.
Proof. unfold timeSub, is_int64. lia. Qed.

Lemma timeSub_mono t u u' : (u <= u')%Z -> (timeSub t u' <= timeSub t u)%Z.
Proof. unfold timeSub. lia. Qed.

Lemma timeTruncate_le t d : (timeTruncate t d <= t)%Z.
Proof.
  unfold timeTruncate. case_goal; [lia|]. zify_bools.
  pose proof (Z.mod_pos_bound t d). lia.
Qed.

Lemma timeTruncate_lt t d : (0 < d)%Z -> (t < timeTruncate t d + d)%Z.
Proof.
  intros. unfold timeTruncate. case_goal; zify_bools; [lia|].
  pose proof (Z.mod_pos_bound t d). lia.
Qed.

(** ** Byte strings *)

#[global] Arguments String.append : simpl nomatch.

(** [strings.HasPrefix], [strings.TrimPrefix] and friends on byte strings. *)
Fixpoint HasPrefix (s p : string) : bool :=
  match p, s with
  | EmptyString, _ => true
  | String c p', String d s' => Ascii.eqb c d && HasPrefix s' p'
  | String _ _, EmptyString => false
  end.

Fixpoint drop_str (n : nat) (s : string) : string :=
  match n, s with
  | O, _ => s
  | S n', String _ s' => drop_str n' s'
  | S _, EmptyString => EmptyString
  end.

Fixpoint take_str (n : nat) (s : string) : string :=
  match n, s with
  | S n', String c s' => String c (take_str n' s')
  | _, _ => EmptyString
  end.

Definition TrimPrefix (s p : string) : string :=
  if HasPrefix s p then drop_str (String.length p) s else s.

Definition HasSuffix (s p : string) : bool :=
  (String.length p <=? String.length s)%nat
  && String.eqb (drop_str (String.length s - String.length p) s) p.

Definition TrimSuffix (s p : string) : string :=
  if HasSuffix s p then take_str (String.length s - String.length p) s else s.

(** [strings.Index]: the byte offset of the first occurrence of [p] in [s]. *)
Fixpoint Index (s p : string) : option nat :=
  if HasPrefix s p then Some O
  else match s with
       | EmptyString => None
       | String _ s' => S <$> Index s' p
       end.

Lemma HasPrefix_app p s : HasPrefix (p +:+ s) p = true.
Proof. induction p; simpl; [by destruct s|]. rewrite Ascii.eqb_refl. done. Qed.

Lemma drop_str_app p s : drop_str (String.length p) (p +:+ s) = s.
Proof. by induction p. Qed.

Lemma HasPrefix_split s p :
  HasPrefix s p = true -> s = p +:+ drop_str (String.length p) s.
Proof.
  revert s. induction p as [|c p IH]; intros [|d s] H; try done.
  simpl in *. apply andb_true_iff in H as [->%Ascii.eqb_eq H].
  f_equal. by apply IH.
Qed.

Lemma TrimPrefix_app p s : TrimPrefix (p +:+ s) p = s.
Proof. unfold TrimPrefix. by rewrite HasPrefix_app, drop_str_app. Qed.

Lemma string_app_assoc (a b c : string) : a +:+ (b +:+ c) = (a +:+ b) +:+ c.
Proof. induction a; simpl; by f_equal. Qed.

Lemma string_app_nil_r (a : string) : a +:+ EmptyString = a.
Proof. induction a; simpl; by f_equal. Qed.

Lemma string_app_length (a b : string) :
  String.length (a +:+ b) = (String.length a + String.length b)%nat.
Proof. induction a; simpl; by f_equal. Qed.

Lemma take_str_app p s : take_str (String.length p) (p +:+ s) = p.
Proof. induction p; simpl; by f_equal. Qed.

Lemma take_drop_str n s : take_str n s +:+ drop_str n s = s.
Proof. revert s. induction n; intros [|c s]; simpl; try done. by f_equal. Qed.

Lemma take_str_length n s :
  (n <= String.length s)%nat -> String.length (take_str n s) = n.
Proof.
  revert s. induction n; intros [|c s] H; simpl in *; try lia.
  rewrite IHn; lia.
Qed.

Lemma HasSuffix_app a p : HasSuffix (a +:+ p) p = true.
Proof.
  unfold HasSuffix. rewrite string_app_length.
  replace (String.length a + String.length p - String.length p)%nat
    with (String.length a) by lia.
  rewrite drop_str_app, String.eqb_refl, andb_true_r. apply Nat.leb_le. lia.
Qed.

Lemma TrimSuffix_app a p : TrimSuffix (a +:+ p) p = a.
Proof.
  unfold TrimSuffix. rewrite HasSuffix_app, string_app_length.
  replace (String.length a + String.length p - String.length p)%nat
    with (String.length a) by lia.
  apply take_str_app.
Qed.

(** The first occurrence splits the string around the pattern. *)
Lemma Index_Some s p z :
  Index s p = Some z -> s = take_str z s +:+ p +:+ drop_str (z + String.length p) s.
Proof.
  revert z. induction s as [|c s IH]; intros z; cbn [Index].
  - destruct p; [|done]. intros [= <-]. done.
  - destruct (HasPrefix (String c s) p) eqn:Hp.
    + intros [= <-]. by apply HasPrefix_split in Hp.
    + destruct (Index s p) as [n|] eqn:Hi; [|done].
      intros [= <-]. simpl. f_equal. by apply IH.
Qed.

#[export] Hint Rewrite HasPrefix_app TrimPrefix_app HasSuffix_app TrimSuffix_app
  string_app_nil_r string_app_length : etcdm_rw.

(** Go compares strings bytewise; [String.compare] of the Standard Library is
    that order. *)
Definition str_le (a b : string) : Prop := String.compare a b <> Gt.

#[export] Instance str_le_dec a b : Decision (str_le a b).
Proof. unfold str_le. destruct (String.compare a b); (by left) || (by right; auto) || right; congruence. Defined.

Lemma str_compare_refl a : String.compare a a = Eq.
Proof. induction a; simpl; [done|]. unfold Ascii.compare. by rewrite N.compare_refl. Qed.

#[export] Instance str_le_total : Total str_le.
Proof.
  intros a b. unfold str_le. pose proof (String.compare_antisym a b) as H.
  destruct (String.compare a b), (String.compare b a); simpl in H;
    first [left; congruence | right; congruence].
Qed.

Lemma ascii_compare_eq a b : Ascii.compare a b = Eq -> a = b.
Proof. apply Ascii.compare_eq_iff. Qed.

Lemma str_le_trans_aux a b c : str_le a b -> str_le b c -> str_le a c.
Proof.
  unfold str_le. revert b c.
  induction a as [|x a IH]; intros [|y b] [|z c]; simpl; try congruence.
  destruct (Ascii.compare x y) eqn:Hxy, (Ascii.compare y z) eqn:Hyz; try congruence.
  - apply ascii_compare_eq in Hxy as ->. rewrite Hyz. apply IH.
  - apply ascii_compare_eq in Hxy as ->. by rewrite Hyz.
  - apply ascii_compare_eq in Hyz as ->. by rewrite Hxy.
  - intros _ _. unfold Ascii.compare in *.
    assert (Ascii.N_of_ascii x < Ascii.N_of_ascii z)%N as Hxz
      by (eapply N.lt_trans; [exact Hxy|exact Hyz]).
    unfold N.lt in Hxz. by rewrite Hxz.
Qed.

#[export] Instance str_le_trans : Transitive str_le.
Proof. intros ???. apply str_le_trans_aux. Qed.

#[export] Instance str_le_preorder : PreOrder str_le.
Proof. split; [|apply _]. intros a. unfold str_le. by rewrite str_compare_refl. Qed.

Lemma str_le_antisym a b : str_le a b -> str_le b a -> a = b.
Proof.
  unfold str_le. pose proof (String.compare_antisym a b) as H.
  destruct (String.compare a b) eqn:Hab, (String.compare b a); simpl in H; try congruence.
  intros _ _. by apply String.compare_eq_iff.
Qed.

#[export] Instance str_le_partial : AntiSymm (=) str_le.
Proof. intros ??. apply str_le_antisym. Qed.

(** ** Sorting *)

(** A stable sort by a key relation: the result of Go's [sort.SliceStable] is
    determined by the relation, so any stable algorithm computes it. *)
Section StableSort.
Context {A : Type} (R : relation A) `{!forall x y, Decision (R x y)}.

Fixpoint insert_sorted (x : A) (l : list A) : list A :=
  match l with
  | [] => [x]
  | y :: l' => if decide (R x y) then x :: l else y :: insert_sorted x l'
  end.

Fixpoint stable_sort (l : list A) : list A :=
  match l with
  | [] => []
  | x :: l' => insert_sorted x (stable_sort l')
  end.

Lemma insert_sorted_perm x l : insert_sorted x l ≡ₚ x :: l.
Proof.
  induction l as [|y l IH]; simpl; [done|].
  case_decide; [done|]. rewrite IH. apply Permutation_swap.
Qed.

Lemma stable_sort_perm l : stable_sort l ≡ₚ l.
Proof. induction l as [|x l IH]; simpl; [done|]. by rewrite insert_sorted_perm, IH. Qed.

Lemma insert_sorted_sorted `{!Total R} x l :
  Sorted R l -> Sorted R (insert_sorted x l).
Proof.
  induction 1 as [|y l Hs IH Hy]; simpl; [by repeat constructor|].
  case_decide; [by repeat constructor|].
  destruct (total R x y) as [?|Hyx]; [done|]. constructor; [done|].
  destruct Hy as [|z l Hz]; simpl; [by constructor|].
  case_decide; by constructor.
Qed.

Lemma stable_sort_sorted `{!Total R} l : Sorted R (stable_sort l).
Proof. induction l; simpl; [constructor|by apply insert_sorted_sorted]. Qed.

(** The head of a sorted list is below every element. *)
Lemma sorted_head_le `{!PreOrder R} x l y :
  Sorted R (x :: l) -> y ∈ x :: l -> R x y.
Proof.
  intros Hs Hy. apply Sorted_StronglySorted in Hs; [|apply _].
  apply StronglySorted_inv in Hs as [_ Hall].
  apply elem_of_cons in Hy as [->|Hy]; [reflexivity|].
  rewrite Forall_forall in Hall. by apply Hall.
Qed.
End StableSort.

(** [sort.Strings]: equal strings are indistinguishable, so the result is
    unique. *)
Definition sort_strings (l : list string) : list string := stable_sort str_le l.

Lemma sort_strings_unique l l' : l ≡ₚ l' -> sort_strings l = sort_strings l'.
Proof.
  intros H. unfold sort_strings.
  apply (Sorted_unique str_le); auto using stable_sort_sorted with typeclass_instances.
  by rewrite !stable_sort_perm.
Qed.

(** ** Iteration order of Go maps

    A [range] over a map visits its entries in an order chosen at run time.
    The order is represented by a list of numbers (a Lehmer code); [shuffle]
    turns a code into a permutation, and every permutation has a code. *)

Fixpoint insert_at {A} (n : nat) (x : A) (l : list A) : list A :=
  match n, l with
  | S n', y :: l' => y :: insert_at n' x l'
  | _, _ => x :: l
  end.

Fixpoint shuffle {A} (code : list nat) (l : list A) : list A :=
  match l with
  | [] => []
  | x :: l' => insert_at (hd O code) x (shuffle (tl code) l')
  end.

Lemma insert_at_perm {A} n (x : A) l : insert_at n x l ≡ₚ x :: l.
Proof.
  revert l. induction n as [|n IH]; intros [|y l]; simpl; try done.
  rewrite IH. apply Permutation_swap.
Qed.

Lemma shuffle_perm {A} code (l : list A) : shuffle code l ≡ₚ l.
Proof.
  revert code. induction l as [|x l IH]; intros code; simpl; [done|].
  by rewrite insert_at_perm, IH.
Qed.

Lemma insert_at_middle {A} (x : A) l1 l2 : insert_at (length l1) x (l1 ++ l2) = l1 ++ x :: l2.
Proof. induction l1; simpl; [by destruct l2|by f_equal]. Qed.

(** Every order of the entries is the result of some code. *)
Lemma shuffle_complete {A} (l l' : list A) : l ≡ₚ l' -> exists code, shuffle code l = l'.
Proof.
  revert l'. induction l as [|x l IH]; intros l' H.
  - apply Permutation_nil in H as ->. by exists [].
  - destruct (Permutation_cons_inv_l _ _ _ H) as (l1 & l2 & -> & Hp).
    destruct (IH _ Hp) as [code Hc].
    exists (length l1 :: code). simpl. rewrite Hc. apply insert_at_middle.
Qed.

Lemma elem_of_shuffle {A} code (l : list A) x : x ∈ shuffle code l <-> x ∈ l.
Proof. by rewrite shuffle_perm. Qed.

Lemma length_shuffle {A} code (l : list A) : length (shuffle code l) = length l.
Proof. apply Permutation_length, shuffle_perm. Qed.

(** The default code leaves the list as it is. *)
Lemma shuffle_nil {A} (l : list A) : shuffle [] l = l.
Proof. induction l as [|x l IH]; simpl; [done|by rewrite IH]. Qed.

#[export] Hint Resolve shuffle_perm stable_sort_perm stable_sort_sorted : etcdm.

(** ** Lists *)

(** The last element that satisfies a test, as a loop that overwrites a
    variable computes it. *)
Fixpoint find_last {A} (f : A -> bool) (l : list A) : option A :=
  match l with
  | [] => None
  | x :: l' => match find_last f l' with
               | Some y => Some y
               | None => if f x then Some x else None
               end
  end.

Lemma find_last_Some {A} (f : A -> bool) l x :
  find_last f l = Some x -> x ∈ l /\ f x = true.
Proof.
  revert x. induction l as [|y l IH]; intros x; simpl; [done|].
  destruct (find_last f l) as [z|].
  - intros [= <-]. destruct (IH z eq_refl). split; [by right|done].
  - destruct (f y) eqn:Hf; [|done]. intros [= <-]. split; [by left|done].
Qed.

Lemma find_last_None {A} (f : A -> bool) l :
  find_last f l = None <-> Forall (fun x => f x = false) l.
Proof.
  induction l as [|y l IH]; simpl; [by split; [constructor|]|].
  rewrite Forall_cons, <- IH. destruct (find_last f l), (f y); naive_solver.
Qed.
