(* ===== verification/Effects.v ===== *)
(** * Effectful programs

    The programs of this repository talk to peers, to etcd, to a file store and
    to the clock.  An operation is modelled as a [prog]: a tree that asks its
    environment a question (an operation of a signature) and continues with the
    answer.  Nothing is assumed about the answers, so a theorem about a [prog]
    holds for every behaviour of the network, of the peers and of the disk.

    - [prog], [bind], [M]: the tree, its monad, and its combination with the
      mutable state of a component (stdpp's [x ← m; k] notation applies);
    - [for_each], [repeat_until]: Go's [for] loops, with [continue], [break] and
      [return] as values;
    - [wp]: what holds of the trace and the outcome of every execution;
    - [exec]: execution against a stateful handler, used by the witnesses and
      to connect a client with the component that serves it. *)

From stdpp Require Import base gmap sets list strings.
From S2P Require Import Prelude.

(** ** Errors *)

(** An [error] value is represented by the (format) text it is built from. *)
Definition error := string.

Inductive result (T : Type) : Type :=
| Ok (t : T)
| Err (e : error).
Arguments Ok {_} _.
Arguments Err {_} _.

Definition is_ok {T} (r : result T) : bool :=
  match r with Ok _ => true | Err _ => false end.

#[export] Instance result_eq_dec {T} `{EqDecision T} : EqDecision (result T).
Proof. solve_decision. Defined.

(** How an execution can end without returning: [klog.Fatalf] exits the
    process, a nil dereference or [panic] aborts it, and a loop with a bound on
    its iterations can reach the bound. *)
Inductive crash : Type :=
| Fatal (msg : string)
| NilDeref (what : string)
| OutOfFuel.

(** ** Signatures and programs *)

Record sig : Type := Sig { op : Type; res : op -> Type }.
Arguments res {_} _.

Inductive outcome (A : Type) : Type :=
| Done (a : A)
| Crashed (c : crash).
Arguments Done {_} _.
Arguments Crashed {_} _.

Inductive prog (Σ : sig) (A : Type) : Type :=
| Ret (a : A)
| Crash (c : crash)
| Vis (e : op Σ) (k : res e -> prog Σ A).
Arguments Ret {_ _} _.
Arguments Crash {_ _} _.
Arguments Vis {_ _} _ _.

Fixpoint bind {Σ A B} (p : prog Σ A) (f : A -> prog Σ B) : prog Σ B :=
  match p with
  | Ret a => f a
  | Crash c => Crash c
  | Vis e k => Vis e (fun r => bind (k r) f)
  end.

(** Programs that also read and write the mutable state [S] of a component. *)
Definition M (Σ : sig) (S A : Type) : Type := S -> prog Σ (A * S).

#[export] Instance M_ret {Σ S} : MRet (M Σ S) := fun A a s => Ret (a, s).
#[export] Instance M_bind {Σ S} : MBind (M Σ S) :=
  fun A B f m s => bind (m s) (fun '(a, s') => f a s').

Definition call {Σ S} (e : op Σ) : M Σ S (res e) := fun s => Vis e (fun r => Ret (r, s)).
Definition get {Σ S} : M Σ S S := fun s => Ret (s, s).
Definition put {Σ S} (s' : S) : M Σ S unit := fun _ => Ret (tt, s').
Definition modify {Σ S} (f : S -> S) : M Σ S unit := fun s => Ret (tt, f s).
Definition die {Σ S A} (c : crash) : M Σ S A := fun _ => Crash c.

(** Run an operation of a sub-object held in a field of the state. *)
Definition zoom {Σ S T A} (g : S -> T) (u : T -> S -> S) (m : M Σ T A) : M Σ S A :=
  fun s => bind (m (g s)) (fun '(a, t) => Ret (a, u t s)).

(** The state of a pure transition. *)
Definition lift_state {Σ S A} (f : S -> A * S) : M Σ S A := fun s => Ret (f s).

(** A dereference of a pointer that may be nil. *)
Definition deref {Σ S A} (what : string) (p : option A) : M Σ S A :=
  match p with Some a => mret a | None => die (NilDeref what) end.

(** ** Loops *)

(** The body of a loop answers [inl acc] to go on with the variables [acc]
    ([continue] or the end of the body) and [inr r] to leave the loop. *)
Fixpoint for_each {Σ S A B R} (xs : list A) (acc : B)
    (body : A -> B -> M Σ S (B + R)) : M Σ S (B + R) :=
  match xs with
  | [] => mret (inl acc)
  | x :: xs' =>
      r ← body x acc;
      match r with
      | inl acc' => for_each xs' acc' body
      | inr r' => mret (inr r')
      end
  end.

(** A loop whose body never leaves it early. *)
Fixpoint for_fold {Σ S A B} (xs : list A) (acc : B) (body : A -> B -> M Σ S B) : M Σ S B :=
  match xs with
  | [] => mret acc
  | x :: xs' => acc' ← body x acc; for_fold xs' acc' body
  end.

(** A [for] with no bound, run at most [fuel] times. *)
Fixpoint repeat_until {Σ S R} (fuel : nat) (body : M Σ S (option R)) : M Σ S R :=
  match fuel with
  | O => die OutOfFuel
  | S fuel' =>
      r ← body;
      match r with
      | Some r' => mret r'
      | None => repeat_until fuel' body
      end
  end.

(** ** Signatures with a clock and with map iteration *)

Class HasRange (Σ : sig) := {
  range_op : op Σ;
  range_code : res range_op -> list nat;
}.

Class HasNow (Σ : sig) := {
  now_op : op Σ;
  now_time : res now_op -> time;
}.

(** [for k, v := range m]: the entries of [m], in the order of this run. *)
Definition range {Σ S V} `{!HasRange Σ} (m : gmap string V) : M Σ S (list (string * V)) :=
  c ← call range_op; mret (shuffle (range_code c) (map_to_list m)).

(** [time.Now()] *)
Definition now {Σ S} `{!HasNow Σ} : M Σ S time :=
  r ← call now_op; mret (now_time r).

(** ** Traces *)

(** One exchange with the environment: an operation and its answer. *)
Definition exchange (Σ : sig) : Type := { e : op Σ & res e }.
Abbreviation trace Σ := (list (exchange Σ)).
Definition asked {Σ} (x : exchange Σ) : op Σ := projT1 x.

(** [guarded P G t]: every exchange of [t] that satisfies [P] comes after a
    prefix that satisfies [G]. *)
Definition guarded {Σ} (P : exchange Σ -> Prop) (G : trace Σ -> Prop) (t : trace Σ) : Prop :=
  forall t1 x t2, t = t1 ++ x :: t2 -> P x -> G t1.

(** ** Weakest preconditions over every environment *)

Fixpoint wp {Σ A} (p : prog Σ A) (Q : trace Σ -> outcome A -> Prop) : Prop :=
  match p with
  | Ret a => Q [] (Done a)
  | Crash c => Q [] (Crashed c)
  | Vis e k => forall r : res e, wp (k r) (fun t o => Q (existT e r :: t) o)
  end.

Lemma wp_mono {Σ A} (p : prog Σ A) (Q Q' : trace Σ -> outcome A -> Prop) :
  wp p Q -> (forall t o, Q t o -> Q' t o) -> wp p Q'.
Proof.
  revert Q Q'. induction p as [a|c|e k IH]; simpl; intros Q Q' Hp HQ; eauto.
Qed.

Lemma wp_bind {Σ A B} (p : prog Σ A) (f : A -> prog Σ B) Q :
  wp p (fun t o => match o with
                   | Done a => wp (f a) (fun t' o' => Q (t ++ t') o')
                   | Crashed c => Q t (Crashed c)
                   end) ->
  wp (bind p f) Q.
Proof.
  revert Q. induction p as [a|c|e k IH]; simpl; intros Q Hp; auto.
Qed.

Lemma wp_any {Σ A} (p : prog Σ A) (Q : trace Σ -> outcome A -> Prop) :
  (forall t o, Q t o) -> wp p Q.
Proof. revert Q. induction p as [a|c|e k IH]; simpl; intros Q H; auto. Qed.

Lemma wp_conj {Σ A} (p : prog Σ A) Q Q' :
  wp p Q -> wp p Q' -> wp p (fun t o => Q t o /\ Q' t o).
Proof.
  revert Q Q'. induction p as [a|c|e k IH]; simpl; intros Q Q' H H'; auto.
Qed.

(** ** Executions as a relation *)

(** [runs p t o]: some environment makes [p] exchange [t] and end with [o]. *)
Inductive runs {Σ A} : prog Σ A -> trace Σ -> outcome A -> Prop :=
| runs_ret a : runs (Ret a) [] (Done a)
| runs_crash c : runs (Crash c) [] (Crashed c)
| runs_vis e k r t o : runs (k r) t o -> runs (Vis e k) (existT e r :: t) o.

Lemma wp_runs {Σ A} (p : prog Σ A) Q t o : runs p t o -> wp p Q -> Q t o.
Proof.
  intros H. revert Q. induction H as [a|c|e k r t o _ IH]; simpl; intros Q Hp; auto.
  apply (IH (fun t o => Q (existT e r :: t) o)). apply Hp.
Qed.

(** What the first step of an execution was. *)
Lemma runs_inv {Σ A} (p : prog Σ A) t o :
  runs p t o ->
  match p with
  | Ret a => t = [] /\ o = Done a
  | Crash c => t = [] /\ o = Crashed c
  | Vis e k => exists r t', t = existT e r :: t' /\ runs (k r) t' o
  end.
Proof. intros []; eauto. Qed.

(** An execution of a composition is an execution of each part. *)
Lemma runs_bind {Σ A B} (p : prog Σ A) (f : A -> prog Σ B) t o :
  runs (bind p f) t o <->
  (exists t1 a t2, t = t1 ++ t2 /\ runs p t1 (Done a) /\ runs (f a) t2 o) \/
  (exists c, runs p t (Crashed c) /\ o = Crashed c).
Proof.
  revert t. induction p as [a|c|e k IH]; intros t; simpl; split.
  - intros H. left. exists [], a, t. split; [done|]. split; [constructor|done].
  - intros [(t1 & a' & t2 & -> & H1 & H2)|(c & H & _)]; [|by apply runs_inv in H as [??]].
    apply runs_inv in H1 as [-> [= ->]]. done.
  - intros [-> ->]%runs_inv. right. eexists. split; [constructor|done].
  - intros [(t1 & a' & t2 & -> & H1 & H2)|(c' & H & ->)]; [by apply runs_inv in H1 as [??]|].
    apply runs_inv in H as [-> [= ->]]. constructor.
  - intros (r & t' & -> & H)%runs_inv. apply IH in H as [(t1 & a & t2 & -> & H1 & H2)|(c & Hc & ->)].
    + left. exists (existT e r :: t1), a, t2. split; [done|]. split; [by constructor|done].
    + right. exists c. split; [by constructor|done].
  - intros [(t1 & a & t2 & -> & H1 & H2)|(c & H & ->)].
    + apply runs_inv in H1 as (r & t' & -> & H1). simpl. constructor. apply IH. left. by exists t', a, t2.
    + apply runs_inv in H as (r & t' & -> & H). constructor. apply IH. right. by exists c.
Qed.

Lemma runs_assoc {Σ A B C} (p : prog Σ A) (f : A -> prog Σ B) (g : B -> prog Σ C) t o :
  runs (bind (bind p f) g) t o <-> runs (bind p (fun a => bind (f a) g)) t o.
Proof.
  revert t. induction p as [a|c|e k IH]; intros t; [done|done|]. simpl.
  split; intros (r & t' & -> & H)%runs_inv; constructor; by apply IH.
Qed.

Lemma runs_seq {Σ S A B} (m : M Σ S A) (f : A -> M Σ S B) s t b s' :
  runs ((m ≫= f) s) t (Done (b, s')) ->
  exists t1 a s1 t2, t = t1 ++ t2 /\ runs (m s) t1 (Done (a, s1)) /\ runs (f a s1) t2 (Done (b, s')).
Proof.
  intros H. apply runs_bind in H as [(t1 & [a s1] & t2 & -> & H1 & H2)|(c & _ & [=])]. by exists t1, a, s1, t2.
Qed.

(** ** Execution against a handler *)

(** A handler answers each question from (and updates) a world [W]. *)
Definition handler (Σ : sig) (W : Type) : Type := forall e : op Σ, W -> res e * W.

Fixpoint exec {Σ W A} (h : handler Σ W) (p : prog Σ A) (w : W) : trace Σ * outcome A * W :=
  match p with
  | Ret a => ([], Done a, w)
  | Crash c => ([], Crashed c, w)
  | Vis e k =>
      let '(r, w') := h e w in
      let '(t, o, w'') := exec h (k r) w' in
      (existT e r :: t, o, w'')
  end.

(** What [wp] proves holds of the execution against every handler. *)
Lemma wp_exec {Σ W A} (h : handler Σ W) (p : prog Σ A) (w : W) Q :
  wp p Q -> forall t o w', exec h p w = (t, o, w') -> Q t o.
Proof.
  revert w Q. induction p as [a|c|e k IH]; simpl; intros w Q Hp t o w' He.
  - by simplify_eq.
  - by simplify_eq.
  - destruct (h e w) as [r w1] eqn:Hh.
    destruct (exec h (k r) w1) as [[t1 o1] w2] eqn:Hk. simplify_eq.
    apply (IH r w1 (fun t o => Q (existT e r :: t) o) (Hp r) t1 o w' Hk).
Qed.

(** An execution against a handler is one of the executions. *)
Lemma exec_runs {Σ W A} (h : handler Σ W) (p : prog Σ A) (w : W) :
  runs p (fst (fst (exec h p w))) (snd (fst (exec h p w))).
Proof.
  revert w. induction p as [a|c|e k IH]; simpl; intros w; [constructor..|].
  destruct (h e w) as [r w1]. specialize (IH r w1).
  destruct (exec h (k r) w1) as [[t o] w2]. by constructor.
Qed.

Definition outcome_of {Σ W A} (h : handler Σ W) (p : prog Σ A) (w : W) : outcome A :=
  snd (fst (exec h p w)).
Definition trace_of {Σ W A} (h : handler Σ W) (p : prog Σ A) (w : W) : trace Σ :=
  fst (fst (exec h p w)).

Lemma exec_runs_eq {Σ W A} (h : handler Σ W) (p : prog Σ A) (w : W) o :
  outcome_of h p w = o -> runs p (trace_of h p w) o.
Proof. intros <-. apply exec_runs. Qed.

(** The execution of a composition is the composition of the executions. *)
Lemma exec_bind {Σ W A B} (h : handler Σ W) (p : prog Σ A) (f : A -> prog Σ B) w :
  exec h (bind p f) w =
  match exec h p w with
  | (t, Done a, w1) => let '(t', o, w2) := exec h (f a) w1 in (t ++ t', o, w2)
  | (t, Crashed c, w1) => (t, Crashed c, w1)
  end.
Proof.
  revert w. induction p as [a|c|e k IH]; simpl; intros w.
  - by destruct (exec h (f a) w) as [[? ?] ?].
  - done.
  - destruct (h e w) as [r w1]. rewrite IH.
    destruct (exec h (k r) w1) as [[t [a|c]] w2]; [|done].
    by destruct (exec h (f a) w2) as [[? ?] ?].
Qed.

(** Invariants of the world that every answer preserves hold at the end. *)
Lemma exec_invariant {Σ W A} (h : handler Σ W) (I : W -> Prop) (p : prog Σ A) :
  (forall e w, I w -> I (snd (h e w))) ->
  forall w, I w -> I (snd (exec h p w)).
Proof.
  intros Hh. induction p as [a|c|e k IH]; simpl; intros w Hw; auto.
  specialize (Hh e w Hw). destruct (h e w) as [r w1]. simpl in Hh.
  specialize (IH r w1 Hh). destruct (exec h (k r) w1) as [[t o] w2]. exact IH.
Qed.

(** ** Rules for stateful programs *)

Section Rules.
Context {Σ : sig} {S : Type}.

(** After [m] from [s]: [Q] of the result, the state and the trace when it
    returns, [C] when it crashes. *)
Definition wpm {A} (m : M Σ S A) (s : S) (Q : A -> S -> trace Σ -> Prop)
    (C : crash -> trace Σ -> Prop) : Prop :=
  wp (m s) (fun t o => match o with
                       | Done (a, s') => Q a s' t
                       | Crashed c => C c t
                       end).

Lemma wpm_ret {A} (a : A) s Q C : Q a s [] -> wpm (mret a) s Q C.
Proof. done. Qed.

Lemma wpm_bind {A B} (m : M Σ S A) (f : A -> M Σ S B) s Q C :
  wpm m s (fun a s' t => wpm (f a) s' (fun b s'' t' => Q b s'' (t ++ t'))
                                      (fun c t' => C c (t ++ t'))) C ->
  wpm (m ≫= f) s Q C.
Proof.
  unfold wpm. intros H. apply wp_bind. eapply wp_mono; [exact H|].
  intros t [[a s']|c]; auto.
Qed.

Lemma wpm_mono {A} (m : M Σ S A) s (Q Q' : A -> S -> trace Σ -> Prop)
    (C C' : crash -> trace Σ -> Prop) :
  wpm m s Q C -> (forall a s' t, Q a s' t -> Q' a s' t) -> (forall c t, C c t -> C' c t) ->
  wpm m s Q' C'.
Proof.
  unfold wpm. intros H HQ HC. eapply wp_mono; [exact H|].
  intros t [[a s']|c]; auto.
Qed.

Lemma wpm_call e s (Q : res e -> S -> trace Σ -> Prop) C :
  (forall r, Q r s [existT e r]) -> wpm (call e) s Q C.
Proof. done. Qed.

Lemma wpm_get s (Q : S -> S -> trace Σ -> Prop) C : Q s s [] -> wpm get s Q C.
Proof. done. Qed.

Lemma wpm_put s s' (Q : unit -> S -> trace Σ -> Prop) C : Q tt s' [] -> wpm (put s') s Q C.
Proof. done. Qed.

Lemma wpm_modify s f (Q : unit -> S -> trace Σ -> Prop) C :
  Q tt (f s) [] -> wpm (modify f) s Q C.
Proof. done. Qed.

Lemma wpm_die {A} c s (Q : A -> S -> trace Σ -> Prop) (C : crash -> trace Σ -> Prop) :
  C c [] -> wpm (die c) s Q C.
Proof. done. Qed.

Lemma wpm_conj {A} (m : M Σ S A) s Q Q' C C' :
  wpm m s Q C -> wpm m s Q' C' ->
  wpm m s (fun a s' t => Q a s' t /\ Q' a s' t) (fun c t => C c t /\ C' c t).
Proof.
  unfold wpm. intros H H'. eapply wp_mono; [exact (wp_conj _ _ _ H H')|].
  intros t [[a s']|c]; auto.
Qed.

(** Nothing is known of the result of [m]. *)
Lemma wpm_any {A} (m : M Σ S A) s Q C :
  (forall a s' t, Q a s' t) -> (forall c t, C c t) -> wpm m s Q C.
Proof. intros HQ HC. apply wp_any. intros t [[a s']|c]; auto. Qed.

(** A loop keeps an invariant of the elements visited so far. *)
Lemma wpm_for_each {A B R} (I : list A -> B -> S -> trace Σ -> Prop)
    (Q : R -> S -> trace Σ -> Prop) (C : crash -> trace Σ -> Prop)
    (xs : list A) (body : A -> B -> M Σ S (B + R)) (done : list A) acc s t :
  I done acc s t ->
  (forall done x acc s t, I done acc s t -> x ∈ xs ->
     wpm (body x acc) s
       (fun r s' t' => match r with
                       | inl acc' => I (done ++ [x]) acc' s' (t ++ t')
                       | inr r' => Q r' s' (t ++ t')
                       end) (fun c t' => C c (t ++ t'))) ->
  wpm (for_each xs acc body) s
    (fun r s' t' => match r with
                    | inl acc' => I (done ++ xs) acc' s' (t ++ t')
                    | inr r' => Q r' s' (t ++ t')
                    end) (fun c t' => C c (t ++ t')).
Proof.
  revert done acc s t. induction xs as [|x xs IH]; intros done acc s t HI Hb; simpl.
  - apply wpm_ret. by rewrite !app_nil_r.
  - apply wpm_bind. eapply wpm_mono; [apply (Hb done x acc s t HI); by left| |done].
    intros [acc'|r'] s' t' H; simpl.
    + eapply wpm_mono; [apply (IH (done ++ [x]) acc' s' (t ++ t') H)| |].
      * intros. apply Hb; [done|by right].
      * intros [?|?] ? ? H'; simpl in H'; rewrite <- ?app_assoc in H'; exact H'.
      * intros ? ? H'. simpl in H'. rewrite <- app_assoc in H'. exact H'.
    + apply wpm_ret. by rewrite app_nil_r.
Qed.

(** The same, where the body also knows which elements come next. *)
Lemma wpm_for_each_prefix {A B R} (I : list A -> B -> S -> trace Σ -> Prop)
    (Q : R -> S -> trace Σ -> Prop) (C : crash -> trace Σ -> Prop)
    (xs : list A) (body : A -> B -> M Σ S (B + R)) acc s t :
  I [] acc s t ->
  (forall seen x rest acc s t, I seen acc s t -> xs = seen ++ x :: rest ->
     wpm (body x acc) s
       (fun r s' t' => match r with
                       | inl acc' => I (seen ++ [x]) acc' s' (t ++ t')
                       | inr r' => Q r' s' (t ++ t')
                       end) (fun c t' => C c (t ++ t'))) ->
  wpm (for_each xs acc body) s
    (fun r s' t' => match r with
                    | inl acc' => I xs acc' s' (t ++ t')
                    | inr r' => Q r' s' (t ++ t')
                    end) (fun c t' => C c (t ++ t')).
Proof.
  intros HI Hb.
  enough (forall todo seen acc s t, xs = seen ++ todo -> I seen acc s t ->
    wpm (for_each todo acc body) s
      (fun r s' t' => match r with
                      | inl acc' => I xs acc' s' (t ++ t')
                      | inr r' => Q r' s' (t ++ t')
                      end) (fun c t' => C c (t ++ t'))) as H by (by apply (H xs [])).
  clear HI acc s t. intros todo. induction todo as [|x todo IH]; intros seen acc s t E HI; simpl.
  - apply wpm_ret. rewrite app_nil_r in *. by subst.
  - apply wpm_bind. eapply wpm_mono; [by apply (Hb seen x todo acc s t HI)| |done].
    intros [acc'|r'] s' t' H; simpl.
    + eapply wpm_mono; [apply (IH (seen ++ [x]) acc' s' (t ++ t')); [by rewrite <- app_assoc|done]| |].
      * intros [?|?] ? ? H'; simpl in H'; rewrite <- ?app_assoc in H'; exact H'.
      * intros ? ? H'. simpl in H'. rewrite <- app_assoc in H'. exact H'.
    + apply wpm_ret. by rewrite app_nil_r.
Qed.

Lemma wpm_for_fold {A B} (I : list A -> B -> S -> trace Σ -> Prop)
    (C : crash -> trace Σ -> Prop)
    (xs : list A) (body : A -> B -> M Σ S B) (done : list A) acc s t :
  I done acc s t ->
  (forall done x acc s t, I done acc s t -> x ∈ xs ->
     wpm (body x acc) s (fun acc' s' t' => I (done ++ [x]) acc' s' (t ++ t'))
       (fun c t' => C c (t ++ t'))) ->
  wpm (for_fold xs acc body) s (fun acc' s' t' => I (done ++ xs) acc' s' (t ++ t'))
    (fun c t' => C c (t ++ t')).
Proof.
  revert done acc s t. induction xs as [|x xs IH]; intros done acc s t HI Hb; simpl.
  - apply wpm_ret. by rewrite !app_nil_r.
  - apply wpm_bind. eapply wpm_mono; [apply (Hb done x acc s t HI); by left| |done].
    intros acc' s' t' H; simpl.
    eapply wpm_mono; [apply (IH (done ++ [x]) acc' s' (t ++ t') H)| |].
    + intros. apply Hb; [done|by right].
    + intros ? ? ? H'. simpl in H'. rewrite <- ?app_assoc in H'. exact H'.
    + intros ? ? H'. simpl in H'. rewrite <- app_assoc in H'. exact H'.
Qed.

(** A loop that does the same to every element and leaves at the first
    failure: at its end every element was dealt with. *)
Lemma wpm_for_all {A B R} (s : S) (P : exchange Σ -> Prop) (D : A -> trace Σ -> Prop)
    (F : R -> Prop) (xs : list A) (acc : B) (body : A -> B -> M Σ S (B + R)) :
  (forall x t t', D x t -> D x (t ++ t')) -> (forall x t t', D x t' -> D x (t ++ t')) ->
  (forall x acc, x ∈ xs ->
     wpm (body x acc) s
       (fun r s' t => s' = s /\ Forall P t /\ match r with inl _ => D x t | inr e => F e end)
       (fun _ _ => False)) ->
  wpm (for_each xs acc body) s
    (fun r s' t => s' = s /\ Forall P t /\
       match r with inl _ => forall x, x ∈ xs -> D x t | inr e => F e end)
    (fun _ _ => False).
Proof.
  intros HDl HDr Hb.
  pose proof (wpm_for_each
    (fun done (_ : B) s' t => s' = s /\ Forall P t /\ forall x, x ∈ done -> D x t)
    (fun e s' t => s' = s /\ Forall P t /\ F e) (fun _ _ => False) xs body [] acc s []) as H.
  eapply wpm_mono; [apply H| |done].
  - split; [done|]. split; [constructor|]. intros x Hx. by apply elem_of_nil in Hx.
  - intros done x b s1 t (-> & Ht & Hd) Hx. eapply wpm_mono; [by apply Hb| |auto].
    intros [b'|r] s2 t' (-> & Ht' & Hx'); (split; [auto|]); rewrite Forall_app; [|auto].
    split; [auto|]. intros y [Hy|Hy%list_elem_of_singleton]%elem_of_app; [auto|].
    subst y. eauto.
  - intros [b|r] s' t H'; exact H'.
Qed.

(** ** Programs whose exchanges all belong to a class *)

Definition emits {A} (P : exchange Σ -> Prop) (m : M Σ S A) : Prop :=
  forall s, wpm m s (fun _ _ t => Forall P t) (fun _ t => Forall P t).

Lemma emits_ret {A} P (a : A) : emits P (mret a).
Proof. intros s. by apply wpm_ret. Qed.

Lemma emits_bind {A B} P (m : M Σ S A) (f : A -> M Σ S B) :
  emits P m -> (forall a, emits P (f a)) -> emits P (m ≫= f).
Proof.
  intros Hm Hf s. apply wpm_bind. eapply wpm_mono; [apply Hm| |done].
  intros a s' t Ht. eapply wpm_mono; [apply Hf| |]; simpl; intros; by apply Forall_app.
Qed.

Lemma emits_call (P : exchange Σ -> Prop) e :
  (forall r, P (existT e r)) -> emits P (call e).
Proof. intros H s. apply wpm_call. auto. Qed.

Lemma emits_get P : emits P get.
Proof. intros s. by apply wpm_get. Qed.

Lemma emits_put P s' : emits P (put s').
Proof. intros s. by apply wpm_put. Qed.

Lemma emits_modify P f : emits P (modify f).
Proof. intros s. by apply wpm_modify. Qed.

Lemma emits_lift_state {A} P (f : S -> A * S) : emits P (lift_state f).
Proof. intros s. unfold wpm, lift_state. simpl. by destruct (f s). Qed.

Lemma emits_die {A} P c : emits P (die c : M Σ S A).
Proof. intros s. by apply wpm_die. Qed.

Lemma emits_deref {A} P what (p : option A) : emits P (deref what p).
Proof. destruct p; [apply emits_ret|apply emits_die]. Qed.

Lemma emits_mono {A} (P P' : exchange Σ -> Prop) (m : M Σ S A) :
  emits P m -> (forall x, P x -> P' x) -> emits P' m.
Proof.
  intros H HP s. eapply wpm_mono; [apply H| |]; simpl; eauto using Forall_impl.
Qed.

Lemma emits_for_each {A B R} P (xs : list A) (acc : B) (body : A -> B -> M Σ S (B + R)) :
  (forall x acc, emits P (body x acc)) -> emits P (for_each xs acc body).
Proof.
  intros Hb. revert acc. induction xs as [|x xs IH]; intros acc; simpl.
  - apply emits_ret.
  - apply emits_bind; [apply Hb|]. intros [acc'|r]; [apply IH|apply emits_ret].
Qed.

Lemma emits_for_fold {A B} P (xs : list A) (acc : B) (body : A -> B -> M Σ S B) :
  (forall x acc, emits P (body x acc)) -> emits P (for_fold xs acc body).
Proof.
  intros Hb. revert acc. induction xs as [|x xs IH]; intros acc; simpl.
  - apply emits_ret.
  - apply emits_bind; [apply Hb|]. intros acc'. apply IH.
Qed.

Lemma emits_repeat_until {R} P fuel (body : M Σ S (option R)) :
  emits P body -> emits P (repeat_until fuel body).
Proof.
  intros Hb. induction fuel as [|fuel IH]; simpl; [apply emits_die|].
  apply emits_bind; [done|]. intros [r|]; [apply emits_ret|apply IH].
Qed.

Lemma emits_range {V} `{!HasRange Σ} (P : exchange Σ -> Prop) (m : gmap string V) :
  (forall r, P (existT range_op r)) -> emits P (range m).
Proof. intros H. apply emits_bind; [by apply emits_call|]. intros. apply emits_ret. Qed.

Lemma emits_now `{!HasNow Σ} (P : exchange Σ -> Prop) :
  (forall r, P (existT now_op r)) -> emits P now.
Proof. intros H. apply emits_bind; [by apply emits_call|]. intros. apply emits_ret. Qed.

(** What a client may assume of a [range] loop: some order of the entries. *)
Lemma wpm_range {V} `{!HasRange Σ} (m : gmap string V) s
    (Q : list (string * V) -> S -> trace Σ -> Prop) C :
  (forall l r, l ≡ₚ map_to_list m -> Q l s [existT range_op r]) -> wpm (range m) s Q C.
Proof.
  intros H. apply wpm_bind, wpm_call. intros r. apply wpm_ret, H, shuffle_perm.
Qed.
End Rules.

(** Step through a program: one rule per construct, a case split per
    conditional. *)
Ltac wpm_step :=
  lazymatch goal with
  | |- wpm (mret _) _ _ _ => apply wpm_ret
  | |- wpm (mbind _ _) _ _ _ => apply wpm_bind
  | |- wpm (@call ?Σ ?S ?e) ?s ?Q ?C => refine (@wpm_call Σ S e s Q C _); intros ?
  | |- wpm get _ _ _ => apply wpm_get
  | |- wpm (put _) _ _ _ => apply wpm_put
  | |- wpm (modify _) _ _ _ => apply wpm_modify
  | |- wpm (die _) _ _ _ => apply wpm_die
  | |- wpm now _ _ _ => unfold now
  | |- wpm (deref _ _) _ _ _ => unfold deref
  | |- wpm (range _) _ _ _ => apply wpm_range; intros ? ? ?
  | |- wpm (match ?x with _ => _ end) _ _ _ => destruct x eqn:?
  end.

Ltac wpm_steps := repeat (wpm_step; simpl).

Lemma emits_zoom {Σ S T A} P (g : S -> T) u (m : M Σ T A) : emits P m -> emits P (zoom g u m).
Proof.
  intros H s. unfold wpm, zoom. apply wp_bind. eapply wp_mono; [apply (H (g s))|].
  intros t [[a t']|c] Ht; simpl; [by rewrite app_nil_r|done].
Qed.

#[export] Hint Resolve emits_ret emits_get emits_put emits_modify emits_lift_state
  emits_die emits_deref emits_zoom : etcdm.

(** Structural proof of [emits]: follow the program text, splitting on its
    conditionals; lemmas of the called operations come from the hint database
    [emits_db]. *)
Create HintDb emits_db.

Ltac emits_step :=
  match goal with
  | |- emits _ (mret _) => apply emits_ret
  | |- emits _ (_ ≫= _) => apply emits_bind; [|intros]
  | |- emits _ (mbind _ _) => apply emits_bind; [|intros]
  | |- emits ?P (@call ?Σ ?S ?e) => refine (@emits_call Σ S P e _); intros
  | |- emits _ get => apply emits_get
  | |- emits _ (put _) => apply emits_put
  | |- emits _ (modify _) => apply emits_modify
  | |- emits _ (lift_state _) => apply emits_lift_state
  | |- emits _ (die _) => apply emits_die
  | |- emits _ (deref _ _) => apply emits_deref
  | |- emits _ (zoom _ _ _) => apply emits_zoom
  | |- emits _ (range _) => apply emits_range; intros
  | |- emits _ now => apply emits_now; intros
  | |- emits _ (for_each _ _ _) => apply emits_for_each; intros
  | |- emits _ (for_fold _ _ _) => apply emits_for_fold; intros
  | |- emits _ (repeat_until _ _) => apply emits_repeat_until
  | |- emits _ (match ?x with _ => _ end) => destruct x
  | |- emits _ (let '_ := ?x in _) => destruct x
  end.

Ltac emits_solve := repeat (first [solve [eauto with emits_db] | emits_step]).

(** ** Triples: an invariant of the state, a class of exchanges, a property of
    the result and the crashes that can happen *)

Section Triples.
Context {Σ : sig} {S : Type}.
Context (I : S -> Prop) (P : exchange Σ -> Prop) (C : crash -> Prop).

Definition hoare {A} (R : A -> Prop) (m : M Σ S A) : Prop :=
  forall s, I s ->
    wpm m s (fun a s' t => I s' /\ Forall P t /\ R a) (fun c t => Forall P t /\ C c).

Lemma hoare_ret {A} (R : A -> Prop) a : R a -> hoare R (mret a).
Proof. intros H s Hs. apply wpm_ret. auto. Qed.

Lemma hoare_bind {A B} (R1 : A -> Prop) (R : B -> Prop) (m : M Σ S A) (f : A -> M Σ S B) :
  hoare R1 m -> (forall a, R1 a -> hoare R (f a)) -> hoare R (m ≫= f).
Proof.
  intros Hm Hf s Hs. apply wpm_bind. eapply wpm_mono; [by apply Hm| |done].
  intros a s' t (Hs' & Ht & Ha). eapply wpm_mono; [by apply (Hf a Ha)| |]; simpl.
  - intros b s'' t' (? & ? & ?). by rewrite Forall_app.
  - intros c t' (? & ?). by rewrite Forall_app.
Qed.

Lemma hoare_mono {A} (R R' : A -> Prop) (m : M Σ S A) :
  hoare R m -> (forall a, R a -> R' a) -> hoare R' m.
Proof. intros H HR s Hs. eapply wpm_mono; [by apply H| |]; simpl; naive_solver. Qed.

Lemma hoare_call (e : op Σ) (R : res e -> Prop) :
  (forall r, P (existT e r)) -> (forall r, R r) -> hoare R (call e).
Proof. intros HP HR s Hs. apply wpm_call. intros r. repeat constructor; auto. Qed.

Lemma hoare_get : hoare I get.
Proof. intros s Hs. apply wpm_get. auto. Qed.

Lemma hoare_modify (R : unit -> Prop) f : (forall s, I s -> I (f s)) -> R tt -> hoare R (modify f).
Proof. intros Hf HR s Hs. apply wpm_modify. auto. Qed.

Lemma hoare_die {A} (R : A -> Prop) c : C c -> hoare R (die c).
Proof. intros Hc s Hs. apply wpm_die. auto. Qed.

Lemma hoare_deref {A} (R : A -> Prop) what (p : option A) :
  (forall a, p = Some a -> R a) -> (p = None -> C (NilDeref what)) -> hoare R (deref what p).
Proof. destruct p; simpl; intros H1 H2; [apply hoare_ret|apply hoare_die]; auto. Qed.

(** Loops with an invariant of the elements visited so far. *)
Lemma hoare_for_each_seen {A B T} (J : list A -> B -> Prop) (R : T -> Prop) (xs seen : list A)
    (acc : B) (body : A -> B -> M Σ S (B + T)) :
  J seen acc ->
  (forall seen x acc, x ∈ xs -> J seen acc ->
     hoare (fun r => match r with inl b => J (seen ++ [x]) b | inr t => R t end) (body x acc)) ->
  hoare (fun r => match r with inl b => J (seen ++ xs) b | inr t => R t end)
    (for_each xs acc body).
Proof.
  revert seen acc. induction xs as [|x xs IH]; intros seen acc HJ Hb; simpl.
  { apply hoare_ret. by rewrite app_nil_r. }
  eapply hoare_bind; [apply Hb; [by left|exact HJ]|]. intros [b|t] Hr; [|by apply hoare_ret].
  eapply hoare_mono; [apply (IH (seen ++ [x])); [done|]|].
  - intros. apply Hb; [by right|done].
  - intros [b'|t] H; [by rewrite <- app_assoc in H|done].
Qed.

Lemma hoare_for_each {A B T} (J : B -> Prop) (R : T -> Prop) (xs : list A) (acc : B)
    (body : A -> B -> M Σ S (B + T)) :
  J acc ->
  (forall x acc, x ∈ xs -> J acc ->
     hoare (fun r => match r with inl b => J b | inr t => R t end) (body x acc)) ->
  hoare (fun r => match r with inl b => J b | inr t => R t end) (for_each xs acc body).
Proof. intros HJ Hb. apply (hoare_for_each_seen (fun _ => J) R xs []); auto. Qed.

Lemma hoare_for_fold_seen {A B} (J : list A -> B -> Prop) (xs seen : list A) (acc : B)
    (body : A -> B -> M Σ S B) :
  J seen acc ->
  (forall seen x acc, x ∈ xs -> J seen acc -> hoare (J (seen ++ [x])) (body x acc)) ->
  hoare (J (seen ++ xs)) (for_fold xs acc body).
Proof.
  revert seen acc. induction xs as [|x xs IH]; intros seen acc HJ Hb; simpl.
  { apply hoare_ret. by rewrite app_nil_r. }
  eapply hoare_bind; [apply Hb; [by left|exact HJ]|]. intros b Hr.
  eapply hoare_mono; [apply (IH (seen ++ [x])); [done|]|].
  - intros. apply Hb; [by right|done].
  - intros b' H. by rewrite <- app_assoc in H.
Qed.

Lemma hoare_for_fold {A B} (J : B -> Prop) (xs : list A) (acc : B) (body : A -> B -> M Σ S B) :
  J acc -> (forall x acc, x ∈ xs -> J acc -> hoare J (body x acc)) ->
  hoare J (for_fold xs acc body).
Proof. intros HJ Hb. apply (hoare_for_fold_seen (fun _ => J) xs []); auto. Qed.

(** Loops about whose variables nothing is said. *)
Lemma hoare_for_each_any {A B T} (xs : list A) (acc : B) (body : A -> B -> M Σ S (B + T)) :
  (forall x acc, x ∈ xs -> hoare (fun _ => True) (body x acc)) ->
  hoare (fun _ => True) (for_each xs acc body).
Proof.
  intros Hb. eapply hoare_mono; [apply (hoare_for_each (fun _ => True) (fun _ => True))|done];
    [done|]. intros x a Hx _. eapply hoare_mono; [by apply Hb|]. by intros [?|?].
Qed.

Lemma hoare_repeat_until {T} (R : T -> Prop) fuel (body : M Σ S (option T)) :
  C OutOfFuel -> hoare (fun r => match r with Some t => R t | None => True end) body ->
  hoare R (repeat_until fuel body).
Proof.
  intros HC Hb. induction fuel as [|fuel IH]; simpl; [by apply hoare_die|].
  eapply hoare_bind; [exact Hb|]. intros [t|] Hr; [by apply hoare_ret|done].
Qed.

Lemma hoare_range {V} `{!HasRange Σ} (m : gmap string V) :
  (forall r, P (existT range_op r)) -> hoare (fun l => l ≡ₚ map_to_list m) (range m).
Proof.
  intros HP s Hs. apply wpm_range. intros l r Hl. split; [done|]. split; [|done].
  repeat constructor. apply HP.
Qed.

Lemma hoare_now `{!HasNow Σ} (R : time -> Prop) :
  (forall r, P (existT now_op r)) -> (forall t, R t) -> hoare R now.
Proof.
  intros HP HR. apply (hoare_bind (fun _ => True)); [by apply hoare_call|].
  intros a _. by apply hoare_ret.
Qed.

(** A program that only emits exchanges of [P], does not touch the state and
    does not crash keeps every invariant. *)
Lemma hoare_pure_state {A} (R : A -> Prop) (m : M Σ S A) :
  (forall s, wpm m s (fun a s' t => s' = s /\ Forall P t /\ R a) (fun _ _ => False)) ->
  hoare R m.
Proof.
  intros H s Hs. eapply wpm_mono; [apply H| |done]. intros a s' t (-> & Ht & Ha). auto.
Qed.

Lemma hoare_runs {A} (R : A -> Prop) (m : M Σ S A) s t a s' :
  hoare R m -> I s -> runs (m s) t (Done (a, s')) -> I s' /\ Forall P t /\ R a.
Proof. intros Hm Hs Hr. exact (wp_runs _ _ _ _ Hr (Hm s Hs)). Qed.
End Triples.

Create HintDb hoare_db.

(** Follow the program text; [hoare_db] has the triples of called operations. *)
Ltac hoare_intro :=
  let H := fresh in intros ? H; cbv beta in H;
  try match type of H with ?x = _ => is_var x; subst x end.

Ltac hoare_bind_step :=
  first [ eapply hoare_bind; [solve [eauto with hoare_db]|hoare_intro]
        | apply (hoare_bind _ _ _ (fun _ => True)); [|intros ? _] ].

Ltac hoare_step :=
  match goal with
  | |- hoare _ _ _ _ (mret _) => apply hoare_ret
  | |- hoare _ _ _ _ (range _ ≫= _) => eapply hoare_bind; [apply hoare_range; intros|hoare_intro]
  | |- hoare _ _ _ _ (get ≫= _) => eapply hoare_bind; [apply hoare_get|hoare_intro]
  | |- hoare _ _ _ _ (_ ≫= _) => hoare_bind_step
  | |- hoare _ _ _ _ (mbind _ _) => hoare_bind_step
  | |- hoare ?I ?P ?C ?R (@call ?Σ ?S ?e) => refine (@hoare_call Σ S I P C e R _ _); intros
  | |- hoare _ _ _ _ (modify _) => apply hoare_modify; [intros|]
  | |- hoare _ _ _ _ (die _) => apply hoare_die
  | |- hoare _ _ _ _ now => apply hoare_now; intros
  | |- hoare _ _ _ (fun _ => True) (for_each _ _ _) => apply hoare_for_each_any; intros
  | |- hoare _ _ _ (fun _ => True) (for_fold _ _ _) =>
      apply (hoare_for_fold _ _ _ (fun _ => True)); [done|intros]
  | |- hoare _ _ _ _ (match ?x with _ => _ end) => destruct x eqn:?
  end.

Ltac hoare_solve :=
  repeat (first [solve [eauto with hoare_db] | hoare_step | progress intros | done]).

(** ** Traces: lemmas *)

Lemma guarded_Forall {Σ} (P : exchange Σ -> Prop) G t : Forall (fun x => ~ P x) t -> guarded P G t.
Proof.
  intros H t1 x t2 -> Hx. rewrite Forall_app, Forall_cons in H. naive_solver.
Qed.

Lemma guarded_nil {Σ} (P : exchange Σ -> Prop) G : guarded P G [].
Proof. apply guarded_Forall. constructor. Qed.

(** Appending to a guarded trace: the new part is guarded knowing the old. *)
Lemma guarded_app {Σ} (P : exchange Σ -> Prop) (G : trace Σ -> Prop) t t' :
  guarded P G t -> guarded P (fun t1 => G (t ++ t1)) t' -> guarded P G (t ++ t').
Proof.
  intros H H' t1 x t2 Heq Hx.
  destruct (decide (length t <= length t1)) as [Hle|Hlt].
  - assert (t1 = t ++ drop (length t) t1) as Ht1.
    { rewrite <- (take_drop (length t) t1) at 1. f_equal.
      apply (f_equal (take (length t))) in Heq.
      rewrite take_app_length, take_app_le in Heq by lia. done. }
    rewrite Ht1 in Heq |- *. rewrite <- app_assoc in Heq. simplify_list_eq.
    eapply H'; done.
  - assert (take (S (length t1)) t = t1 ++ [x]) as Ht.
    { apply (f_equal (take (S (length t1)))) in Heq.
      rewrite take_app_le in Heq by lia. rewrite Heq.
      rewrite take_app_ge by lia. by replace (S (length t1) - length t1) with 1 by lia. }
    apply (H t1 x (drop (S (length t1)) t)); [|done].
    rewrite <- (take_drop (S (length t1)) t) at 1. rewrite Ht. by rewrite <- app_assoc.
Qed.

Lemma guarded_mono {Σ} (P : exchange Σ -> Prop) (G G' : trace Σ -> Prop) t :
  guarded P G t -> (forall t1, G t1 -> G' t1) -> guarded P G' t.
Proof. intros H HG t1 x t2 Heq Hx. eauto. Qed.

(** A guard that holds already covers everything that follows. *)
Lemma guarded_const {Σ} (P : exchange Σ -> Prop) (G : trace Σ -> Prop) t :
  (forall t1, G t1) -> guarded P G t.
Proof. intros H t1 x t2 _ _. apply H. Qed.

(** ** Guarded exchanges, program by program *)

Section GuardedPrograms.
Context {Σ : sig} {S : Type}.
Context (P : exchange Σ -> Prop) (G : trace Σ -> Prop).
Hypothesis G_app : forall t t', G t' -> G (t ++ t').

(** Every exchange of [P] comes after a prefix of [G]. *)
Definition gd {A} (m : M Σ S A) : Prop :=
  forall s, wpm m s (fun _ _ t => guarded P G t) (fun _ t => guarded P G t).

Lemma gd_emits {A} (m : M Σ S A) : emits (fun x => ~ P x) m -> gd m.
Proof.
  intros H s. eapply wpm_mono; [apply H| |]; simpl; intros; by apply guarded_Forall.
Qed.

Lemma gd_bind {A B} (m : M Σ S A) (f : A -> M Σ S B) :
  emits (fun x => ~ P x) m -> (forall a, gd (f a)) -> gd (m ≫= f).
Proof.
  intros Hm Hf s. apply wpm_bind. eapply wpm_mono; [apply Hm| |].
  - intros a s' t Ht. eapply wpm_mono; [apply Hf| |]; simpl; intros;
      (apply guarded_app; [by apply guarded_Forall|eapply guarded_mono; eauto]).
  - intros c t Ht. by apply guarded_Forall.
Qed.

(** Once the guard is met, anything may follow. *)
Lemma gd_bind_met {A B} (ok : A -> Prop) (m : M Σ S A) (f : A -> M Σ S B) :
  (forall t t', G t -> G (t ++ t')) ->
  (forall s, wpm m s (fun a _ t => Forall (fun x => ~ P x) t /\ (ok a -> G t))
                     (fun _ t => Forall (fun x => ~ P x) t)) ->
  (forall a, ok a \/ gd (f a)) -> gd (m ≫= f).
Proof.
  intros Hext Hm Hf s. apply wpm_bind. eapply wpm_mono; [apply Hm| |].
  - intros a s' t [Ht Hok]. destruct (Hf a) as [Ha|Ha].
    + apply wpm_any; intros; (apply guarded_app; [by apply guarded_Forall|]);
        apply guarded_const; auto.
    + eapply wpm_mono; [apply Ha| |]; simpl; intros;
        (apply guarded_app; [by apply guarded_Forall|eapply guarded_mono; eauto]).
  - intros c t Ht. by apply guarded_Forall.
Qed.
End GuardedPrograms.

(** ** Total correctness against one handler *)

(** [evm h m s w Q]: against [h], from the state [s] and the world [w], the
    operation [m] returns, and [Q] holds of its answer, state and world. *)
Definition evm {Σ S W A} (h : handler Σ W) (m : M Σ S A) (s : S) (w : W)
    (Q : A -> S -> W -> Prop) : Prop :=
  match exec h (m s) w with
  | (_, Done (a, s'), w') => Q a s' w'
  | (_, Crashed _, _) => False
  end.

Arguments evm : simpl never.

Section Evm.
Context {Σ : sig} {S W : Type} (h : handler Σ W).

Lemma evm_ret {A} (a : A) (s : S) w (Q : A -> S -> W -> Prop) : Q a s w -> evm h (mret a) s w Q.
Proof. done. Qed.

Lemma evm_bind {A B} (m : M Σ S A) (f : A -> M Σ S B) s w Q :
  evm h m s w (fun a s' w' => evm h (f a) s' w' Q) -> evm h (m ≫= f) s w Q.
Proof.
  unfold evm. unfold mbind, M_bind. rewrite exec_bind.
  destruct (exec h (m s) w) as [[t [[a s']|c]] w']; [|done].
  destruct (exec h (f a s') w') as [[t' o] w'']. done.
Qed.

Lemma evm_mono {A} (m : M Σ S A) s w (Q Q' : A -> S -> W -> Prop) :
  evm h m s w Q -> (forall a s' w', Q a s' w' -> Q' a s' w') -> evm h m s w Q'.
Proof. unfold evm. destruct (exec h (m s) w) as [[t [[a s']|c]] w']; auto. Qed.

Lemma evm_call (e : op Σ) (s : S) w (Q : res e -> S -> W -> Prop) :
  Q (fst (h e w)) s (snd (h e w)) -> evm h (call e) s w Q.
Proof. unfold evm, call. simpl. by destruct (h e w). Qed.

Lemma evm_get (s : S) w (Q : S -> S -> W -> Prop) : Q s s w -> evm h get s w Q.
Proof. done. Qed.

Lemma evm_modify f (s : S) w (Q : unit -> S -> W -> Prop) : Q tt (f s) w -> evm h (modify f) s w Q.
Proof. done. Qed.

Lemma evm_now `{!HasNow Σ} (s : S) w Q :
  Q (now_time (fst (h now_op w))) s (snd (h now_op w)) -> evm h now s w Q.
Proof. intros H. apply evm_bind, evm_call. exact H. Qed.

(** A loop, by an invariant on the elements already seen; [R] holds on an early
    exit. *)
Lemma evm_for_each {A B C} (I : list A -> B -> S -> W -> Prop) (R : C -> S -> W -> Prop)
    (xs : list A) (body : A -> B -> M Σ S (B + C)) :
  (forall seen x acc s w, I seen acc s w -> seen ++ [x] `prefix_of` xs ->
     evm h (body x acc) s w (fun r s' w' => match r with
       | inl acc' => I (seen ++ [x]) acc' s' w'
       | inr c => R c s' w'
       end)) ->
  forall acc s w, I [] acc s w ->
  evm h (for_each xs acc body) s w (fun r s' w' => match r with
       | inl acc' => I xs acc' s' w'
       | inr c => R c s' w'
       end).
Proof.
  intros Hbody.
  assert (forall rest seen acc s w, xs = seen ++ rest -> I seen acc s w ->
    evm h (for_each rest acc body) s w (fun r s' w' => match r with
       | inl acc' => I xs acc' s' w'
       | inr c => R c s' w'
       end)) as H; [|intros; by apply (H xs [])].
  induction rest as [|x rest IH]; intros seen acc s w Hxs HI; simpl.
  - apply evm_ret. by rewrite app_nil_r in Hxs; subst.
  - apply evm_bind. eapply evm_mono; [apply (Hbody seen); [done|]|].
    + subst. exists rest. by rewrite <- app_assoc.
    + intros [acc'|c] s' w' Hr; [|by apply evm_ret].
      apply (IH (seen ++ [x])); [|done]. by rewrite <- app_assoc.
Qed.

(** A bounded loop that makes progress on a measure returns. *)
Lemma evm_repeat_until {R} (I : nat -> S -> W -> Prop) (body : M Σ S (option R)) Q :
  (forall n s w, I n s w -> evm h body s w (fun r s' w' => match r with
     | Some r => Q r s' w'
     | None => exists n', (n' < n)%nat /\ I n' s' w'
     end)) ->
  forall fuel n s w, (n < fuel)%nat -> I n s w -> evm h (repeat_until fuel body) s w Q.
Proof.
  intros Hbody. induction fuel as [|fuel IH]; intros n s w Hn HI; [lia|]. simpl.
  apply evm_bind. eapply evm_mono; [by apply Hbody|].
  intros [r|] s' w'; [by intros ?; apply evm_ret|]. intros (n' & Hn' & HI').
  eapply IH; [|done]. lia.
Qed.

(** What is evaluated is an execution. *)
Lemma evm_exec {A} (m : M Σ S A) s w Q :
  evm h m s w Q <-> exists t a s' w', exec h (m s) w = (t, Done (a, s'), w') /\ Q a s' w'.
Proof.
  unfold evm. destruct (exec h (m s) w) as [[t [[a s']|c]] w'].
  - split; [eauto 8|]. intros (? & ? & ? & ? & [= <- <- <- <-] & ?). done.
  - split; [done|]. by intros (? & ? & ? & ? & ? & ?).
Qed.
End Evm.

(** One step of the evaluation of a program without loops. *)
Ltac evm_step :=
  lazymatch goal with
  | |- evm ?h (@call ?Σ ?S ?e) ?s ?w ?Q => refine (@evm_call Σ S _ h e s w Q _); cbn
  | |- evm _ now _ _ _ => apply evm_now; cbn
  | |- _ => first [ apply evm_bind | apply evm_ret | apply evm_get | apply evm_modify ]; cbn
  end.
