(* ===== verification/EffectsSum.v ===== *)
(** * Programs over several environments

    A program that talks to one environment can be part of a program that talks
    to several: [Σ1 ⊕ Σ2] has the operations of both, and [viaL], [viaR] embed a
    program over one of them.  What is known of the program carries over. *)

From stdpp Require Import base gmap sets list strings.
From S2P Require Import Prelude Effects.

Definition sum_sig (Σ1 Σ2 : sig) : sig :=
  Sig (op Σ1 + op Σ2) (fun e => match e with inl e1 => res e1 | inr e2 => res e2 end).
Infix "⊕" := sum_sig (at level 50, left associativity).

(** Replace every operation by a program. *)
Fixpoint interp {Σ Σ' A} (h : forall e : op Σ, prog Σ' (res e)) (p : prog Σ A) : prog Σ' A :=
  match p with
  | Ret a => Ret a
  | Crash c => Crash c
  | Vis e k => bind (h e) (fun r => interp h (k r))
  end.

Section Sum.
Context {Σ1 Σ2 : sig}.

Definition onL (e : op Σ1) : prog (Σ1 ⊕ Σ2) (res e) := Vis (inl e : op (Σ1 ⊕ Σ2)) (fun r => Ret r).
Definition onR (e : op Σ2) : prog (Σ1 ⊕ Σ2) (res e) := Vis (inr e : op (Σ1 ⊕ Σ2)) (fun r => Ret r).

Definition viaL {S A} (m : M Σ1 S A) : M (Σ1 ⊕ Σ2) S A := fun s => interp onL (m s).
Definition viaR {S A} (m : M Σ2 S A) : M (Σ1 ⊕ Σ2) S A := fun s => interp onR (m s).

Definition exL (x : exchange Σ1) : exchange (Σ1 ⊕ Σ2) :=
  match x with existT e r => existT (inl e : op (Σ1 ⊕ Σ2)) r end.
Definition exR (x : exchange Σ2) : exchange (Σ1 ⊕ Σ2) :=
  match x with existT e r => existT (inr e : op (Σ1 ⊕ Σ2)) r end.

Lemma wp_onL {A} (p : prog Σ1 A) Q :
  wp p (fun t o => Q (exL <$> t) o) -> wp (interp onL p) Q.
Proof.
  revert Q. induction p as [a|c|e k IH]; simpl; intros Q H; auto.
Qed.

Lemma wp_onR {A} (p : prog Σ2 A) Q :
  wp p (fun t o => Q (exR <$> t) o) -> wp (interp onR p) Q.
Proof.
  revert Q. induction p as [a|c|e k IH]; simpl; intros Q H; auto.
Qed.

(** Executions of an embedded program are those of the program. *)
Lemma runs_onL {A} (p : prog Σ1 A) (t : trace (Σ1 ⊕ Σ2)) o :
  runs (interp onL p) t o -> exists t', t = exL <$> t' /\ runs p t' o.
Proof.
  revert t. induction p as [a|c|e k IH]; intros t H; simpl in H; apply runs_inv in H.
  1, 2: destruct H as [-> ->]; exists []; split; [done|constructor].
  destruct H as (r & t' & -> & H). apply IH in H as (t1 & -> & H). exists (existT e r :: t1). split; [done|by constructor].
Qed.
Lemma runs_onR {A} (p : prog Σ2 A) (t : trace (Σ1 ⊕ Σ2)) o :
  runs (interp onR p) t o -> exists t', t = exR <$> t' /\ runs p t' o.
Proof.
  revert t. induction p as [a|c|e k IH]; intros t H; simpl in H; apply runs_inv in H.
  1, 2: destruct H as [-> ->]; exists []; split; [done|constructor].
  destruct H as (r & t' & -> & H). apply IH in H as (t1 & -> & H). exists (existT e r :: t1). split; [done|by constructor].
Qed.

Lemma wpm_viaL {S A} (m : M Σ1 S A) s Q C :
  wpm m s (fun a s' t => Q a s' (exL <$> t)) (fun c t => C c (exL <$> t)) -> wpm (viaL m) s Q C.
Proof. intros H. apply wp_onL. eapply wp_mono; [exact H|]. by intros t [[a s']|c]. Qed.

Lemma wpm_viaR {S A} (m : M Σ2 S A) s Q C :
  wpm m s (fun a s' t => Q a s' (exR <$> t)) (fun c t => C c (exR <$> t)) -> wpm (viaR m) s Q C.
Proof. intros H. apply wp_onR. eapply wp_mono; [exact H|]. by intros t [[a s']|c]. Qed.

Lemma emits_viaL {S A} P (m : M Σ1 S A) : emits (fun x => P (exL x)) m -> emits P (viaL m).
Proof.
  intros H s. apply wpm_viaL. eapply wpm_mono; [apply H| |]; simpl; intros; by rewrite Forall_fmap.
Qed.

Lemma emits_viaR {S A} P (m : M Σ2 S A) : emits (fun x => P (exR x)) m -> emits P (viaR m).
Proof.
  intros H s. apply wpm_viaR. eapply wpm_mono; [apply H| |]; simpl; intros; by rewrite Forall_fmap.
Qed.

(** ** Handlers *)

(** Two handlers that share a world [W], each working on its part. *)
Context {W W1 W2 : Type}.
Context (get1 : W -> W1) (set1 : W1 -> W -> W) (get2 : W -> W2) (set2 : W2 -> W -> W).

Definition sum_handler (h1 : handler Σ1 W1) (h2 : handler Σ2 W2) : handler (Σ1 ⊕ Σ2) W :=
  fun e w =>
    match e with
    | inl e1 => let '(r, w1) := h1 e1 (get1 w) in (r, set1 w1 w)
    | inr e2 => let '(r, w2) := h2 e2 (get2 w) in (r, set2 w2 w)
    end.

Class Lens {W' : Type} (g : W -> W') (u : W' -> W -> W) : Prop := {
  lens_get : forall x w, g (u x w) = x;
  lens_set : forall x y w, u x (u y w) = u x w;
  lens_id : forall w, u (g w) w = w;
}.

Lemma evm_viaL {S A} `{!Lens get1 set1} h1 h2 (m : M Σ1 S A) s w Q :
  evm h1 m s (get1 w) (fun a s' w1 => Q a s' (set1 w1 w)) ->
  evm (sum_handler h1 h2) (viaL m) s w Q.
Proof.
  unfold evm, viaL. generalize (m s). intros p. revert w.
  induction p as [[a s']|c|e k IH]; intros w; [cbn; by rewrite lens_id|done|].
  cbn. destruct (h1 e (get1 w)) as [r w1] eqn:Hh. intros H. cbn.
  specialize (IH r (set1 w1 w)). rewrite lens_get in IH.
  destruct (exec h1 (k r) w1) as [[t o] w2].
  destruct (exec (sum_handler h1 h2) (interp onL (k r)) (set1 w1 w)) as [[t' o'] w3].
  destruct o as [[a s']|c]; [|done]. apply IH. by rewrite lens_set.
Qed.

Lemma evm_viaR {S A} `{!Lens get2 set2} h1 h2 (m : M Σ2 S A) s w Q :
  evm h2 m s (get2 w) (fun a s' w2 => Q a s' (set2 w2 w)) ->
  evm (sum_handler h1 h2) (viaR m) s w Q.
Proof.
  unfold evm, viaR. generalize (m s). intros p. revert w.
  induction p as [[a s']|c|e k IH]; intros w; [cbn; by rewrite lens_id|done|].
  cbn. destruct (h2 e (get2 w)) as [r w1] eqn:Hh. intros H. cbn.
  specialize (IH r (set2 w1 w)). rewrite lens_get in IH.
  destruct (exec h2 (k r) w1) as [[t o] w2].
  destruct (exec (sum_handler h1 h2) (interp onR (k r)) (set2 w1 w)) as [[t' o'] w3].
  destruct o as [[a s']|c]; [|done]. apply IH. by rewrite lens_set.
Qed.
End Sum.
