(* ===== verification/ProtoEtcd.v ===== *)
(** * Messages and shared helpers

    The records of [pkg/apis/etcd] (the protocol between the controller and the
    node servers) and of [pkg/privateapi] (the peer protocol), the member
    record of [pkg/etcdclient], and the helpers of [pkg/urls] and
    [pkg/controller/utils.go] that work on them.

    A Go pointer is an [option]; a message embedded by value is the record
    itself.  Integers that the wire format bounds are [Z]. *)

From stdpp Require Import base gmap sets list strings.
From S2P Require Import Prelude Effects.

(** ** pkg/apis/etcd *)

Record EtcdNode := mkEtcdNode {
  Node_Name : string;
  Node_PeerUrls : list string;
  Node_ClientUrls : list string;
  Node_QuarantinedClientUrls : list string;
  Node_TlsEnabled : bool;
}.

Record EtcdCluster := mkEtcdCluster {
  Cluster_DesiredClusterSize : Z;
  Cluster_ClusterToken : string;
  Cluster_Nodes : list EtcdNode;
}.

Record EtcdState := mkEtcdState {
  State_NewCluster : bool;
  State_Cluster : option EtcdCluster;
  State_EtcdVersion : string;
  State_Quarantined : bool;
}.

(** [&protoetcd.EtcdState{}] *)
Definition emptyEtcdState : EtcdState := mkEtcdState false None "" false.

Record ClusterSpec := mkClusterSpec {
  Spec_MemberCount : Z;
  Spec_EtcdVersion : string;
}.

Record RestoreBackupCommand := mkRestoreBackupCommand {
  Restore_ClusterSpec : option ClusterSpec;
  Restore_Backup : string;
}.

Record Command := mkCommand {
  Command_Timestamp : Z;
  Command_RestoreBackup : option RestoreBackupCommand;
  Command_CreateNewCluster : option ClusterSpec;
}.

Record GetInfoResponse := mkGetInfoResponse {
  Info_ClusterName : string;
  Info_NodeConfiguration : option EtcdNode;
  Info_EtcdState : option EtcdState;
}.

Record MemberMapInfo := mkMemberMapInfo {
  MapInfo_Name : string;
  MapInfo_Dns : string;
  MapInfo_Addresses : list string;
}.

Record MemberMap := mkMemberMap { Map_Members : list MemberMapInfo }.

Record CommonRequestHeader := mkCommonRequestHeader {
  Header_LeadershipToken : string;
  Header_ClusterName : string;
}.

Record BackupInfo := mkBackupInfo {
  Backup_EtcdVersion : string;
  Backup_Timestamp : Z;
  Backup_ClusterSpec : option ClusterSpec;
}.

Record DoBackupRequest := mkDoBackupRequest {
  DoBackup_Header : option CommonRequestHeader;
  DoBackup_Storage : string;
  DoBackup_AllowOfflineBackup : bool;
  DoBackup_Info : option BackupInfo;
}.

Record DoBackupResponse := mkDoBackupResponse { DoBackup_Name : string }.

Record DoRestoreRequest := mkDoRestoreRequest {
  DoRestore_Header : option CommonRequestHeader;
  DoRestore_Storage : string;
  DoRestore_BackupName : string;
}.

Record StopEtcdRequest := mkStopEtcdRequest { Stop_Header : option CommonRequestHeader }.

(** The open enumeration [Phase]: a received message can carry any number. *)
Inductive Phase :=
| PHASE_UNKNOWN
| PHASE_PREPARE
| PHASE_INITIAL_CLUSTER
| PHASE_JOIN_EXISTING
| PHASE_CANCEL_PREPARE
| PHASE_OTHER (n : Z).

Record JoinClusterRequest := mkJoinClusterRequest {
  Join_Header : option CommonRequestHeader;
  Join_Phase : Phase;
  Join_ClusterToken : string;
  Join_Nodes : list EtcdNode;
  Join_EtcdVersion : string;
}.

Record ReconfigureRequest := mkReconfigureRequest {
  Reconf_Header : option CommonRequestHeader;
  Reconf_SetEtcdVersion : string;
  Reconf_Quarantined : bool;
  Reconf_EnableTls : bool;
}.

(** ** pkg/privateapi *)

Record PeerInfo := mkPeerInfo {
  Peer_Id : string;
  Peer_Endpoints : list string;
}.

Record View := mkView {
  View_Leader : option PeerInfo;
  View_LeadershipToken : string;
  View_Healthy : list PeerInfo;
}.

Record LeaderNotificationRequest := mkLeaderNotificationRequest { Notify_View : option View }.

Record LeaderNotificationResponse := mkLeaderNotificationResponse {
  NotifyResp_Accepted : bool;
  NotifyResp_View : option View;
}.

(** ** pkg/etcdclient *)

Record EtcdProcessMember := mkEtcdProcessMember {
  Member_Name : string;
  Member_PeerURLs : list string;
  Member_ClientURLs : list string;
  Member_ID : string;
  Member_idv3 : Z;
}.

#[export] Instance EtcdNode_eq_dec : EqDecision EtcdNode.
Proof. solve_decision. Defined.
#[export] Instance EtcdCluster_eq_dec : EqDecision EtcdCluster.
Proof. solve_decision. Defined.
#[export] Instance EtcdState_eq_dec : EqDecision EtcdState.
Proof. solve_decision. Defined.
#[export] Instance ClusterSpec_eq_dec : EqDecision ClusterSpec.
Proof. solve_decision. Defined.
#[export] Instance CommonRequestHeader_eq_dec : EqDecision CommonRequestHeader.
Proof. solve_decision. Defined.
#[export] Instance Phase_eq_dec : EqDecision Phase.
Proof. solve_decision. Defined.
#[export] Instance PeerInfo_eq_dec : EqDecision PeerInfo.
Proof. solve_decision. Defined.

(** ** pkg/urls *)

Definition rewrite_one (findPrefix newPrefix s : string) : string :=
  if HasPrefix s findPrefix then newPrefix +:+ TrimPrefix s findPrefix else s.

Definition RewriteScheme (inp : list string) (findPrefix newPrefix : string) : list string :=
  map (rewrite_one findPrefix newPrefix) inp.

(** ** pkg/controller/utils.go *)

Definition isTLSEnabled (member : EtcdProcessMember) : bool :=
  existsb (fun u => HasPrefix u "https://") (Member_ClientURLs member)
  || existsb (fun u => HasPrefix u "https://") (Member_PeerURLs member).

(** The scheme adjustment of [addNodeToCluster] and [createNewCluster]: the
    node as it is written into the proposal. *)
Definition proposeNode (disableEtcdTLS : bool) (node : EtcdNode) : EtcdNode :=
  if disableEtcdTLS then
    mkEtcdNode (Node_Name node)
      (RewriteScheme (Node_PeerUrls node) "https://" "http://")
      (RewriteScheme (Node_ClientUrls node) "https://" "http://")
      (Node_QuarantinedClientUrls node) false
  else
    mkEtcdNode (Node_Name node)
      (RewriteScheme (Node_PeerUrls node) "http://" "https://")
      (RewriteScheme (Node_ClientUrls node) "http://" "https://")
      (Node_QuarantinedClientUrls node) true.

(** [member_dns]: the DNS name of a member, empty without a suffix. *)
Definition member_dns (dnsSuffix name : string) : string :=
  if String.eqb dnsSuffix "" then ""
  else name +:+ (if HasPrefix dnsSuffix "." then dnsSuffix else "." +:+ dnsSuffix).

(** ** Properties of the helpers *)

(** No URL keeps the scheme that is replaced, when the new scheme does not
    itself start with it. *)
Lemma rewrite_one_no_prefix p q s :
  HasPrefix (rewrite_one p q s) q = true \/ rewrite_one p q s = s.
Proof.
  unfold rewrite_one. destruct (HasPrefix s p); [left; apply HasPrefix_app|by right].
Qed.

Lemma HasPrefix_http_https s : HasPrefix s "https://" = true -> HasPrefix s "http://" = false.
Proof.
  intros H. apply HasPrefix_split in H. rewrite H. simpl.
  reflexivity.
Qed.

Lemma rewrite_https_clean s : HasPrefix (rewrite_one "http://" "https://" s) "http://" = false.
Proof.
  unfold rewrite_one. destruct (HasPrefix s "http://") eqn:H; [|done].
  apply HasPrefix_http_https, HasPrefix_app.
Qed.

Lemma rewrite_http_clean s : HasPrefix (rewrite_one "https://" "http://" s) "https://" = false.
Proof.
  unfold rewrite_one. destruct (HasPrefix s "https://") eqn:H; [|done].
  destruct (HasPrefix ("http://" +:+ TrimPrefix s "https://") "https://") eqn:H'; [|done].
  apply HasPrefix_http_https in H'. by rewrite HasPrefix_app in H'.
Qed.

Lemma rewrite_one_idem s :
  rewrite_one "http://" "https://" (rewrite_one "http://" "https://" s) =
  rewrite_one "http://" "https://" s.
Proof. unfold rewrite_one at 1. by rewrite rewrite_https_clean. Qed.

(** Turning TLS on and off again gives back an [http] URL. *)
Lemma rewrite_one_roundtrip s :
  HasPrefix s "http://" = true ->
  rewrite_one "https://" "http://" (rewrite_one "http://" "https://" s) = s.
Proof.
  intros H. unfold rewrite_one at 2. rewrite H.
  unfold rewrite_one. rewrite HasPrefix_app, TrimPrefix_app.
  unfold TrimPrefix. rewrite H. symmetry. by apply HasPrefix_split.
Qed.

#[export] Hint Resolve rewrite_https_clean rewrite_http_clean : etcdm.
