(* ===== verification/GoLib.v ===== *)
(** * The parts of Go's standard library the program uses

    Byte-level models of functions of [strings] and [strconv]: splitting,
    trimming, decimal formatting and parsing with their range errors.  *)

From stdpp Require Import base list strings pretty.
From Stdlib Require Import Ascii.
From S2P Require Import Prelude Effects.

Local Open Scope Z_scope.

(** ** strings *)

(** [strings.Cut] on a one-byte separator. *)
Fixpoint cut (c : ascii) (s : string) : option (string * string) :=
  match s with
  | EmptyString => None
  | String d s' =>
      if Ascii.eqb c d then Some (EmptyString, s')
      else match cut c s' with
           | Some (a, b) => Some (String d a, b)
           | None => None
           end
  end.

(** [strings.SplitN s c n] for [n > 0]. *)
Fixpoint SplitN (s : string) (c : ascii) (n : nat) : list string :=
  match n with
  | O => []
  | S O => [s]
  | S n' => match cut c s with
            | Some (a, b) => a :: SplitN b c n'
            | None => [s]
            end
  end.

(** [strings.Split s c]: at most one part more than there are bytes. *)
Definition Split (s : string) (c : ascii) : list string := SplitN s c (S (String.length s)).

Fixpoint Join (parts : list string) (sep : string) : string :=
  match parts with
  | [] => ""
  | [p] => p
  | p :: ps => p +:+ sep +:+ Join ps sep
  end.

Fixpoint contains_byte (s : string) (c : ascii) : bool :=
  match s with
  | EmptyString => false
  | String d s' => Ascii.eqb c d || contains_byte s' c
  end.

Lemma contains_byte_app a b c : contains_byte (a +:+ b) c = contains_byte a c || contains_byte b c.
Proof. induction a as [|x a IH]; [done|]. simpl. rewrite IH. by rewrite orb_assoc. Qed.

(** [strings.Replace(s, c, by, -1)] for a single byte [c]. *)
Fixpoint ReplaceByte (c : ascii) (by_ s : string) : string :=
  match s with
  | EmptyString => EmptyString
  | String d s' => (if Ascii.eqb c d then by_ else String d EmptyString) +:+ ReplaceByte c by_ s'
  end.

(** [strings.ContainsAny s chars] for ASCII [chars]. *)
Fixpoint ContainsAny (s chars : string) : bool :=
  match s with
  | EmptyString => false
  | String d s' => contains_byte chars d || ContainsAny s' chars
  end.

(** Every byte of [s] is a byte of [set] (an ASCII set). *)
Fixpoint containsOnly (s set : string) : bool :=
  match s with
  | EmptyString => true
  | String d s' => contains_byte set d && containsOnly s' set
  end.

(** [strings.TrimLeft s cutset] for an ASCII cut set. *)
Fixpoint TrimLeft (s cutset : string) : string :=
  match s with
  | EmptyString => EmptyString
  | String d s' => if contains_byte cutset d then TrimLeft s' cutset else s
  end.

Definition bytes (l : list nat) : string :=
  fold_right (fun n s => String (ascii_of_nat n) s) EmptyString l.

(** The UTF-8 encodings of the code points with property White_Space. *)
Definition white_space : list string :=
  map bytes ([[9]; [10]; [11]; [12]; [13]; [32]; [194; 133]; [194; 160]; [225; 154; 128]]
    ++ map (fun b => [226; 128; b]) (seq 128 11)
    ++ [[226; 128; 168]; [226; 128; 169]; [226; 128; 175]; [226; 129; 159];
        [227; 128; 128]])%nat.

Fixpoint trim_left_space (fuel : nat) (s : string) : string :=
  match fuel with
  | O => s
  | S n => match List.find (HasPrefix s) white_space with
           | Some w => trim_left_space n (TrimPrefix s w)
           | None => s
           end
  end.

Fixpoint trim_right_space (fuel : nat) (s : string) : string :=
  match fuel with
  | O => s
  | S n => match List.find (HasSuffix s) white_space with
           | Some w => trim_right_space n (TrimSuffix s w)
           | None => s
           end
  end.

(** [strings.TrimSpace]: each step removes at least one byte, so the length of
    the string bounds the number of steps. *)
Definition TrimSpace (s : string) : string :=
  let s' := trim_left_space (String.length s) s in
  trim_right_space (String.length s') s'.

(** [strings.Fields]: the parts between runs of white space. *)
Fixpoint fields_from (fuel : nat) (cur s : string) : list string :=
  let flush (rest : list string) := if String.eqb cur "" then rest else cur :: rest in
  match fuel, s with
  | S n, String c s' =>
      match List.find (HasPrefix s) white_space with
      | Some w => flush (fields_from n "" (TrimPrefix s w))
      | None => fields_from n (cur +:+ String c EmptyString) s'
      end
  | _, _ => flush []
  end.
Definition Fields (s : string) : list string := fields_from (String.length s) "" s.

Example Fields_ex : Fields "  a bc	d " = ["a"; "bc"; "d"].
Proof. reflexivity. Qed.

(** ** strconv *)

Definition digits : string := "0123456789".

Definition isDigit (c : ascii) : bool :=
  (N.leb 48 (N_of_ascii c) && N.leb (N_of_ascii c) 57)%N.

Definition digit_val (c : ascii) : Z := Z.of_N (N_of_ascii c) - 48.

Fixpoint all_digits (s : string) : bool :=
  match s with
  | EmptyString => true
  | String c s' => isDigit c && all_digits s'
  end.

(** The value of a string of digits, read from the accumulator [acc]. *)
Fixpoint digits_value (acc : Z) (s : string) : Z :=
  match s with
  | EmptyString => acc
  | String c s' => digits_value (10 * acc + digit_val c) s'
  end.

(** [strconv.ParseUint s 10 64] *)
Definition ParseUint (s : string) : result Z :=
  if String.eqb s "" || negb (all_digits s) then Err "invalid syntax"
  else let v := digits_value 0 s in
       if v <? 2 ^ 64 then Ok v else Err "value out of range".

(** [strconv.Atoi]: an optional sign, digits, and the range of [int]. *)
Definition Atoi (s : string) : result Z :=
  let '(neg, body) :=
    match s with
    | String c s' => if Ascii.eqb c "-" then (true, s')
                     else if Ascii.eqb c "+" then (false, s') else (false, s)
    | EmptyString => (false, s)
    end in
  if String.eqb body "" || negb (all_digits body) then Err "invalid syntax"
  else let v := if (neg : bool) then - digits_value 0 body else digits_value 0 body in
       if (int64_min <=? v) && (v <=? int64_max) then Ok v else Err "value out of range".

(** [strconv.FormatUint z 10] and the verb [%d] *)
Definition FormatUint (z : Z) : string := pretty (Z.to_N z).

(** ** Lemmas *)

Lemma ParseUint_range s v : ParseUint s = Ok v -> is_uint64 v.
Proof.
  unfold ParseUint, is_uint64. case_goal; [done|]. case_goal; [|done].
  intros [= <-]. zify_bools. split; [|done].
  assert (forall t acc, all_digits t = true -> 0 <= acc -> 0 <= digits_value acc t) as Hnn.
  { induction t as [|c t IH]; simpl; intros acc Hd Hacc; [done|].
    apply andb_true_iff in Hd as [Hc Hd]. apply IH; [done|].
    unfold isDigit in Hc. apply andb_true_iff in Hc as [Hc _].
    apply N.leb_le in Hc. unfold digit_val. lia. }
  by apply Hnn.
Qed.

Lemma Atoi_range s v : Atoi s = Ok v -> is_int64 v.
Proof.
  unfold Atoi, is_int64. destruct (match s with EmptyString => _ | String _ _ => _ end).
  repeat case_goal; try done; intros [= <-]; zify_bools; lia.
Qed.

(** Printed numbers consist of digits. *)
Lemma pretty_N_char_isDigit x : (x < 10)%N -> isDigit (pretty_N_char x) = true.
Proof.
  intros H. assert (x ∈ [0;1;2;3;4;5;6;7;8;9]%N) as Hx.
  { rewrite !elem_of_cons. lia. }
  repeat (apply elem_of_cons in Hx as [->|Hx]; [reflexivity|]). by apply elem_of_nil in Hx.
Qed.

Lemma pretty_N_go_digits x s : all_digits s = true -> all_digits (pretty_N_go x s) = true.
Proof.
  revert s. induction (N.lt_wf_0 x) as [x _ IH]; intros s Hs.
  assert (x = 0 \/ 0 < x)%N as [->|Hpos] by lia.
  - by rewrite pretty_N_go_0.
  - rewrite pretty_N_go_step by done. apply IH; [by apply N.div_lt|].
    simpl. rewrite pretty_N_char_isDigit by (apply N.mod_lt; lia). done.
Qed.

Lemma FormatUint_digits z : all_digits (FormatUint z) = true.
Proof.
  unfold FormatUint, pretty, pretty_N. case_decide; [done|]. by apply pretty_N_go_digits.
Qed.

Lemma FormatUint_inj a b : 0 <= a -> 0 <= b -> FormatUint a = FormatUint b -> a = b.
Proof. unfold FormatUint. intros ?? H%(inj pretty). lia. Qed.

Lemma FormatUint_nonempty z : FormatUint z <> "".
Proof.
  unfold FormatUint, pretty, pretty_N. case_decide; [done|].
  assert (forall x s, s <> "" -> pretty_N_go x s <> "") as Hne.
  { intros x. induction (N.lt_wf_0 x) as [x _ IH]; intros s Hs.
    assert (x = 0 \/ 0 < x)%N as [->|Hpos] by lia; [by rewrite pretty_N_go_0|].
    rewrite pretty_N_go_step by done. apply IH; [by apply N.div_lt|done]. }
  rewrite pretty_N_go_step by lia. by apply Hne.
Qed.

(** A separator that is not a digit splits a concatenation of numbers in one
    way only. *)
Lemma digits_sep_inj a b a' b' c :
  isDigit c = false -> all_digits a = true -> all_digits a' = true ->
  a +:+ String c b = a' +:+ String c b' -> a = a' /\ b = b'.
Proof.
  intros Hc. revert a'. induction a as [|x a IH]; intros [|x' a'] Ha Ha' H; simpl in *.
  - by simplify_eq.
  - simplify_eq. by rewrite Hc in Ha'.
  - simplify_eq. by rewrite Hc in Ha.
  - apply andb_true_iff in Ha as [_ Ha], Ha' as [_ Ha']. simplify_eq.
    destruct (IH a' Ha Ha') as [-> ->]; done.
Qed.

Definition Itoa (z : Z) : string := if z <? 0 then "-" +:+ FormatUint (- z) else FormatUint z.

Lemma Itoa_nonempty z : Itoa z <> "".
Proof. unfold Itoa. destruct (z <? 0); [done|apply FormatUint_nonempty]. Qed.

(** [strings.Contains] *)
Definition Contains (s sub : string) : bool := match String.index 0 sub s with Some _ => true | None => false end.

(** ** encoding/base64 and net *)

(** The alphabet of [base64.RawURLEncoding]. *)
Definition base64_alphabet : string :=
  "ABCDEFGHIJKLMNOPQRSTUVWXYZabcdefghijklmnopqrstuvwxyz0123456789-_".

Definition base64_char (n : Z) : string :=
  match String.get (Z.to_nat n) base64_alphabet with
  | Some c => String c EmptyString
  | None => EmptyString
  end.

(** [base64.RawURLEncoding.EncodeToString]: three bytes give four characters;
    the last one or two bytes give two or three, without padding. *)
Fixpoint RawURLEncode (b : list Z) : string :=
  match b with
  | x :: y :: z :: rest =>
      base64_char (Z.shiftr x 2)
      +:+ base64_char (Z.lor (Z.shiftl (Z.land x 3) 4) (Z.shiftr y 4))
      +:+ base64_char (Z.lor (Z.shiftl (Z.land y 15) 2) (Z.shiftr z 6))
      +:+ base64_char (Z.land z 63)
      +:+ RawURLEncode rest
  | [x; y] =>
      base64_char (Z.shiftr x 2)
      +:+ base64_char (Z.lor (Z.shiftl (Z.land x 3) 4) (Z.shiftr y 4))
      +:+ base64_char (Z.shiftl (Z.land y 15) 2)
  | [x] => base64_char (Z.shiftr x 2) +:+ base64_char (Z.shiftl (Z.land x 3) 4)
  | [] => EmptyString
  end.

Example RawURLEncode_16 :
  RawURLEncode [0;1;2;3;4;5;6;7;8;9;10;11;12;13;254;255] = "AAECAwQFBgcICQoLDA3-_w".
Proof. reflexivity. Qed.

(** [net.JoinHostPort] *)
Definition JoinHostPort (host port : string) : string :=
  if contains_byte host ":" then "[" +:+ host +:+ "]:" +:+ port
  else host +:+ ":" +:+ port.

(** The offset of the last occurrence of a byte. *)
Fixpoint last_index (c : ascii) (s : string) : option nat :=
  match s with
  | EmptyString => None
  | String d s' =>
      match last_index c s' with
      | Some n => Some (S n)
      | None => if Ascii.eqb c d then Some O else None
      end
  end.

Fixpoint index_byte (c : ascii) (s : string) : option nat :=
  match s with
  | EmptyString => None
  | String d s' => if Ascii.eqb c d then Some O else S <$> index_byte c s'
  end.

(** [net.SplitHostPort]: host and port, with the errors of the standard
    library; [j] and [k] are the offsets from which brackets are refused. *)
Definition SplitHostPort (hostport : string) : result (string * string) :=
  match last_index ":" hostport with
  | None => Err "missing port in address"
  | Some i =>
      let finish (host : string) (j k : nat) :=
        if contains_byte (drop_str j hostport) "[" then Err "unexpected '[' in address"
        else if contains_byte (drop_str k hostport) "]" then Err "unexpected ']' in address"
        else Ok (host, drop_str (S i) hostport) in
      match hostport with
      | String "[" _ =>
          match index_byte "]" hostport with
          | None => Err "missing ']' in address"
          | Some e =>
              if (S e =? String.length hostport)%nat then Err "missing port in address"
              else if (S e =? i)%nat then
                finish (take_str (e - 1) (drop_str 1 hostport)) 1%nat (S e)
              else if HasPrefix (drop_str (S e) hostport) ":" then Err "too many colons in address"
              else Err "missing port in address"
          end
      | _ =>
          let host := take_str i hostport in
          if contains_byte host ":" then Err "too many colons in address"
          else finish host 0%nat 0%nat
      end
  end.

Example SplitHostPort_v4 : SplitHostPort "10.0.0.1:2380" = Ok ("10.0.0.1", "2380").
Proof. reflexivity. Qed.
Example SplitHostPort_v6 : SplitHostPort "[::1]:2380" = Ok ("::1", "2380").
Proof. reflexivity. Qed.
Example SplitHostPort_bad : is_ok (SplitHostPort "::1:2380") = false.
Proof. reflexivity. Qed.

(** ** path/filepath *)

(** The components of a path, "." and empty ones dropped and ".." resolved;
    [rooted] drops a ".." at the root.  The stack is in reverse order. *)
Fixpoint clean_components (rooted : bool) (comps stack : list string) : list string :=
  match comps with
  | [] => reverse stack
  | c :: rest =>
      if String.eqb c "" || String.eqb c "." then clean_components rooted rest stack
      else if String.eqb c ".." then
        match stack with
        | top :: stack' =>
            if String.eqb top ".." then clean_components rooted rest (c :: stack)
            else clean_components rooted rest stack'
        | [] => if rooted then clean_components rooted rest []
                else clean_components rooted rest [c]
        end
      else clean_components rooted rest (c :: stack)
  end.

Definition Clean (p : string) : string :=
  if String.eqb p "" then "."
  else
    let rooted := HasPrefix p "/" in
    let body := Join (clean_components rooted (Split p "/") []) "/" in
    if rooted then "/" +:+ body
    else if String.eqb body "" then "." else body.

(** [filepath.Join] *)
Definition PathJoin (elems : list string) : string :=
  match filter (fun e => e <> "") elems with
  | [] => ""
  | es => Clean (Join es "/")
  end.

Example PathJoin_1 : PathJoin ["/mnt/etcd/"; "data"; "tok"] = "/mnt/etcd/data/tok".
Proof. reflexivity. Qed.
Example PathJoin_2 : PathJoin ["a/../.."; ""; "b"] = "../b".
Proof. reflexivity. Qed.

(** ** Conversion to [int32] *)

Definition int32 (z : Z) : Z := (z + 2 ^ 31) mod 2 ^ 32 - 2 ^ 31.

Lemma int32_id z : - 2 ^ 31 <= z < 2 ^ 31 -> int32 z = z.
Proof. unfold int32. intros. rewrite Z.mod_small; lia. Qed.

(** ** [strings.Replace] of all occurrences *)

(** From left to right; [skip] bytes of the last occurrence are still to be
    dropped.  [old] is not empty. *)
Fixpoint replace_from (skip : nat) (s old new : string) : string :=
  match s with
  | "" => ""
  | String c s' =>
      match skip with
      | S skip' => replace_from skip' s' old new
      | O => if HasPrefix s old then new +:+ replace_from (String.length old - 1) s' old new
             else String c (replace_from O s' old new)
      end
  end.
Definition ReplaceString (s old new : string) : string := replace_from O s old new.

Example ReplaceString_1 : ReplaceString "https://__a__:1,__a__" "__a__" "h" = "https://h:1,h".
Proof. reflexivity. Qed.
Example ReplaceString_2 : ReplaceString "aaa" "aa" "a" = "aa".
Proof. reflexivity. Qed.

(** ** Joined paths are not empty *)

Lemma Clean_nonempty p : Clean p <> "".
Proof.
  unfold Clean. destruct (String.eqb p ""); [done|]. destruct (HasPrefix p "/"); [done|].
  destruct (String.eqb_spec (Join (clean_components false (Split p "/") []) "/") ""); done.
Qed.
Lemma PathJoin_nonempty p q : q <> "" -> PathJoin [p; q] <> "".
Proof.
  intros Hq. unfold PathJoin. destruct (decide (p = "")) as [->|Hp].
  - rewrite filter_cons_False by (by intros H). rewrite filter_cons_True by done. apply Clean_nonempty.
  - rewrite !filter_cons_True by done. apply Clean_nonempty.
Qed.
