(* ===== verification/GoTime.v ===== *)
(** * Calendar time: Go's [time] package

    A [time] counts nanoseconds since the first day of the year 1 (UTC).  This
    file has the calendar of the package (years, months and days of the
    proleptic Gregorian calendar), and the two functions the repository uses on
    it: [Format(time.RFC3339)] of a UTC time, which names backups and commands,
    and [Parse(time.RFC3339, _)], which reads the names back. *)

From stdpp Require Import base list strings.
From Stdlib Require Import Ascii.
From S2P Require Import Prelude Effects GoLib.

Local Open Scope Z_scope.

(** ** The calendar *)

Definition isLeap (year : Z) : bool :=
  (year mod 4 =? 0) && (negb (year mod 100 =? 0) || (year mod 400 =? 0)).

(** Days before each month of a year that is not a leap year. *)
Definition daysBefore (month : Z) : Z :=
  nth (Z.to_nat month)
    [0; 31; 59; 90; 120; 151; 181; 212; 243; 273; 304; 334; 365] 0.

Definition daysIn (month year : Z) : Z :=
  if (month =? 2) && isLeap year then 29 else daysBefore month - daysBefore (month - 1).

(** The days between the first day of the year 1 and that of [year]. *)
Definition daysSinceYear1 (year : Z) : Z :=
  let y := year - 1 in
  let n400 := y / 400 in let y := y - 400 * n400 in
  let n100 := y / 100 in let y := y - 100 * n100 in
  let n4 := y / 4 in let y := y - 4 * n4 in
  146097 * n400 + 36524 * n100 + 1461 * n4 + 365 * y.

(** [time.Date] in UTC, for values in range. *)
Definition dayNumber (year month day : Z) : Z :=
  daysSinceYear1 year + daysBefore (month - 1)
  + (if isLeap year && (3 <=? month) then 1 else 0) + (day - 1).

Definition Date (year month day hour min sec nsec : Z) : time :=
  (((dayNumber year month day * 24 + hour) * 60 + min) * 60 + sec) * 1000000000 + nsec.

(** [absDate]: the year and the day of the year (from 0) of a day number. *)
Definition yearDay (d : Z) : Z * Z :=
  let n := d / 146097 in let y := 400 * n in let d := d - 146097 * n in
  let n := d / 36524 in let n := n - Z.shiftr n 2 in
  let y := y + 100 * n in let d := d - 36524 * n in
  let n := d / 1461 in let y := y + 4 * n in let d := d - 1461 * n in
  let n := d / 365 in let n := n - Z.shiftr n 2 in
  (y + n + 1, d - 365 * n).

(** The month and day of a day of the year. *)
Definition monthDay (leap : bool) (yday : Z) : Z * Z :=
  if leap && (yday =? 59) then (2, 29)
  else
    let day := if leap && (60 <=? yday) then yday - 1 else yday in
    let month := day / 31 in
    if daysBefore (month + 1) <=? day
    then (month + 2, day - daysBefore (month + 1) + 1)
    else (month + 1, day - daysBefore month + 1).

Definition civil (d : Z) : Z * Z * Z :=
  let '(year, yday) := yearDay d in
  let '(month, day) := monthDay (isLeap year) yday in
  (year, month, day).

(** ** Format(time.RFC3339) *)

Definition digit_char (d : Z) : ascii := ascii_of_N (Z.to_N (48 + d)).
Definition digit (d : Z) (s : string) : string := String (digit_char d) s.

(** [appendInt(b, x, 2)] for [0 <= x < 100]. *)
Definition two (x : Z) (s : string) : string := digit (x / 10) (digit (x mod 10) s).

(** [appendInt(b, x, 4)] *)
Definition four (x : Z) (s : string) : string :=
  let print x s :=
    if x <? 10000 then two (x / 100) (two (x mod 100) s) else FormatUint x +:+ s in
  if x <? 0 then String "-" (print (- x) s) else print x s.

Definition dateString (year month day : Z) (s : string) : string :=
  four year (String "-" (two month (String "-" (two day s)))).

Definition clockString (hour min sec : Z) (s : string) : string :=
  two hour (String ":" (two min (String ":" (two sec s)))).

(** [t.UTC().Format(time.RFC3339)] *)
Definition FormatRFC3339 (t : time) : string :=
  let sec := t / 1000000000 in
  let '(year, month, day) := civil (sec / 86400) in
  let sod := sec mod 86400 in
  dateString year month day
    (String "T" (clockString (sod / 3600) (sod mod 3600 / 60) (sod mod 60) "Z")).

(** ** Parse(time.RFC3339, _) *)

(** [getnum]: one or two digits, exactly two if [fixed]. *)
Definition getnum (fixed : bool) (s : string) : option (Z * string) :=
  match s with
  | String a s1 =>
      if isDigit a then
        match s1 with
        | String b s2 =>
            if isDigit b then Some (10 * digit_val a + digit_val b, s2)
            else if fixed then None else Some (digit_val a, s1)
        | EmptyString => if fixed then None else Some (digit_val a, s1)
        end
      else None
  | EmptyString => None
  end.

Definition getyear (s : string) : option (Z * string) :=
  a ← getnum true s; b ← getnum true (snd a); Some (100 * fst a + fst b, snd b).

Definition skip (c : ascii) (s : string) : option string :=
  match s with
  | String d s' => if Ascii.eqb c d then Some s' else None
  | EmptyString => None
  end.

Definition check (b : bool) : option unit := if b then Some () else None.

Fixpoint digit_prefix (s : string) : string * string :=
  match s with
  | String c s' =>
      if isDigit c then let '(d, r) := digit_prefix s' in (String c d, r) else (EmptyString, s)
  | EmptyString => (EmptyString, EmptyString)
  end.

(** An optional fraction of a second, cut to nanoseconds. *)
Definition getnanos (s : string) : Z * string :=
  match s with
  | String p (String d _ as s1) =>
      if (Ascii.eqb p "." || Ascii.eqb p ",")%char && isDigit d then
        let '(ds, r) := digit_prefix s1 in
        let ds := take_str 9 ds in
        (digits_value 0 ds * 10 ^ (9 - Z.of_nat (String.length ds)), r)
      else (0, s)
  | _ => (0, s)
  end.

(** The zone: [None] for Z, else an offset in seconds; as Go does since 1.20, up to
    24 hours and 60 minutes are accepted. *)
Definition getzone (s : string) : option (option Z * string) :=
  match s with
  | String "Z" r => Some (None, r)
  | String sign (String h1 (String h2 (String ":" (String m1 (String m2 r))))) =>
      h ← getnum true (String h1 (String h2 ""));
      m ← getnum true (String m1 (String m2 ""));
      _ ← check ((fst h <=? 24) && (fst m <=? 60));
      let off := (fst h * 60 + fst m) * 60 in
      if Ascii.eqb sign "+" then Some (Some off, r)
      else if Ascii.eqb sign "-" then Some (Some (- off), r) else None
  | _ => None
  end.

(** The instant and the zone that a time string denotes. *)
Definition ParseRFC3339 (s : string) : option (time * option Z) :=
  '(year, s) ← getyear s; s ← skip "-" s;
  '(month, s) ← getnum true s; _ ← check ((0 <? month) && (month <=? 12)); s ← skip "-" s;
  '(day, s) ← getnum true s; s ← skip "T" s;
  '(hour, s) ← getnum false s; _ ← check (hour <? 24); s ← skip ":" s;
  '(min, s) ← getnum true s; _ ← check (min <? 60); s ← skip ":" s;
  '(sec, s) ← getnum true s; _ ← check (sec <? 60);
  let '(nsec, s) := getnanos s in
  '(zone, s) ← getzone s;
  _ ← check (String.eqb s "");
  _ ← check ((1 <=? day) && (day <=? daysIn month year));
  let t := Date year month day hour min sec nsec in
  Some (t - default 0 zone * 1000000000, zone).

Example parse1 : ParseRFC3339 "2020-02-29T12:34:56Z"
  = Some (Date 2020 2 29 12 34 56 0, None).
Proof. reflexivity. Qed.
Example parse2 : ParseRFC3339 "2020-02-30T12:34:56Z" = None.
Proof. reflexivity. Qed.
Example parse3 : ParseRFC3339 "2020-02-29T12:34:56.25+01:30"
  = Some (Date 2020 2 29 11 4 56 250000000, Some 5400).
Proof. reflexivity. Qed.
Example format1 : FormatRFC3339 (Date 2024 12 31 23 59 59 999999999) = "2024-12-31T23:59:59Z".
Proof. reflexivity. Qed.

(** ** The calendar round trip *)

(** Linear arithmetic with division by constants. *)
Ltac dlia := Z.to_euclidean_division_equations; lia.

Lemma yearDay_spec d year yday :
  yearDay d = (year, yday) ->
  d = daysSinceYear1 year + yday /\ 0 <= yday < (if isLeap year then 366 else 365).
Proof.
  unfold yearDay, daysSinceYear1, isLeap. rewrite !Z.shiftr_div_pow2 by dlia.
  change (2 ^ 2) with 4.
  set (n4 := d / 146097). set (d1 := d - 146097 * n4).
  assert (0 <= d1 < 146097) as H1 by (subst d1 n4; dlia).
  set (c := d1 / 36524 - d1 / 36524 / 4).
  assert (0 <= c <= 3 /\ 0 <= d1 - 36524 * c < 36525 /\ (c < 3 -> d1 - 36524 * c < 36524)) as H2
    by (subst c; dlia).
  set (d2 := d1 - 36524 * c) in *.
  set (q := d2 / 1461). assert (0 <= q <= 24 /\ 0 <= d2 - 1461 * q < 1461) as H3 by (subst q; dlia).
  set (d3 := d2 - 1461 * q) in *.
  set (r := d3 / 365 - d3 / 365 / 4).
  assert (0 <= r <= 3 /\ 0 <= d3 - 365 * r < 366 /\ (r < 3 -> d3 - 365 * r < 365)) as H4
    by (subst r; dlia).
  clearbody n4 c q r. intros [= <- <-].
  replace (400 * n4 + 100 * c + 4 * q + r + 1 - 1) with (400 * n4 + 100 * c + 4 * q + r) by dlia.
  replace ((400 * n4 + 100 * c + 4 * q + r) / 400) with n4 by dlia.
  replace (400 * n4 + 100 * c + 4 * q + r - 400 * n4) with (100 * c + 4 * q + r) by dlia.
  replace ((100 * c + 4 * q + r) / 100) with c by dlia.
  replace (100 * c + 4 * q + r - 100 * c) with (4 * q + r) by dlia.
  replace ((4 * q + r) / 4) with q by dlia. split; [dlia|].
  destruct (decide (r = 3)) as [->|Hr].
  - split; [dlia|].
    destruct (decide (q = 24)) as [->|Hq]; [|case_match; zify_bools; dlia].
    destruct (decide (c = 3)) as [->|Hc]; [case_match; zify_bools; dlia|].
    assert (d3 < 365 * 4) by dlia. case_match; zify_bools; dlia.
  - split; [dlia|]. case_match; dlia.
Qed.

(** Checked for every day of a year. *)
Definition monthDay_ok (leap : bool) (yday : Z) : bool :=
  let '(month, day) := monthDay leap yday in
  (1 <=? month) && (month <=? 12) && (1 <=? day)
  && (day <=? if (month =? 2) && leap then 29 else daysBefore month - daysBefore (month - 1))
  && (daysBefore (month - 1) + (if leap && (3 <=? month) then 1 else 0) + (day - 1) =? yday).

Lemma monthDay_all leap :
  forallb (fun n => monthDay_ok leap (Z.of_nat n)) (seq 0 (if leap then 366 else 365)) = true.
Proof. destruct leap; vm_compute; reflexivity. Qed.

Lemma civil_spec d year month day :
  civil d = (year, month, day) ->
  dayNumber year month day = d /\ 1 <= month <= 12 /\ 1 <= day <= daysIn month year.
Proof.
  unfold civil. destruct (yearDay d) as [y yd] eqn:Hy.
  destruct (monthDay (isLeap y) yd) as [m dd] eqn:Hm. intros [= -> -> ->].
  apply yearDay_spec in Hy as [-> Hr]. unfold dayNumber, daysIn.
  assert (monthDay_ok (isLeap year) yd = true) as Hok.
  { pose proof (monthDay_all (isLeap year)) as H. rewrite forallb_forall in H.
    replace yd with (Z.of_nat (Z.to_nat yd)) by lia. apply H, in_seq.
    destruct (isLeap year); lia. }
  unfold monthDay_ok in Hok. rewrite Hm in Hok. zify_bools. lia.
Qed.

(** ** The string round trip *)

#[local] Arguments two : simpl never.
#[local] Arguments four : simpl never.
#[local] Arguments getnum : simpl never.

Lemma daysIn_le month year : 1 <= month <= 12 -> daysIn month year <= 31.
Proof.
  intros Hm. unfold daysIn, daysBefore.
  assert (month = 1 \/ month = 2 \/ month = 3 \/ month = 4 \/ month = 5 \/ month = 6 \/ month = 7
    \/ month = 8 \/ month = 9 \/ month = 10 \/ month = 11 \/ month = 12) as H12 by lia.
  destruct (isLeap year); repeat (destruct H12 as [->|H12]; [by vm_compute|]);
    by rewrite H12; vm_compute.
Qed.

Lemma digit_char_ok d : 0 <= d < 10 -> isDigit (digit_char d) = true /\ digit_val (digit_char d) = d.
Proof.
  intros H. assert (d = 0 \/ d = 1 \/ d = 2 \/ d = 3 \/ d = 4 \/ d = 5 \/ d = 6 \/ d = 7 \/ d = 8
    \/ d = 9) as Hd by lia.
  repeat (destruct Hd as [->|Hd]; [split; reflexivity|]). subst. split; reflexivity.
Qed.

Lemma getnum_two fixed x s : 0 <= x < 100 -> getnum fixed (two x s) = Some (x, s).
Proof.
  intros H. destruct (digit_char_ok (x / 10)) as [H1 H2]; [dlia|].
  destruct (digit_char_ok (x mod 10)) as [H3 H4]; [dlia|].
  unfold getnum, two, digit. rewrite H1, H3, H2, H4. do 2 f_equal. dlia.
Qed.

Lemma getyear_four x s : 0 <= x < 10000 -> getyear (four x s) = Some (x, s).
Proof.
  intros H. unfold getyear, four.
  destruct (x <? 0) eqn:E1; zify_bools; [lia|].
  destruct (x <? 10000) eqn:E2; zify_bools; [|lia].
  rewrite getnum_two by dlia. simpl. rewrite getnum_two by dlia. simpl. do 2 f_equal. dlia.
Qed.

(** The years that have four digits. *)
Definition fourDigitYear (t : time) : Prop := 0 <= fst (fst (civil (t / 1000000000 / 86400))) < 10000.

Lemma Parse_Format t :
  fourDigitYear t -> ParseRFC3339 (FormatRFC3339 t) = Some (timeTruncate t Second, None).
Proof.
  intros Hy. unfold fourDigitYear in Hy.
  unfold FormatRFC3339, dateString, clockString.
  destruct (civil (t / 1000000000 / 86400)) as [[year month] day] eqn:Hc. simpl in Hy.
  apply civil_spec in Hc as (Hd & Hm & Hday).
  pose proof (daysIn_le month year Hm) as Hmax.
  unfold ParseRFC3339. rewrite getyear_four by lia. simpl.
  rewrite getnum_two by lia. simpl.
  rewrite (proj2 (andb_true_iff (0 <? month) _)) by (split; [apply Z.ltb_lt|apply Z.leb_le]; lia).
  simpl. rewrite getnum_two by lia. simpl. rewrite getnum_two by dlia. simpl.
  rewrite (proj2 (Z.ltb_lt _ 24)) by dlia. simpl. rewrite getnum_two by dlia. simpl.
  rewrite (proj2 (Z.ltb_lt _ 60)) by dlia. simpl. rewrite getnum_two by dlia. simpl.
  rewrite (proj2 (Z.ltb_lt _ 60)) by dlia. simpl.
  rewrite (proj2 (andb_true_iff (1 <=? day) _)) by (split; apply Z.leb_le; lia). simpl.
  f_equal. f_equal. unfold Date. rewrite Hd. unfold timeTruncate, Second, Millisecond.
  case_match; zify_bools; dlia.
Qed.

(** A formatted time has a single Z, at its end. *)
Fixpoint no_Z (s : string) : bool :=
  match s with
  | EmptyString => true
  | String c s' => negb (Ascii.eqb c "Z") && no_Z s'
  end.

Lemma no_Z_cons c s : Ascii.eqb c "Z" = false -> no_Z (String c s) = no_Z s.
Proof. intros H. simpl. by rewrite H. Qed.

Lemma no_Z_two x s : 0 <= x < 100 -> no_Z (two x s) = no_Z s.
Proof.
  intros H. unfold two, digit. simpl.
  assert (forall d, 0 <= d < 10 -> Ascii.eqb (digit_char d) "Z" = false) as Hz.
  { intros d Hd. destruct (digit_char_ok d Hd) as [Hi _].
    destruct (Ascii.eqb_spec (digit_char d) "Z") as [E|]; [|done]. by rewrite E in Hi. }
  rewrite !Hz by dlia. done.
Qed.

Lemma Format_split t :
  fourDigitYear t ->
  exists a, FormatRFC3339 t = a +:+ "Z" /\ no_Z a = true.
Proof.
  intros Hy. unfold fourDigitYear in Hy. unfold FormatRFC3339, dateString, clockString.
  destruct (civil (t / 1000000000 / 86400)) as [[year month] day] eqn:Hc. simpl in Hy.
  apply civil_spec in Hc as (Hd & Hm & Hday).
  set (sod := t / 1000000000 mod 86400).
  assert (0 <= sod < 86400) as Hsod by (subst sod; dlia).
  exists (four year (String "-" (two month (String "-" (two day
    (String "T" (two (sod / 3600) (String ":" (two (sod mod 3600 / 60)
      (String ":" (two (sod mod 60) "")))))))))))%string.
  assert (four year = fun s => two (year / 100) (two (year mod 100) s)) as ->.
  { unfold four. destruct (year <? 0) eqn:E1; zify_bools; [lia|].
    destruct (year <? 10000) eqn:E2; zify_bools; [done|lia]. }
  split; [reflexivity|]. pose proof (daysIn_le month year Hm) as Hmax.
  repeat first [rewrite no_Z_two by dlia | rewrite no_Z_cons by reflexivity]. done.
Qed.

(** ** Unix time *)

(** Seconds from the zero time to the Unix epoch. *)
Definition unixEpoch : Z := 62135596800.
Definition Unix (t : time) : Z := t / 1000000000 - unixEpoch.
Definition UnixNano (t : time) : Z := wrap64 (t - unixEpoch * 1000000000).

Example unix_epoch : Unix (Date 1970 1 1 0 0 0 0) = 0.
Proof. reflexivity. Qed.

(** ** Formatted times as names *)

(** A formatted time consists of digits and "-", "T", ":" and "Z". *)
Lemma Format_avoids c t :
  fourDigitYear t -> isDigit c = false -> contains_byte "-T:Z" c = false ->
  contains_byte (FormatRFC3339 t) c = false.
Proof.
  intros Hy Hc Hs. unfold fourDigitYear in Hy. unfold FormatRFC3339, dateString, clockString.
  destruct (civil (t / 1000000000 / 86400)) as [[year month] day] eqn:Hciv. simpl in Hy.
  apply civil_spec in Hciv as (Hd & Hm & Hday). pose proof (daysIn_le month year Hm) as Hmax.
  set (sod := t / 1000000000 mod 86400).
  assert (0 <= sod < 86400) as Hsod by (subst sod; dlia).
  assert (forall x s, 0 <= x < 100 -> contains_byte (two x s) c = contains_byte s c) as Htwo.
  { intros x s Hx. unfold two, digit.
    assert (forall d, 0 <= d < 10 -> Ascii.eqb c (digit_char d) = false) as Hd'.
    { intros d Hd'. destruct (digit_char_ok d Hd') as [Hi _].
      destruct (Ascii.eqb_spec c (digit_char d)) as [E|]; [|done]. by rewrite <- E, Hc in Hi. }
    simpl. by rewrite !Hd' by dlia. }
  assert (four year = fun s => two (year / 100) (two (year mod 100) s)) as ->.
  { unfold four. destruct (year <? 0) eqn:E1; zify_bools; [lia|].
    destruct (year <? 10000) eqn:E2; zify_bools; [done|lia]. }
  assert (forall d s, contains_byte "-T:Z" d = true -> contains_byte (String d s) c = contains_byte s c)
    as Hsep.
  { intros d s Hd'. simpl. destruct (Ascii.eqb_spec c d) as [E|]; [|done]. by rewrite E, Hd' in Hs. }
  repeat first [rewrite Htwo by dlia | rewrite Hsep by reflexivity]. done.
Qed.
