(* ===== verification/Vfs.v ===== *)
(** * Files on a path store: the environment of the stores

    The control store and the backup store keep files under [vfs.Path]s (of
    k8s.io/kops).  This file has the operations they use, the joining of paths,
    and the store that the library documents: a map from paths to contents, in
    which reading finds what was written last and listing finds every file
    below a path.  Contents are byte strings. *)

From stdpp Require Import base gmap sets list strings.
From Stdlib Require Import Ascii.
From S2P Require Import Prelude Effects GoLib.

Local Open Scope Z_scope.

(** ** Paths *)

(** [path.Base] *)
Fixpoint trim_slashes (s : string) : string :=
  match s with
  | EmptyString => EmptyString
  | String c s' =>
      match trim_slashes s' with
      | EmptyString => if Ascii.eqb c "/" then EmptyString else String c EmptyString
      | s'' => String c s''
      end
  end.

Definition Base (p : string) : string :=
  if String.eqb p "" then "."
  else
    let q := trim_slashes p in
    if String.eqb q "" then "/" else default "" (last (Split q "/")).

(** [path.Dir]: what precedes the last slash, cleaned. *)
Fixpoint upto_slash (s : string) : string :=
  match s with
  | EmptyString => EmptyString
  | String c s' => if contains_byte s "/" then String c (upto_slash s') else EmptyString
  end.
Definition Dir (p : string) : string := Clean (upto_slash p).

Example Dir_1 : Dir "/tmp/x/download/snapshot.db.gz" = "/tmp/x/download".
Proof. reflexivity. Qed.

(** A name that a path can have as a component. *)
Definition plain (n : string) : bool :=
  negb (String.eqb n "") && negb (String.eqb n ".") && negb (String.eqb n "..")
  && negb (contains_byte n "/").

(** A clean path: plain components, relative or absolute. *)
Definition cleanPath (b : string) : Prop :=
  exists comps, comps <> [] /\ forallb plain comps = true /\
    (b = Join comps "/" \/ b = "/" +:+ Join comps "/").

Lemma plain_no_slash n : plain n = true -> contains_byte n "/" = false.
Proof. unfold plain. rewrite !andb_true_iff, !negb_true_iff. tauto. Qed.

Lemma cut_app c a b : contains_byte a c = false -> cut c (a +:+ String c b) = Some (a, b).
Proof.
  induction a as [|d a IH]; simpl; [by rewrite Ascii.eqb_refl|].
  intros [Hc Ha]%orb_false_iff. by rewrite Hc, IH.
Qed.

Lemma cut_none c a : contains_byte a c = false -> cut c a = None.
Proof. induction a as [|d a IH]; simpl; [done|]. intros [Hc Ha]%orb_false_iff. by rewrite Hc, IH. Qed.

Lemma Join_cons p q ps sep : Join (p :: q :: ps) sep = p +:+ sep +:+ Join (q :: ps) sep.
Proof. done. Qed.

Lemma Join_app ps qs sep :
  ps <> [] -> qs <> [] -> Join (ps ++ qs) sep = Join ps sep +:+ sep +:+ Join qs sep.
Proof.
  intros Hp Hq. induction ps as [|p [|q ps] IH]; [done| |].
  - destruct qs; [done|]. done.
  - change ((p :: q :: ps) ++ qs) with (p :: (q :: ps) ++ qs).
    change ((q :: ps) ++ qs) with (q :: ps ++ qs). rewrite !Join_cons.
    change (q :: ps ++ qs) with ((q :: ps) ++ qs). rewrite IH by done.
    by rewrite !string_app_assoc.
Qed.

Lemma SplitN_Join c comps n :
  comps <> [] -> Forall (fun s => contains_byte s c = false) comps -> (length comps <= n)%nat ->
  SplitN (Join comps (String c EmptyString)) c n = comps.
Proof.
  revert n. induction comps as [|p [|q ps] IH]; intros n Hne Hall Hn; [done| |].
  - apply Forall_cons_1 in Hall as [Hp _]. simpl in Hn.
    destruct n as [|[|n]]; [lia|done|]. simpl. by rewrite cut_none.
  - apply Forall_cons_1 in Hall as [Hp Hall]. rewrite Join_cons.
    destruct n as [|[|n]]; [simpl in Hn; lia..|].
    change (SplitN (p +:+ String c "" +:+ Join (q :: ps) (String c "")) c (S (S n)))
      with (match cut c (p +:+ String c (Join (q :: ps) (String c ""))) with
            | Some (a, b) => a :: SplitN b c (S n)
            | None => [p +:+ String c (Join (q :: ps) (String c ""))]
            end).
    rewrite cut_app by done. f_equal. apply IH; [done|done|simpl in *; lia].
Qed.

Lemma Join_length comps c :
  (length comps <= S (String.length (Join comps (String c EmptyString))))%nat.
Proof.
  induction comps as [|p [|q ps] IH]; [simpl; lia|simpl; lia|].
  rewrite Join_cons, !string_app_length. simpl in *. lia.
Qed.

Lemma Split_Join c comps :
  comps <> [] -> Forall (fun s => contains_byte s c = false) comps ->
  Split (Join comps (String c EmptyString)) c = comps.
Proof. intros Hne Hall. apply SplitN_Join; [done|done|apply Join_length]. Qed.

Lemma cut_no_sep c s a b : cut c s = Some (a, b) -> contains_byte a c = false.
Proof.
  revert a. induction s as [|d s IH]; intros a; [done|]. cbn. destruct (Ascii.eqb c d) eqn:E; [by intros [= <- <-]|].
  destruct (cut c s) as [[a' b']|]; [|done]. intros [= <- ->]. cbn. rewrite E. by apply IH.
Qed.
Lemma cut_length c s a b : cut c s = Some (a, b) -> (String.length b < String.length s)%nat.
Proof.
  revert a. induction s as [|d s IH]; intros a; [done|]. cbn. destruct (Ascii.eqb c d); [intros [= <- <-]; lia|].
  destruct (cut c s) as [[a' b']|]; [|done]. intros [= <- ->]. specialize (IH a' eq_refl). lia.
Qed.
Lemma cut_None c s : cut c s = None -> contains_byte s c = false.
Proof.
  induction s as [|d s IH]; [done|]. cbn. destruct (Ascii.eqb c d) eqn:E; [done|].
  destruct (cut c s) as [[a' b']|]; [done|]. intros _. by apply IH.
Qed.

(** The parts of a split do not contain the separator. *)
Lemma Split_no_sep s c : Forall (fun l => contains_byte l c = false) (Split s c).
Proof.
  unfold Split. assert (forall n s, (String.length s < n)%nat ->
    Forall (fun l => contains_byte l c = false) (SplitN s c n)) as H; [|apply H; lia].
  induction n as [|n IH]; intros s' Hn; [lia|]. destruct n as [|n].
  { cbn. destruct s'; [by repeat constructor|cbn in Hn; lia]. }
  change (SplitN s' c (S (S n))) with
    (match cut c s' with Some (a, b) => a :: SplitN b c (S n) | None => [s'] end).
  destruct (cut c s') as [[a b]|] eqn:E.
  - constructor; [by eapply cut_no_sep|]. apply IH. apply cut_length in E. lia.
  - apply Forall_singleton. by apply cut_None.
Qed.

Lemma plain_Forall comps :
  forallb plain comps = true -> Forall (fun s => contains_byte s "/" = false) comps.
Proof.
  rewrite forallb_forall. intros H. apply List.Forall_forall. intros n Hn. by apply plain_no_slash, H.
Qed.

Lemma clean_components_plain rooted comps stack :
  forallb plain comps = true -> clean_components rooted comps stack = reverse stack ++ comps.
Proof.
  revert stack. induction comps as [|c comps IH]; intros stack; simpl; [by rewrite app_nil_r|].
  unfold plain at 1. rewrite !andb_true_iff, !negb_true_iff. intros [[[[E1 E2] E3] _] Hall].
  rewrite E1, E2, E3. simpl. rewrite IH by done. rewrite reverse_cons, <- app_assoc. done.
Qed.

Lemma Join_plain_nonempty comps :
  comps <> [] -> forallb plain comps = true ->
  exists c s, Join comps "/" = String c s /\ Ascii.eqb c "/" = false.
Proof.
  destruct comps as [|p ps]; [done|]. intros _. simpl. rewrite andb_true_iff. intros [Hp _].
  pose proof (plain_no_slash _ Hp) as Hs. destruct p as [|c p].
  { done. }
  change (Ascii.eqb "/" c || contains_byte p "/" = false) in Hs. apply orb_false_iff in Hs as [Hc _].
  assert (Ascii.eqb c "/" = false) as Hc' by (by rewrite Ascii.eqb_sym).
  destruct ps; eexists _, _; split; try exact Hc'; reflexivity.
Qed.

Lemma Clean_plain comps :
  comps <> [] -> forallb plain comps = true -> Clean (Join comps "/") = Join comps "/".
Proof.
  intros Hne Hall. destruct (Join_plain_nonempty comps Hne Hall) as (c & s & E & Hc).
  unfold Clean. rewrite Split_Join by (try done; by apply plain_Forall).
  rewrite clean_components_plain by done. change (reverse [] ++ comps) with comps.
  rewrite E. change (HasPrefix (String c s) "/") with (Ascii.eqb "/" c && HasPrefix s "").
  rewrite Ascii.eqb_sym in Hc. by rewrite Hc.
Qed.

Lemma Clean_rooted comps :
  comps <> [] -> forallb plain comps = true ->
  Clean ("/" +:+ Join comps "/") = "/" +:+ Join comps "/".
Proof.
  intros Hne Hall.
  assert ("/" +:+ Join comps "/" = Join ("" :: comps) "/") as E by (by destruct comps).
  assert (Split (Join ("" :: comps) "/") "/" = "" :: comps) as Hs.
  { apply Split_Join; [done|]. by constructor; [|apply plain_Forall]. }
  unfold Clean. rewrite E, Hs, <- E.
  rewrite HasPrefix_app.
  change (String.eqb ("/" +:+ Join comps "/") "") with false.
  change (clean_components true ("" :: comps) []) with (clean_components true comps []).
  by rewrite clean_components_plain.
Qed.

(** Joining plain names to a clean path. *)
Lemma PathJoin_clean b ns :
  cleanPath b -> ns <> [] -> forallb plain ns = true ->
  PathJoin (b :: ns) = b +:+ "/" +:+ Join ns "/" /\ cleanPath (PathJoin (b :: ns)).
Proof.
  intros (comps & Hne & Hall & Hb) Hn Hns.
  assert (filter (fun e => e <> "") (b :: ns) = b :: ns) as Hf.
  { assert (Forall (fun e => e <> "") ns) as Hns'.
    { apply List.Forall_forall. rewrite forallb_forall in Hns. intros x Hx Hx'. specialize (Hns x Hx). by subst. }
    rewrite filter_cons_True.
    - f_equal. clear -Hns'. induction Hns'; [done|]. rewrite filter_cons_True by done. by f_equal.
    - destruct (Join_plain_nonempty comps Hne Hall) as (c & s & E & _).
      destruct Hb as [-> | ->]; [by rewrite E|done]. }
  unfold PathJoin. rewrite Hf. change (b :: ns) with ([b] ++ ns). rewrite Join_app by done.
  change (Join [b] "/") with b.
  assert (comps ++ ns <> []) as Hne' by (by destruct comps).
  assert (forallb plain (comps ++ ns) = true) as Hall' by (by rewrite forallb_app, Hall, Hns).
  destruct Hb as [-> | ->].
  - rewrite <- Join_app by done. rewrite Clean_plain by done. split; [done|]. exists (comps ++ ns). auto.
  - replace (("/" +:+ Join comps "/") +:+ "/" +:+ Join ns "/")
      with ("/" +:+ Join (comps ++ ns) "/") by (by rewrite Join_app, !string_app_assoc).
    rewrite Clean_rooted by done. split; [done|]. exists (comps ++ ns). auto.
Qed.

Lemma cleanPath_split b :
  cleanPath b -> exists pre, pre <> [] /\ Split b "/" = pre /\
    Forall (fun s => contains_byte s "/" = false) pre /\ b = Join pre "/".
Proof.
  intros (comps & Hne & Hall & [-> | ->]).
  - exists comps. split; [done|]. split; [apply Split_Join; [done|by apply plain_Forall]|].
    split; [by apply plain_Forall|done].
  - exists ("" :: comps). assert ("/" +:+ Join comps "/" = Join ("" :: comps) "/") as ->
      by (by destruct comps).
    assert (Forall (fun s => contains_byte s "/" = false) ("" :: comps)) as Hall'
      by (by constructor; [|apply plain_Forall]).
    split; [done|]. split; [by apply Split_Join|done].
Qed.

(** The components of a path below a clean one. *)
Lemma Split_below b ns :
  cleanPath b -> ns <> [] -> forallb plain ns = true ->
  Split (PathJoin (b :: ns)) "/" = Split b "/" ++ ns.
Proof.
  intros Hb Hn Hns. destruct (PathJoin_clean b ns Hb Hn Hns) as [-> _].
  destruct (cleanPath_split b Hb) as (pre & Hpre & -> & Hall & ->).
  rewrite <- Join_app by done. apply Split_Join.
  - by destruct pre.
  - apply Forall_app. split; [done|]. by apply plain_Forall.
Qed.

Lemma trim_slashes_id s : contains_byte s "/" = false -> trim_slashes s = s.
Proof.
  induction s as [|c s IH]; [done|].
  change (Ascii.eqb "/" c || contains_byte s "/" = false -> trim_slashes (String c s) = String c s).
  intros [Hc Hs]%orb_false_iff. rewrite Ascii.eqb_sym in Hc. simpl. rewrite IH by done.
  destruct s; [by rewrite Hc|done].
Qed.

Lemma trim_slashes_app a b : b <> "" -> trim_slashes b = b -> trim_slashes (a +:+ b) = a +:+ b.
Proof.
  intros Hne Hb. induction a as [|c a IH]; [done|]. simpl. rewrite IH.
  by destruct (a +:+ b) eqn:E; [destruct a|].
Qed.

Lemma Base_below b ns n :
  cleanPath b -> forallb plain (ns ++ [n]) = true -> Base (PathJoin (b :: ns ++ [n])) = n.
Proof.
  intros Hb Hns. assert (plain n = true) as Hn.
  { rewrite forallb_app in Hns. apply andb_true_iff in Hns as [_ Hn]. simpl in Hn.
    by rewrite andb_true_r in Hn. }
  pose proof (plain_no_slash _ Hn) as Hsl.
  assert (n <> "") as Hne by (by intros ->).
  assert (ns ++ [n] <> []) as Hne' by (by destruct ns).
  destruct (PathJoin_clean b _ Hb Hne' Hns) as [E _].
  assert (exists a, PathJoin (b :: ns ++ [n]) = a +:+ n) as [a Ha].
  { rewrite E. destruct ns as [|x ns].
    - exists (b +:+ "/"). by rewrite <- string_app_assoc.
    - exists (b +:+ "/" +:+ Join (x :: ns) "/" +:+ "/"). rewrite (Join_app (x :: ns) [n]) by done.
      by rewrite !string_app_assoc. }
  unfold Base. assert (trim_slashes (PathJoin (b :: ns ++ [n])) = PathJoin (b :: ns ++ [n])) as ->.
  { rewrite Ha. apply trim_slashes_app; [done|by apply trim_slashes_id]. }
  assert (String.eqb (PathJoin (b :: ns ++ [n])) "" = false) as ->.
  { apply String.eqb_neq. rewrite Ha. by destruct a, n. }
  rewrite Split_below by done. by rewrite app_assoc, last_snoc.
Qed.

(** ** Operations *)

Inductive file_result := FileOk (data : string) | FileNotExist | FileErr (e : error).
Inductive tree_result := TreeOk (files : list string) | TreeNotExist | TreeErr (e : error).

Inductive vfs_op : Type :=
| VNow
| VReadFile (p : string)
| VWriteFile (p data : string)
| VReadTree (p : string)
| VRemove (p : string)
| VRemoveAllVersions (p : string)
(* files of the local disk *)
| VOpen (p : string)                          (* os.Open and its contents *)
| VMkdirAll (p : string)
| VCreateTemp (dir : string)                  (* os.CreateTemp: the name *)
| VWriteTo (p tmp : string)                   (* Path.WriteTo a local file *)
| VClose (tmp : string)
| VRename (old new : string)
| VRemoveLocal (p : string)
| VMkdirTemp                                  (* os.MkdirTemp: the name *)
| VRemoveAll (p : string)
(* the etcd that is backed up *)
| VEtcdNew (urls : list string)
| VEtcdClose (urls : list string)
| VSnapshotSave (urls : list string) (p : string).

Definition vfs_res (e : vfs_op) : Type :=
  match e with
  | VNow => time
  | VReadFile _ => file_result
  | VReadTree _ => tree_result
  | VOpen _ | VCreateTemp _ | VMkdirTemp => result string
  | _ => option error
  end.

Definition VfsSig : sig := Sig vfs_op vfs_res.
#[export] Instance VfsSig_now : HasNow VfsSig :=
  {| now_op := VNow : op VfsSig; now_time := fun r => r |}.

Abbreviation VM := (M VfsSig).
Abbreviation vcall e := (@call VfsSig _ e).

(** ** The store that the library documents *)

Record disk := mkDisk {
  d_now : time;
  d_files : gmap string string;
  d_local : gmap string string;
  d_snapshot : string;                        (* what a snapshot of etcd contains *)
}.

(** Whether [p] is a file in the tree of [b]. *)
Definition below (b p : string) : bool := HasPrefix p (b +:+ "/").

Definition tree (b : string) (files : gmap string string) : list string :=
  List.filter (below b) (map_to_list files).*1.

Definition set_files (f : gmap string string) (d : disk) : disk := mkDisk (d_now d) f (d_local d) (d_snapshot d).
Definition set_local (f : gmap string string) (d : disk) : disk := mkDisk (d_now d) (d_files d) f (d_snapshot d).

(** Contents are read and written as a whole; [ReadTree] lists in an order that
    [order] chooses; [tmp] names the temporary file of a directory. *)
Definition reliable (order : list nat) (tmp : string -> string) : handler VfsSig disk := fun e d =>
  match e return vfs_res e * disk with
  | VNow => (d_now d, d)
  | VReadFile p => (match d_files d !! p with Some c => FileOk c | None => FileNotExist end, d)
  | VWriteFile p c => (None, set_files (<[p := c]> (d_files d)) d)
  | VReadTree b =>
      (match tree b (d_files d) with
       | [] => TreeNotExist
       | _ :: _ => TreeOk (shuffle order (tree b (d_files d)))
       end, d)
  | VRemove p | VRemoveAllVersions p =>
      (match d_files d !! p with Some _ => None | None => Some "file does not exist" end,
       set_files (delete p (d_files d)) d)
  | VOpen p => (match d_local d !! p with Some c => Ok c | None => Err "no such file" end, d)
  | VMkdirAll _ => (None, d)
  | VCreateTemp dir => (Ok (tmp dir), set_local (<[tmp dir := ""]> (d_local d)) d)
  | VWriteTo p t =>
      match d_files d !! p with
      | Some c => (None, set_local (<[t := c]> (d_local d)) d)
      | None => (Some "file does not exist", d)
      end
  | VClose _ => (None, d)
  | VRename old new =>
      match d_local d !! old with
      | Some c => (None, set_local (<[new := c]> (delete old (d_local d))) d)
      | None => (Some "no such file", d)
      end
  | VRemoveLocal p => (None, set_local (delete p (d_local d)) d)
  | VMkdirTemp => (Ok (tmp ""), d)
  | VRemoveAll p =>
      (None, set_local (filter (fun e => negb (String.eqb (fst e) p || below p (fst e)) = true)
                          (d_local d)) d)
  | VEtcdNew _ | VEtcdClose _ => (None, d)
  | VSnapshotSave _ p => (None, set_local (<[p := d_snapshot d]> (d_local d)) d)
  end.

Lemma elem_of_tree b p files : p ∈ tree b files <-> below b p = true /\ is_Some (files !! p).
Proof.
  unfold tree. rewrite list_elem_of_In, filter_In, <- list_elem_of_In, list_elem_of_fmap. split.
  - intros [([q c] & -> & Hq%elem_of_map_to_list) Hb]. split; [done|by eexists].
  - intros [Hb [c Hc]]. split; [|done]. exists (p, c). by rewrite elem_of_map_to_list.
Qed.

Lemma below_join b ns :
  cleanPath b -> ns <> [] -> forallb plain ns = true -> below b (PathJoin (b :: ns)) = true.
Proof.
  intros Hb Hn Hns. destruct (PathJoin_clean b ns Hb Hn Hns) as [-> _].
  unfold below. rewrite string_app_assoc. apply HasPrefix_app.
Qed.
