(* ===== verification/Hosts.v ===== *)
(** * The hosts file: pkg/hosts/hosts.go

    A [Provider] keeps the names of the cluster in a guarded block of /etc/hosts.
    [hostsText] is the rewriting of the text, [update] the merge of verified names
    with the fallbacks from discovery, [pseudoAtomicWrite] the write.

    The slices of names are modelled with their spare capacity: [update] copies
    the map [h.primary] but not the slices in it, so that appending to a slice
    with room and sorting it changes what [h.primary] holds. *)

From stdpp Require Import base gmap sets list strings sorting pretty.
From Stdlib Require Import Ascii.
From S2P Require Import Prelude Effects GoLib Vfs.

Local Open Scope Z_scope.

(** ** The environment *)

Inductive hosts_op : Type :=
| HRange                                       (* the order of a map iteration *)
| HStat (p : string)                           (* os.Stat, for the mode *)
| HReadFile (p : string)
| HWriteFile (p data : string)
| HSleep.                                      (* a random pause *)

Definition hosts_res (e : hosts_op) : Type :=
  match e with
  | HRange => list nat
  | HStat _ | HWriteFile _ _ => option error
  | HReadFile _ => result string
  | HSleep => unit
  end.

Definition HostsSig : sig := Sig hosts_op hosts_res.
#[export] Instance HostsSig_range : HasRange HostsSig :=
  {| range_op := HRange : op HostsSig; range_code := fun r => r |}.

Abbreviation hcall e := (@call HostsSig _ e).

(** ** The text *)

Definition newline : ascii := "010".
Definition tab : string := String "009" "".

(** [strings.Replace s old new -1] for a non-empty [old]. *)
Fixpoint replaceAll (fuel : nat) (s old new : string) : string :=
  match fuel with
  | O => s
  | S fuel' =>
      match Index s old with
      | None => s
      | Some i => take_str i s +:+ new +:+ replaceAll fuel' (drop_str (i + String.length old) s) old new
      end
  end.
Definition Replace (s old new : string) : string := replaceAll (String.length s) s old new.

Definition GUARD_BEGIN_TEMPLATE : string := "# Begin host entries managed by __key__ - do not edit".
Definition GUARD_END_TEMPLATE : string := "# End host entries managed by __key__".
Definition guardBegin (key : string) : string := Replace GUARD_BEGIN_TEMPLATE "__key__" key.
Definition guardEnd (key : string) : string := Replace GUARD_END_TEMPLATE "__key__" key.

(** The variables of the loop over the lines. *)
Record scan := mkScan { out : list string; inGuardBlock : bool; skipBlank : bool }.

Definition scanLine (key : string) (st : scan) (line : string) : scan :=
  let k := TrimSpace line in
  if String.eqb k "" && skipBlank st then mkScan (out st) (inGuardBlock st) false
  else
    let inGuard := String.eqb k (guardBegin key) || inGuardBlock st in
    let out' := if inGuard then out st else out st ++ [line] in
    if String.eqb k (guardEnd key)
    then mkScan (if inGuard then out' else take (length out' - 1) out') false true
    else mkScan out' inGuard false.

(** Remove the empty lines at the end. *)
Fixpoint stripFuel (n : nat) (l : list string) : list string :=
  match n with
  | O => l
  | S n' =>
      match last l with
      | Some x => if String.eqb x "" then stripFuel n' (take (length l - 1) l) else l
      | None => l
      end
  end.
Definition stripBlank (l : list string) : list string := stripFuel (length l) l.

(** The lines outside of the blocks. *)
Definition userLines (key data : string) : list string :=
  stripBlank (out (foldl (scanLine key) (mkScan [] false false) (Split data newline))).

(** The names of an entry, without repetitions next to each other. *)
Fixpoint joinHosts (prev : option string) (hosts : list string) : string :=
  match hosts with
  | [] => ""
  | host :: hosts' =>
      if bool_decide (prev = Some host) then joinHosts (Some host) hosts'
      else (match prev with Some _ => " " | None => "" end) +:+ host +:+ joinHosts (Some host) hosts'
  end.

Definition entryLine (addr : string) (hosts : list string) : string := addr +:+ tab +:+ joinHosts None hosts.

(** The new text, from the lines of the entries. *)
Definition hostsLines (key : string) (entries user : list string) : list string :=
  user ++ [""] ++ [guardBegin key] ++ entries ++ [guardEnd key] ++ [""].
Definition hostsText (key : string) (entries : list string) (data : string) : string :=
  Join (hostsLines key entries (userLines key data)) (String newline "").

(** ** The provider *)

(** A slice: what it shows and how much room its array has behind that. *)
Record slice := mkSlice { elems : list string; spare : nat }.

(** A slice of the merged map, and whether its array is that of [h.primary]. *)
Definition append (s : slice * bool) (x : string) : slice * bool :=
  match spare (fst s) with
  | O => (mkSlice (elems (fst s) ++ [x]) 0, false)
  | S n => (mkSlice (elems (fst s) ++ [x]) n, snd s)
  end.

Section Provider.
Context {IP : Type} (ipString : IP -> string).

Record Provider := mkProvider {
  Key : string;
  primary : gmap string slice;
  fallbacks : gmap string (list IP);
}.
Definition set_primary (m : gmap string slice) (h : Provider) : Provider := mkProvider (Key h) m (fallbacks h).
Definition set_fallbacks (m : gmap string (list IP)) (h : Provider) : Provider :=
  mkProvider (Key h) (primary h) m.

Abbreviation HM := (M HostsSig Provider).
Abbreviation merged := (gmap string (slice * bool)).

(** [hostExists] *)
Definition hostExists (h : Provider) (host : string) : bool :=
  existsb (fun e => bool_decide (host ∈ elems (snd e))) (map_to_list (primary h)).

Definition addFallback (m : merged) (host : string) (ips : list IP) : merged :=
  foldl (fun m ip => let addr := ipString ip in
    <[addr := append (default (mkSlice [] 0, false) (m !! addr)) host]> m) m ips.

Definition merge (h : Provider) (order : list (string * list IP)) : merged :=
  foldl (fun m e => if hostExists h (fst e) then m else addFallback m (fst e) (snd e))
    ((fun s => (s, true)) <$> primary h) order.

(** [sort.Strings] of every slice of the merged map, and what it does to the
    slices of [h.primary]. *)
Definition sorted (s : slice * bool) : list string := sort_strings (elems (fst s)).
Definition sortShared (m : merged) (p : gmap string slice) : gmap string slice :=
  map_imap (fun addr s =>
    Some (match m !! addr with
          | Some (t, true) => mkSlice (take (length (elems s)) (sorted (t, true))) (spare s)
          | _ => s
          end)) p.

Definition entriesOf (l : list (string * (slice * bool))) : list string :=
  sort_strings ((fun e => entryLine (fst e) (sorted (snd e))) <$> l).

Definition pseudoAtomicWrite (p b : string) : HM (option error) :=
  r ← for_each (seq 1 10) tt (fun _ _ =>
        w ← hcall (HWriteFile p b);
        match w with
        | Some _ => mret (inl tt)
        | None =>
            hcall HSleep ≫= fun _ =>
            c ← hcall (HReadFile p);
            match c with
            | Err _ => mret (inl tt)
            | Ok contents => mret (if String.eqb contents b then inr tt else inl tt)
            end
        end);
  mret (match r with inl _ => Some "failed to consistently write file" | inr _ => None end).

Definition updateHostsFileWithRecords (p key : string) (addrToHosts : merged) : HM (option error) :=
  st ← hcall (HStat p);
  match st with
  | Some _ => mret (Some "error getting file status")
  | None =>
      d ← hcall (HReadFile p);
      match d with
      | Err _ => mret (Some "error reading file")
      | Ok data =>
          l ← range addrToHosts;
          modify (fun h => set_primary (sortShared addrToHosts (primary h)) h) ≫= fun _ =>
          let updated := hostsText key (entriesOf l) data in
          if String.eqb updated data then mret None
          else
            w ← pseudoAtomicWrite p updated;
            match w with
            | Some _ => mret (Some "error writing file")
            | None => mret None
            end
      end
  end.

Definition update : HM (option error) :=
  h ← get;
  l ← range (fallbacks h);
  updateHostsFileWithRecords "/etc/hosts" (Key h) (merge h l).

Definition AddFallbacks (dnsFallbacks : gmap string (list IP)) : HM (option error) :=
  modify (set_fallbacks dnsFallbacks) ≫= fun _ => update.

Definition UpdateHosts (addressToHosts : gmap string slice) : HM (option error) :=
  modify (set_primary addressToHosts) ≫= fun _ => update.
End Provider.

(** ** Rewriting the text *)

Lemma guardBegin_eq key : guardBegin key = "# Begin host entries managed by " +:+ key +:+ " - do not edit".
Proof. reflexivity. Qed.
Lemma guardEnd_eq key : guardEnd key = "# End host entries managed by " +:+ key.
Proof. unfold guardEnd, Replace. cbn. by rewrite string_app_nil_r. Qed.

(** A key whose guards are found again: without line breaks, and without white
    space at the end. *)
Definition goodKey (key : string) : Prop :=
  contains_byte key newline = false /\ TrimSpace (guardBegin key) = guardBegin key /\
  TrimSpace (guardEnd key) = guardEnd key.

(** Entries are lines that do not look like the end of the block. *)
Definition goodEntries (key : string) (entries : list string) : Prop :=
  Forall (fun e => contains_byte e newline = false /\ TrimSpace e <> guardEnd key) entries.

(** A line that is not a guard. *)
Definition ordinary (key line : string) : Prop :=
  contains_byte line newline = false /\ TrimSpace line <> guardBegin key /\ TrimSpace line <> guardEnd key.

Lemma guards_differ key : guardBegin key <> guardEnd key.
Proof. rewrite guardBegin_eq, guardEnd_eq. done. Qed.

Lemma guards_no_newline key :
  contains_byte key newline = false ->
  contains_byte (guardBegin key) newline = false /\ contains_byte (guardEnd key) newline = false.
Proof.
  intros Hk. rewrite guardBegin_eq, guardEnd_eq, !contains_byte_app, Hk. done.
Qed.

Lemma take_snoc {A} (l : list A) x : take (length (l ++ [x]) - 1) (l ++ [x]) = l.
Proof. rewrite length_app. cbn. rewrite Nat.add_sub. apply take_app_length. Qed.

(** What is kept has no guards in it. *)
Lemma scan_ordinary key lines st :
  Forall (fun l => contains_byte l newline = false) lines -> Forall (ordinary key) (out st) ->
  Forall (ordinary key) (out (foldl (scanLine key) st lines)).
Proof.
  intros Hl. revert st. induction Hl as [|line lines Hline _ IH]; intros st Hst; [done|].
  cbn [foldl]. apply IH. unfold scanLine.
  destruct (String.eqb (TrimSpace line) "" && skipBlank st); [done|].
  destruct (String.eqb_spec (TrimSpace line) (guardBegin key)) as [Hb|Hb]; cbn [orb].
  { rewrite (proj2 (String.eqb_neq _ _)); [done|]. rewrite Hb. apply guards_differ. }
  destruct (inGuardBlock st).
  { by destruct (String.eqb (TrimSpace line) (guardEnd key)). }
  destruct (String.eqb_spec (TrimSpace line) (guardEnd key)) as [He|He]; cbn [out].
  - by rewrite take_snoc.
  - apply Forall_app. split; [done|]. by apply Forall_singleton.
Qed.

(** Lines that are not guards are kept, outside of a block. *)
Lemma scan_keeps key lines o :
  Forall (ordinary key) lines -> foldl (scanLine key) (mkScan o false false) lines = mkScan (o ++ lines) false false.
Proof.
  intros Hl. revert o. induction Hl as [|line lines (_ & Hb & He) _ IH]; intros o; cbn [foldl].
  { by rewrite app_nil_r. }
  unfold scanLine at 2. cbn [skipBlank inGuardBlock out]. rewrite andb_false_r.
  rewrite (proj2 (String.eqb_neq _ _) Hb), (proj2 (String.eqb_neq _ _) He). cbn [orb].
  rewrite IH. by rewrite <- app_assoc.
Qed.

Lemma scan_inside key entries o :
  goodEntries key entries -> foldl (scanLine key) (mkScan o true false) entries = mkScan o true false.
Proof.
  induction 1 as [|line lines (_ & He) _ IH]; [done|]. cbn [foldl]. unfold scanLine at 2.
  cbn [skipBlank inGuardBlock out]. rewrite andb_false_r, orb_true_r, (proj2 (String.eqb_neq _ _) He). done.
Qed.

Lemma scan_begin key o :
  TrimSpace (guardBegin key) = guardBegin key ->
  scanLine key (mkScan o false false) (guardBegin key) = mkScan o true false.
Proof.
  intros Hb. unfold scanLine. cbn [skipBlank inGuardBlock out]. rewrite andb_false_r, Hb, String.eqb_refl. cbn [orb].
  by rewrite (proj2 (String.eqb_neq _ _) (guards_differ key)).
Qed.
Lemma scan_end key o :
  TrimSpace (guardEnd key) = guardEnd key ->
  scanLine key (mkScan o true false) (guardEnd key) = mkScan o false true.
Proof.
  intros He. unfold scanLine. cbn [skipBlank inGuardBlock out].
  by rewrite andb_false_r, orb_true_r, He, String.eqb_refl.
Qed.
Lemma scan_skip key o b : scanLine key (mkScan o b true) "" = mkScan o b false.
Proof. done. Qed.

(** ** Trailing blank lines *)

Lemma stripFuel_prefix n l : stripFuel n l `prefix_of` l.
Proof.
  revert l. induction n as [|n IH]; intros l; [done|]. cbn. destruct (last l) as [x|] eqn:E; [|done].
  destruct (String.eqb x ""); [|done]. etrans; [apply IH|].
  exists (drop (length l - 1) l). by rewrite take_drop.
Qed.

Lemma stripFuel_last n l : (length l <= n)%nat -> last (stripFuel n l) <> Some "".
Proof.
  revert l. induction n as [|n IH]; intros l Hn; [by destruct l; [|cbn in Hn; lia]|]. cbn.
  destruct (last l) as [x|] eqn:E; [|by rewrite E]. destruct (String.eqb_spec x "") as [->|Hne].
  - apply IH. rewrite length_take. lia.
  - rewrite E. congruence.
Qed.

Lemma stripFuel_id n l : last l <> Some "" -> stripFuel n l = l.
Proof.
  intros Hl. destruct n; [done|]. cbn. destruct (last l) as [x|]; [|done].
  destruct (String.eqb_spec x "") as [->|]; [done|done].
Qed.

Lemma stripBlank_snoc l : last l <> Some "" -> stripBlank (l ++ [""]) = l.
Proof.
  intros Hl. unfold stripBlank. rewrite length_app, Nat.add_comm. cbn. rewrite last_snoc. cbn.
  rewrite take_snoc. by apply stripFuel_id.
Qed.

Lemma userLines_ordinary key data : Forall (ordinary key) (userLines key data) /\ last (userLines key data) <> Some "".
Proof.
  split; [|by apply stripFuel_last]. unfold userLines, stripBlank. set (o := out _).
  assert (Forall (ordinary key) o) as Ho by (apply scan_ordinary; [apply Split_no_sep|done]).
  destruct (stripFuel_prefix (length o) o) as [rest E]. rewrite E in Ho at 1. by apply Forall_app in Ho as [Ho _].
Qed.

(** The lines of the new text are those that were joined. *)
Lemma hostsText_lines key entries data :
  goodKey key -> goodEntries key entries ->
  Split (hostsText key entries data) newline = hostsLines key entries (userLines key data).
Proof.
  intros (Hk & _ & _) He. destruct (guards_no_newline key Hk) as [Hb Hend].
  unfold hostsText. apply Split_Join; [by destruct (userLines key data)|].
  unfold hostsLines. rewrite !Forall_app, !Forall_singleton. split_and!; try done.
  - eapply Forall_impl; [apply (userLines_ordinary key data)|]. by intros l [].
  - eapply Forall_impl; [exact He|]. by intros l [].
Qed.

Lemma blank_ordinary key : ordinary key "".
Proof. unfold ordinary. rewrite guardBegin_eq, guardEnd_eq. done. Qed.

(** A block that was written is found again, as a whole. *)
Lemma userLines_hostsText key entries data :
  goodKey key -> goodEntries key entries -> userLines key (hostsText key entries data) = userLines key data.
Proof.
  intros Hkey He. unfold userLines at 1. rewrite hostsText_lines by done.
  destruct Hkey as (Hk & Hb & Hend). destruct (userLines_ordinary key data) as [Hord Hlast].
  set (user := userLines key data) in *. unfold hostsLines.
  rewrite app_assoc, foldl_app, scan_keeps.
  2: { apply Forall_app. split; [done|]. apply Forall_singleton, blank_ordinary. }
  rewrite !foldl_app. cbn [foldl]. rewrite scan_begin, scan_inside, scan_end, scan_skip by done.
  by apply stripBlank_snoc.
Qed.

(** What is removed at the end is blank. *)
Lemma stripFuel_blank n l : exists k, l = stripFuel n l ++ replicate k "".
Proof.
  revert l. induction n as [|n IH]; intros l; [exists 0%nat; by rewrite app_nil_r|]. cbn.
  destruct (last l) as [x|] eqn:E; [|exists 0%nat; by rewrite app_nil_r].
  destruct (String.eqb_spec x "") as [->|]; [|exists 0%nat; by rewrite app_nil_r].
  apply last_Some in E as [l' ->]. rewrite take_snoc. destruct (IH l') as [k Hk].
  exists (k + 1)%nat. rewrite replicate_add, app_assoc, <- Hk. done.
Qed.

(** ** The lines outside of the blocks *)

(** [outside key skip lines kept]: [kept] are the lines of [lines] outside of
    the blocks of [key].  A block goes from a begin to the next end, or to the
    end of the text if there is none; an end without a begin is not kept either,
    nor is one blank line after an end ([skip]: an end came just before). *)
Inductive outside (key : string) : bool -> list string -> list string -> Prop :=
| outside_nil skip : outside key skip [] []
| outside_skip l ls kept : TrimSpace l = ""%string -> outside key false ls kept -> outside key true (l :: ls) kept
| outside_line skip l ls kept :
    (skip = true -> TrimSpace l <> ""%string) -> TrimSpace l <> guardBegin key -> TrimSpace l <> guardEnd key ->
    outside key false ls kept -> outside key skip (l :: ls) (l :: kept)
| outside_stray skip l ls kept :
    TrimSpace l = guardEnd key -> outside key true ls kept -> outside key skip (l :: ls) kept
| outside_block skip b body e ls kept :
    TrimSpace b = guardBegin key -> Forall (fun l => TrimSpace l <> guardEnd key) body -> TrimSpace e = guardEnd key ->
    outside key true ls kept -> outside key skip (b :: body ++ e :: ls) kept
| outside_open skip b body :
    TrimSpace b = guardBegin key -> Forall (fun l => TrimSpace l <> guardEnd key) body ->
    outside key skip (b :: body) [].

Lemma scan_body key body o :
  Forall (fun l => TrimSpace l <> guardEnd key) body ->
  foldl (scanLine key) (mkScan o true false) body = mkScan o true false.
Proof.
  induction 1 as [|line lines He _ IH]; [done|]. cbn [foldl]. unfold scanLine at 2.
  cbn [skipBlank inGuardBlock out]. by rewrite andb_false_r, orb_true_r, (proj2 (String.eqb_neq _ _) He).
Qed.

Lemma guards_nonempty key : guardBegin key <> ""%string /\ guardEnd key <> ""%string.
Proof. rewrite guardBegin_eq, guardEnd_eq. by split. Qed.

Lemma scanLine_begin key skip b o :
  TrimSpace b = guardBegin key -> scanLine key (mkScan o false skip) b = mkScan o true false.
Proof.
  intros Hb. unfold scanLine. cbn [skipBlank inGuardBlock out]. rewrite Hb, String.eqb_refl. cbn [orb].
  rewrite (proj2 (String.eqb_neq _ _) (proj1 (guards_nonempty key))).
  by rewrite (proj2 (String.eqb_neq _ _) (guards_differ key)).
Qed.

(** The scan keeps exactly those lines. *)
Lemma scan_outside key skip lines kept o :
  outside key skip lines kept -> out (foldl (scanLine key) (mkScan o false skip) lines) = o ++ kept.
Proof.
  intros H. revert o. induction H as [skip|l ls kept Hl _ IH|skip l ls kept Hs Hb He _ IH|skip l ls kept Hl _ IH
    |skip b body e ls kept Hb Hbody He _ IH|skip b body Hb Hbody]; intros o; cbn [foldl].
  - by rewrite app_nil_r.
  - unfold scanLine at 2. cbn [skipBlank inGuardBlock out]. rewrite Hl. apply IH.
  - unfold scanLine at 2. cbn [skipBlank inGuardBlock out].
    rewrite (proj2 (String.eqb_neq _ _) Hb), (proj2 (String.eqb_neq _ _) He). cbn [orb].
    assert (String.eqb (TrimSpace l) "" && skip = false) as ->.
    { destruct skip; [|apply andb_false_r]. rewrite andb_true_r. by apply String.eqb_neq, Hs. }
    rewrite IH. by rewrite <- app_assoc.
  - unfold scanLine at 2. cbn [skipBlank inGuardBlock out]. rewrite Hl, String.eqb_refl.
    rewrite (proj2 (String.eqb_neq _ _) (proj2 (guards_nonempty key))).
    assert (String.eqb (guardEnd key) (guardBegin key) = false) as -> by (apply String.eqb_neq; intros E; by apply (guards_differ key)).
    cbn [andb orb]. rewrite take_snoc. apply IH.
  - rewrite scanLine_begin, foldl_app, scan_body by done. cbn [foldl]. unfold scanLine at 2.
    cbn [skipBlank inGuardBlock out]. rewrite andb_false_r, orb_true_r, He, String.eqb_refl. apply IH.
  - rewrite scanLine_begin, scan_body by done. by rewrite app_nil_r.
Qed.

Lemma outside_unique key skip lines kept kept' :
  outside key skip lines kept -> outside key skip lines kept' -> kept = kept'.
Proof. intros H%(scan_outside _ _ _ _ []) H'%(scan_outside _ _ _ _ []). simpl in *. congruence. Qed.

(** Every text has them. *)
Lemma find_end key (ls : list string) :
  Forall (fun l => TrimSpace l <> guardEnd key) ls \/
  exists body e rest, ls = body ++ e :: rest /\ Forall (fun l => TrimSpace l <> guardEnd key) body /\ TrimSpace e = guardEnd key.
Proof.
  induction ls as [|l ls [IH|(body & e & rest & -> & Hb & He)]]; [by left|..];
    (destruct (decide (TrimSpace l = guardEnd key)) as [E|E]; [right|]).
  - exists [], l, ls. by split_and!.
  - left. by constructor.
  - by exists [], l, (body ++ e :: rest).
  - right. exists (l :: body), e, rest. split_and!; [done|by constructor|done].
Qed.

Lemma outside_total key skip lines : exists kept, outside key skip lines kept.
Proof.
  enough (forall n skip lines, (length lines <= n)%nat -> exists kept, outside key skip lines kept) as H by (by eapply H).
  clear. intros n. induction n as [|n IH]; intros skip [|l ls] Hn; cbn in Hn; try (exists []; apply outside_nil); [lia|].
  destruct (decide (TrimSpace l = guardEnd key)) as [He|He].
  { destruct (IH true ls) as [kept H]; [lia|]. exists kept. by apply outside_stray. }
  destruct (decide (TrimSpace l = guardBegin key)) as [Hb|Hb].
  { destruct (find_end key ls) as [Hbody|(body & e & rest & -> & Hbody & Hend)]; [exists []; by apply outside_open|].
    destruct (IH true rest) as [kept H]; [rewrite length_app in Hn; cbn in Hn; lia|]. exists kept. by apply outside_block. }
  destruct (IH false ls) as [kept H]; [lia|].
  destruct (decide (skip = true /\ TrimSpace l = ""%string)) as [[-> Hl]|Hl]; [exists kept; by apply outside_skip|].
  exists (l :: kept). apply outside_line; naive_solver.
Qed.

(** The lines of the user in the new text. *)
Lemma userLines_outside key data :
  exists kept n, outside key false (Split data newline) kept /\ kept = userLines key data ++ replicate n "".
Proof.
  destruct (outside_total key false (Split data newline)) as [kept H]. exists kept.
  unfold userLines. rewrite (scan_outside key false _ kept []) by done. cbn [app].
  destruct (stripFuel_blank (length kept) kept) as [n E]. by exists n.
Qed.

(** ** Names *)

Section Names.
Context {IP : Type} (ipString : IP -> string).
Abbreviation Provider := (Provider (IP := IP)).

(** The provider is to resolve [host] to [addr]: a verified name, or a fallback
    for a name that is not verified. *)
Definition verified (h : Provider) (host : string) : Prop :=
  exists addr s, primary h !! addr = Some s /\ host ∈ elems s.
Definition resolves (h : Provider) (addr host : string) : Prop :=
  (exists s, primary h !! addr = Some s /\ host ∈ elems s) \/
  (exists ips, fallbacks h !! host = Some ips /\ addr ∈ ipString <$> ips /\ ~ verified h host).

Lemma hostExists_spec h host : hostExists h host = true <-> verified h host.
Proof.
  unfold hostExists, verified. rewrite existsb_exists. setoid_rewrite <- list_elem_of_In. split.
  - intros ([addr s] & Hin%elem_of_map_to_list & H). apply bool_decide_eq_true in H. eauto.
  - intros (addr & s & Hp & Hin). exists (addr, s). split; [by apply elem_of_map_to_list|].
    by apply bool_decide_eq_true.
Qed.

(** [x] is a name of [addr] in the merged map. *)
Definition has (m : gmap string (slice * bool)) (addr x : string) : Prop :=
  exists s, m !! addr = Some s /\ x ∈ elems (fst s).

Lemma append_elems s x : elems (fst (append s x)) = elems (fst s) ++ [x].
Proof. unfold append. by destruct (spare (fst s)). Qed.

Lemma has_append m a host addr x :
  has (<[a := append (default (mkSlice [] 0, false) (m !! a)) host]> m) addr x <->
  has m addr x \/ (x = host /\ addr = a).
Proof.
  unfold has. destruct (decide (addr = a)) as [->|Hne].
  - setoid_rewrite lookup_insert_eq. split.
    + intros (s & [= <-] & Hx). rewrite append_elems in Hx. apply elem_of_app in Hx as [Hx|Hx%list_elem_of_singleton].
      * destruct (m !! a) as [s|]; [left; eauto|by apply elem_of_nil in Hx].
      * by right.
    + intros H. eexists. split; [done|]. rewrite append_elems. apply elem_of_app.
      destruct H as [(s & Hs & Hx)|[-> _]]; [left; by rewrite Hs|right; by left].
  - rewrite lookup_insert_ne by done. naive_solver.
Qed.

Lemma has_addFallback m host ips addr x :
  has (addFallback ipString m host ips) addr x <-> has m addr x \/ (x = host /\ addr ∈ ipString <$> ips).
Proof.
  unfold addFallback. revert m. induction ips as [|ip ips IH]; intros m; cbn [foldl].
  { split; [by left|]. intros [?|[_ H]]; [done|by apply elem_of_nil in H]. }
  rewrite IH, has_append. cbn [fmap list_fmap]. rewrite elem_of_cons. naive_solver.
Qed.

Lemma has_merge h order addr x :
  has (merge ipString h order) addr x <->
  (exists s, primary h !! addr = Some s /\ x ∈ elems s) \/
  (exists ips, (x, ips) ∈ order /\ addr ∈ ipString <$> ips /\ ~ verified h x).
Proof.
  unfold merge.
  assert (forall m, has (foldl (fun m e => if hostExists h (fst e) then m else addFallback ipString m (fst e) (snd e)) m order)
      addr x <-> has m addr x \/ (exists ips, (x, ips) ∈ order /\ addr ∈ ipString <$> ips /\ ~ verified h x)) as H.
  { induction order as [|[host ips] order IH]; intros m; cbn [foldl].
    { split; [by left|]. intros [?|(? & H & _)]; [done|by apply elem_of_nil in H]. }
    rewrite IH. cbn [fst snd]. setoid_rewrite elem_of_cons.
    pose proof (hostExists_spec h host) as He. destruct (hostExists h host).
    - assert (verified h host) by (by apply He). naive_solver.
    - assert (~ verified h host) by (intros Hv; apply He in Hv; done). rewrite has_addFallback. naive_solver. }
  rewrite H. apply or_iff_compat_r. unfold has. setoid_rewrite lookup_fmap. split.
  - intros (s & Hs & Hx). destruct (primary h !! addr) as [s'|]; [|done]. cbn in Hs. injection Hs as <-. eauto.
  - intros (s & Hs & Hx). rewrite Hs. cbn. eauto.
Qed.

(** The merged map has exactly the names that are to be resolved, whatever the
    order in which the fallbacks are visited. *)
Lemma merge_resolves h order addr x :
  order ≡ₚ map_to_list (fallbacks h) -> has (merge ipString h order) addr x <-> resolves h addr x.
Proof.
  intros Ho. rewrite has_merge. unfold resolves. apply or_iff_compat_l.
  setoid_rewrite Ho. setoid_rewrite elem_of_map_to_list. done.
Qed.

(** The lines of the entries: one for each address, with its names in order. *)
Definition describes (h : Provider) (entries : list string) : Prop :=
  (forall line, line ∈ entries -> exists addr hosts, line = entryLine addr hosts /\
     StronglySorted str_le hosts /\ forall x, x ∈ hosts <-> resolves h addr x) /\
  (forall addr x, resolves h addr x -> exists hosts, entryLine addr hosts ∈ entries /\ x ∈ hosts).

Lemma sorted_elem s x : x ∈ sorted s <-> x ∈ elems (fst s).
Proof. unfold sorted, sort_strings. by rewrite stable_sort_perm. Qed.

Lemma sorted_Sorted s : StronglySorted str_le (sorted s).
Proof.
  apply Sorted_StronglySorted; [apply _|]. unfold sorted, sort_strings. by apply stable_sort_sorted; apply _.
Qed.

Lemma entries_describe h order l :
  order ≡ₚ map_to_list (fallbacks h) -> l ≡ₚ map_to_list (merge ipString h order) -> describes h (entriesOf l).
Proof.
  intros Ho Hl.
  assert (forall line, line ∈ entriesOf l <->
    exists addr s, line = entryLine addr (sorted s) /\ merge ipString h order !! addr = Some s) as Hin.
  { intros line. unfold entriesOf, sort_strings. rewrite stable_sort_perm, list_elem_of_fmap. setoid_rewrite Hl. split.
    - intros ([addr s] & -> & Hs%elem_of_map_to_list). eauto.
    - intros (addr & s & -> & Hs). exists (addr, s). by rewrite elem_of_map_to_list. }
  split.
  - intros line (addr & s & -> & Hs)%Hin. exists addr, (sorted s). split; [done|].
    split; [apply sorted_Sorted|]. intros x. rewrite sorted_elem, <- (merge_resolves h order) by done.
    unfold has. rewrite Hs. naive_solver.
  - intros addr x (s & Hs & Hx)%(merge_resolves h order addr x Ho). exists (sorted s). split; [|by apply sorted_elem].
    apply Hin. eauto.
Qed.

(** ** Shared slices *)

(** Without spare capacity, a slice of the merged map that shares the array of
    [h.primary] is the slice that is there. *)
Definition full (h : Provider) : Prop := forall addr s, primary h !! addr = Some s -> spare s = 0%nat.

Lemma merge_shared h order addr t :
  full h -> merge ipString h order !! addr = Some (t, true) -> primary h !! addr = Some t.
Proof.
  intros Hfull. unfold merge.
  assert (forall m, (forall a t, m !! a = Some (t, true) -> primary h !! a = Some t) ->
    forall host ips a t, addFallback ipString m host ips !! a = Some (t, true) -> primary h !! a = Some t) as Hadd.
  { intros m Hm host ips. revert m Hm. induction ips as [|ip ips IH]; intros m Hm; [done|].
    apply IH. intros a t'. destruct (decide (a = ipString ip)) as [->|Hne].
    - rewrite lookup_insert_eq. intros [= E]. destruct (m !! ipString ip) as [[s sh]|] eqn:Em; [|done].
      unfold append in E. cbn in E. destruct (spare s) eqn:Es; [done|]. injection E as <- ->.
      specialize (Hfull _ _ (Hm _ _ Em)). lia.
    - rewrite lookup_insert_ne by done. apply Hm. }
  assert (forall m, (forall a t, m !! a = Some (t, true) -> primary h !! a = Some t) ->
    foldl (fun m e => if hostExists h (fst e) then m else addFallback ipString m (fst e) (snd e)) m order
      !! addr = Some (t, true) -> primary h !! addr = Some t) as H.
  { induction order as [|[host ips] order IH]; intros m Hm; [apply Hm|]. cbn [foldl]. apply IH.
    destruct (hostExists h (fst (host, ips))); [done|]. by apply Hadd. }
  apply H. intros a t'. rewrite lookup_fmap. destruct (primary h !! a); [|done]. cbn. by intros [= ->].
Qed.

(** The same names for the same addresses, in any order. *)
Definition same_names (p p' : gmap string slice) : Prop :=
  forall addr, option_Forall2 (fun s s' => elems s ≡ₚ elems s') (p !! addr) (p' !! addr).

Lemma sortShared_full h order :
  full h -> same_names (primary h) (sortShared (merge ipString h order) (primary h)).
Proof.
  intros Hfull addr. unfold sortShared. rewrite map_lookup_imap.
  destruct (primary h !! addr) as [s|] eqn:Hs; cbn; [|constructor]. constructor.
  destruct (merge ipString h order !! addr) as [[t []]|] eqn:Hm; [|done..].
  apply merge_shared in Hm; [|done]. rewrite Hs in Hm. injection Hm as <-. cbn.
  unfold sorted, sort_strings. cbn [fst]. rewrite firstn_all2; [by rewrite stable_sort_perm|].
  by rewrite stable_sort_perm.
Qed.

(** ** In every environment *)

Abbreviation htrace := (trace HostsSig).

Definition isWrite (x : exchange HostsSig) : bool :=
  match asked x with HWriteFile _ _ => true | _ => false end.

(** The writes of [t]: at most [n], all of [b] to [p]; if it is reported as done,
    the file was read last, and was [b]. *)
Definition written (n : nat) (p b : string) (ok : bool) (t : htrace) : Prop :=
  Forall (fun x : exchange HostsSig => isWrite x = true -> asked x = HWriteFile p b) t /\
  (length (List.filter isWrite t) <= n)%nat /\
  (ok = true -> last t = Some (existT (HReadFile p : op HostsSig) (Ok b))).

Lemma written_app n p b ok t t' :
  written 1 p b false t -> written n p b ok t' -> (ok = true -> t' <> []) -> written (S n) p b ok (t ++ t').
Proof.
  intros (H1 & H2 & _) (H3 & H4 & H5) Hne. split; [by apply Forall_app|]. rewrite List.filter_app, length_app.
  split; [lia|]. intros Hok. rewrite last_app. by rewrite (H5 Hok).
Qed.

(** The attempts of [pseudoAtomicWrite]. *)
Lemma attempts_any p b xs (h : Provider) :
  wpm (for_each xs tt (fun (_ : nat) _ =>
        w ← hcall (HWriteFile p b);
        match w with
        | Some _ => mret (inl tt)
        | None =>
            hcall HSleep ≫= fun _ =>
            c ← hcall (HReadFile p);
            match c with
            | Err _ => mret (inl tt)
            | Ok contents => mret (if String.eqb contents b then inr tt else inl tt)
            end
        end)) h
    (fun r h' t => h' = h /\ written (length xs) p b (match r with inl _ => false | inr _ => true end) t)
    (fun _ _ => False).
Proof.
  induction xs as [|x xs IH]; cbn [for_each].
  { apply wpm_ret. split; [done|]. split; [constructor|]. split; [done|done]. }
  apply wpm_bind.
  apply (wpm_mono _ _ (fun r h' t => h' = h /\ written 1 p b (match r with inl _ => false | inr _ => true end) t)
    _ (fun _ _ => False)); [| |done].
  - wpm_steps; (split; [done|]); try (split; [by repeat constructor|split; [cbn; lia|done]]).
    destruct (String.eqb_spec t b) as [->|]; (split; [by repeat constructor|split; [cbn; lia|]]); [done|done].
  - intros [[]|[]] h' t [-> Ht]; cbn iota.
    + eapply wpm_mono; [apply IH| |done]. intros r h' t' [-> Ht']. split; [done|]. cbn [length].
      apply written_app; [done..|]. intros E ->. destruct Ht' as (_ & _ & H). by specialize (H E).
    + apply wpm_ret. rewrite app_nil_r. split; [done|]. destruct Ht as (H1 & H2 & H3). split; [done|].
      split; [cbn; lia|done].
Qed.

Lemma pseudoAtomicWrite_any p b (h : Provider) :
  wpm (pseudoAtomicWrite p b) h (fun r h' t => h' = h /\ written 10 p b (bool_decide (r = None)) t) (fun _ _ => False).
Proof.
  unfold pseudoAtomicWrite. apply wpm_bind. eapply wpm_mono; [apply attempts_any| |done].
  intros r h' t [-> Ht]. apply wpm_ret. rewrite app_nil_r. split; [done|]. by destruct r.
Qed.

(** The texts that were read. *)
Definition readOf (x : exchange HostsSig) : option (result string) :=
  match x with
  | existT e r =>
      match e return hosts_res e -> option (result string) with
      | HReadFile _ => fun r => Some r
      | _ => fun _ => None
      end r
  end.

(** What an update of the names does to the file: nothing is written, or the text
    that was read with the new block, at most ten times; success is reported only
    if the file was this text when it was last read. *)
Definition hosts_updated (h : Provider) (r : option error) (t : htrace) : Prop :=
  List.filter isWrite t = [] /\ r <> None \/
  exists data entries, let updated := hostsText (Key h) entries data in
    head (omap readOf t) = Some (Ok data) /\ describes h entries /\
    (List.filter isWrite t = [] <-> updated = data) /\
    Forall (fun x : exchange HostsSig => isWrite x = true -> asked x = HWriteFile "/etc/hosts" updated) t /\
    (length (List.filter isWrite t) <= 10)%nat /\
    (r = None -> last (omap readOf t) = Some (Ok updated)).

(** The first attempt is always made. *)
Lemma pseudoAtomicWrite_writes p b (h : Provider) :
  wpm (pseudoAtomicWrite p b) h (fun _ _ t => List.filter isWrite t <> []) (fun _ _ => True).
Proof.
  unfold pseudoAtomicWrite. change (seq 1 10) with (1%nat :: seq 2 9). cbn [for_each].
  apply wpm_bind, wpm_bind, wpm_bind. wpm_step. apply wpm_any; [|done]. intros a h' t.
  apply wpm_any; [|done]. intros. apply wpm_any; [|done]. intros. done.
Qed.

Lemma last_readOf (t : htrace) p b :
  last t = Some (existT (HReadFile p : op HostsSig) (Ok b)) -> last (omap readOf t) = Some (Ok b).
Proof. intros [t' ->]%last_Some. rewrite omap_app. cbn. by rewrite last_snoc. Qed.

Lemma update_any (h : Provider) :
  wpm (update ipString) h
    (fun r h' t => hosts_updated h r t /\ Key h' = Key h /\ fallbacks h' = fallbacks h /\
       (full h -> same_names (primary h) (primary h'))) (fun _ _ => False).
Proof.
  assert (same_names (primary h) (primary h)) as Hsame.
  { intros addr. by destruct (primary h !! addr); constructor. }
  unfold update, updateHostsFileWithRecords. wpm_step. wpm_step. wpm_step. wpm_step. intros.
  apply wpm_bind. wpm_step. destruct r0 as [e|].
  { apply wpm_ret. by split; [left|]. }
  wpm_step. wpm_step. destruct r0 as [data|e].
  2: { apply wpm_ret. by split; [left|]. }
  wpm_step. wpm_step. wpm_step. wpm_step. cbv zeta.
  set (entries := entriesOf l0). set (updated := hostsText (Key h) entries data).
  assert (describes h entries) as Hd by (by eapply entries_describe).
  assert (full h -> same_names (primary h) (sortShared (merge ipString h l) (primary h))) as Hfull
    by apply sortShared_full.
  destruct (String.eqb_spec updated data) as [Heq|Hne].
  { apply wpm_ret. cbn [app]. split; [|done]. right. exists data, entries.
    split_and!; [done|done|done|by repeat constructor|cbn; lia|]. intros _. cbn. by fold updated; rewrite Heq. }
  apply wpm_bind. eapply wpm_mono;
    [exact (wpm_conj _ _ _ _ _ _ (pseudoAtomicWrite_any _ _ _) (pseudoAtomicWrite_writes _ _ _))| |by intros ? ? []].
  intros w h' t [[-> (Hw1 & Hw2 & Hw3)] Hw4].
  assert (forall ok, (ok = None -> w = None) -> hosts_updated h ok
    ([existT (HRange : op HostsSig) r; existT (HStat "/etc/hosts" : op HostsSig) None;
      existT (HReadFile "/etc/hosts" : op HostsSig) (Ok data); existT (HRange : op HostsSig) r0] ++ t)) as Hup.
  { intros ok Hok. right. exists data, entries. fold updated. split_and!; [done|done| | |done|].
    - split; [done|]. done.
    - by repeat (constructor; [done|]).
    - intros E. rewrite omap_app, last_app.
      rewrite (last_readOf t "/etc/hosts" updated); [done|]. apply Hw3. by rewrite (Hok E). }
  destruct w; apply wpm_ret; rewrite ?app_nil_r; (split; [by apply Hup|done]).
Qed.
End Names.

(** ** Theorems *)

(** C27: rewriting the hosts file.  The new text is the lines of the old one
    outside of the managed blocks ([outside]: a block goes from a begin to the
    next end; one blank line after an end goes with it), in their order and without
    the blank lines at the end, then a blank line, one block with the entries, and
    an end of line.  What is outside is determined by the text.  The old blocks
    leave no trace: the text that a later update writes is the one it would have
    written without the earlier one, and writing the same entries again changes
    nothing. *)
Theorem hosts_rewrite key entries entries' data
  (Hkey : goodKey key) (Hentries : goodEntries key entries) :
  let text := hostsText key entries data in
  (exists kept user n,
     (forall lines, outside key false (Split data newline) lines <-> lines = kept) /\
     kept = user ++ replicate n "" /\ last user <> Some "" /\
     Split text newline = user ++ [""; guardBegin key] ++ entries ++ [guardEnd key; ""]) /\
  hostsText key entries' text = hostsText key entries' data /\
  hostsText key entries text = text.
Proof.
  intros text. assert (forall es, hostsText key es text = hostsText key es data) as H.
  { intros es. unfold hostsText at 1. unfold text. by rewrite userLines_hostsText. }
  split_and!; [|by apply H|by apply H].
  destruct (userLines_outside key data) as (kept & n & Hk & E). exists kept, (userLines key data), n. split_and!.
  - intros lines. split; [|by intros ->]. intros Hl. by apply (outside_unique key false (Split data newline)).
  - done.
  - apply userLines_ordinary.
  - by apply hostsText_lines.
Qed.

(** C28: updating the names, in every environment.  The file is written only with
    the text of [hosts_rewrite] for the text that was read and for entries that
    list, for each address, exactly the verified names and those fallbacks that
    are not verified names; it is left alone exactly if it is that text already;
    there are at most ten attempts, and success is reported only if the file was
    that text when it was last read.  Nothing crashes.  If the slices of verified
    names have no spare capacity, the provider keeps the verified names. *)
Theorem hosts_update_safe {IP} (ipString : IP -> string) (h : Provider) names dnsFallbacks :
  wpm (UpdateHosts ipString names) h
    (fun r h' t => let h1 := set_primary names h in
       hosts_updated ipString h1 r t /\ fallbacks h' = fallbacks h /\ (full h1 -> same_names names (primary h')))
    (fun _ _ => False) /\
  wpm (AddFallbacks ipString dnsFallbacks) h
    (fun r h' t => let h1 := set_fallbacks dnsFallbacks h in
       hosts_updated ipString h1 r t /\ fallbacks h' = dnsFallbacks /\
       (full h1 -> same_names (primary h) (primary h')))
    (fun _ _ => False).
Proof.
  split; apply wpm_bind, wpm_modify; (eapply wpm_mono; [apply update_any| |done]); cbn; tauto.
Qed.

(** ** Instances *)

Module HostsDemo.
(** A file that nobody else writes. *)
Definition file : handler HostsSig string := fun e w =>
  match e return hosts_res e * string with
  | HRange => ([], w)
  | HStat _ => (None, w)
  | HReadFile _ => (Ok w, w)
  | HWriteFile _ data => (None, data)
  | HSleep => (tt, w)
  end.
Definition key : string := "etcd-manager[etcd]".
(** A slice that was built by appending: its capacity was doubled when needed. *)
Definition built (l : list string) : slice :=
  mkSlice l (Z.to_nat (2 ^ Z.log2_up (Z.of_nat (length l))) - length l).
Definition id_ip (s : string) : string := s.
Definition nl : string := String newline "".
Definition original : string := "127.0.0.1 localhost" +:+ nl +:+ nl.
Definition entries : list string := ["10.0.0.1" +:+ tab +:+ "b c"].
(** Three names of one address are verified; discovery offers a fourth one for the
    same address, and then takes it back. *)
Definition history : M HostsSig (Provider (IP := string)) (option error) :=
  UpdateHosts id_ip {["10.0.0.1" := built ["b"; "c"; "d"]]} ≫= fun _ =>
  AddFallbacks id_ip {["a" := ["10.0.0.1"]]} ≫= fun _ =>
  AddFallbacks id_ip ∅.
Definition start : Provider (IP := string) := mkProvider key ∅ ∅.
End HostsDemo.

(** A text with a block and a line after it. *)
Definition before_after : string :=
  Join ["127.0.0.1 localhost"; guardBegin HostsDemo.key; "10.0.0.9 old"; guardEnd HostsDemo.key; ""; "10.0.0.2 mine"; ""] HostsDemo.nl.

Lemma hosts_rewrite_witness :
  goodKey HostsDemo.key /\ goodEntries HostsDemo.key HostsDemo.entries /\
  Split (hostsText HostsDemo.key HostsDemo.entries before_after) newline =
    ["127.0.0.1 localhost"; "10.0.0.2 mine"; ""; guardBegin HostsDemo.key] ++ HostsDemo.entries ++ [guardEnd HostsDemo.key; ""] /\
  outside HostsDemo.key false (Split before_after newline) ["127.0.0.1 localhost"; "10.0.0.2 mine"; ""] /\
  hostsText HostsDemo.key [] (hostsText HostsDemo.key HostsDemo.entries before_after) = hostsText HostsDemo.key [] before_after.
Proof.
  assert (goodKey HostsDemo.key) as Hk by (split; [|split]; vm_compute; reflexivity).
  assert (goodEntries HostsDemo.key HostsDemo.entries) as He
    by (constructor; [split; vm_compute; [reflexivity|discriminate]|constructor]).
  destruct (hosts_rewrite HostsDemo.key HostsDemo.entries [] before_after Hk He) as ((kept & user & n & Ho & E & Hl & Ht) & H1 & H2).
  split; [exact Hk|]. split; [exact He|]. split; [vm_compute; reflexivity|]. split; [|exact H1].
  change (Split before_after newline) with (["127.0.0.1 localhost"; guardBegin HostsDemo.key] ++ ["10.0.0.9 old"] ++
    [guardEnd HostsDemo.key; ""; "10.0.0.2 mine"; ""]).
  apply outside_line; [discriminate|vm_compute; discriminate|vm_compute; discriminate|].
  apply (outside_block HostsDemo.key false (guardBegin HostsDemo.key) ["10.0.0.9 old"] (guardEnd HostsDemo.key));
    [vm_compute; reflexivity|constructor; [vm_compute; discriminate|constructor]|vm_compute; reflexivity|].
  apply outside_skip; [reflexivity|].
  repeat (apply outside_line; [discriminate|vm_compute; discriminate|vm_compute; discriminate|]). constructor.
Defined.

(** A fallback can displace a verified name.  [update] copies the map of the
    verified names but shares their slices.  With three verified names for an
    address (their slice has room for a fourth), a fallback for the same address
    that is offered and withdrawn stays in the file, and one of the verified names
    is lost, although all calls succeeded. *)
Theorem fallback_displaces_name :
  outcome_of HostsDemo.file (UpdateHosts HostsDemo.id_ip {["10.0.0.1" := HostsDemo.built ["b"; "c"; "d"]]}
    HostsDemo.start) HostsDemo.original
    = Done (None, mkProvider HostsDemo.key {["10.0.0.1" := HostsDemo.built ["b"; "c"; "d"]]} ∅) /\
  exists h file, exec HostsDemo.file (HostsDemo.history HostsDemo.start) HostsDemo.original
      = (trace_of HostsDemo.file (HostsDemo.history HostsDemo.start) HostsDemo.original, Done (None, h), file) /\
    fallbacks h = ∅ /\ elems <$> (primary h !! "10.0.0.1") = Some ["a"; "b"; "c"] /\
    file = hostsText HostsDemo.key ["10.0.0.1" +:+ tab +:+ "a b c"] HostsDemo.original.
Proof. split; [vm_compute; reflexivity|]. eexists _, _. split; [vm_compute; reflexivity|]. vm_compute. auto. Qed.
