(* ===== verification/EtcdVersions.v ===== *)
(** * Etcd versions: pkg/etcdversions and the version parser it uses

    [Semver] models [ParseTolerant] of the vendored [blang/semver]; the rest is
    [pkg/etcdversions/mappings.go]. *)

From stdpp Require Import base list strings pretty.
From Stdlib Require Import Ascii.
From S2P Require Import Prelude Effects GoLib.

Local Open Scope Z_scope.

Module Semver.
Record Version := mkVersion { Major : Z; Minor : Z; Patch : Z }.

Definition alphanum : string :=
  "abcdefghijklmnopqrstuvwxyzABCDEFGHIJKLMNOPQRSTUVWXYZ-0123456789".

Definition hasLeadingZeroes (s : string) : bool :=
  match s with
  | String c (String _ _) => Ascii.eqb c "0"%char
  | _ => false
  end.

(** The checks on one numeric component. *)
Definition parseNumber (s : string) : result Z :=
  if negb (containsOnly s digits) then Err "Invalid character(s) found in number"
  else if hasLeadingZeroes s then Err "number must not contain leading zeroes"
  else ParseUint s.

Definition validPRVersion (s : string) : bool :=
  negb (String.eqb s "")
  && (if containsOnly s digits
      then negb (hasLeadingZeroes s) && is_ok (ParseUint s)
      else containsOnly s alphanum).

Definition validBuild (s : string) : bool :=
  negb (String.eqb s "") && containsOnly s alphanum.

(** [patch[-prerelease][+build]]: the build part is cut off first. *)
Definition splitPatch (s : string) : string * list string * list string :=
  let '(s1, build) := match cut "+"%char s with
                      | Some (a, b) => (a, Split b "."%char)
                      | None => (s, [])
                      end in
  let '(s2, pre) := match cut "-"%char s1 with
                    | Some (a, b) => (a, Split b "."%char)
                    | None => (s1, [])
                    end in
  (s2, pre, build).

Definition Parse (s : string) : result Version :=
  if String.eqb s "" then Err "Version string empty" else
  match SplitN s "."%char 3 with
  | [p0; p1; p2] =>
      match parseNumber p0 with
      | Err e => Err e
      | Ok major =>
          match parseNumber p1 with
          | Err e => Err e
          | Ok minor =>
              let '(patchStr, pre, build) := splitPatch p2 in
              match parseNumber patchStr with
              | Err e => Err e
              | Ok patch =>
                  if negb (forallb validPRVersion pre) then Err "Invalid prerelease"
                  else if negb (forallb validBuild build) then Err "Invalid build meta data"
                  else Ok (mkVersion major minor patch)
              end
          end
      end
  | _ => Err "No Major.Minor.Patch elements found"
  end.

(** "Remove leading zeros." *)
Definition stripZeros (p : string) : string :=
  if (1 <? Z.of_nat (String.length p)) then
    match TrimLeft p "0" with
    | EmptyString => "0"
    | String c p' => if isDigit c then String c p' else "0" +:+ String c p'
    end
  else p.

Definition ParseTolerant (s : string) : result Version :=
  let s := TrimPrefix (TrimSpace s) "v" in
  let parts := map stripZeros (SplitN s "."%char 3) in
  if (Z.of_nat (length parts) <? 3) && ContainsAny (List.last parts "") "+-"
  then Err "Short version cannot contain PreRelease/Build meta data"
  else Parse (Join (parts ++ repeat "0" (3 - length parts))%nat ".").
End Semver.
Import Semver.

Definition Version_3_1_12 := "3.1.12".
Definition Version_3_2_18 := "3.2.18".
Definition Version_3_2_24 := "3.2.24".
Definition Version_3_3_10 := "3.3.10".
Definition Version_3_3_13 := "3.3.13".
Definition Version_3_3_17 := "3.3.17".
Definition Version_3_4_3 := "3.4.3".
Definition Version_3_4_13 := "3.4.13".
Definition Version_3_5_0 := "3.5.0".
Definition Version_3_5_1 := "3.5.1".
Definition Version_3_5_3 := "3.5.3".
Definition Version_3_5_4 := "3.5.4".
Definition Version_3_5_6 := "3.5.6".
Definition Version_3_5_7 := "3.5.7".

Definition AllEtcdVersions : list string :=
  [Version_3_1_12; Version_3_2_18; Version_3_2_24; Version_3_3_10; Version_3_3_13;
   Version_3_3_17; Version_3_4_3; Version_3_4_13; Version_3_5_0; Version_3_5_1;
   Version_3_5_3; Version_3_5_4; Version_3_5_6].

Definition LatestEtcdVersions : list string :=
  [Version_3_1_12; Version_3_2_24; Version_3_3_17; Version_3_4_13; Version_3_5_7].

(** The version numbers are [uint64]: the subtraction wraps around. *)
Definition UpgradeInPlaceSupported (fromVersion toVersion : string) : bool :=
  match ParseTolerant fromVersion with
  | Err _ => false
  | Ok fromSemver =>
      match ParseTolerant toVersion with
      | Err _ => false
      | Ok toSemver =>
          if (Major fromSemver =? 3) && (Major toSemver =? 3) then
            (wrapU64 (Minor toSemver - Minor fromSemver) <=? 1)
            && (Minor fromSemver <=? Minor toSemver)
          else false
      end
  end.

(** [fmt.Sprintf("%d.%d", v.Major, v.Minor)] *)
Definition family (v : Version) : string :=
  FormatUint (Major v) +:+ "." +:+ FormatUint (Minor v).

Definition EtcdVersionForAdoption (fromVersion : string) : string :=
  match ParseTolerant fromVersion with
  | Err _ => ""
  | Ok v =>
      let f := family v in
      if String.eqb f "3.0" then Version_3_1_12
      else if String.eqb f "3.1" then Version_3_1_12
      else if String.eqb f "3.2" then
        (if Patch v <=? 18 then Version_3_2_18 else Version_3_2_24)
      else if String.eqb f "3.3" then
        (if Patch v <=? 10 then Version_3_3_10
         else if Patch v <=? 13 then Version_3_3_13 else Version_3_3_17)
      else if String.eqb f "3.4" then
        (if Patch v <=? 3 then Version_3_4_3 else Version_3_4_13)
      else if String.eqb f "3.5" then Version_3_5_7
      else ""
  end.

Definition EtcdVersionForRestore (fromVersion : string) : string :=
  match ParseTolerant fromVersion with
  | Err _ => ""
  | Ok v =>
      let f := family v in
      if String.eqb f "3.0" then Version_3_1_12
      else if String.eqb f "3.1" then Version_3_1_12
      else if String.eqb f "3.2" then
        (if Patch v <=? 18 then Version_3_2_18 else Version_3_2_24)
      else if String.eqb f "3.3" then
        (if Patch v <=? 10 then Version_3_3_10
         else if Patch v <=? 13 then Version_3_3_13 else Version_3_3_17)
      else if String.eqb f "3.4" then
        (if Patch v <=? 3 then Version_3_4_3 else Version_3_4_13)
      else if String.eqb f "3.5" then Version_3_5_7
      else ""
  end.

Example parse_short : ParseTolerant "v3.4" = Ok (mkVersion 3 4 0).
Proof. reflexivity. Qed.
Example parse_pre : ParseTolerant " 3.05.0-rc.1+build " = Ok (mkVersion 3 5 0).
Proof. reflexivity. Qed.
Example parse_bad : is_ok (ParseTolerant "3.5-rc") = false.
Proof. reflexivity. Qed.

(** ** Properties *)

Lemma parseNumber_range s v : parseNumber s = Ok v -> is_uint64 v.
Proof.
  unfold parseNumber. repeat case_goal; try done. apply ParseUint_range.
Qed.

Lemma Parse_range s v :
  Parse s = Ok v -> is_uint64 (Major v) /\ is_uint64 (Minor v) /\ is_uint64 (Patch v).
Proof.
  unfold Parse. intros H. repeat (case_hyp H; try done);
    simplify_eq; refine (conj _ (conj _ _)); by eapply parseNumber_range.
Qed.

Lemma ParseTolerant_range s v :
  ParseTolerant s = Ok v -> is_uint64 (Major v) /\ is_uint64 (Minor v) /\ is_uint64 (Patch v).
Proof. unfold ParseTolerant. case_goal; [done|]. apply Parse_range. Qed.

Lemma family_inj v a b :
  0 <= Major v -> 0 <= Minor v -> 0 <= a -> 0 <= b ->
  family v = FormatUint a +:+ "." +:+ FormatUint b -> Major v = a /\ Minor v = b.
Proof.
  unfold family. intros ???? Hf.
  apply digits_sep_inj in Hf as [? ?]; auto using FormatUint_digits.
  split; by apply FormatUint_inj.
Qed.

(** ** Theorems *)

Lemma upgrade_in_place_spec a b :
  UpgradeInPlaceSupported a b = true <->
  exists va vb,
    ParseTolerant a = Ok va /\ ParseTolerant b = Ok vb /\
    Major va = 3 /\ Major vb = 3 /\
    (Minor vb = Minor va \/ Minor vb = Minor va + 1).
Proof.
  unfold UpgradeInPlaceSupported.
  destruct (ParseTolerant a) as [va|] eqn:Ha; [|naive_solver].
  destruct (ParseTolerant b) as [vb|] eqn:Hb; [|naive_solver].
  destruct (ParseTolerant_range _ _ Ha) as (_ & Hma & _).
  destruct (ParseTolerant_range _ _ Hb) as (_ & Hmb & _).
  assert (wrapU64 (Minor vb - Minor va) <= 1 /\ Minor va <= Minor vb <->
          Minor vb = Minor va \/ Minor vb = Minor va + 1) as Hm.
  { destruct (decide (Minor va <= Minor vb)).
    - rewrite wrapU64_id by (unfold is_uint64 in *; lia). lia.
    - unfold is_uint64 in *. lia. }
  split.
  - repeat case_goal; [|done]. intros H. zify_bools. exists va, vb. naive_solver.
  - intros (va' & vb' & [= <-] & [= <-] & -> & -> & H%Hm). simpl.
    apply andb_true_iff. rewrite !Z.leb_le. tauto.
Qed.

(** C30: in-place upgrade is offered exactly for versions of major 3 that
    both parse and whose minor version stays or goes up by one; the wrap-around
    of the unsigned subtraction never makes a downgrade or a jump look like a
    single step. *)
Theorem UpgradeInPlaceSupported_iff a b :
  UpgradeInPlaceSupported a b = true <->
  exists va vb,
    ParseTolerant a = Ok va /\ ParseTolerant b = Ok vb /\
    Major va = 3 /\ Major vb = 3 /\
    (Minor vb = Minor va \/ Minor vb = Minor va + 1).
Proof. apply upgrade_in_place_spec. Qed.

Lemma adoption_in_place v :
  EtcdVersionForAdoption v <> "" ->
  UpgradeInPlaceSupported v (EtcdVersionForAdoption v) = true.
Proof.
  unfold EtcdVersionForAdoption.
  destruct (ParseTolerant v) as [x|] eqn:Hv; [|done]. intros Hne.
  apply upgrade_in_place_spec.
  destruct (ParseTolerant_range _ _ Hv) as ([HM _] & [Hm _] & _).
  pose proof (fun b Hb => family_inj x 3 b HM Hm ltac:(lia) Hb) as Hf.
  repeat case_goal; try done; zify_bools;
    match goal with
    | H : family x = "3.0" |- _ => destruct (Hf 0 ltac:(lia) H)
    | H : family x = "3.1" |- _ => destruct (Hf 1 ltac:(lia) H)
    | H : family x = "3.2" |- _ => destruct (Hf 2 ltac:(lia) H)
    | H : family x = "3.3" |- _ => destruct (Hf 3 ltac:(lia) H)
    | H : family x = "3.4" |- _ => destruct (Hf 4 ltac:(lia) H)
    | H : family x = "3.5" |- _ => destruct (Hf 5 ltac:(lia) H)
    end;
    match goal with
    | |- context [ParseTolerant ?c] =>
        tryif is_var c then fail else
        let r := eval vm_compute in (ParseTolerant c) in
        match r with Ok ?w => exists x, w end
    end; (split; [done|]); (split; [reflexivity|]); simpl; lia.
Qed.

Lemma adoption_idempotent v :
  EtcdVersionForAdoption (EtcdVersionForAdoption v) = EtcdVersionForAdoption v.
Proof.
  assert (forall c, c ∈ "" :: [Version_3_1_12; Version_3_2_18; Version_3_2_24; Version_3_3_10;
    Version_3_3_13; Version_3_3_17; Version_3_4_3; Version_3_4_13; Version_3_5_7] ->
    EtcdVersionForAdoption c = c) as Hfix.
  { apply Forall_forall. repeat (apply List.Forall_cons; [reflexivity|]). constructor. }
  apply Hfix. unfold EtcdVersionForAdoption.
  repeat case_goal; repeat first [apply list_elem_of_here | apply list_elem_of_further].
Qed.

(** The mapping of versions at adoption and at restore is the same; a
    version that is mapped is mapped to one to which it can be upgraded in
    place; and mapping is stable: a version that was mapped maps to itself. *)
Theorem version_mapping_sound v :
  EtcdVersionForAdoption v = EtcdVersionForRestore v /\
  (EtcdVersionForAdoption v <> "" ->
   UpgradeInPlaceSupported v (EtcdVersionForAdoption v) = true) /\
  EtcdVersionForAdoption (EtcdVersionForAdoption v) = EtcdVersionForAdoption v.
Proof. split; [done|]. split; [apply adoption_in_place|apply adoption_idempotent]. Qed.
