(* ===== verification/EtcdClient.v ===== *)
(** * Keys and values of etcd: pkg/etcdclient

    The parts of [EtcdClient] (client.go, localnode.go) that read and write keys
    and ask for the state of a server.  The calls of etcd's client library are
    the operations of [EtcdSig]; a client is identified with its endpoints.
    [CopyTo], which restores a backup, reads the source page by page. *)

From stdpp Require Import base gmap sets list strings sorting pretty.
From Stdlib Require Import Ascii.
From S2P Require Import Prelude Effects GoLib.

Local Open Scope Z_scope.

(** ** Operations of the client library *)

Inductive etcd_op : Type :=
| ENew (endpoints : list string)                        (* clientv3.New *)
| EClose (endpoints : list string)
| EGet (c : list string) (key : string)                 (* KV.Get: the values *)
| ETxnCreate (c : list string) (key value : string)     (* Put if the key is new *)
| EPut (c : list string) (key value : string)
| ERange (c : list string) (from : string)              (* from the key on, sorted, limited *)
| EStatus (c : list string) (endpoint : string)         (* member id and leader id *)
| EHttpGet (url : string).                              (* GET, and the body of the answer *)

Definition etcd_res (e : etcd_op) : Type :=
  match e with
  | ENew _ | EClose _ | EPut _ _ _ => option error
  | EGet _ _ => result (list string)
  | ETxnCreate _ _ _ => result bool
  | ERange _ _ => result (list (string * string))
  | EStatus _ _ => result (Z * Z)
  | EHttpGet _ => result string
  end.

Definition EtcdSig : sig := Sig etcd_op etcd_res.
Abbreviation EM := (M EtcdSig).
Abbreviation ecall e := (@call EtcdSig _ e).

(** [CopyTo] asks for at most so many keys at once. *)
Definition pageLimit : nat := 1000.

(** ** client.go *)

(** [NodeSink] *)
Class NodeSink (Σ : sig) (S : Type) := Put : string -> string -> M Σ S (option error).

Section Client.
Context {S : Type}.

(** [NewClient] *)
Definition newClient (endpoints : list string) : EM S (option error) :=
  match endpoints with
  | [] => mret (Some "no endpoints provided")
  | _ =>
      r ← ecall (ENew endpoints);
      match r with
      | Some _ => mret (Some "error building etcd client")
      | None => mret None
      end
  end.

(** The value, or nothing if there is no such key. *)
Definition Get (c : list string) (key : string) : EM S (result (option string)) :=
  r ← ecall (EGet c key);
  match r with
  | Err e => mret (Err e)
  | Ok kvs => mret (Ok (head kvs))
  end.

Definition Create (c : list string) (key value : string) : EM S (option error) :=
  r ← ecall (ETxnCreate c key value);
  match r with
  | Err e => mret (Some e)
  | Ok succeeded => mret (if (succeeded : bool) then None else Some "key already exists")
  end.

(** The sink that is another etcd. *)
#[export] Instance clientSink (d : list string) : NodeSink EtcdSig S :=
  fun key value => ecall (EPut d key value).

(** The loop over one page: the variables are [count], [lastKey], [gotMore]. *)
Definition copyPage {Σ} `{!NodeSink Σ S} (kvs : list (string * string)) (count : Z)
    (lastKey : string) : M Σ S ((Z * string * bool) + (Z * error)) :=
  for_each kvs (count, lastKey, false) (fun kv '(count, lastKey, gotMore) =>
    if String.eqb (fst kv) lastKey then mret (inl (count, lastKey, gotMore))
    else
      e ← Put (fst kv) (snd kv);
      match e with
      | Some _ => mret (inr (count, "error writing key to destination"))
      | None => mret (inl (count + 1, fst kv, true))
      end).

(** The sink may use other operations than the client ([etcd] embeds those). *)
Fixpoint copyLoop {Σ} `{!NodeSink Σ S} (etcd : forall A, EM S A -> M Σ S A) (c : list string) (fuel : nat)
    (count : Z) (lastKey : string) : M Σ S (Z * option error) :=
  match fuel with
  | O => die OutOfFuel
  | Datatypes.S fuel' =>
      let etcdFrom := if String.eqb lastKey "" then String "000" "" else lastKey in
      r ← etcd _ (ecall (ERange c etcdFrom));
      match r with
      | Err e => mret (count, Some e)
      | Ok kvs =>
          p ← copyPage kvs count lastKey;
          match p with
          | inr (count, e) => mret (count, Some e)
          | inl (count, lastKey, gotMore) =>
              if (gotMore : bool) then copyLoop etcd c fuel' count lastKey else mret (count, None)
          end
      end
  end.

Definition CopyToSink {Σ} `{!NodeSink Σ S} (etcd : forall A, EM S A -> M Σ S A) (fuel : nat) (c : list string)
    : M Σ S (Z * option error) := copyLoop etcd c fuel 0 "".

(** To a sink that is an etcd. *)
Definition CopyTo `{!NodeSink EtcdSig S} (fuel : nat) (c : list string) : EM S (Z * option error) :=
  CopyToSink (fun _ m => m) fuel c.

(** [c.endpoints[0]] is out of range without endpoints. *)
Definition LeaderID (c : list string) : EM S (result string) :=
  e ← deref "c.endpoints[0]" (head c);
  r ← ecall (EStatus c e);
  match r with
  | Err e => mret (Err e)
  | Ok (_, leaderID) => mret (Ok (if leaderID =? 0 then "" else FormatUint leaderID))
  end.

(** ** localnode.go *)

(** Whether the server of the first endpoint that answers is the leader.  Without
    endpoints there is neither an answer nor an error. *)
Definition LocalNodeInfo (c : list string) : EM S (result (option bool)) :=
  r ← for_each c (Ok None) (fun endpoint (lastErr : result (option bool)) =>
        r ← ecall (EStatus c endpoint);
        match r with
        | Err e => mret (inl (Err e))
        | Ok (memberId, leader) => mret (inr (memberId =? leader))
        end);
  mret (match r with inl lastErr => lastErr | inr isLeader => Ok (Some isLeader) end).

(** The version that the first endpoint with a readable answer reports; reading
    the JSON body is a parameter. *)
Definition versionUrl (endpoint : string) : string :=
  (if HasSuffix endpoint "/" then endpoint else endpoint +:+ "/") +:+ "version".

Definition ServerVersion (parse : string -> option string) (c : list string) : EM S (result string) :=
  r ← for_each c tt (fun endpoint _ =>
        r ← ecall (EHttpGet (versionUrl endpoint));
        match r with
        | Err _ => mret (inl tt)
        | Ok body => mret (match parse body with None => inl tt | Some v => inr v end)
        end);
  mret (match r with inl _ => Err "could not fetch server version" | inr v => Ok v end).
End Client.

(** ** A reliable etcd *)

(** The contents of the etcd behind each client. *)
Abbreviation stores := (gmap (list string) (gmap string string)).

Definition contents (w : stores) (c : list string) : gmap string string := default ∅ (w !! c).

Definition keys (m : gmap string string) : list string := sort_strings (map_to_list m).*1.

(** The keys from [from] on, in order, at most [pageLimit]. *)
Definition page (m : gmap string string) (from : string) : list (string * string) :=
  (fun k => (k, default "" (m !! k))) <$> take pageLimit (filter (str_le from) (keys m)).

Definition etcd_reliable : handler EtcdSig stores := fun e w =>
  match e return etcd_res e * stores with
  | ENew _ | EClose _ => (None, w)
  | EGet c k => (Ok (match contents w c !! k with Some v => [v] | None => [] end), w)
  | ETxnCreate c k v =>
      match contents w c !! k with
      | Some _ => (Ok false, w)
      | None => (Ok true, <[c := <[k := v]> (contents w c)]> w)
      end
  | EPut c k v => (None, <[c := <[k := v]> (contents w c)]> w)
  | ERange c from => (Ok (page (contents w c) from), w)
  | EStatus _ _ => (Ok (1, 1), w)
  | EHttpGet _ => (Err "not found", w)
  end.

Lemma keys_perm m : keys m ≡ₚ (map_to_list m).*1.
Proof. apply stable_sort_perm. Qed.

Lemma elem_of_keys m k : k ∈ keys m <-> is_Some (m !! k).
Proof.
  rewrite keys_perm, list_elem_of_fmap. split.
  - intros ([k' v] & -> & H%elem_of_map_to_list). by eexists.
  - intros [v Hv]. exists (k, v). by rewrite elem_of_map_to_list.
Qed.

Lemma keys_NoDup m : NoDup (keys m).
Proof. rewrite keys_perm. apply NoDup_fst_map_to_list. Qed.

Lemma keys_length m : length (keys m) = size m.
Proof. rewrite keys_perm, length_fmap. apply length_map_to_list. Qed.

Lemma keys_sorted m : StronglySorted str_le (keys m).
Proof. apply Sorted_StronglySorted; [apply _|]. by apply stable_sort_sorted; apply _. Qed.

Lemma filter_from_all (L : list string) from :
  Forall (str_le from) L -> filter (str_le from) L = L.
Proof. induction 1; [done|]. rewrite filter_cons_True by done. by f_equal. Qed.

(** From one of the keys on: that key and what follows. *)
Lemma filter_from (pre rest : list string) k :
  StronglySorted str_le (pre ++ k :: rest) -> NoDup (pre ++ k :: rest) ->
  filter (str_le k) (pre ++ k :: rest) = k :: rest.
Proof.
  induction pre as [|x pre IH]; intros Hs Hn.
  - apply filter_from_all. apply StronglySorted_inv in Hs as [_ Hall]. constructor; [reflexivity|done].
  - change ((x :: pre) ++ k :: rest) with (x :: (pre ++ k :: rest)) in *. apply StronglySorted_inv in Hs as [Hs Hall]. apply NoDup_cons in Hn as [Hx Hn].
    rewrite filter_cons_False; [by apply IH|]. intros Hle. apply Hx.
    assert (x = k) as ->; [|set_solver]. apply (anti_symm str_le); [|done].
    rewrite Forall_forall in Hall. apply Hall. set_solver.
Qed.

Lemma str_le_zero k : k <> "" -> str_le (String "000" "") k.
Proof.
  destruct k as [|x k]; [done|]. intros _. unfold str_le. cbn.
  unfold Ascii.compare. destruct (N_of_ascii x) eqn:E; cbn; [by destruct k|done].
Qed.

(** ** Copying *)

(** The destination after the keys [ks] of [m] were written to it. *)
Definition copied (ks : list string) (m dst : gmap string string) : gmap string string :=
  foldl (fun acc k => <[k := default "" (m !! k)]> acc) dst ks.

Lemma copied_lookup ks m dst k :
  copied ks m dst !! k = if bool_decide (k ∈ ks) then Some (default "" (m !! k)) else dst !! k.
Proof.
  revert dst. induction ks as [|x ks IH]; intros dst; [by rewrite bool_decide_false by set_solver|].
  change (copied (x :: ks) m dst) with (copied ks m (<[x := default "" (m !! x)]> dst)).
  rewrite IH. destruct (decide (k = x)) as [->|Hne].
  - rewrite (bool_decide_true (x ∈ x :: ks)) by set_solver. rewrite lookup_insert_eq.
    by case_bool_decide.
  - rewrite lookup_insert_ne by done. by rewrite (bool_decide_ext (k ∈ x :: ks) (k ∈ ks)) by set_solver.
Qed.

Lemma copied_all m dst : copied (keys m) m dst = m ∪ dst.
Proof.
  apply map_eq. intros k. rewrite copied_lookup. case_bool_decide as Hk.
  - apply elem_of_keys in Hk as [v Hv]. rewrite Hv. by rewrite (lookup_union_Some_l _ _ _ v).
  - rewrite elem_of_keys in Hk. rewrite lookup_union_r; [done|]. by apply eq_None_not_Some.
Qed.

Lemma copied_app ks ks' m dst : copied (ks ++ ks') m dst = copied ks' m (copied ks m dst).
Proof. apply foldl_app. Qed.

(** The last of the keys, or [d]. *)
Fixpoint lastOr (d : string) (ks : list string) : string :=
  match ks with [] => d | k :: ks' => lastOr k ks' end.

Lemma lastOr_snoc d ks : ks <> [] -> exists pre, ks = pre ++ [lastOr d ks].
Proof.
  revert d. induction ks as [|k ks IH]; intros d; [done|]. intros _. destruct ks as [|k' ks].
  - by exists [].
  - destruct (IH k) as [pre Hpre]; [done|]. exists (k :: pre). cbn in *. by f_equal.
Qed.

Section Copy.
Context {S : Type} (c d : list string) (m : gmap string string).
#[local] Instance sink : NodeSink EtcdSig S := clientSink d.

Definition pairOf (k : string) : string * string := (k, default "" (m !! k)).

(** The keys of a page that are not the last one copied. *)
Lemma copyPage_reliable ks count lastKey gotMore (s : S) w :
  NoDup (lastKey :: ks) ->
  evm etcd_reliable
    (for_each (pairOf <$> ks) (count, lastKey, gotMore) (fun kv '(count, lastKey, gotMore) =>
      if String.eqb (fst kv) lastKey then mret (inl (count, lastKey, gotMore))
      else
        e ← Put (fst kv) (snd kv);
        match e with
        | Some _ => mret (inr (count, "error writing key to destination"))
        | None => mret (inl (count + 1, fst kv, true))
        end)) s w
    (fun r s' w' => s' = s /\
       r = inl (count + Z.of_nat (length ks), lastOr lastKey ks,
                gotMore || negb (bool_decide (ks = []))) /\
       (ks <> [] -> w' = <[d := copied ks m (contents w d)]> w) /\ (ks = [] -> w' = w)).
Proof.
  revert count lastKey gotMore w. induction ks as [|k ks IH]; intros count lastKey gotMore w Hnd.
  { evm_step. by rewrite orb_false_r, Z.add_0_r. }
  apply NoDup_cons in Hnd as [Hk Hnd]. cbn. evm_step. rewrite not_elem_of_cons in Hk. destruct Hk as [Hk _].
  rewrite (proj2 (String.eqb_neq k lastKey)) by done. repeat evm_step.
  eapply evm_mono; [by apply IH|]. intros r s' w' (-> & -> & Hw1 & Hw2). split; [done|]. split.
  - f_equal. f_equal; [f_equal; lia|]. by rewrite orb_true_r.
  - split; [|done]. intros _. destruct ks as [|k' ks]; [by rewrite Hw2|].
    rewrite Hw1 by done. unfold contents. rewrite lookup_insert_eq. cbn [default].
    by rewrite insert_insert_eq.
Qed.

Context (Hcd : c <> d) (Hkeys : forall k, is_Some (m !! k) -> k <> "").

Lemma lastOr_app a ks ks' : lastOr a (ks ++ ks') = lastOr (lastOr a ks) ks'.
Proof. revert a. induction ks as [|k ks IH]; intros a; [done|]. apply IH. Qed.

Lemma page_first done rest :
  keys m = done ++ rest -> done = [] ->
  page m (String "000" "") = pairOf <$> take pageLimit rest.
Proof.
  intros HL ->. unfold page. rewrite HL, filter_from_all; [done|].
  apply Forall_forall. intros k Hk. apply str_le_zero, Hkeys, elem_of_keys. by rewrite HL.
Qed.

Lemma page_next pre lk rest :
  keys m = pre ++ lk :: rest -> page m lk = pairOf <$> lk :: take (pageLimit - 1) rest.
Proof.
  intros HL. unfold page. pose proof (keys_sorted m) as Hs. pose proof (keys_NoDup m) as Hn.
  rewrite HL in *. by rewrite filter_from.
Qed.

Lemma NoDup_taken (x : string) n l : NoDup (x :: l) -> NoDup (x :: take n l).
Proof. intros H. apply (sublist_NoDup _ (x :: l)); [done|]. apply sublist_skip, sublist_take. Qed.

(** One page: [ks] is copied, and it is not empty if keys are left. *)
Lemma page_reliable done rest count (s : S) w :
  keys m = done ++ rest ->
  let lastKey := lastOr "" done in
  let ks := take (if bool_decide (done = []) then pageLimit else pageLimit - 1) rest in
  evm etcd_reliable
    (copyPage (page m (if String.eqb lastKey "" then String "000" "" else lastKey)) count lastKey) s w
    (fun r s' w' => s' = s /\
       r = inl (count + Z.of_nat (length ks), lastOr lastKey ks, negb (bool_decide (ks = []))) /\
       (ks <> [] -> w' = <[d := copied ks m (contents w d)]> w) /\ (ks = [] -> w' = w)).
Proof.
  intros HL lastKey ks. unfold copyPage.
  assert (forall k, k ∈ done ++ rest -> k <> "") as Hne.
  { intros k Hk. apply Hkeys, elem_of_keys. by rewrite HL. }
  pose proof (keys_NoDup m) as Hnd. rewrite HL in Hnd.
  destruct (decide (done = [])) as [Hd|Hd].
  - subst lastKey ks. rewrite (bool_decide_true _ Hd). subst done. cbn [lastOr].
    rewrite String.eqb_refl, (page_first [] rest HL eq_refl).
    apply copyPage_reliable, NoDup_taken, NoDup_cons. split; [|done].
    intros Hin. by apply (Hne "").
  - destruct (lastOr_snoc "" done Hd) as [pre Hpre]. fold lastKey in Hpre.
    assert (keys m = pre ++ lastKey :: rest) as HL' by (by rewrite HL, Hpre, <- app_assoc).
    assert (lastKey <> "") as Hlk by (apply Hne; rewrite <- HL, HL'; set_solver).
    subst ks. rewrite (bool_decide_false _ Hd), (proj2 (String.eqb_neq lastKey "")) by done.
    rewrite (page_next pre lastKey rest HL'). cbn [fmap list_fmap for_each]. evm_step.
    rewrite String.eqb_refl. evm_step.
    apply copyPage_reliable, NoDup_taken. rewrite <- HL, HL' in Hnd. apply NoDup_app in Hnd. tauto.
Qed.

Lemma copyLoop_reliable fuel done rest count (s : S) w :
  keys m = done ++ rest -> contents w c = m -> (length rest < fuel)%nat ->
  evm etcd_reliable (copyLoop (fun _ m => m) c fuel count (lastOr "" done)) s w
    (fun r s' w' => s' = s /\ r = (count + Z.of_nat (length rest), None) /\
       w' = if bool_decide (rest = []) then w else <[d := copied rest m (contents w d)]> w).
Proof.
  revert done rest count w. induction fuel as [|fuel IH]; intros done rest count w HL Hc Hf; [lia|].
  cbn [copyLoop]. evm_step. evm_step. rewrite Hc. evm_step.
  eapply evm_mono; [by apply (page_reliable done rest)|].
  set (n := if bool_decide (done = []) then pageLimit else (pageLimit - 1)%nat).
  assert (1 <= n)%nat as Hn by (subst n; unfold pageLimit; case_bool_decide; lia).
  intros r s' w' (-> & -> & Hw1 & Hw2). destruct rest as [|k rest].
  - assert (take n [] = @nil string) as E by apply take_nil. rewrite E in *. cbn. evm_step. by rewrite Hw2.
  - set (ks := take n (k :: rest)) in *. assert (ks <> []) as Hks by (subst ks; by destruct n; [lia|]).
    rewrite (bool_decide_false _ Hks). cbn [negb]. rewrite (Hw1 Hks).
    rewrite <- lastOr_app. eapply evm_mono; [apply (IH (done ++ ks) (drop n (k :: rest)))|].
    + unfold ks. by rewrite HL, <- app_assoc, take_drop.
    + unfold contents in *. by rewrite lookup_insert_ne.
    + rewrite length_drop. cbn in *. lia.
    + intros r s' w1 (-> & -> & ->). split; [done|].
      assert (length ks + length (drop n (k :: rest)) = length (k :: rest))%nat as Hlen
        by (unfold ks; by rewrite <- length_app, take_drop).
      split; [f_equal; lia|]. rewrite (bool_decide_false (k :: rest = [])) by done.
      unfold contents. rewrite lookup_insert_eq. cbn [default].
      assert (forall dst, copied (k :: rest) m dst = copied (drop n (k :: rest)) m (copied ks m dst)) as ->
        by (intros dst; rewrite <- copied_app; unfold ks; by rewrite take_drop).
      case_bool_decide as Hr; [by rewrite Hr|]. by rewrite insert_insert_eq.
Qed.
End Copy.

Lemma CopyTo_reliable {S} c d fuel (s : S) w :
  c <> d -> (forall k, is_Some (contents w c !! k) -> k <> "") -> (size (contents w c) < fuel)%nat ->
  evm etcd_reliable (CopyTo (NodeSink0 := clientSink d) fuel c) s w (fun r s' w' => s' = s /\
    r = (Z.of_nat (size (contents w c)), None) /\ contents w' d = contents w c ∪ contents w d /\
    forall e, e <> d -> w' !! e = w !! e).
Proof.
  intros Hcd Hk Hf. rewrite <- keys_length in Hf.
  eapply evm_mono; [by apply (copyLoop_reliable c d (contents w c) Hcd Hk fuel [] (keys (contents w c)))|].
  intros r s' w' (-> & -> & ->). split; [done|]. rewrite keys_length. split; [done|].
  rewrite <- (copied_all (contents w c)). case_bool_decide as He.
  - by rewrite He.
  - unfold contents at 1. rewrite lookup_insert_eq. split; [done|]. intros e Hne. by rewrite lookup_insert_ne.
Qed.

(** ** In every environment *)

(** The source has reported this pair. *)
Definition reported (c : list string) (k v : string) (t : trace EtcdSig) : Prop :=
  exists from kvs, existT (ERange c from : op EtcdSig) (Ok kvs) ∈ t /\ (k, v) ∈ kvs.

(** Every key that is written was read from the source before, and nothing else
    is asked of the two. *)
Definition copies (c d : list string) (t : trace EtcdSig) : Prop :=
  Forall (fun x : exchange EtcdSig => (exists from, asked x = ERange c from) \/ exists k v, asked x = EPut d k v) t /\
  forall k v, guarded (fun x : exchange EtcdSig => asked x = EPut d k v) (reported c k v) t.

Lemma reported_app_l c k v t t' : reported c k v t -> reported c k v (t ++ t').
Proof. intros (from & kvs & H & ?). exists from, kvs. set_solver. Qed.
Lemma reported_app_r c k v t t' : reported c k v t' -> reported c k v (t ++ t').
Proof. intros (from & kvs & H & ?). exists from, kvs. set_solver. Qed.

(** Appending writes of pairs that are already reported. *)
Lemma copies_put c d t k v r :
  copies c d t -> reported c k v t -> copies c d (t ++ [existT (EPut d k v : op EtcdSig) r]).
Proof.
  intros [Hall Hg] Hr. split.
  - apply Forall_app. split; [done|]. apply Forall_singleton. right. by eexists _, _.
  - intros k' v'. apply guarded_app; [done|]. intros t1 x t2 E Hx.
    destruct t1 as [|y t1]; [|by destruct t1]. rewrite app_nil_r. injection E as <- <-.
    by injection Hx as <- <-.
Qed.

Lemma copies_range c d t from r : copies c d t -> copies c d (t ++ [existT (ERange c from : op EtcdSig) r]).
Proof.
  intros [Hall Hg]. split.
  - apply Forall_app. split; [done|]. apply Forall_singleton. left. by eexists.
  - intros k' v'. apply guarded_app; [done|]. apply guarded_Forall. repeat constructor. done.
Qed.

Lemma copyPage_any {S} c d kvs count lastKey (s : S) t0 :
  copies c d t0 -> Forall (fun kv => reported c (fst kv) (snd kv) t0) kvs ->
  wpm (copyPage (NodeSink0 := clientSink d) kvs count lastKey) s
    (fun _ s' t => s' = s /\ copies c d (t0 ++ t)) (fun _ _ => False).
Proof.
  intros Hc Hk. unfold copyPage.
  eapply wpm_mono; [apply (wpm_for_each
    (fun _ _ s' t => s' = s /\ copies c d (t0 ++ t)) (fun _ s' t => s' = s /\ copies c d (t0 ++ t))
    (fun _ _ => False) kvs _ [] _ s [])| |done].
  - by rewrite app_nil_r.
  - intros done [k v] [[n lk] gm] s1 t [-> Ht] Hin. cbn [fst snd]. destruct (String.eqb k lk).
    { apply wpm_ret. by rewrite app_nil_r. }
    apply wpm_bind. unfold Put, clientSink. wpm_step. cbn.
    assert (copies c d (t0 ++ t ++ [existT (EPut d k v : op EtcdSig) r])) as Hp.
    { rewrite app_assoc. apply copies_put; [done|]. apply reported_app_l.
      rewrite Forall_forall in Hk. by apply (Hk (k, v)). }
    destruct r; apply wpm_ret; rewrite ?app_nil_r; done.
  - by intros [?|?] s' t.
Qed.

Lemma CopyTo_any {S} c d fuel (s : S) :
  wpm (CopyTo (NodeSink0 := clientSink d) fuel c) s (fun _ s' t => s' = s /\ copies c d t)
    (fun e t => e = OutOfFuel /\ copies c d t).
Proof.
  unfold CopyTo, CopyToSink.
  assert (forall count lk t0, copies c d t0 ->
    wpm (copyLoop (NodeSink0 := clientSink d) (fun _ m => m) c fuel count lk) s
      (fun _ s' t => s' = s /\ copies c d (t0 ++ t)) (fun e t => e = OutOfFuel /\ copies c d (t0 ++ t)))
    as H; [|apply (H 0 "" []); split; [done|]; intros; apply guarded_nil].
  induction fuel as [|fuel IH]; intros count lk t0 Ht0; cbn [copyLoop].
  { apply wpm_die. by rewrite app_nil_r. }
  apply wpm_bind. wpm_step. cbn.
  match goal with |- context [existT (ERange c ?f) r] => set (x := existT (ERange c f : op EtcdSig) r) end.
  assert (copies c d (t0 ++ [x])) as Hx by (by apply copies_range).
  destruct r as [kvs|e]; [|apply wpm_ret; by split].
  apply wpm_bind. eapply wpm_mono; [apply (copyPage_any c d kvs _ _ s (t0 ++ [x]) Hx)| |done].
  - apply Forall_forall. intros [k v] Hkv. apply reported_app_r. eexists _, kvs.
    split; [apply list_elem_of_singleton; reflexivity|done].
  - intros [[[n lk'] gm]|[n e]] s' t [-> Ht]; cbn.
    + destruct gm; [|apply wpm_ret; rewrite app_nil_r; by rewrite <- app_assoc in Ht].
      eapply wpm_mono; [apply (IH n lk' (t0 ++ [x] ++ t)); by rewrite app_assoc| |]; cbn;
        intros; rewrite <- app_assoc in *; done.
    + rewrite app_nil_r. by rewrite <- app_assoc in Ht.
Qed.

(** ** Theorems *)

(** C23: copying a store copies everything, once, and ends.  From a reliable etcd
    to another one, [CopyTo] returns (a bound of one page per key, and one more,
    is enough), reports as many keys as the source has, and leaves the
    destination with every key of the source at the value of the source, with
    its other keys as they were; no other store changes. *)
Theorem CopyTo_complete {S} c d fuel (s : S) w
  (Hcd : c <> d) (Hkeys : forall k, is_Some (contents w c !! k) -> k <> "")
  (Hfuel : (size (contents w c) < fuel)%nat) :
  evm etcd_reliable (CopyTo (NodeSink0 := clientSink d) fuel c) s w (fun r s' w' => s' = s /\
    r = (Z.of_nat (size (contents w c)), None) /\ contents w' d = contents w c ∪ contents w d /\
    forall e, e <> d -> w' !! e = w !! e).
Proof. by apply CopyTo_reliable. Qed.

Module CopyDemo.
Definition source : list string := ["unixs:///tmp/source"].
Definition dest : list string := ["https://127.0.0.1:4001"].
Definition before : stores :=
  {[source := {["/a" := "1"; "/b" := "2"]}; dest := {["/b" := "0"; "/c" := "3"]}]}.
End CopyDemo.

Lemma CopyTo_complete_witness :
  evm etcd_reliable (CopyTo (S := unit) (NodeSink0 := clientSink CopyDemo.dest) 3 CopyDemo.source) tt
    CopyDemo.before (fun r s' w' => r = (2, None) /\
      contents w' CopyDemo.dest = {["/a" := "1"; "/b" := "2"; "/c" := "3"]}).
Proof.
  eapply evm_mono; [apply (CopyTo_complete CopyDemo.source CopyDemo.dest 3 tt CopyDemo.before)|].
  - discriminate.
  - intros k Hk ->. vm_compute in Hk. by destruct Hk.
  - vm_compute. lia.
  - intros r s' w' (_ & Hr & Hd & _). split; [exact Hr|]. rewrite Hd. vm_compute. reflexivity.
Defined.
