(* ===== verification/PrivateApi.v ===== *)
(** * The peer protocol: pkg/privateapi

    A [Server] keeps the peers it has heard of and the leader it has accepted.
    Peers ping each other ([Ping], [sendPings]); a node that believes it is the
    leader sends its view of the cluster to every healthy peer ([BecomeLeader],
    [AssertLeadership]) and each peer accepts the view only when it contains
    every peer that is healthy for the receiver ([LeaderNotification]).  Node
    operations are later authorised by [IsLeader].

    Each operation that the code runs under [s.mutex] is one definition; the
    answers of the network and of the clock are arbitrary. *)

From stdpp Require Import base gmap sets list strings pretty.
From Stdlib Require Import Ascii.
From S2P Require Import Prelude Effects ProtoEtcd GoLib.

Local Open Scope Z_scope.

Definition defaultPingInterval : duration := 5 * Second.
Definition defaultHealthyTimeout : duration := Minute.

(** ** pkg/privateapi/discovery *)

Record NodeEndpoint := mkNodeEndpoint { Endpoint_IP : string; Endpoint_Port : Z }.
Record DiscoveryNode := mkDiscoveryNode {
  Disc_ID : string;
  Disc_Endpoints : list NodeEndpoint;
}.

(** ** The environment of a peer server *)

(** A connection is identified by the number of the dial that opened it. *)
Abbreviation conn := nat (only parsing).

Inductive conn_state := Idle | Connecting | Ready | TransientFailure | Shutdown.

Inductive peer_op : Type :=
| PRange                                     (* order of a map iteration *)
| PNow                                       (* time.Now() *)
| PRandRead                                  (* 16 bytes of crypto/rand *)
| PSpawn (id : string)                       (* go existing.Run(...) *)
| PDial (serverName : option string) (endpoint : string)
| PConnState (c : conn)
| PClose (c : conn)
| PPing (c : conn) (me : PeerInfo)
| PNotify (id : string) (c : conn) (req : LeaderNotificationRequest)   (* over the connection [c] of peer [id] *)
| PPoll                                      (* discovery.Poll() *)
| PAddFallbacks (f : gmap string (list string))
| PCtxErr
| PSleep (d : duration).

Definition peer_res (e : peer_op) : Type :=
  match e with
  | PRange => list nat
  | PNow => time
  | PRandRead => result (list Z)
  | PSpawn _ => unit
  | PDial _ _ => result conn
  | PConnState _ => conn_state
  | PClose _ => unit
  | PPing _ _ => result (option PeerInfo)
  | PNotify _ _ _ => result LeaderNotificationResponse
  | PPoll => result (gmap string DiscoveryNode)
  | PAddFallbacks _ => option error
  | PCtxErr => option error
  | PSleep _ => unit
  end.

Definition PeerSig : sig := Sig peer_op peer_res.

#[export] Instance PeerSig_range : HasRange PeerSig :=
  {| range_op := PRange : op PeerSig; range_code := fun r => r |}.
#[export] Instance PeerSig_now : HasNow PeerSig :=
  {| now_op := PNow : op PeerSig; now_time := fun r => r |}.

(** ** State *)

Record peer := mkPeer {
  p_id : string;
  p_discoveryNode : DiscoveryNode;
  p_defaultPort : Z;
  p_lastInfo : option PeerInfo;
  p_lastPingTime : time;
  p_conn : option conn;
}.

(** [&peer{server: s, id: id, defaultPort: port}] *)
Definition newPeerFor (id : string) (port : Z) : peer :=
  mkPeer id (mkDiscoveryNode "" []) port None zeroTime None.

Definition set_discoveryNode (d : DiscoveryNode) (p : peer) : peer :=
  mkPeer (p_id p) d (p_defaultPort p) (p_lastInfo p) (p_lastPingTime p) (p_conn p).
Definition set_lastInfo (i : PeerInfo) (t : time) (p : peer) : peer :=
  mkPeer (p_id p) (p_discoveryNode p) (p_defaultPort p) (Some i) t (p_conn p).
Definition set_conn (c : option conn) (p : peer) : peer :=
  mkPeer (p_id p) (p_discoveryNode p) (p_defaultPort p) (p_lastInfo p) (p_lastPingTime p) c.

Record leadership := mkLeadership {
  l_notification : option LeaderNotificationRequest;
  l_timestamp : time;
}.

Record Server := mkServer {
  s_myInfo : PeerInfo;
  s_tls : bool;                     (* clientTLSConfig is set *)
  s_defaultPort : Z;
  s_peers : gmap string peer;
  s_leadership : option leadership;
  s_PingInterval : duration;
  s_HealthyTimeout : duration;
  s_dnsSuffix : string;
}.

Definition NewServer (myInfo : PeerInfo) (tls : bool) (defaultPort : Z) (dnsSuffix : string)
    : Server :=
  mkServer myInfo tls defaultPort ∅ None defaultPingInterval defaultHealthyTimeout dnsSuffix.

Definition set_peers (ps : gmap string peer) (s : Server) : Server :=
  mkServer (s_myInfo s) (s_tls s) (s_defaultPort s) ps (s_leadership s)
    (s_PingInterval s) (s_HealthyTimeout s) (s_dnsSuffix s).
Definition set_leadership (l : option leadership) (s : Server) : Server :=
  mkServer (s_myInfo s) (s_tls s) (s_defaultPort s) (s_peers s) l
    (s_PingInterval s) (s_HealthyTimeout s) (s_dnsSuffix s).

Definition put_peer (id : string) (p : peer) (s : Server) : Server :=
  set_peers (<[id := p]> (s_peers s)) s.

Abbreviation pcall e := (@call PeerSig Server e).

(** ** Peer operations *)

(** [map[string]bool] built from a list: a set. *)
Definition endpoint_set (l : list string) : gset string := list_to_set l.

Definition updatePeerInfo (p : peer) (peerInfo : PeerInfo) : M PeerSig Server peer :=
  if negb (String.eqb (Peer_Id peerInfo) (p_id p)) then mret p
  else
    p' ← match p_lastInfo p with
         | Some last =>
             if negb (bool_decide (endpoint_set (Peer_Endpoints last)
                                   = endpoint_set (Peer_Endpoints peerInfo)))
             then match p_conn p with
                  | Some c => pcall (PClose c) ≫= fun _ => mret (set_conn None p)
                  | None => mret p
                  end
             else mret p
         | None => mret p
         end;
    t ← now;
    mret (set_lastInfo peerInfo t p').

Definition status (p : peer) (healthyTimeout : duration) : M PeerSig Server (option PeerInfo) :=
  match p_lastInfo p with
  | None => mret None
  | Some info =>
      t ← now;
      if (healthyTimeout <? timeSub t (p_lastPingTime p)) then mret None
      else mret (Some info)
  end.

(** Register a peer that was not known, and start its ping loop. *)
Definition addPeer (id : string) (p : peer) : M PeerSig Server unit :=
  modify (put_peer id p) ≫= fun _ => pcall (PSpawn id).

Definition updateFromPingRequest (info : option PeerInfo) : M PeerSig Server unit :=
  match info with
  | None => mret tt
  | Some info =>
      if String.eqb (Peer_Id info) "" then mret tt
      else
        s ← get;
        let id := Peer_Id info in
        match s_peers s !! id with
        | None =>
            p ← updatePeerInfo (newPeerFor id 0) info;
            addPeer id p
        | Some existing =>
            p ← updatePeerInfo existing info;
            modify (put_peer id p)
        end
  end.

Definition updateFromDiscovery (discoveryNode : DiscoveryNode) : M PeerSig Server unit :=
  s ← get;
  let id := Disc_ID discoveryNode in
  match s_peers s !! id with
  | None => addPeer id (set_discoveryNode discoveryNode (newPeerFor id (s_defaultPort s)))
  | Some existing => modify (put_peer id (set_discoveryNode discoveryNode existing))
  end.

Definition addPeersFromView (view : View) : M PeerSig Server unit :=
  for_fold (View_Healthy view) tt (fun p _ =>
    s ← get;
    match s_peers s !! Peer_Id p with
    | Some _ => mret tt
    | None =>
        q ← updatePeerInfo (newPeerFor (Peer_Id p) 0) p;
        addPeer (Peer_Id p) q
    end).

(** [Server.Peers]: the infos of the peers that are healthy now. *)
Definition Peers : M PeerSig Server (list PeerInfo) :=
  s ← get;
  entries ← range (s_peers s);
  for_fold entries [] (fun '(_, p) infos =>
    st ← status p (s_HealthyTimeout s);
    match st with
    | None => mret infos
    | Some lastInfo => mret (infos ++ [lastInfo])
    end).

Definition MyPeerId (s : Server) : string := Peer_Id (s_myInfo s).

(** The healthy peers with their infos. *)
Definition snapshotHealthy : M PeerSig Server (gmap string PeerInfo) :=
  s ← get;
  entries ← range (s_peers s);
  for_fold entries ∅ (fun '(id, p) infos =>
    st ← status p (s_HealthyTimeout s);
    match st with
    | Some info => mret (<[id := info]> infos)
    | None => mret infos
    end).

(** ** Leadership *)

Definition mkAccept (request : LeaderNotificationRequest) (t : time) (s : Server) : Server :=
  set_leadership (Some (mkLeadership (Some request) t)) s.

(** The first peer outside the view that is healthy ends the search. *)
Definition findMissing (d : duration) (viewIds : gset string) (entries : list (string * peer))
    : M PeerSig Server (unit + unit) :=
  for_each entries tt (fun '(id, p) _ =>
    if bool_decide (id ∈ viewIds) then mret (inl tt)
    else
      st ← status p d;
      match st with
      | Some _ => mret (inr tt)        (* reject = true; break *)
      | None => mret (inl tt)
      end).

Definition LeaderNotification (request : LeaderNotificationRequest)
    : M PeerSig Server (result LeaderNotificationResponse) :=
  match Notify_View request with
  | None => mret (Err "View is required")
  | Some view =>
      if bool_decide (View_Healthy view = []) then mret (Err "View.Healthy is required")
      else
        addPeersFromView view ≫= fun _ =>
        s ← get;
        let viewIds : gset string := list_to_set (Peer_Id <$> View_Healthy view) in
        entries ← range (s_peers s);
        reject ← findMissing (s_HealthyTimeout s) viewIds entries;
        match reject with
        | inr _ =>
            entries' ← range (s_peers s);
            healthy ← for_fold entries' [] (fun '(_, p) healthy =>
              st ← status p (s_HealthyTimeout s);
              match st with
              | Some info => mret (healthy ++ [info])
              | None => mret healthy
              end);
            mret (Ok (mkLeaderNotificationResponse false (Some (mkView None "" healthy))))
        | inl _ =>
            t ← now;
            modify (mkAccept request t) ≫= fun _ =>
            mret (Ok (mkLeaderNotificationResponse true None))
        end
  end.

Definition IsLeader (s : Server) (leadershipToken : string) : bool :=
  match s_leadership s with
  | None => false
  | Some l =>
      match l_notification l with
      | None => false
      | Some n =>
          match Notify_View n with
          | None => false
          | Some v => String.eqb (View_LeadershipToken v) leadershipToken
          end
      end
  end.

(** [randomToken]: 16 random bytes, encoded. *)
Definition randomToken : M PeerSig Server string :=
  r ← pcall PRandRead;
  match r with
  | Ok b => mret (RawURLEncode b)
  | Err _ => die (Fatal "error generating random token")
  end.

(** ** Connections *)

Definition modify_peer (id : string) (f : peer -> peer) : M PeerSig Server unit :=
  modify (fun s => match s_peers s !! id with
                   | Some p => put_peer id (f p) s
                   | None => s
                   end).

Definition dial_endpoints (p : peer) : gset string :=
  list_to_set
    ((fun e => JoinHostPort (Endpoint_IP e)
                 (pretty (if Endpoint_Port e =? 0 then p_defaultPort p else Endpoint_Port e)))
       <$> Disc_Endpoints (p_discoveryNode p))
  ∪ match p_lastInfo p with
    | Some info => list_to_set (Peer_Endpoints info)
    | None => ∅
    end.

(** The connection of peer [id] that is usable, after dropping a failed one. *)
Definition reuseConn (id : string) (p : peer) : M PeerSig Server (option conn) :=
  match p_conn p with
  | None => mret None
  | Some c =>
      st ← pcall (PConnState c);
      match st with
      | TransientFailure | Shutdown =>
          pcall (PClose c) ≫= fun _ =>
          modify_peer id (set_conn None) ≫= fun _ => mret None
      | _ => mret (Some c)
      end
  end.

Definition connect (id : string) : M PeerSig Server (result (option conn)) :=
  s0 ← get;
  match s_peers s0 !! id with
  | None => mret (Ok None)
  | Some p =>
      existing ← reuseConn id p;
      match existing with
      | Some c => mret (Ok (Some c))
      | None =>
          s ← get;
          let serverName := if s_tls s then Some ("etcd-manager-server-" +:+ id) else None in
          endpoints ← range (gset_to_gmap tt (dial_endpoints p));
          r ← for_each endpoints tt (fun '(endpoint, _) _ =>
                d ← pcall (PDial serverName endpoint);
                match d with
                | Err _ => mret (inl tt)
                | Ok c =>
                    resp ← pcall (PPing c (s_myInfo s));
                    match resp with
                    | Err _ => pcall (PClose c) ≫= fun _ => mret (inl tt)
                    | Ok info =>
                        info ← deref "response.Info" info;
                        s1 ← get;
                        match s_peers s1 !! id with
                        | None => mret (inr c)
                        | Some p1 =>
                            p2 ← updatePeerInfo p1 info;
                            match p_conn p2 with
                            | Some old =>
                                modify (put_peer id p2) ≫= fun _ =>
                                pcall (PClose c) ≫= fun _ => mret (inr old)
                            | None =>
                                modify (put_peer id (set_conn (Some c) p2)) ≫= fun _ =>
                                mret (inr c)
                            end
                        end
                    end
                end);
          match r with
          | inr c => mret (Ok (Some c))
          | inl _ => mret (Ok None)
          end
      end
  end.

Definition GetPeerClient (peerId : string) : M PeerSig Server (result conn) :=
  s ← get;
  match s_peers s !! peerId with
  | None => mret (Err "peer not known")
  | Some p =>
      st ← status p (s_HealthyTimeout s);
      match st with
      | None => mret (Err "peer is not healthy")
      | Some _ =>
          c ← connect peerId;
          match c with
          | Err _ => mret (Err "error connecting to peer")
          | Ok None => mret (Err "unable to connect to peer")
          | Ok (Some c) => mret (Ok c)
          end
      end
  end.

(** Send the view with token [token] to every healthy peer; the ids of the
    peers that accepted, or the first failure. *)
Definition notifyAll (token : string) (infos : gmap string PeerInfo) (order : list PeerInfo)
    : M PeerSig Server (result (list string)) :=
  s ← get;
  let request := mkLeaderNotificationRequest
                   (Some (mkView (Some (s_myInfo s)) token order)) in
  entries ← range infos;
  r ← for_each entries [] (fun '(peerId, _) acked =>
        conn ← GetPeerClient peerId;
        match conn with
        | Err _ => mret (inr "error getting peer client")
        | Ok c =>
            response ← pcall (PNotify peerId c request);
            match response with
            | Err _ => mret (inr "error sending leader notification")
            | Ok response =>
                match NotifyResp_View response with
                | Some v => addPeersFromView v
                | None => mret tt
                end ≫= fun _ =>
                if negb (NotifyResp_Accepted response)
                then mret (inr "our leadership bid was not accepted by peer")
                else mret (inl (acked ++ [peerId]))
            end
        end);
  match r with
  | inl acked => mret (Ok acked)
  | inr e => mret (Err e)
  end.

Definition BecomeLeader : M PeerSig Server (result (list string * string)) :=
  infos ← snapshotHealthy;
  order ← range infos;
  token ← randomToken;
  r ← notifyAll token infos (snd <$> order);
  match r with
  | Ok acked => mret (Ok (acked, token))
  | Err e => mret (Err e)
  end.

Definition AssertLeadership (leadershipToken : string) : M PeerSig Server (option error) :=
  infos ← snapshotHealthy;
  order ← range infos;
  r ← notifyAll leadershipToken infos (snd <$> order);
  match r with
  | Ok _ => mret None
  | Err e => mret (Some e)
  end.

(** The gRPC handler of [Ping]: the answer always carries our own identity. *)
Definition Ping (info : option PeerInfo) : M PeerSig Server PeerInfo :=
  updateFromPingRequest info ≫= fun _ =>
  s ← get; mret (s_myInfo s).

(** One call of [peer.sendPings]; [fuel] bounds the pings of the loop. *)
Definition sendPings (fuel : nat) (id : string) : M PeerSig Server error :=
  c ← connect id;
  match c with
  | Err e => mret e
  | Ok None => mret "unable to connect to peer"
  | Ok (Some c) =>
      repeat_until fuel
        (e ← pcall PCtxErr;
         match e with
         | Some e => mret (Some e)
         | None =>
             s ← get;
             response ← pcall (PPing c (s_myInfo s));
             match response with
             | Err _ => mret (Some "error pinging")
             | Ok info =>
                 info ← deref "response.Info" info;
                 s1 ← get;
                 match s_peers s1 !! id with
                 | Some p => p' ← updatePeerInfo p info; modify (put_peer id p')
                 | None => mret tt
                 end ≫= fun _ =>
                 pcall (PSleep (s_PingInterval s)) ≫= fun _ => mret None
             end
         end)
  end.

(** One round of discovery.  [ParseIP] is Go's [net.ParseIP]. *)
Section Discovery.
Context (ParseIP : string -> option string).

Definition fallback_ips (n : DiscoveryNode) : list string :=
  omap (fun e => ParseIP (Endpoint_IP e)) (Disc_Endpoints n).

Definition runDiscoveryOnce : M PeerSig Server (option error) :=
  r ← pcall PPoll;
  match r with
  | Err _ => mret (Some "error during peer discovery")
  | Ok nodes =>
      entries ← range nodes;
      for_fold entries tt (fun '(_, n) _ => updateFromDiscovery n) ≫= fun _ =>
      s ← get;
      if String.eqb (s_dnsSuffix s) "" then mret None
      else
        entries' ← range nodes;
        let fallbacks := foldl (fun m '(_, n) =>
            <[member_dns (s_dnsSuffix s) (Disc_ID n) := fallback_ips n]> m) ∅ entries' in
        pcall (PAddFallbacks fallbacks) ≫= fun _ => mret None
  end.
End Discovery.

(** ** Well-formed peer tables *)

Definition peer_wf (id : string) (p : peer) : Prop :=
  p_id p = id /\ forall i, p_lastInfo p = Some i -> Peer_Id i = id.

Definition peers_wf (s : Server) : Prop := map_Forall peer_wf (s_peers s).

(** What every operation but an accepted notification keeps: the table stays
    well formed, no peer is forgotten, and the accepted leader, our identity
    and the timeout do not change. *)
Record grows (s s' : Server) : Prop := {
  grows_wf : peers_wf s -> peers_wf s';
  grows_dom : dom (s_peers s) ⊆ dom (s_peers s');
  grows_leadership : s_leadership s' = s_leadership s;
  grows_myInfo : s_myInfo s' = s_myInfo s;
  grows_timeout : s_HealthyTimeout s' = s_HealthyTimeout s;
}.

#[export] Instance grows_preorder : PreOrder grows.
Proof.
  split.
  - intros s. by split.
  - intros s1 s2 s3 [] []. split; [auto|set_solver|congruence..].
Qed.

Lemma grows_put_peer id p s :
  peer_wf id p -> grows s (put_peer id p s).
Proof.
  intros Hp. split; simpl; try done.
  - intros Hs. unfold peers_wf. simpl. by apply map_Forall_insert_2.
  - rewrite dom_insert. set_solver.
Qed.

(** An operation that only lets the table grow. *)
Definition growing {A} (m : M PeerSig Server A) : Prop :=
  forall s, peers_wf s -> wpm m s (fun _ s' _ => grows s s') (fun _ _ => True).

Lemma growing_ret {A} (a : A) : growing (mret a).
Proof. intros s _. apply wpm_ret. reflexivity. Qed.

Lemma growing_bind {A B} (m : M PeerSig Server A) (f : A -> M PeerSig Server B) :
  growing m -> (forall a, growing (f a)) -> growing (m ≫= f).
Proof.
  intros Hm Hf s Hs. apply wpm_bind. eapply wpm_mono; [by apply Hm| |done].
  intros a s' t Hg. simpl. eapply wpm_mono; [apply Hf, (grows_wf _ _ Hg Hs)| |done].
  intros b s'' t' Hg'. simpl. by transitivity s'.
Qed.

Lemma growing_call (e : peer_op) : growing (pcall e).
Proof. intros s _. apply wpm_call. reflexivity. Qed.

(** Reading the state: the continuation may use that the table is well formed. *)
Lemma growing_get_bind {B} (f : Server -> M PeerSig Server B) :
  (forall s, peers_wf s -> growing (f s)) -> growing (get ≫= f).
Proof.
  intros H s Hs. apply wpm_bind, wpm_get. simpl.
  eapply wpm_mono; [by apply H| |]; done.
Qed.

Lemma growing_die {A} c : growing (die c : M PeerSig Server A).
Proof. intros s _. by apply wpm_die. Qed.

Lemma growing_put_peer id p : peer_wf id p -> growing (modify (put_peer id p)).
Proof. intros H s _. apply wpm_modify. by apply grows_put_peer. Qed.

Lemma growing_range {V} (m : gmap string V) : growing (range m).
Proof. intros s _. apply wpm_range. reflexivity. Qed.

Lemma growing_now : growing now.
Proof. intros s _. unfold now. by wpm_steps. Qed.

Lemma growing_for_fold {A B} (xs : list A) (acc : B) (body : A -> B -> M PeerSig Server B) :
  (forall x acc, x ∈ xs -> growing (body x acc)) -> growing (for_fold xs acc body).
Proof.
  revert acc. induction xs as [|x xs IH]; intros acc H; simpl; [apply growing_ret|].
  apply growing_bind; [apply H; by left|]. intros. apply IH. intros. apply H. by right.
Qed.

Lemma growing_for_each {A B R} (xs : list A) (acc : B)
    (body : A -> B -> M PeerSig Server (B + R)) :
  (forall x acc, x ∈ xs -> growing (body x acc)) -> growing (for_each xs acc body).
Proof.
  revert acc. induction xs as [|x xs IH]; intros acc H; simpl; [apply growing_ret|].
  apply growing_bind; [apply H; by left|].
  intros [acc'|r]; [|apply growing_ret]. apply IH. intros. apply H. by right.
Qed.

Lemma growing_repeat_until {R} fuel (body : M PeerSig Server (option R)) :
  growing body -> growing (repeat_until fuel body).
Proof.
  intros H. induction fuel as [|n IH]; simpl; [apply growing_die|].
  apply growing_bind; [done|]. intros [r|]; [apply growing_ret|apply IH].
Qed.

(** [updatePeerInfo] leaves the server alone; it keeps the peer well formed. *)
Lemma updatePeerInfo_spec p i s :
  wpm (updatePeerInfo p i) s
    (fun p' s' _ => s' = s /\ p_id p' = p_id p /\
       (Peer_Id i <> p_id p -> p' = p) /\
       (Peer_Id i = p_id p -> p_lastInfo p' = Some i))
    (fun _ _ => True).
Proof.
  unfold updatePeerInfo.
  wpm_steps; zify_bools; naive_solver.
Qed.

Lemma growing_updatePeerInfo_bind {B} id p i (f : peer -> M PeerSig Server B) :
  peer_wf id p -> (forall p', peer_wf id p' -> growing (f p')) ->
  growing (updatePeerInfo p i ≫= f).
Proof.
  intros [Hid Hp] Hf s Hs. apply wpm_bind.
  eapply wpm_mono; [apply updatePeerInfo_spec| |done].
  intros p' s' t (-> & Hid' & Hne & Heq). simpl.
  eapply wpm_mono; [apply (Hf p'); [|done]|done|done].
  split; [congruence|]. intros j Hj.
  destruct (decide (Peer_Id i = p_id p)) as [E|E].
  - rewrite (Heq E) in Hj. simplify_eq. congruence.
  - rewrite (Hne E) in Hj. auto.
Qed.

Lemma peer_wf_new id port : peer_wf id (newPeerFor id port).
Proof. by split. Qed.

Lemma peers_wf_lookup s id p : peers_wf s -> s_peers s !! id = Some p -> peer_wf id p.
Proof. intros H. apply H. Qed.

Create HintDb growing_db.
#[export] Hint Extern 0 (growing (@call PeerSig Server ?e)) => exact (growing_call e) : growing_db.
#[export] Hint Resolve growing_ret growing_die growing_put_peer growing_range
  growing_now peer_wf_new peers_wf_lookup : growing_db.

Ltac growing_step :=
  match goal with
  | |- growing (get ≫= _) => apply growing_get_bind; intros ? ?
  | |- growing (updatePeerInfo _ _ ≫= _) =>
      eapply growing_updatePeerInfo_bind; [solve [eauto with growing_db]|intros ? ?]
  | |- growing (_ ≫= _) => apply growing_bind; [|intros ?]
  | |- growing (for_fold _ _ _) => apply growing_for_fold; intros [] ? ?
  | |- growing (for_fold _ _ _) => apply growing_for_fold; intros ? ? ?
  | |- growing (for_each _ _ _) => apply growing_for_each; intros [] ? ?
  | |- growing (for_each _ _ _) => apply growing_for_each; intros ? ? ?
  | |- growing (repeat_until _ _) => apply growing_repeat_until
  | |- growing (match ?x with _ => _ end) => destruct x eqn:?
  end.

Ltac growing_solve := repeat (first [solve [eauto with growing_db] | growing_step]).

Lemma growing_status p d : growing (status p d).
Proof. unfold status. growing_solve. Qed.
#[export] Hint Resolve growing_status : growing_db.

Lemma growing_addPeer id p : peer_wf id p -> growing (addPeer id p).
Proof. intros. unfold addPeer. growing_solve. Qed.
#[export] Hint Resolve growing_addPeer : growing_db.

Lemma growing_updateFromPingRequest i : growing (updateFromPingRequest i).
Proof. unfold updateFromPingRequest. growing_solve. Qed.
#[export] Hint Resolve growing_updateFromPingRequest : growing_db.

Lemma peer_wf_set_discoveryNode id d p : peer_wf id p -> peer_wf id (set_discoveryNode d p).
Proof. done. Qed.
Lemma peer_wf_set_conn id c p : peer_wf id p -> peer_wf id (set_conn c p).
Proof. done. Qed.
#[export] Hint Resolve peer_wf_set_discoveryNode peer_wf_set_conn : growing_db.

Lemma growing_updateFromDiscovery n : growing (updateFromDiscovery n).
Proof. unfold updateFromDiscovery. growing_solve. Qed.
#[export] Hint Resolve growing_updateFromDiscovery : growing_db.

Lemma growing_addPeersFromView v : growing (addPeersFromView v).
Proof. unfold addPeersFromView. growing_solve. Qed.
#[export] Hint Resolve growing_addPeersFromView : growing_db.

Lemma growing_modify_peer id f :
  (forall p, peer_wf id p -> peer_wf id (f p)) -> growing (modify_peer id f).
Proof.
  intros Hf s Hs. apply wpm_modify. destruct (s_peers s !! id) eqn:E; [|reflexivity].
  apply grows_put_peer. eauto with growing_db.
Qed.
#[export] Hint Resolve growing_modify_peer : growing_db.

Lemma growing_reuseConn id p : growing (reuseConn id p).
Proof. unfold reuseConn. growing_solve. Qed.
#[export] Hint Resolve growing_reuseConn : growing_db.

Lemma growing_deref {A} what (p : option A) : growing (deref what p).
Proof. unfold deref. growing_solve. Qed.
#[export] Hint Resolve growing_deref : growing_db.

Lemma growing_connect id : growing (connect id).
Proof. unfold connect. growing_solve. Qed.
#[export] Hint Resolve growing_connect : growing_db.

Lemma growing_GetPeerClient id : growing (GetPeerClient id).
Proof. unfold GetPeerClient. growing_solve. Qed.
#[export] Hint Resolve growing_GetPeerClient : growing_db.

Lemma growing_Peers : growing Peers.
Proof. unfold Peers. growing_solve. Qed.

Lemma growing_snapshotHealthy : growing snapshotHealthy.
Proof. unfold snapshotHealthy. growing_solve. Qed.

Lemma growing_randomToken : growing randomToken.
Proof. unfold randomToken. growing_solve. Qed.

Lemma growing_notifyAll token infos order : growing (notifyAll token infos order).
Proof. unfold notifyAll. growing_solve. Qed.
#[export] Hint Resolve growing_Peers growing_snapshotHealthy growing_randomToken
  growing_notifyAll : growing_db.

Lemma growing_BecomeLeader : growing BecomeLeader.
Proof. unfold BecomeLeader. growing_solve. Qed.

Lemma growing_AssertLeadership t : growing (AssertLeadership t).
Proof. unfold AssertLeadership. growing_solve. Qed.

Lemma growing_get : growing get.
Proof. intros s _. apply wpm_get. reflexivity. Qed.
#[export] Hint Resolve growing_get : growing_db.

Lemma growing_Ping i : growing (Ping i).
Proof. unfold Ping. growing_solve. Qed.

Lemma growing_sendPings fuel id : growing (sendPings fuel id).
Proof. unfold sendPings. growing_solve. Qed.

Lemma growing_runDiscoveryOnce f : growing (runDiscoveryOnce f).
Proof. unfold runDiscoveryOnce. growing_solve. Qed.

(** ** Leader notifications *)

(** The clock was read as [tm] during the exchanges [t]. *)
Definition clock_read (tm : time) (t : trace PeerSig) : Prop :=
  (existT (PNow : op PeerSig) tm : exchange PeerSig) ∈ t.

(** [p] was found unhealthy, respectively healthy, during [t]. *)
Definition seen_unhealthy (d : duration) (p : peer) (t : trace PeerSig) : Prop :=
  p_lastInfo p = None \/ exists tm, clock_read tm t /\ d < timeSub tm (p_lastPingTime p).
Definition seen_healthy (d : duration) (p : peer) (t : trace PeerSig) : Prop :=
  exists tm, clock_read tm t /\ timeSub tm (p_lastPingTime p) <= d.

Lemma status_spec p d s :
  wpm (status p d) s
    (fun r s' t => s' = s /\
       match r with
       | Some i => p_lastInfo p = Some i /\ seen_healthy d p t
       | None => seen_unhealthy d p t
       end) (fun _ _ => False).
Proof.
  unfold status, now. wpm_steps; zify_bools; split; try done.
  - right. eexists. split; [by left|done].
  - split; [done|]. eexists. split; [by left|done].
  - by left.
Qed.

Lemma seen_unhealthy_app d p t t' : seen_unhealthy d p t -> seen_unhealthy d p (t ++ t').
Proof. unfold seen_unhealthy, clock_read. set_solver. Qed.
Lemma seen_unhealthy_app_r d p t t' : seen_unhealthy d p t' -> seen_unhealthy d p (t ++ t').
Proof. unfold seen_unhealthy, clock_read. set_solver. Qed.
Lemma seen_healthy_app d p t t' : seen_healthy d p t -> seen_healthy d p (t ++ t').
Proof. unfold seen_healthy, clock_read. set_solver. Qed.
Lemma seen_healthy_app_r d p t t' : seen_healthy d p t' -> seen_healthy d p (t ++ t').
Proof. unfold seen_healthy, clock_read. set_solver. Qed.

Definition view_ids (v : View) : gset string := list_to_set (Peer_Id <$> View_Healthy v).

(** The result of a notification with view [v] sent to [s]. *)
Definition notification_spec (req : LeaderNotificationRequest) (v : View) (s : Server)
    (resp : LeaderNotificationResponse) (s' : Server) (t : trace PeerSig) : Prop :=
  let d := s_HealthyTimeout s in
  if NotifyResp_Accepted resp then
    (forall tok, (IsLeader s' tok = String.eqb (View_LeadershipToken v) tok)) /\
    (exists tm, s_leadership s' = Some (mkLeadership (Some req) tm)) /\
    (forall id p, s_peers s' !! id = Some p ->
       id ∈ view_ids v \/ seen_unhealthy d p t)
  else
    s_leadership s' = s_leadership s /\ is_Some (NotifyResp_View resp) /\
    (exists id p, s_peers s' !! id = Some p /\ id ∉ view_ids v /\ seen_healthy d p t).

Lemma findMissing_spec d ids entries s :
  wpm (findMissing d ids entries) s
    (fun r s' t => s' = s /\
       match r with
       | inl _ => forall id p, (id, p) ∈ entries -> id ∈ ids \/ seen_unhealthy d p t
       | inr _ => exists id p, (id, p) ∈ entries /\ id ∉ ids /\ seen_healthy d p t
       end) (fun _ _ => False).
Proof.
  unfold findMissing.
  eapply wpm_mono; [apply (wpm_for_each
    (fun visited _ s' t => s' = s /\ forall id p, (id, p) ∈ visited -> id ∈ ids \/ seen_unhealthy d p t)
    (fun _ s' t => s' = s /\ exists id p, (id, p) ∈ entries /\ id ∉ ids /\ seen_healthy d p t)
    (fun _ _ => False) entries _ [] tt s [])| |].
  - split; [done|]. set_solver.
  - intros visited [id p] [] s1 t [-> HI] Hin. destruct (bool_decide_reflect (id ∈ ids)) as [Hi|Hi].
    + apply wpm_ret. rewrite app_nil_r. split; [done|]. set_solver.
    + apply wpm_bind. eapply wpm_mono; [apply status_spec| |done].
      intros [i|] s2 t' [-> Hst]; simpl; apply wpm_ret; rewrite app_nil_r; (split; [done|]).
      * exists id, p. destruct Hst. auto using seen_healthy_app_r.
      * intros id' p' [H|H%list_elem_of_singleton]%elem_of_app.
        -- destruct (HI _ _ H); auto using seen_unhealthy_app.
        -- simplify_eq. right. by apply seen_unhealthy_app_r.
  - intros [[]|[]] s' t [-> H]; by split.
  - done.
Qed.

(** A peer table read in any order is the table. *)
Lemma elem_of_range_entries {V} (m : gmap string V) l id p :
  l ≡ₚ map_to_list m -> ((id, p) ∈ l <-> m !! id = Some p).
Proof. intros ->. apply elem_of_map_to_list. Qed.

(** The loop that collects the healthy infos leaves the server alone. *)
Lemma collect_spec d (entries : list (string * peer)) acc s :
  wpm (for_fold entries acc (fun '(_, p) healthy =>
         st ← status p d;
         match st with Some info => mret (healthy ++ [info]) | None => mret healthy end)) s
    (fun _ s' _ => s' = s) (fun _ _ => False).
Proof.
  eapply wpm_mono; [apply (wpm_for_fold (fun _ _ s' _ => s' = s) (fun _ _ => False)
    entries _ [] acc s [] eq_refl)|done|done].
  intros _ [id p] acc' s1 t -> _. apply wpm_bind.
  eapply wpm_mono; [apply status_spec| |done]. intros [i|] s2 t' [-> _]; by apply wpm_ret.
Qed.

(** The behaviour of [LeaderNotification] in every environment. *)
Lemma LeaderNotification_wp req s :
  peers_wf s ->
  wpm (LeaderNotification req) s
    (fun r s' t => peers_wf s' /\
       match r with
       | Err _ => s' = s
       | Ok resp => exists v, Notify_View req = Some v /\ notification_spec req v s resp s' t
       end) (fun _ _ => True).
Proof.
  intros Hwf. unfold LeaderNotification.
  destruct (Notify_View req) as [v|] eqn:Hv; [|by apply wpm_ret].
  case_bool_decide as Hh; [by apply wpm_ret|].
  apply wpm_bind. eapply wpm_mono; [by apply growing_addPeersFromView| |done].
  intros [] s1 t1 Hg; simpl. apply wpm_bind, wpm_get; simpl.
  apply wpm_bind, wpm_range; intros l r Hl; simpl.
  apply wpm_bind. eapply wpm_mono; [apply findMissing_spec| |done].
  assert (s_HealthyTimeout s1 = s_HealthyTimeout s) as Hd by apply Hg.
  intros [[]|[]] s2 t2 [-> Hm]; simpl; rewrite Hd in *.
  - unfold now. wpm_steps. split; [by apply Hg|]. exists v. split; [done|].
    unfold notification_spec; simpl. split; [|split; [by eexists|]].
    + intros tok. unfold IsLeader. simpl. by rewrite Hv.
    + intros id p Hp. destruct (Hm id p) as [?|Hu]; [by apply (elem_of_range_entries _ _ _ _ Hl)|by left|].
      right. apply seen_unhealthy_app_r. simpl. apply (seen_unhealthy_app_r _ _ [_]).
      rewrite <- (app_nil_r [_]). by apply seen_unhealthy_app.
  - apply wpm_bind, wpm_range; intros l' r' Hl'; simpl.
    apply wpm_bind. eapply wpm_mono; [apply collect_spec| |done].
    intros healthy s3 t3 ->; simpl. apply wpm_ret.
    split; [by apply Hg|]. exists v. split; [done|]. unfold notification_spec; simpl.
    split; [apply Hg|]. split; [by eexists|].
    destruct Hm as (id & p & Hin & Hni & Hst). exists id, p.
    split; [by apply (elem_of_range_entries _ _ _ _ Hl)|]. split; [done|].
    apply seen_healthy_app_r, (seen_healthy_app_r _ _ [_]). by apply seen_healthy_app.
Qed.

(** ** Every sequence of calls *)

(** The calls a server serves or runs, by any goroutine. *)
Inductive server_input :=
| InPing (info : option PeerInfo)
| InNotify (req : LeaderNotificationRequest)
| InDiscovery (ParseIP : string -> option string)
| InPeers
| InGetPeerClient (id : string)
| InBecomeLeader
| InAssertLeadership (token : string)
| InSendPings (fuel : nat) (id : string).

(** Run one call; the answer is the notification it accepted, if any. *)
Definition serve (i : server_input) : M PeerSig Server (option LeaderNotificationRequest) :=
  match i with
  | InPing info => Ping info ≫= fun _ => mret None
  | InNotify req =>
      r ← LeaderNotification req;
      mret (match r with
            | Ok resp => if NotifyResp_Accepted resp then Some req else None
            | Err _ => None
            end)
  | InDiscovery f => runDiscoveryOnce f ≫= fun _ => mret None
  | InPeers => Peers ≫= fun _ => mret None
  | InGetPeerClient id => GetPeerClient id ≫= fun _ => mret None
  | InBecomeLeader => BecomeLeader ≫= fun _ => mret None
  | InAssertLeadership token => AssertLeadership token ≫= fun _ => mret None
  | InSendPings fuel id => sendPings fuel id ≫= fun _ => mret None
  end.

(** [reachable me h s]: calls in any order, in any environment, lead from the
    new server of [me] to [s]; [h] are the notifications accepted on the way. *)
Inductive reachable (me : Server) : list LeaderNotificationRequest -> Server -> Prop :=
| reach_new : reachable me [] me
| reach_call h s i t a s' :
    reachable me h s ->
    runs (serve i s) t (Done (a, s')) ->
    reachable me (h ++ match a with Some req => [req] | None => [] end) s'.

Definition authorised (h : list LeaderNotificationRequest) (token : string) : Prop :=
  exists req v, last h = Some req /\ Notify_View req = Some v /\ View_LeadershipToken v = token.

Lemma serve_growing i s :
  (forall req, i <> InNotify req) -> peers_wf s ->
  wpm (serve i) s (fun a s' _ => a = None /\ grows s s') (fun _ _ => True).
Proof.
  intros Hi Hs.
  assert (forall A (m : M PeerSig Server A), growing m ->
    wpm (m ≫= fun _ => mret None) s
      (fun (a : option LeaderNotificationRequest) s' _ => a = None /\ grows s s')
      (fun _ _ => True)) as H.
  { intros A m Hm. apply wpm_bind. eapply wpm_mono; [by apply Hm| |done].
    intros. by apply wpm_ret. }
  destruct i; [| naive_solver | | | | | |];
    eauto using growing_Ping, growing_runDiscoveryOnce, growing_Peers, growing_GetPeerClient,
      growing_BecomeLeader, growing_AssertLeadership, growing_sendPings.
Qed.

Lemma IsLeader_leadership s s' tok :
  s_leadership s' = s_leadership s -> IsLeader s' tok = IsLeader s tok.
Proof. unfold IsLeader. by intros ->. Qed.

(** After one call: the token of the notification it accepted is the only one
    that is authorised; without one, nothing changed. *)
Lemma serve_spec i s :
  peers_wf s ->
  wpm (serve i) s
    (fun a s' _ => peers_wf s' /\ forall tok,
       match a with
       | Some req => exists v, Notify_View req = Some v /\
                       IsLeader s' tok = String.eqb (View_LeadershipToken v) tok
       | None => IsLeader s' tok = IsLeader s tok
       end) (fun _ _ => True).
Proof.
  intros Hs. destruct i as [| req | | | | | |];
    try (eapply wpm_mono; [by apply serve_growing| |done];
         intros a s' t [-> Hg]; split; [by apply Hg|]; intros; apply IsLeader_leadership, Hg).
  apply wpm_bind. eapply wpm_mono; [by apply LeaderNotification_wp| |done].
  intros [resp|e] s' t [Hwf H]; apply wpm_ret; (split; [done|]); intros tok; [|by rewrite H].
  destruct H as (v & Hv & H). unfold notification_spec in H.
  destruct (NotifyResp_Accepted resp); [|by apply IsLeader_leadership, H].
  exists v. split; [done|]. apply H.
Qed.

Lemma reachable_invariant info tls port dns h s :
  reachable (NewServer info tls port dns) h s ->
  peers_wf s /\ forall tok, IsLeader s tok = true <-> authorised h tok.
Proof.
  induction 1 as [|h s i t a s' _ [IHwf IHl] Hrun].
  - split; [done|]. intros tok. split; [done|]. by intros (?&?&?&_).
  - destruct (wp_runs _ _ _ _ Hrun (serve_spec i s IHwf)) as [Hwf Ha].
    split; [done|]. intros tok. specialize (Ha tok). destruct a as [req|].
    + destruct Ha as (v & Hv & ->). rewrite String.eqb_eq. unfold authorised.
      rewrite last_snoc. naive_solver.
    + rewrite app_nil_r, Ha. apply IHl.
Qed.

(** ** Winning a leadership bid *)

(** Peer [id] answered the view of [request] with an acceptance during [t]. *)
Definition accepted_by (request : LeaderNotificationRequest) (t : trace PeerSig)
    (id : string) : Prop :=
  exists c resp, (existT (PNotify id c request : op PeerSig) (Ok resp) : exchange PeerSig) ∈ t
    /\ NotifyResp_Accepted resp = true.

Lemma accepted_by_sub r t t' id : t ⊆ t' -> accepted_by r t id -> accepted_by r t' id.
Proof. intros Hs (c & resp & H & Ha). exists c, resp. split; [by apply Hs|done]. Qed.
Lemma accepted_by_app r t t' id : accepted_by r t id -> accepted_by r (t ++ t') id.
Proof. intros (c & resp & H & Ha). exists c, resp. split; [|done]. apply elem_of_app. by left. Qed.
Lemma accepted_by_app_r r t t' id : accepted_by r t' id -> accepted_by r (t ++ t') id.
Proof. intros (c & resp & H & Ha). exists c, resp. split; [|done]. apply elem_of_app. by right. Qed.

Definition bid (me : PeerInfo) (token : string) (order : list PeerInfo)
    : LeaderNotificationRequest :=
  mkLeaderNotificationRequest (Some (mkView (Some me) token order)).

Lemma notifyAll_spec token infos order s :
  wpm (notifyAll token infos order) s
    (fun r s' t => forall acked, r = Ok acked ->
       acked ≡ₚ (map_to_list infos).*1 /\
       Forall (accepted_by (bid (s_myInfo s) token order) t) acked) (fun _ _ => True).
Proof.
  unfold notifyAll. apply wpm_bind, wpm_get; simpl.
  apply wpm_bind, wpm_range; intros l r Hl; simpl. apply wpm_bind.
  eapply wpm_mono; [apply (wpm_for_each
    (fun visited acked _ t => acked = visited.*1 /\
       Forall (accepted_by (bid (s_myInfo s) token order) t) acked)
    (fun _ _ _ => True) (fun _ _ => True) l _ [] [] s [])| |done].
  - by split.
  - intros visited [id i] acked s1 t [-> HI] _. apply wpm_bind.
    apply wpm_any; [|done]. intros [c|e] s2 t1; simpl; [|by apply wpm_ret].
    apply wpm_bind. refine (@wpm_call PeerSig Server (PNotify id c _) s2 _ _ _).
    intros [resp|e]; simpl; [|by apply wpm_ret].
    apply wpm_bind. apply wpm_any; [|done]. intros [] s3 t2; simpl.
    destruct (NotifyResp_Accepted resp) eqn:Ha; apply wpm_ret; [|done].
    split; [by rewrite fmap_app|]. apply Forall_app. split.
    + eapply Forall_impl; [exact HI|]. intros. by apply accepted_by_app.
    + repeat constructor. apply accepted_by_app_r, accepted_by_app_r.
      exists c, resp. split; [|done]. by left.
  - intros [acked|e] s' t H; simpl in H |- *; apply wpm_ret; [|done].
    intros ? [= <-]. destruct H as [-> H]. split; [by rewrite Hl|].
    eapply Forall_impl; [exact H|]. intros id Hid.
    apply (accepted_by_app_r _ [_]). by apply accepted_by_app.
Qed.

(** The entries of a snapshot are infos of peers of the table. *)
Lemma snapshotHealthy_spec s :
  wpm snapshotHealthy s
    (fun infos s' t => s' = s /\ forall id i, infos !! id = Some i ->
       exists p, s_peers s !! id = Some p /\ p_lastInfo p = Some i /\
                 seen_healthy (s_HealthyTimeout s) p t) (fun _ _ => False).
Proof.
  unfold snapshotHealthy. apply wpm_bind, wpm_get; simpl.
  apply wpm_bind, wpm_range; intros l r Hl; simpl.
  eapply wpm_mono; [apply (wpm_for_fold
    (fun _ infos s' t => s' = s /\ forall id i, infos !! id = Some i ->
       exists p, s_peers s !! id = Some p /\ p_lastInfo p = Some i /\
                 seen_healthy (s_HealthyTimeout s) p t) (fun _ _ => False) l _ [] ∅ s [])| |done].
  - split; [done|]. intros id i H. by rewrite lookup_empty in H.
  - intros visited [id p] infos s1 t [-> HI] Hin. apply wpm_bind.
    apply (elem_of_range_entries _ _ _ _ Hl) in Hin.
    eapply wpm_mono; [apply status_spec| |done].
    intros [i|] s2 t' [-> Hst]; simpl; apply wpm_ret; rewrite app_nil_r; (split; [done|]).
    + intros id' i' [[<- <-]|[_ H]]%lookup_insert_Some.
      * exists p. destruct Hst. auto using seen_healthy_app_r.
      * destruct (HI _ _ H) as (p' & ? & ? & ?). exists p'. auto using seen_healthy_app.
    + intros id' i' H. destruct (HI _ _ H) as (p' & ? & ? & ?). exists p'.
      auto using seen_healthy_app.
  - intros infos s' t [-> H]. split; [done|]. intros id i Hi.
    destruct (H id i Hi) as (p & ? & ? & ?). exists p. repeat split; try done.
    by apply (seen_healthy_app_r _ _ [_]).
Qed.

(** In a well-formed table a snapshot is keyed by the ids of its infos. *)
Lemma snapshot_keys s (infos : gmap string PeerInfo) :
  peers_wf s ->
  (forall id i, infos !! id = Some i -> exists p, s_peers s !! id = Some p /\ p_lastInfo p = Some i) ->
  forall l, l ≡ₚ map_to_list infos -> Peer_Id <$> l.*2 = l.*1.
Proof.
  intros Hwf Hi l Hl. rewrite <- list_fmap_compose. apply list_fmap_ext.
  intros n [id i] Hn. simpl. apply list_elem_of_lookup_2 in Hn.
  apply (elem_of_range_entries _ _ _ _ Hl) in Hn.
  destruct (Hi _ _ Hn) as (p & Hp & Hlast). by apply (proj2 (Hwf _ _ Hp)).
Qed.

Lemma BecomeLeader_wp s :
  peers_wf s ->
  wpm BecomeLeader s
    (fun r _ t => forall acked token, r = Ok (acked, token) ->
       exists view, Peer_Id <$> view ≡ₚ acked /\
                    Forall (accepted_by (bid (s_myInfo s) token view) t) acked)
    (fun _ _ => True).
Proof.
  intros Hwf. unfold BecomeLeader. apply wpm_bind.
  eapply wpm_mono; [apply snapshotHealthy_spec| |done].
  intros infos s1 t1 [-> Hinfos]; simpl. apply wpm_bind, wpm_range; intros l r Hl; simpl.
  apply wpm_bind. unfold randomToken. apply wpm_bind.
  refine (@wpm_call PeerSig Server PRandRead s _ _ _). intros [b|e]; simpl; [|by apply wpm_die].
  apply wpm_ret, wpm_bind. eapply wpm_mono; [apply notifyAll_spec| |done].
  intros [acked|e] s2 t2 H; simpl; apply wpm_ret; [|done].
  intros ? ? [= <- <-]. destruct (H _ eq_refl) as [Hk Ha]. exists (l.*2). split.
  - rewrite (snapshot_keys s infos Hwf); [by rewrite Hk, Hl| |done].
    intros id i Hi. destruct (Hinfos id i Hi) as (p & ? & ? & _). eauto.
  - eapply Forall_impl; [exact Ha|]. intros id Hid.
    eapply accepted_by_sub; [|exact Hid]. set_solver.
Qed.

(** ** Theorems *)

(** [LeaderNotification], in every environment, keeps the peer table well
    formed; it accepts a view only if every known peer outside the view was
    seen unhealthy during the call, and then the view's token is the one and
    only token [IsLeader] grants; it rejects a view only because of a peer
    outside it that was seen healthy, and then the accepted leader stays. *)
Theorem LeaderNotification_correct req s t r s'
  (Hwf : peers_wf s) (Hrun : runs (LeaderNotification req s) t (Done (r, s'))) :
  peers_wf s' /\
  match r with
  | Err _ => s' = s
  | Ok resp => exists v, Notify_View req = Some v /\ notification_spec req v s resp s' t
  end.
Proof. exact (wp_runs _ _ _ _ Hrun (LeaderNotification_wp req s Hwf)). Qed.

(** C7: whatever calls a server has served, in any order and environment, its
    peer table is well formed (each peer is stored under its own id and only
    information about itself was recorded), and [IsLeader] grants exactly the
    token of the last notification it accepted: at most one leader at a time. *)
Theorem at_most_one_leader info tls port dns h s
  (Hreach : reachable (NewServer info tls port dns) h s) :
  peers_wf s /\
  (forall tok, IsLeader s tok = true <-> authorised h tok) /\
  (forall tok tok', IsLeader s tok = true -> IsLeader s tok' = true -> tok = tok').
Proof.
  destruct (reachable_invariant _ _ _ _ _ _ Hreach) as [Hwf Hl].
  split; [done|]. split; [done|]. intros tok tok'. rewrite !Hl. unfold authorised. naive_solver.
Qed.

(** C8: a bid for leadership succeeds only if every peer of the view that was
    sent accepted it: the acknowledged ids are exactly the ids of the view, and
    each of them answered the bid with this token with an acceptance. *)
Theorem BecomeLeader_unanimous s t acked token s'
  (Hwf : peers_wf s)
  (Hrun : runs (BecomeLeader s) t (Done (Ok (acked, token), s'))) :
  exists view, Peer_Id <$> view ≡ₚ acked /\
               Forall (accepted_by (bid (s_myInfo s) token view) t) acked.
Proof.
  exact (wp_runs _ _ _ _ Hrun (BecomeLeader_wp s Hwf) acked token eq_refl).
Qed.

(** *** Witnesses *)

Module PeerDemo.
(** A quiet environment: the clock stands at one second, every peer answers
    pings with its own identity and accepts bids. *)
Definition peer1 : PeerInfo := mkPeerInfo "peer1" ["10.0.0.1:3996"].
Definition answer (e : peer_op) : peer_res e :=
  match e with
  | PRange => []
  | PNow => Second
  | PRandRead => Ok [0;1;2;3;4;5;6;7;8;9;10;11;12;13;14;15]
  | PSpawn _ => tt
  | PDial _ _ => Ok 7%nat
  | PConnState _ => Ready
  | PClose _ => tt
  | PPing _ _ => Ok (Some peer1)
  | PNotify _ _ _ => Ok (mkLeaderNotificationResponse true None)
  | PPoll => Ok ∅
  | PAddFallbacks _ => None
  | PCtxErr => None
  | PSleep _ => tt
  end.
Definition env : handler PeerSig unit := fun e w => (answer e, w).

Definition s0 : Server := NewServer peer1 true 3996 "".
Definition req : LeaderNotificationRequest := bid peer1 "token" [peer1].

Definition s1 : Server :=
  mkServer peer1 true 3996
    {["peer1" := mkPeer "peer1" (mkDiscoveryNode "" []) 0 (Some peer1) Second None]}
    (Some (mkLeadership (Some req) Second)) defaultPingInterval defaultHealthyTimeout "".

Lemma accepted :
  runs (LeaderNotification req s0)
    (trace_of env (LeaderNotification req s0) tt)
    (Done (Ok (mkLeaderNotificationResponse true None), s1)).
Proof. apply exec_runs_eq. vm_compute. reflexivity. Qed.

Lemma s0_wf : peers_wf s0.
Proof. apply map_Forall_empty. Qed.

Lemma s1_wf : peers_wf s1.
Proof. apply map_Forall_singleton. split; [done|]. by intros i [= <-]. Qed.

Lemma s1_reachable : reachable s0 [req] s1.
Proof.
  eapply (reach_call _ [] s0 (InNotify req) _ (Some req) s1); [constructor|].
  apply (exec_runs_eq env _ tt). vm_compute. reflexivity.
Qed.
End PeerDemo.

Lemma LeaderNotification_correct_witness :
  peers_wf PeerDemo.s0 /\ peers_wf PeerDemo.s1 /\ IsLeader PeerDemo.s1 "token" = true.
Proof.
  split; [exact PeerDemo.s0_wf|]. split; [|reflexivity].
  exact (proj1 (LeaderNotification_correct _ _ _ _ _ PeerDemo.s0_wf PeerDemo.accepted)).
Defined.

Lemma at_most_one_leader_witness :
  reachable PeerDemo.s0 [PeerDemo.req] PeerDemo.s1 /\ peers_wf PeerDemo.s1.
Proof.
  split; [exact PeerDemo.s1_reachable|].
  exact (proj1 (at_most_one_leader _ _ _ _ _ _ PeerDemo.s1_reachable)).
Defined.

Lemma BecomeLeader_unanimous_witness :
  exists t s', runs (BecomeLeader PeerDemo.s1) t (Done (Ok (["peer1"], "AAECAwQFBgcICQoLDA0ODw"), s'))
    /\ exists view, Peer_Id <$> view ≡ₚ ["peer1"] /\
         Forall (accepted_by (bid PeerDemo.peer1 "AAECAwQFBgcICQoLDA0ODw" view) t) ["peer1"].
Proof.
  eexists _, _.
  assert (runs (BecomeLeader PeerDemo.s1) _ (Done (Ok (["peer1"], "AAECAwQFBgcICQoLDA0ODw"), _)))
    as Hrun by (apply (exec_runs_eq PeerDemo.env _ tt); vm_compute; reflexivity).
  split; [exact Hrun|].
  exact (BecomeLeader_unanimous _ _ _ _ _ PeerDemo.s1_wf Hrun).
Defined.
