(* ===== verification/Binaries.v ===== *)
(** * Locating the etcd binaries: BindirForEtcdVersion of pkg/etcd *)

From stdpp Require Import base gmap list strings.
From Stdlib Require Import Ascii.
From S2P Require Import Prelude Effects GoLib.

Local Open Scope Z_scope.

(** What [os.Stat] reports of a path. *)
Inductive stat_result := StatOk | StatNotExist | StatErr.

Class HasStat (Σ : sig) := {
  stat_op : string -> op Σ;
  stat_of : forall p, res (stat_op p) -> stat_result;
}.

(** The package variables [baseDirs] and [isTest], and the platform. *)
Record BinConfig := mkBinConfig {
  bc_baseDirs : list string;
  bc_isTest : bool;
  bc_GOOS : string;
  bc_GOARCH : string;
}.

Definition defaultBinConfig : BinConfig := mkBinConfig ["/opt"] false "linux" "amd64".

(** [strings.Replace(s, ".", "_", -1)] *)
Fixpoint dots_to_underscores (s : string) : string :=
  match s with
  | EmptyString => EmptyString
  | String c s' => String (if Ascii.eqb c "."%char then "_"%char else c) (dots_to_underscores s')
  end.

Definition withV (etcdVersion : string) : string :=
  if HasPrefix etcdVersion "v" then etcdVersion else "v" +:+ etcdVersion.

(** The directories searched, in order. *)
Definition binDirs (cfg : BinConfig) (etcdVersion cmd : string) : list string :=
  let v := withV etcdVersion in
  let source := "etcd_" +:+ dots_to_underscores v +:+ "_source" in
  ((fun baseDir => PathJoin [baseDir; "etcd-" +:+ v]) <$> bc_baseDirs cfg)
  ++ (if bc_isTest cfg then
        baseDir ← bc_baseDirs cfg;
        let platform := "linux_amd64_stripped" in
        [PathJoin [baseDir; "etcd-" +:+ v +:+ "-" +:+ bc_GOOS cfg +:+ "-" +:+ bc_GOARCH cfg];
         PathJoin [baseDir; "external"; source; platform];
         PathJoin [baseDir; "external"; source; cmd; platform];
         PathJoin [baseDir; "external"; source; cmd +:+ "_"];
         PathJoin [baseDir; "external"; source; cmd; cmd +:+ "_"]]
      else []).

Definition BindirForEtcdVersion {Σ S} `{!HasStat Σ} (cfg : BinConfig) (etcdVersion cmd : string)
    : M Σ S (result string) :=
  r ← for_each (binDirs cfg etcdVersion cmd) tt (fun binDir _ =>
        x ← call (stat_op (PathJoin [binDir; cmd]));
        match stat_of _ x with
        | StatNotExist => mret (inl tt)
        | StatErr => mret (inr (Err "error checking for binary"))
        | StatOk => mret (inr (Ok binDir))
        end);
  match r with
  | inl _ => mret (Err "unknown etcd version")
  | inr x => mret x
  end.

(** The search changes no state, and answers a directory it was asked to search. *)
Lemma BindirForEtcdVersion_spec {Σ S} `{!HasStat Σ} cfg v cmd (s : S) :
  wpm (BindirForEtcdVersion (Σ := Σ) cfg v cmd) s
    (fun r s' t => s' = s /\ Forall (fun x => exists p, asked x = stat_op p) t /\
       forall d, r = Ok d -> d ∈ binDirs cfg v cmd) (fun _ _ => False).
Proof.
  unfold BindirForEtcdVersion. apply wpm_bind.
  set (P := fun x : exchange Σ => exists p, asked x = stat_op p).
  eapply wpm_mono; [apply (wpm_for_each
    (fun _ _ s' t => s' = s /\ Forall P t)
    (fun r s' t => s' = s /\ Forall P t /\ forall d, r = Ok d -> d ∈ binDirs cfg v cmd)
    (fun _ _ => False) (binDirs cfg v cmd) _ [] tt s [])| |done].
  - by split.
  - intros _ d [] s1 t [-> Ht] Hd. wpm_steps; (split; [done|]).
    + split; [apply Forall_app; split; [done|]; repeat constructor; by eexists|].
      by intros d' [= <-].
    + apply Forall_app; split; [done|]; repeat constructor; by eexists.
    + split; [apply Forall_app; split; [done|]; repeat constructor; by eexists|done].
  - intros [[]|r] s' t H; simpl in H |- *; apply wpm_ret; rewrite app_nil_r; naive_solver.
Qed.

Lemma emits_Bindir {Σ S} `{!HasStat Σ} (P : exchange Σ -> Prop) cfg v cmd :
  (forall p r, P (existT (stat_op p) r)) ->
  emits (S := S) P (BindirForEtcdVersion cfg v cmd).
Proof. intros H. unfold BindirForEtcdVersion. emits_solve. Qed.
