(* ===== verification/EtcdServer.v ===== *)
(** * The node server: pkg/etcd/etcdserver.go

    An [EtcdServer] runs on every node.  It keeps the configuration of the
    local etcd ([state], also written to disk), the reservation of a two-phase
    join ([prepared]) and the local etcd process ([process]), and serves the
    requests of the leader: [JoinCluster], [Reconfigure], [StopEtcd],
    [DoBackup], [GetInfo], [UpdateEndpoints].  Every request but the last two is
    checked against the leader that the peer server has accepted.

    The state file holds the protobuf encoding of an [EtcdState]; the encoder
    and decoder of [golang/protobuf] are parameters. *)

From stdpp Require Import base gmap list strings.
From S2P Require Import Prelude Effects ProtoEtcd GoLib Binaries PrivateApi.

Local Open Scope Z_scope.

(** ** Interface to the peer server *)

(** What the node server needs of the peer protocol: whether a token is the one
    of the current leader. *)
Class LeaderService (P : Type) := grants : P -> string -> bool.

#[export] Instance PeerServer_LeaderService : LeaderService Server := IsLeader.

(** ** State *)

Definition PreparedValidity : duration := Minute.

Record preparedState := mkPrepared { pr_validUntil : time; pr_clusterToken : string }.

Record etcdProcess := mkEtcdProcess {
  proc_BinDir : string;
  proc_DataDir : string;
  proc_EtcdVersion : string;
  proc_CreateNewCluster : bool;
  proc_Cluster : EtcdCluster;
  proc_MyNodeName : string;
  proc_Quarantined : bool;
  proc_DisableTLS : bool;
  proc_ListenAddress : string;
  proc_ListenMetricsURLs : list string;
  proc_PKIPeersDir : string;
  proc_PKIClientsDir : string;
  proc_CurrentDir : string;
  proc_ForceNewCluster : bool;
  proc_IgnoreListenMetricsURLs : bool;
}.

Record EtcdServer := mkEtcdServer {
  es_baseDir : string;
  es_etcdNodeConfiguration : EtcdNode;
  es_clusterName : string;
  es_state : option EtcdState;
  es_prepared : option preparedState;
  es_process : option etcdProcess;
  es_listenAddress : string;
  es_listenMetricsURLs : list string;
  es_etcdClientsCA : bool;                    (* whether the CA is configured *)
  es_etcdPeersCA : bool;
}.

Definition set_state (st : option EtcdState) (s : EtcdServer) : EtcdServer :=
  mkEtcdServer (es_baseDir s) (es_etcdNodeConfiguration s) (es_clusterName s) st
    (es_prepared s) (es_process s) (es_listenAddress s) (es_listenMetricsURLs s)
    (es_etcdClientsCA s) (es_etcdPeersCA s).
Definition set_prepared (p : option preparedState) (s : EtcdServer) : EtcdServer :=
  mkEtcdServer (es_baseDir s) (es_etcdNodeConfiguration s) (es_clusterName s) (es_state s)
    p (es_process s) (es_listenAddress s) (es_listenMetricsURLs s)
    (es_etcdClientsCA s) (es_etcdPeersCA s).
Definition set_process (p : option etcdProcess) (s : EtcdServer) : EtcdServer :=
  mkEtcdServer (es_baseDir s) (es_etcdNodeConfiguration s) (es_clusterName s) (es_state s)
    (es_prepared s) p (es_listenAddress s) (es_listenMetricsURLs s)
    (es_etcdClientsCA s) (es_etcdPeersCA s).

(** ** The environment of a node server *)

Inductive read_result := ReadOk (data : string) | ReadNotExist | ReadErr (e : error).

Inductive node_op : Type :=
| NNow
| NStat (path : string)
| NReadFile (path : string)
| NWriteFile (path data : string)
| NMkdirAll (path : string)
| NRename (old new : string)
| NCreateKeypairs (pkiDir : string) (me : EtcdNode)
| NExec (p : etcdProcess)                    (* exec.Cmd.Start() of etcd *)
| NExited                                    (* has the process ended? *)
| NStop                                      (* etcdProcess.Stop() *)
| NNewStore (storage : string)               (* backup.NewStore *)
| NProcessBackup (p : etcdProcess) (storage : string) (info : BackupInfo)
| NUpdateHosts (m : gmap string (list string))
| NImportExisting (baseDir : string) (node : EtcdNode).

Definition node_res (e : node_op) : Type :=
  match e with
  | NNow => time
  | NStat _ => stat_result
  | NReadFile _ => read_result
  | NWriteFile _ _ => option error
  | NMkdirAll _ => option error
  | NRename _ _ => option error
  | NCreateKeypairs _ _ => option error
  | NExec _ => option error
  | NExited => bool
  | NStop => option error
  | NNewStore _ => option error
  | NProcessBackup _ _ _ => result DoBackupResponse
  | NUpdateHosts _ => option error
  | NImportExisting _ _ => result (option EtcdState)
  end.

Definition NodeSig : sig := Sig node_op node_res.

#[export] Instance NodeSig_now : HasNow NodeSig :=
  {| now_op := NNow : op NodeSig; now_time := fun r => r |}.
#[export] Instance NodeSig_stat : HasStat NodeSig :=
  {| stat_op := NStat : string -> op NodeSig; stat_of := fun _ r => r |}.

Abbreviation ncall e := (@call NodeSig EtcdServer e).
Abbreviation NM := (M NodeSig EtcdServer).

(** ** Pure parts *)

(** [findSelfNode]: the index of the only node with our name; a second one is
    an error, none is [Ok None]. *)
Definition self_indices (name : string) (nodes : list EtcdNode) : list nat :=
  (filter (fun '(_, n) => Node_Name n = name) (imap pair nodes)).*1.

Definition findSelfNode (name : string) (nodes : list EtcdNode) : result (option nat) :=
  match self_indices name nodes with
  | [] => Ok None
  | [i] => Ok (Some i)
  | _ => Err "multiple nodes matching local name included in cluster"
  end.

Definition set_nodes (nodes : list EtcdNode) (c : EtcdCluster) : EtcdCluster :=
  mkEtcdCluster (Cluster_DesiredClusterSize c) (Cluster_ClusterToken c) nodes.

(** The node of [startEtcdProcess] with the client URLs of this process. *)
Definition overrideUrls (conf node : EtcdNode) : EtcdNode :=
  mkEtcdNode (Node_Name node) (Node_PeerUrls node) (Node_ClientUrls conf)
    (Node_QuarantinedClientUrls conf) (Node_TlsEnabled node).

(** The node of [Reconfigure] with TLS switched on. *)
Definition enableTls (node : EtcdNode) : EtcdNode :=
  mkEtcdNode (Node_Name node)
    (RewriteScheme (Node_PeerUrls node) "http://" "https://")
    (RewriteScheme (Node_ClientUrls node) "http://" "https://")
    (Node_QuarantinedClientUrls node) true.

(** The directory for the keypair of a CA, if the CA is configured. *)
Definition pkiSubdir (ca : bool) (pkiDir name : string) : string :=
  if ca then PathJoin [pkiDir; name] else "".

(** [etcdProcess.findMyNode] *)
Definition findMyNode (p : etcdProcess) : option EtcdNode :=
  find_last (fun n => String.eqb (Node_Name n) (proc_MyNodeName p))
    (Cluster_Nodes (proc_Cluster p)).

(** ** Operations *)

Section EtcdServer.
Context (cfg : BinConfig).
Context (Marshal : EtcdState -> option string) (Unmarshal : string -> option EtcdState).

Definition stateFile (s : EtcdServer) : string := PathJoin [es_baseDir s; "state"].

Definition readState : NM (result (option EtcdState)) :=
  s ← get;
  r ← ncall (NReadFile (stateFile s));
  match r with
  | ReadNotExist => mret (Ok None)
  | ReadErr _ => mret (Err "error reading state file")
  | ReadOk b =>
      match Unmarshal b with
      | None => mret (Err "error parsing state file")
      | Some st => mret (Ok (Some st))
      end
  end.

Definition writeState (st : EtcdState) : NM (option error) :=
  s ← get;
  match Marshal st with
  | None => mret (Some "error marshaling state data")
  | Some b =>
      r ← ncall (NWriteFile (stateFile s) b);
      match r with
      | Some _ => mret (Some "error writing state file")
      | None => mret None
      end
  end.

Definition initState : NM (option error) :=
  s ← get;
  match es_state s with
  | Some _ => mret None
  | None =>
      r ← readState;
      match r with
      | Err e => mret (Some e)
      | Ok None => mret None
      | Ok (Some st) => modify (set_state (Some st)) ≫= fun _ => mret None
      end
  end.

(** [etcdProcess.Start] *)
Definition processStart (p : etcdProcess) : NM (option error) :=
  match findMyNode p with
  | None => mret (Some "unable to find self node")
  | Some _ => ncall (NExec p)
  end.

Definition startEtcdProcess (st : EtcdState) : NM (option error) :=
  s ← get;
  match State_Cluster st with
  | None => mret (Some "cluster not configured, cannot start etcd")
  | Some c =>
      if String.eqb (Cluster_ClusterToken c) "" then
        mret (Some "ClusterToken not configured, cannot start etcd")
      else
        let dataDir := PathJoin [es_baseDir s; "data"; Cluster_ClusterToken c] in
        let pkiDir := PathJoin [es_baseDir s; "pki"; Cluster_ClusterToken c] in
        match findSelfNode (Node_Name (es_etcdNodeConfiguration s)) (Cluster_Nodes c) with
        | Err e => mret (Some e)
        | Ok None => mret (Some "self node was not included in cluster")
        | Ok (Some i) =>
            let nodes := alter (overrideUrls (es_etcdNodeConfiguration s)) i (Cluster_Nodes c) in
            match nodes !! i with
            | None => mret (Some "self node was not included in cluster")
            | Some meNode =>
                k ← ncall (NCreateKeypairs pkiDir meNode);
                match k with
                | Some e => mret (Some e)
                | None =>
                    b ← BindirForEtcdVersion cfg (State_EtcdVersion st) "etcd";
                    match b with
                    | Err e => mret (Some e)
                    | Ok binDir =>
                        let p := mkEtcdProcess binDir dataDir (State_EtcdVersion st)
                                   (State_NewCluster st)
                                   (mkEtcdCluster 0 (Cluster_ClusterToken c) nodes)
                                   (Node_Name (es_etcdNodeConfiguration s))
                                   (State_Quarantined st) (negb (Node_TlsEnabled meNode))
                                   (es_listenAddress s) (es_listenMetricsURLs s)
                                   (pkiSubdir (es_etcdPeersCA s) pkiDir "peers")
                                   (pkiSubdir (es_etcdClientsCA s) pkiDir "clients")
                                   "" false false in
                        r ← processStart p;
                        match r with
                        | Some _ => mret (Some "error starting etcd")
                        | None => modify (set_process (Some p)) ≫= fun _ => mret None
                        end
                    end
                end
            end
        end
  end.

Definition stopEtcdProcess : NM (bool * option error) :=
  s ← get;
  match es_process s with
  | None => mret (false, None)
  | Some _ =>
      r ← ncall NStop;
      match r with
      | Some _ => mret (true, Some "error killing etcd")
      | None => modify (set_process None) ≫= fun _ => mret (true, None)
      end
  end.

Definition runOnce : NM (option error) :=
  e ← initState;
  match e with
  | Some e => mret (Some e)
  | None =>
      s ← get;
      match es_process s with
      | Some _ =>
          x ← ncall NExited;
          if x : bool then modify (set_process None) else mret tt
      | None => mret tt
      end ≫= fun _ =>
      s ← get;
      match es_state s, es_process s with
      | Some st, None =>
          match State_Cluster st with
          | Some _ => startEtcdProcess st
          | None => mret None
          end
      | _, _ => mret None
      end
  end.

Definition GetInfo (s : EtcdServer) : GetInfoResponse :=
  mkGetInfoResponse (es_clusterName s) (Some (es_etcdNodeConfiguration s))
    (match es_state s with
     | Some st => match State_Cluster st with Some _ => Some st | None => None end
     | None => None
     end).

(** [addressToHosts]: the DNS names of each address, or the first address that
    does not parse. *)
Definition addAddress (dns a : string) (m : gmap string (list string))
    : result (gmap string (list string)) :=
  match SplitHostPort a with
  | Err _ => Err "failed to parse address"
  | Ok (ip, _) => Ok (<[ip := default [] (m !! ip) ++ [dns]]> m)
  end.

Fixpoint addAddresses (dns : string) (l : list string) (m : gmap string (list string))
    : result (gmap string (list string)) :=
  match l with
  | [] => Ok m
  | a :: l' => match addAddress dns a m with
               | Err e => Err e
               | Ok m' => addAddresses dns l' m'
               end
  end.

Fixpoint addressToHosts (members : list MemberMapInfo) (m : gmap string (list string))
    : result (gmap string (list string)) :=
  match members with
  | [] => Ok m
  | i :: rest =>
      if String.eqb (MapInfo_Dns i) "" then addressToHosts rest m
      else match addAddresses (MapInfo_Dns i) (MapInfo_Addresses i) m with
           | Err e => Err e
           | Ok m' => addressToHosts rest m'
           end
  end.

Definition UpdateEndpoints (memberMap : option MemberMap) : NM (option error) :=
  match memberMap with
  | None => mret None
  | Some mm =>
      match addressToHosts (Map_Members mm) ∅ with
      | Err e => mret (Some e)
      | Ok hosts =>
          if bool_decide (hosts = ∅) then mret None else ncall (NUpdateHosts hosts)
      end
  end.

Section Requests.
Context {P : Type} `{!LeaderService P} (peerServer : P).

(** A request without a header dereferences nil. *)
Definition validateHeader {Σ} (header : option CommonRequestHeader) : M Σ EtcdServer (option error) :=
  h ← deref "header" header;
  s ← get;
  if negb (String.eqb (Header_ClusterName h) (es_clusterName s)) then
    mret (Some "ClusterName mismatch")
  else if negb (grants peerServer (Header_LeadershipToken h)) then
    mret (Some "LeadershipToken in request is not current leader")
  else mret None.

Definition checkPrepared (request : JoinClusterRequest) (s : EtcdServer) : option error :=
  match es_process s with
  | Some _ => Some "etcd process already running"
  | None =>
      match es_prepared s with
      | None => Some "not prepared"
      | Some p => if String.eqb (pr_clusterToken p) (Join_ClusterToken request) then None
                  else Some "clusterToken does not match prepared"
      end
  end.

(** The state that the request configures, on top of the current one. *)
Definition joinState (request : JoinClusterRequest) (newCluster quarantined : bool)
    : EtcdState :=
  mkEtcdState newCluster
    (Some (mkEtcdCluster 0 (Join_ClusterToken request) (Join_Nodes request)))
    (Join_EtcdVersion request) quarantined.

Definition expirePrepared : NM unit :=
  s ← get;
  match es_prepared s with
  | None => mret tt
  | Some p =>
      t ← now;
      if (pr_validUntil p <? t) then modify (set_prepared None) else mret tt
  end.

Definition cancelPrepare (request : JoinClusterRequest) : NM (option error) :=
  s ← get;
  match es_prepared s with
  | None => mret None
  | Some p =>
      if String.eqb (pr_clusterToken p) (Join_ClusterToken request)
      then modify (set_prepared None) ≫= fun _ => mret None
      else mret (Some "concurrent prepare in progress")
  end.

Definition joinPrepare (request : JoinClusterRequest) : NM (option error) :=
  s ← get;
  match es_process s with
  | Some _ => mret (Some "etcd process already running")
  | None =>
      match es_prepared s with
      | Some _ => mret (Some "concurrent prepare in progress")
      | None =>
          t ← now;
          modify (set_prepared
            (Some (mkPrepared (t + PreparedValidity) (Join_ClusterToken request)))) ≫= fun _ =>
          mret None
      end
  end.

Definition joinInitial (request : JoinClusterRequest) : NM (option error) :=
  s ← get;
  match checkPrepared request s with
  | Some e => mret (Some e)
  | None =>
      let st := joinState request true true in
      modify (set_state (Some st)) ≫= fun _ =>
      w ← writeState st;
      match w with
      | Some e => mret (Some e)
      | None =>
          r ← startEtcdProcess st;
          match r with
          | Some e => mret (Some e)
          | None =>
              let st' := joinState request false true in
              modify (set_state (Some st')) ≫= fun _ =>
              w' ← writeState st';
              match w' with
              | Some e => mret (Some e)
              | None => modify (set_prepared None) ≫= fun _ => mret None
              end
          end
      end
  end.

Definition joinExisting (request : JoinClusterRequest) : NM (option error) :=
  s ← get;
  match checkPrepared request s with
  | Some e => mret (Some e)
  | None =>
      let st := joinState request false false in
      modify (set_state (Some st)) ≫= fun _ =>
      w ← writeState st;
      match w with
      | Some e => mret (Some e)
      | None =>
          r ← startEtcdProcess st;
          match r with
          | Some e => mret (Some e)
          | None => modify (set_prepared None) ≫= fun _ => mret None
          end
      end
  end.

(** The request once its version is known to be installed. *)
Definition joinPhase (request : JoinClusterRequest) : NM (option error) :=
  match Join_Phase request with
  | PHASE_PREPARE => joinPrepare request
  | PHASE_INITIAL_CLUSTER => joinInitial request
  | PHASE_JOIN_EXISTING => joinExisting request
  | _ => mret (Some "unknown status")
  end.

(** The request once its header is accepted. *)
Definition joinAuthorised (request : JoinClusterRequest) : NM (option error) :=
  if bool_decide (Join_Phase request = PHASE_CANCEL_PREPARE) then cancelPrepare request
  else
    expirePrepared ≫= fun _ =>
    b ← BindirForEtcdVersion cfg (Join_EtcdVersion request) "etcd";
    match b with
    | Err _ => mret (Some "etcd version not supported")
    | Ok _ => joinPhase request
    end.

(** [JoinCluster]; the answer is its error, if any. *)
Definition JoinCluster (request : JoinClusterRequest) : NM (option error) :=
  e ← validateHeader (Join_Header request);
  match e with
  | Some e => mret (Some e)
  | None => joinAuthorised request
  end.

(** The new state of a [Reconfigure]; a state without a cluster
    dereferences nil in [findSelfNode]. *)
Definition reconfiguredState (request : ReconfigureRequest) (st : EtcdState)
    (c : EtcdCluster) (i : nat) : EtcdState :=
  mkEtcdState (State_NewCluster st)
    (Some (if Reconf_EnableTls request
           then set_nodes (alter enableTls i (Cluster_Nodes c)) c else c))
    (if String.eqb (Reconf_SetEtcdVersion request) "" then State_EtcdVersion st
     else Reconf_SetEtcdVersion request)
    (Reconf_Quarantined request).

(** The request once its header is accepted. *)
Definition reconfigureAuthorised (request : ReconfigureRequest) : NM (option error) :=
  s ← get;
  match es_state s with
  | None => mret (Some "cluster not running")
  | Some st =>
      c ← deref "state.Cluster" (State_Cluster st);
      match findSelfNode (Node_Name (es_etcdNodeConfiguration s)) (Cluster_Nodes c) with
      | Err e => mret (Some e)
      | Ok None => mret (Some "could not find self node in cluster")
      | Ok (Some i) =>
          b ← (if String.eqb (Reconf_SetEtcdVersion request) "" then mret (Ok "")
               else BindirForEtcdVersion cfg (Reconf_SetEtcdVersion request) "etcd");
          match b with
          | Err _ => mret (Some "etcd version not supported")
          | Ok _ =>
              let st' := reconfiguredState request st c i in
              r ← stopEtcdProcess;
              match snd r with
              | Some _ => mret (Some "error stopping etcd process")
              | None =>
                  modify (set_state (Some st')) ≫= fun _ =>
                  w ← writeState st';
                  match w with
                  | Some e => mret (Some e)
                  | None => startEtcdProcess st'
                  end
              end
          end
      end
  end.

Definition Reconfigure (request : ReconfigureRequest) : NM (option error) :=
  e ← validateHeader (Reconf_Header request);
  match e with
  | Some e => mret (Some e)
  | None => reconfigureAuthorised request
  end.

Definition StopEtcd (header : option CommonRequestHeader) : NM (option error) :=
  e ← validateHeader header;
  match e with
  | Some e => mret (Some e)
  | None =>
      s ← get;
      match es_state s with
      | None => mret (Some "cluster not running")
      | Some st =>
          c ← deref "s.state.Cluster" (State_Cluster st);
          let clusterToken := Cluster_ClusterToken c in
          r ← stopEtcdProcess;
          match snd r with
          | Some _ => mret (Some "error stopping etcd process")
          | None =>
              modify (set_state (Some emptyEtcdState)) ≫= fun _ =>
              w ← writeState emptyEtcdState;
              match w with
              | Some e => mret (Some e)
              | None =>
                  let oldDataDir := PathJoin [es_baseDir s; "data"; clusterToken] in
                  let trashcanDir := PathJoin [es_baseDir s; "data-trashcan"] in
                  ncall (NMkdirAll trashcanDir) ≫= fun _ =>
                  ncall (NRename oldDataDir (PathJoin [trashcanDir; clusterToken])) ≫= fun _ =>
                  mret None
              end
          end
      end
  end.

Definition DoBackup (request : DoBackupRequest) : NM (result DoBackupResponse) :=
  e ← validateHeader (DoBackup_Header request);
  match e with
  | Some e => mret (Err e)
  | None =>
      s ← get;
      match es_process s with
      | None => mret (Err "etcd not running")
      | Some p =>
          if String.eqb (DoBackup_Storage request) "" then mret (Err "request Storage is required")
          else
            match DoBackup_Info request with
            | None => mret (Err "request Info is required")
            | Some info =>
                st ← ncall (NNewStore (DoBackup_Storage request));
                match st with
                | Some e => mret (Err e)
                | None =>
                    ncall (NProcessBackup p (DoBackup_Storage request)
                      (mkBackupInfo (proc_EtcdVersion p) (Backup_Timestamp info)
                         (Backup_ClusterSpec info)))
                end
            end
      end
  end.
End Requests.

(** [NewEtcdServer]: the configuration read from disk, or adopted from a
    legacy installation. *)
Definition initialServer (baseDir clusterName listenAddress : string)
    (metrics : list string) (node : EtcdNode) (clientsCA peersCA : bool) : EtcdServer :=
  mkEtcdServer baseDir node clusterName None None None listenAddress metrics clientsCA peersCA.

Definition NewEtcdServer : NM (option error) :=
  e ← initState;
  match e with
  | Some e => mret (Some e)
  | None =>
      s ← get;
      match es_state s with
      | Some _ => mret None
      | None =>
          r ← ncall (NImportExisting (es_baseDir s) (es_etcdNodeConfiguration s));
          match r with
          | Err e => mret (Some e)
          | Ok None => mret None
          | Ok (Some st) =>
              w ← writeState st;
              match w with
              | Some e => mret (Some e)
              | None => modify (set_state (Some st)) ≫= fun _ => mret None
              end
          end
      end
  end.
End EtcdServer.

(** ** Properties of the pure parts *)

Lemma self_indices_lookup name nodes i :
  i ∈ self_indices name nodes <-> exists n, nodes !! i = Some n /\ Node_Name n = name.
Proof.
  unfold self_indices. rewrite list_elem_of_fmap. split.
  - intros ([j n] & -> & H). apply list_elem_of_filter in H as [Hn H].
    apply elem_of_lookup_imap in H as (k & m & [= -> ->] & Hk). eauto.
  - intros (n & Hi & Hn). exists (i, n). split; [done|]. apply list_elem_of_filter.
    split; [done|]. apply elem_of_lookup_imap. eauto.
Qed.

(** [findSelfNode] answers the one node with our name. *)
Lemma findSelfNode_Some name nodes i :
  findSelfNode name nodes = Ok (Some i) ->
  (exists n, nodes !! i = Some n /\ Node_Name n = name) /\
  (forall j n, nodes !! j = Some n -> Node_Name n = name -> j = i).
Proof.
  unfold findSelfNode. destruct (self_indices name nodes) as [|k [|]] eqn:E; try done.
  intros [= ->]. split.
  - apply self_indices_lookup. rewrite E. by left.
  - intros j n Hj Hn. assert (j ∈ self_indices name nodes) as H
      by (apply self_indices_lookup; eauto).
    rewrite E in H. by apply list_elem_of_singleton in H.
Qed.

Lemma findSelfNode_None name nodes :
  findSelfNode name nodes = Ok None -> forall n, n ∈ nodes -> Node_Name n <> name.
Proof.
  unfold findSelfNode. destruct (self_indices name nodes) as [|k [|]] eqn:E; try done.
  intros _ n Hn Hname. apply list_elem_of_lookup in Hn as [i Hi].
  assert (i ∈ self_indices name nodes) as H by (apply self_indices_lookup; eauto).
  rewrite E in H. by apply elem_of_nil in H.
Qed.

(** ** Traces of a node server *)

Abbreviation ntrace := (trace NodeSig).

Definition is_write (x : exchange NodeSig) : Prop :=
  exists p b, asked x = NWriteFile p b.
Definition no_write (t : ntrace) : Prop := Forall (fun x => ~ is_write x) t.

(** The last write of [t] stored [b] in the file [p], without an error. *)
Definition last_write (p b : string) (t : ntrace) : Prop :=
  exists t1 t2, t = t1 ++ (existT (NWriteFile p b : op NodeSig) None : exchange NodeSig) :: t2
    /\ no_write t2.

Lemma no_write_app t t' : no_write (t ++ t') <-> no_write t /\ no_write t'.
Proof. apply Forall_app. Qed.

Lemma last_write_app_r p b t t' : last_write p b t' -> last_write p b (t ++ t').
Proof.
  intros (t1 & t2 & -> & H). exists (t ++ t1), t2. split; [by rewrite <- app_assoc|done].
Qed.
Lemma last_write_app_l p b t t' : last_write p b t -> no_write t' -> last_write p b (t ++ t').
Proof.
  intros (t1 & t2 & -> & H) H'. exists t1, (t2 ++ t'). split; [by rewrite <- app_assoc|].
  by apply no_write_app.
Qed.

(** The last write is unique. *)
Lemma last_write_inj p b b' t : last_write p b t -> last_write p b' t -> b = b'.
Proof.
  intros (t1 & t2 & -> & H2) (t3 & t4 & Heq & H4).
  assert (forall (t : ntrace) x u, is_write x -> ~ no_write (t ++ x :: u)) as Hw.
  { intros t x u Hx [_ [Hn _]%Forall_cons]%Forall_app. done. }
  apply app_eq_app in Heq as (l & [[-> Hl]|[-> Hl]]).
  - destruct l as [|x l]; simplify_eq/=; [done|]. exfalso.
    apply (Hw l (existT (NWriteFile p b : op NodeSig) None) t2); [by eexists _, _|done].
  - destruct l as [|x l]; simplify_eq/=; [done|]. exfalso.
    apply (Hw l (existT (NWriteFile p b' : op NodeSig) None) t4); [by eexists _, _|done].
Qed.

Ltac no_write_tac :=
  unfold no_write in *;
  repeat first [ apply List.Forall_nil | apply Forall_cons; split
               | apply no_write_app; split | apply Forall_app; split
               | assumption
               | match goal with |- ~ is_write _ => intros (? & ? & ?); discriminate end ].

(** ** What each step of a request does *)

Section ServerSpecs.
Context (cfg : BinConfig).
Context (Marshal : EtcdState -> option string).

(** [p] runs the configuration [st] for the node of [s]. *)
Record runs_state (s : EtcdServer) (st : EtcdState) (p : etcdProcess) : Prop := {
  rs_cluster : exists c, State_Cluster st = Some c /\
                 Cluster_ClusterToken (proc_Cluster p) = Cluster_ClusterToken c;
  rs_dataDir : proc_DataDir p =
                 PathJoin [es_baseDir s; "data"; Cluster_ClusterToken (proc_Cluster p)];
  rs_version : proc_EtcdVersion p = State_EtcdVersion st;
  rs_quarantined : proc_Quarantined p = State_Quarantined st;
  rs_name : proc_MyNodeName p = Node_Name (es_etcdNodeConfiguration s);
  rs_self : is_Some (findMyNode p);
}.

Lemma writeState_spec st s :
  wpm (writeState Marshal st) s
    (fun r s' t => s' = s /\
       (r = None -> exists b, Marshal st = Some b /\ last_write (stateFile s) b t))
    (fun _ _ => False).
Proof.
  unfold writeState. wpm_steps; (split; [done|]); try done.
  intros _. eexists. split; [done|]. exists [], []. split; [done|constructor].
Qed.

Lemma processStart_spec p s :
  wpm (processStart p) s
    (fun r s' t => s' = s /\ no_write t /\ (r = None -> is_Some (findMyNode p))) (fun _ _ => False).
Proof.
  unfold processStart. destruct (findMyNode p) eqn:E; wpm_steps;
    repeat split; try done; no_write_tac; intros; by eexists.
Qed.

Lemma Bindir_no_write v cmd (s : EtcdServer) :
  wpm (BindirForEtcdVersion (Σ := NodeSig) cfg v cmd) s
    (fun r s' t => s' = s /\ no_write t) (fun _ _ => False).
Proof.
  eapply wpm_mono; [apply BindirForEtcdVersion_spec| |done].
  intros r s' t (-> & Ht & _). split; [done|].
  eapply Forall_impl; [exact Ht|]. intros x [p Hp] (q & b & Hq). rewrite Hp in Hq. discriminate.
Qed.

Lemma startEtcdProcess_spec st s :
  wpm (startEtcdProcess cfg st) s
    (fun r s' t => no_write t /\
       match r with
       | None => exists p, s' = set_process (Some p) s /\ runs_state s st p
       | Some _ => s' = s
       end) (fun _ _ => False).
Proof.
  unfold startEtcdProcess. apply wpm_bind, wpm_get; simpl.
  destruct (State_Cluster st) as [c|] eqn:Hc; [|apply wpm_ret; split; [no_write_tac|done]].
  destruct (String.eqb _ _) eqn:Ht; [apply wpm_ret; split; [no_write_tac|done]|].
  destruct (findSelfNode _ _) as [[i|]|] eqn:Hf;
    [|apply wpm_ret; split; [no_write_tac|done]..].
  destruct (_ !! i) as [me|] eqn:Hme; [|apply wpm_ret; split; [no_write_tac|done]].
  apply wpm_bind. refine (@wpm_call NodeSig EtcdServer (NCreateKeypairs _ _) s _ _ _).
  intros [e|]; simpl; [apply wpm_ret; split; [no_write_tac|done]|].
  apply wpm_bind. eapply wpm_mono; [apply Bindir_no_write| |done].
  intros [d|e] s1 t1 [-> Ht1]; simpl; [|apply wpm_ret; split; [no_write_tac|done]].
  apply wpm_bind. eapply wpm_mono; [apply processStart_spec| |done].
  intros [e|] s2 t2 (-> & Ht2 & Hself); simpl;
    [apply wpm_ret; split; [no_write_tac|done]|].
  apply wpm_bind, wpm_modify; simpl. apply wpm_ret. split; [no_write_tac|].
  eexists. split; [done|]. split; simpl; eauto.
Qed.

Lemma stopEtcdProcess_spec s :
  wpm stopEtcdProcess s
    (fun r s' t => no_write t /\
       match snd r with
       | None => s' = set_process None s
       | Some _ => s' = s
       end) (fun _ _ => False).
Proof.
  unfold stopEtcdProcess. wpm_steps; (split; [no_write_tac|]); try done.
  destruct s; simpl in *. by subst.
Qed.
End ServerSpecs.

(** ** Requests *)

(** The clock showed [tm] during [t]. *)
Definition clock_shows (tm : time) (t : ntrace) : Prop :=
  (existT (NNow : op NodeSig) tm : exchange NodeSig) ∈ t.

(** The reservation of [s] was found expired during [t]. *)
Definition expired (s : EtcdServer) (t : ntrace) : Prop :=
  exists p tm, es_prepared s = Some p /\ clock_shows tm t /\ pr_validUntil p < tm.

Lemma clock_shows_app tm t t' : clock_shows tm t -> clock_shows tm (t ++ t').
Proof. intros. apply elem_of_app. by left. Qed.
Lemma clock_shows_app_r tm t t' : clock_shows tm t' -> clock_shows tm (t ++ t').
Proof. intros. apply elem_of_app. by right. Qed.
Lemma expired_app s t t' : expired s t -> expired s (t ++ t').
Proof. intros (p & tm & ? & ? & ?). exists p, tm. auto using clock_shows_app. Qed.

Section RequestSpecs.
Context (cfg : BinConfig).
Context (Marshal : EtcdState -> option string).
Context {P : Type} `{!LeaderService P} (ps : P).

(** The header names this cluster and carries the token of the leader. *)
Definition authorises (s : EtcdServer) (h : CommonRequestHeader) : Prop :=
  Header_ClusterName h = es_clusterName s /\ grants ps (Header_LeadershipToken h) = true.

Lemma validateHeader_spec {Σ} h s :
  wpm (validateHeader (Σ := Σ) ps h) s
    (fun r s' t => s' = s /\ t = [] /\ exists hd, h = Some hd /\ (r = None <-> authorises s hd))
    (fun c t => t = [] /\ h = None).
Proof.
  unfold validateHeader, authorises. destruct h as [hd|]; wpm_steps; zify_bools;
    try done; (split; [done|]); (split; [done|]); exists hd; (split; [done|]);
    first [by split | split; [done|]; intros [? ?]; congruence].
Qed.

(** Without authority the check answers at once. *)
Lemma validateHeader_refuses {Σ} hd s :
  ~ authorises s hd -> exists e, validateHeader (Σ := Σ) ps (Some hd) s = Ret (Some e, s).
Proof.
  unfold authorises, validateHeader, mbind, M_bind, get, deref, mret, M_ret. intros H. cbn.
  destruct (String.eqb_spec (Header_ClusterName hd) (es_clusterName s)); cbn; [|by eexists].
  destruct (grants ps _) eqn:E; [by destruct H|by eexists].
Qed.

Lemma validateHeader_nil {Σ} s : exists what, validateHeader (Σ := Σ) ps None s = Crash (NilDeref what).
Proof. by eexists. Qed.

Lemma expirePrepared_spec s :
  wpm expirePrepared s
    (fun _ s' t => no_write t /\
       ((s' = s /\ forall p, es_prepared s = Some p ->
          exists tm, clock_shows tm t /\ tm <= pr_validUntil p)
        \/ (s' = set_prepared None s /\ expired s t))) (fun _ _ => False).
Proof.
  unfold expirePrepared. apply wpm_bind, wpm_get; simpl.
  destruct (es_prepared s) as [p|] eqn:E; wpm_steps; zify_bools; (split; [no_write_tac|]).
  - right. split; [done|]. eexists _, _. split; [done|]. split; [by left|done].
  - left. split; [done|]. intros ? [= <-]. eexists. split; [by left|done].
  - left. split; [done|]. by intros.
Qed.

Lemma checkPrepared_None request s :
  checkPrepared request s = None ->
  es_process s = None /\ exists p, es_prepared s = Some p /\
    pr_clusterToken p = Join_ClusterToken request.
Proof.
  unfold checkPrepared. repeat case_goal; try done. zify_bools. eauto.
Qed.

(** A successful configuration step: the reservation is used up, the new
    configuration is in memory, on disk, and running. *)
Definition joined (request : JoinClusterRequest) (st : EtcdState) (s s' : EtcdServer)
    (t : ntrace) : Prop :=
  exists p b, s' = set_prepared None (set_state (Some st) (set_process (Some p) s)) /\
    runs_state s st p /\ Marshal st = Some b /\ last_write (stateFile s) b t.

(** What a failed configuration step leaves: the reservation, and either the
    old configuration or the new one, which [runOnce] will then start. *)
Definition join_failed (request : JoinClusterRequest) (sts : list EtcdState)
    (s s' : EtcdServer) : Prop :=
  s' = s \/
  (checkPrepared request s = None /\ exists st, st ∈ sts /\
    (s' = set_state (Some st) s \/
     exists p, s' = set_state (Some st) (set_process (Some p) s) /\ runs_state s st p)).

Lemma runs_state_ext s s' st st' p :
  runs_state s st p ->
  es_baseDir s' = es_baseDir s ->
  es_etcdNodeConfiguration s' = es_etcdNodeConfiguration s ->
  State_Cluster st' = State_Cluster st ->
  State_EtcdVersion st' = State_EtcdVersion st ->
  State_Quarantined st' = State_Quarantined st -> runs_state s' st' p.
Proof. intros [] H1 H2 H3 H4 H5. split; rewrite ?H1, ?H2, ?H3, ?H4, ?H5; done. Qed.

Lemma joinInitial_spec request s :
  wpm (joinInitial cfg Marshal request) s
    (fun r s' t => match r with
       | None => checkPrepared request s = None /\
                 joined request (joinState request false true) s s' t
       | Some _ => join_failed request [joinState request true true; joinState request false true] s s'
       end) (fun _ _ => False).
Proof.
  unfold joinInitial. apply wpm_bind, wpm_get; simpl.
  destruct (checkPrepared request s) as [e|] eqn:Hp; [apply wpm_ret; by left|].
  apply checkPrepared_None in Hp as Hc. destruct Hc as [Hproc _].
  apply wpm_bind, wpm_modify; simpl. apply wpm_bind.
  eapply wpm_mono; [apply writeState_spec| |done].
  intros [e|] s1 t1 [-> _]; simpl.
  { apply wpm_ret. right. split; [done|]. eexists. split; [by left|by left]. }
  apply wpm_bind. eapply wpm_mono; [apply startEtcdProcess_spec| |done].
  intros [e|] s2 t2 [Ht2 Hs2]; simpl.
  { apply wpm_ret. right. split; [done|]. subst. eexists. split; [by left|by left]. }
  destruct Hs2 as (p & -> & Hrun). apply wpm_bind, wpm_modify; simpl. apply wpm_bind.
  eapply wpm_mono; [apply writeState_spec| |done].
  intros [e|] s3 t3 [-> Hw]; simpl.
  - apply wpm_ret. right. split; [done|]. exists (joinState request false true).
    split; [set_solver|]. right. exists p. split; [done|].
    by eapply runs_state_ext; [exact Hrun|done..].
  - apply wpm_bind, wpm_modify, wpm_ret. split; [done|].
    destruct (Hw eq_refl) as (b & Hb & Hlw). exists p, b. split; [done|].
    split; [by eapply runs_state_ext; [exact Hrun|done..]|]. split; [done|].
    rewrite ?app_nil_r. simpl. by apply last_write_app_r, last_write_app_r.
Qed.

Lemma joinExisting_spec request s :
  wpm (joinExisting cfg Marshal request) s
    (fun r s' t => match r with
       | None => checkPrepared request s = None /\
                 joined request (joinState request false false) s s' t
       | Some _ => join_failed request [joinState request false false] s s'
       end) (fun _ _ => False).
Proof.
  unfold joinExisting. apply wpm_bind, wpm_get; simpl.
  destruct (checkPrepared request s) as [e|] eqn:Hp; [apply wpm_ret; by left|].
  apply checkPrepared_None in Hp as Hc. destruct Hc as [Hproc _].
  apply wpm_bind, wpm_modify; simpl. apply wpm_bind.
  eapply wpm_mono; [apply writeState_spec| |done].
  intros [e|] s1 t1 [-> Hw]; simpl.
  { apply wpm_ret. right. split; [done|]. eexists. split; [by left|by left]. }
  apply wpm_bind. eapply wpm_mono; [apply startEtcdProcess_spec| |done].
  intros [e|] s2 t2 [Ht2 Hs2]; simpl.
  { apply wpm_ret. right. split; [done|]. subst. eexists. split; [by left|by left]. }
  destruct Hs2 as (p & -> & Hrun). apply wpm_bind, wpm_modify, wpm_ret. split; [done|].
  destruct (Hw eq_refl) as (b & Hb & Hlw). exists p, b. split; [done|].
  split; [by eapply runs_state_ext; [exact Hrun|done..]|]. split; [done|].
  rewrite ?app_nil_r. by apply last_write_app_l.
Qed.
End RequestSpecs.

Section Requests2.
Context (cfg : BinConfig).
Context (Marshal : EtcdState -> option string).
Context {P : Type} `{!LeaderService P}.

(** The request uses a reservation for its token that has not expired. *)
Definition uses_reservation (request : JoinClusterRequest) (s : EtcdServer) (t : ntrace) : Prop :=
  es_process s = None /\
  exists p tm, es_prepared s = Some p /\ pr_clusterToken p = Join_ClusterToken request /\
    clock_shows tm t /\ tm <= pr_validUntil p.

(** The configurations a request can leave behind. *)
Definition join_states (request : JoinClusterRequest) : list EtcdState :=
  [joinState request true true; joinState request false true; joinState request false false].

(** The outcome of an authorised [JoinCluster]. *)
Definition join_post (request : JoinClusterRequest) (s : EtcdServer) (r : option error)
    (s' : EtcdServer) (t : ntrace) : Prop :=
  match r with
  | Some _ => exists s1, (s1 = s \/ (s1 = set_prepared None s /\ expired s t)) /\
                join_failed request (join_states request) s1 s'
  | None =>
      match Join_Phase request with
      | PHASE_PREPARE =>
          es_process s = None /\ (es_prepared s = None \/ expired s t) /\
          exists tm, clock_shows tm t /\
            s' = set_prepared (Some (mkPrepared (tm + PreparedValidity)
                                      (Join_ClusterToken request))) s
      | PHASE_INITIAL_CLUSTER =>
          uses_reservation request s t /\
          joined Marshal request (joinState request false true) s s' t
      | PHASE_JOIN_EXISTING =>
          uses_reservation request s t /\
          joined Marshal request (joinState request false false) s s' t
      | PHASE_CANCEL_PREPARE =>
          (s' = s /\ es_prepared s = None) \/
          (s' = set_prepared None s /\ exists p, es_prepared s = Some p /\
             pr_clusterToken p = Join_ClusterToken request)
      | _ => False
      end
  end.

Lemma join_failed_incl request l l' s s' :
  l ⊆ l' -> join_failed request l s s' -> join_failed request l' s s'.
Proof.
  intros Hl [->|(Hp & st & Hst & H)]; [by left|]. right. split; [done|]. exists st. auto.
Qed.

(** The part of [JoinCluster] after the header check, the expiry of an old
    reservation and the version check. *)
Lemma join_phase_spec request s s1 t1 (Hs1 : (s1 = s /\ (forall p, es_prepared s = Some p ->
      exists tm, clock_shows tm t1 /\ tm <= pr_validUntil p)) \/
      (s1 = set_prepared None s /\ expired s t1))
    (Hph : Join_Phase request <> PHASE_CANCEL_PREPARE) :
  wpm (joinPhase cfg Marshal request) s1 (fun r s' t => join_post request s r s' (t1 ++ t)) (fun _ _ => False).
Proof.
  assert (s1 = s \/ (s1 = set_prepared None s /\ expired s t1)) as Hs1' by naive_solver.
  assert (forall st t s', checkPrepared request s1 = None -> joined Marshal request st s1 s' t ->
    uses_reservation request s (t1 ++ t) /\ joined Marshal request st s s' (t1 ++ t)) as Hjoin.
  { intros st t s' Hc (p & b & -> & Hrun & Hb & Hw).
    apply checkPrepared_None in Hc as (Hproc & q & Hq & Hqt).
    destruct Hs1 as [[-> Htm]|[-> _]]; [|done]. split.
    - split; [done|]. destruct (Htm _ Hq) as (tm & ? & ?). exists q, tm.
      auto using clock_shows_app.
    - exists p, b. auto using last_write_app_r. }
  assert (forall e t s' l, l ⊆ join_states request -> join_failed request l s1 s' ->
    join_post request s (Some e) s' (t1 ++ t)) as Hfail.
  { intros e t s' l Hl Hf. exists s1. split; [|by eapply join_failed_incl].
    destruct Hs1' as [?|[? ?]]; auto using expired_app. }
  unfold joinPhase, join_post. destruct (Join_Phase request); try done;
    try (apply wpm_ret; eapply (Hfail "" _ _ []); [set_solver|by left]).
  - unfold joinPrepare. apply wpm_bind, wpm_get; simpl.
    destruct (es_process s1) eqn:Hp;
      [apply wpm_ret; eapply (Hfail "" _ _ []); [set_solver|by left]|].
    destruct (es_prepared s1) eqn:Hpr;
      [apply wpm_ret; eapply (Hfail "" _ _ []); [set_solver|by left]|].
    unfold now. wpm_steps. split; [by destruct Hs1' as [->|[-> _]]|].
    split; [destruct Hs1' as [->|[-> ?]]; auto using expired_app|].
    eexists. split; [apply clock_shows_app_r; by left|]. by destruct Hs1' as [->|[-> _]].
  - eapply wpm_mono; [apply joinInitial_spec| |done].
    intros [e|] s' t H; [|apply Hjoin; apply H].
    eapply (Hfail ""); [|exact H]. unfold join_states. set_solver.
  - eapply wpm_mono; [apply joinExisting_spec| |done].
    intros [e|] s' t H; [|apply Hjoin; apply H].
    eapply (Hfail ""); [|exact H]. unfold join_states. set_solver.
Qed.

Lemma JoinCluster_wp (ps : P) request s :
  wpm (JoinCluster cfg Marshal ps request) s
    (fun r s' t => exists hd, Join_Header request = Some hd /\
       ((~ authorises ps s hd /\ r <> None /\ s' = s /\ t = []) \/
        (authorises ps s hd /\ join_post request s r s' t)))
    (fun _ t => Join_Header request = None /\ t = []).
Proof.
  unfold JoinCluster. apply wpm_bind.
  eapply wpm_mono; [apply validateHeader_spec| |naive_solver].
  intros [e|] s1 t1 (-> & -> & hd & Hhd & Hr); simpl.
  { apply wpm_ret. exists hd. split; [done|]. left. naive_solver. }
  assert (authorises ps s hd) as Hauth by naive_solver.
  enough (wpm (joinAuthorised cfg Marshal request) s (join_post request s) (fun _ _ => False)) as H.
  { eapply wpm_mono; [exact H| |done]. intros r s' t Hp. exists hd. auto. }
  clear Hr Hauth.
  unfold joinAuthorised. case_bool_decide as Hph.
  { unfold cancelPrepare, join_post. rewrite Hph.
    apply wpm_bind, wpm_get; simpl.
    destruct (es_prepared s) as [p|] eqn:E; [|apply wpm_ret; by left].
    destruct (String.eqb _ _) eqn:Et; zify_bools; wpm_steps.
    - right. split; [done|]. by exists p.
    - exists s. split; by left. }
  apply wpm_bind. eapply wpm_mono; [apply expirePrepared_spec| |done].
  intros [] s1 t1 [_ Hs1]; simpl. apply wpm_bind.
  eapply wpm_mono; [apply Bindir_no_write| |done].
  intros [d|e] s2 t2 [-> _]; simpl.
  - eapply wpm_mono; [eapply (join_phase_spec request s s1 (t1 ++ t2)); [|done]| |done].
    + destruct Hs1 as [[-> H]|[-> ?]]; [left|right; auto using expired_app]. split; [done|].
      intros p Hp. destruct (H p Hp) as (tm & ? & ?). exists tm. split; [|done].
      by apply clock_shows_app.
    + intros r s' t H. cbv beta in H. rewrite <- app_assoc in H. exact H.
  - apply wpm_ret. exists s1. split; [|by left].
    destruct Hs1 as [[-> _]|[-> ?]]; auto using expired_app.
Qed.
End Requests2.

Section Requests3.
Context (cfg : BinConfig).
Context (Marshal : EtcdState -> option string).
Context {P : Type} `{!LeaderService P}.

(** The outcome of an authorised [Reconfigure]. *)
Definition reconfigure_post (request : ReconfigureRequest) (s : EtcdServer) (r : option error)
    (s' : EtcdServer) (t : ntrace) : Prop :=
  match r with
  | Some _ => s' = s \/ exists st', s' = set_state (Some st') (set_process None s)
  | None =>
      exists st c i p b,
        es_state s = Some st /\ State_Cluster st = Some c /\
        findSelfNode (Node_Name (es_etcdNodeConfiguration s)) (Cluster_Nodes c) = Ok (Some i) /\
        let st' := reconfiguredState request st c i in
        s' = set_process (Some p) (set_state (Some st') s) /\ runs_state s st' p /\
        Marshal st' = Some b /\ last_write (stateFile s) b t
  end.

Lemma reconfigureAuthorised_spec request s :
  wpm (reconfigureAuthorised cfg Marshal request) s (reconfigure_post request s)
    (fun _ t => t = [] /\ exists st, es_state s = Some st /\ State_Cluster st = None).
Proof.
  unfold reconfigureAuthorised. apply wpm_bind, wpm_get; simpl.
  destruct (es_state s) as [st|] eqn:Hst; [|apply wpm_ret; by left].
  apply wpm_bind. destruct (State_Cluster st) as [c|] eqn:Hc; [|apply wpm_die; eauto].
  apply wpm_ret; simpl.
  destruct (findSelfNode _ _) as [[i|]|] eqn:Hf; [|apply wpm_ret; by left..].
  apply wpm_bind. eapply wpm_mono with
    (Q := fun _ s' t => s' = s /\ no_write t) (C := fun _ _ => False); [| |done].
  { destruct (String.eqb _ _); [apply wpm_ret; split; [done|no_write_tac]|apply Bindir_no_write]. }
  intros [d|e] s1 t1 [-> Ht1]; simpl; [|apply wpm_ret; by left].
  apply wpm_bind. eapply wpm_mono; [apply stopEtcdProcess_spec| |done].
  intros [b [e|]] s1 t2 [Ht2 ->]; simpl; [apply wpm_ret; by left|].
  apply wpm_bind, wpm_modify; simpl. apply wpm_bind.
  eapply wpm_mono; [apply writeState_spec| |done].
  intros [e|] s2 t3 [-> Hw]; simpl; [apply wpm_ret; right; eauto|].
  eapply wpm_mono; [apply startEtcdProcess_spec| |done].
  intros [e|] s2 t4 [Ht4 H]; simpl; [subst; right; eauto|].
  destruct H as (p & -> & Hrun). destruct (Hw eq_refl) as (bs & Hb & Hlw).
  exists st, c, i, p, bs. repeat (split; [done|]).
  split; [by eapply runs_state_ext; [exact Hrun|done..]|]. split; [done|].
  by apply last_write_app_r, last_write_app_r, last_write_app_l.
Qed.

Lemma Reconfigure_wp (ps : P) request s :
  wpm (Reconfigure cfg Marshal ps request) s
    (fun r s' t => exists hd, Reconf_Header request = Some hd /\
       ((~ authorises ps s hd /\ r <> None /\ s' = s /\ t = []) \/
        (authorises ps s hd /\ reconfigure_post request s r s' t)))
    (fun _ t => t = [] /\ (Reconf_Header request = None \/
       exists st, es_state s = Some st /\ State_Cluster st = None)).
Proof.
  unfold Reconfigure. apply wpm_bind.
  eapply wpm_mono; [apply validateHeader_spec| |naive_solver].
  intros [e|] s1 t1 (-> & -> & hd & Hhd & Hr); simpl.
  { apply wpm_ret. exists hd. split; [done|]. left. naive_solver. }
  eapply wpm_mono; [apply reconfigureAuthorised_spec| |].
  - intros r s' t H. exists hd. split; [done|]. right. split; [by apply Hr|done].
  - intros c t [-> H]. auto.
Qed.

(** The outcome of an authorised [StopEtcd]. *)
Definition stop_post (s : EtcdServer) (r : option error) (s' : EtcdServer) (t : ntrace) : Prop :=
  let stopped := set_state (Some emptyEtcdState) (set_process None s) in
  match r with
  | Some _ => s' = s \/ s' = stopped
  | None => s' = stopped /\
      (exists st c, es_state s = Some st /\ State_Cluster st = Some c) /\
      exists b, Marshal emptyEtcdState = Some b /\ last_write (stateFile s) b t
  end.

Lemma StopEtcd_wp (ps : P) header s :
  wpm (StopEtcd Marshal ps header) s
    (fun r s' t => exists hd, header = Some hd /\
       ((~ authorises ps s hd /\ r <> None /\ s' = s /\ t = []) \/
        (authorises ps s hd /\ stop_post s r s' t)))
    (fun _ t => t = [] /\ (header = None \/
       exists st, es_state s = Some st /\ State_Cluster st = None)).
Proof.
  unfold StopEtcd. apply wpm_bind.
  eapply wpm_mono; [apply validateHeader_spec| |naive_solver].
  intros [e|] s1 t1 (-> & -> & hd & Hhd & Hr); simpl.
  { apply wpm_ret. exists hd. split; [done|]. left. naive_solver. }
  assert (authorises ps s hd) as Hauth by by apply Hr.
  assert (forall r s' t, stop_post s r s' t -> exists hd0, header = Some hd0 /\
    ((~ authorises ps s hd0 /\ r <> None /\ s' = s /\ t = []) \/
     (authorises ps s hd0 /\ stop_post s r s' t))) as Hpost by eauto.
  apply wpm_bind, wpm_get; simpl.
  destruct (es_state s) as [st|] eqn:Hst; [|apply wpm_ret, Hpost; by left].
  apply wpm_bind. destruct (State_Cluster st) as [c|] eqn:Hc; [|apply wpm_die; eauto].
  apply wpm_ret; simpl. apply wpm_bind.
  eapply wpm_mono; [apply stopEtcdProcess_spec| |done].
  intros [b [e|]] s1 t2 [Ht2 ->]; simpl; [apply wpm_ret, Hpost; by left|].
  apply wpm_bind, wpm_modify; simpl. apply wpm_bind.
  eapply wpm_mono; [apply writeState_spec| |done].
  intros [e|] s2 t3 [-> Hw]; simpl; [apply wpm_ret, Hpost; by right|].
  wpm_steps. apply Hpost. split; [done|]. split; [eauto|].
  destruct (Hw eq_refl) as (bs & Hb & Hlw). exists bs. split; [done|].
  apply last_write_app_r, last_write_app_l; [done|no_write_tac].
Qed.

Lemma DoBackup_wp (ps : P) request s :
  wpm (DoBackup ps request) s
    (fun r s' t => s' = s /\ no_write t /\ (is_ok r = true -> is_Some (es_process s) /\
       exists hd, DoBackup_Header request = Some hd /\ authorises ps s hd))
    (fun _ t => t = [] /\ DoBackup_Header request = None).
Proof.
  unfold DoBackup. apply wpm_bind.
  eapply wpm_mono; [apply validateHeader_spec| |naive_solver].
  intros [e|] s1 t1 (-> & -> & hd & Hhd & Hr); simpl.
  { apply wpm_ret. split; [done|]. split; [no_write_tac|done]. }
  assert (authorises ps s hd) as Hauth by by apply Hr.
  wpm_steps; (split; [done|]); (split; [no_write_tac|]); try done; intros _; eauto.
Qed.

(** A process runs only the configuration in memory. *)
Definition server_wf (s : EtcdServer) : Prop :=
  forall p, es_process s = Some p -> exists st, es_state s = Some st /\ runs_state s st p.

Context (Unmarshal : string -> option EtcdState).

Lemma readState_spec s :
  wpm (readState Unmarshal) s (fun r s' t => s' = s /\ no_write t) (fun _ _ => False).
Proof. unfold readState. wpm_steps; (split; [done|no_write_tac]). Qed.

Lemma initState_spec s :
  wpm (initState Unmarshal) s
    (fun r s' t => no_write t /\ (s' = s \/ (es_state s = None /\ exists st, s' = set_state (Some st) s)))
    (fun _ _ => False).
Proof.
  unfold initState. apply wpm_bind, wpm_get; simpl.
  destruct (es_state s) eqn:Hs; [apply wpm_ret; split; [no_write_tac|by left]|].
  apply wpm_bind. eapply wpm_mono; [apply readState_spec| |done].
  intros [[st|]|e] s1 t1 [-> Ht]; simpl; wpm_steps; (split; [no_write_tac|]); eauto.
Qed.

Lemma runOnce_spec s :
  server_wf s ->
  wpm (runOnce cfg Unmarshal) s
    (fun r s' t => no_write t /\ server_wf s' /\ es_prepared s' = es_prepared s) (fun _ _ => False).
Proof.
  intros Hwf. unfold runOnce. apply wpm_bind.
  eapply wpm_mono; [apply initState_spec| |done]. intros e s1 t1 [Ht1 Hs1]; simpl.
  assert (server_wf s1 /\ es_prepared s1 = es_prepared s) as [Hwf1 Hpr1].
  { destruct Hs1 as [->|[Hs [st ->]]]; [done|]. split; [|done].
    intros p Hp. destruct (Hwf p Hp) as (? & H & _). congruence. }
  clear Hs1. destruct e as [e|]; [by apply wpm_ret; rewrite app_nil_r|].
  apply wpm_bind, wpm_get; simpl. apply wpm_bind.
  eapply wpm_mono with (C := fun _ _ => False) (Q := fun _ s2 t => no_write t /\
    server_wf s2 /\ es_prepared s2 = es_prepared s); [| |done].
  { destruct (es_process s1) eqn:Hp; [|apply wpm_ret; split; [no_write_tac|done]].
    wpm_steps; (split; [no_write_tac|]); done. }
  intros [] s2 t2 (Ht2 & Hwf2 & Hpr2); simpl. apply wpm_bind, wpm_get; simpl.
  destruct (es_state s2) as [st|] eqn:Hst; [|apply wpm_ret; split; [no_write_tac|done]].
  destruct (es_process s2) eqn:Hp; [apply wpm_ret; split; [no_write_tac|done]|].
  destruct (State_Cluster st) eqn:Hc; [|apply wpm_ret; split; [no_write_tac|done]].
  eapply wpm_mono; [apply startEtcdProcess_spec| |done].
  intros [err|] s3 t3 [Ht3 H]; (split; [no_write_tac|]); [by subst|].
  destruct H as (p & -> & Hrun). split; [|done]. intros ? [= <-].
  exists st. split; [done|]. by eapply runs_state_ext; [exact Hrun|done..].
Qed.
End Requests3.
