(* ===== verification/EtcdProcess.v ===== *)
(** * The etcd process: pkg/etcd/etcdprocess.go

    How an [etcdProcess] becomes a command line and an environment
    ([startCommand], the part of [Start] before the process is started), which
    URLs its clients use ([absoluteUrls], of [NewClient]), and the command that
    restores a snapshot.  The URL parser of [net/url] is a parameter. *)

From stdpp Require Import base gmap sets list strings.
From Stdlib Require Import Ascii.
From S2P Require Import Prelude Effects ProtoEtcd GoLib EtcdVersions Binaries PrivateApi EtcdServer.

Local Open Scope Z_scope.

(** What is used of [net/url]: parsing, the parts of a URL, and its text with
    another host. *)
Class UrlLib (U : Type) := {
  urlParse : string -> option U;
  urlScheme : U -> string;
  urlHostname : U -> string;                  (* without the port *)
  urlPort : U -> string;
  urlWithHost : U -> string -> string;
}.

(** ** Start *)

Section Start.
Context {U : Type} `{!UrlLib U}.

Definition changeHost (urls : list string) (host : string) : list string :=
  (fun s =>
     match urlParse s with
     | None => s
     | Some u =>
         let newHost := if String.eqb (urlPort u) "" then host else JoinHostPort host (urlPort u) in
         urlWithHost u newHost
     end) <$> urls.

(** The client URLs in use. *)
Definition clientUrls (p : etcdProcess) (me : EtcdNode) : list string :=
  if proc_Quarantined p then Node_QuarantinedClientUrls me else Node_ClientUrls me.

Definition initialCluster (p : etcdProcess) : string :=
  Join ((fun n => Node_Name n +:+ "=" +:+ Join (Node_PeerUrls n) ",") <$> Cluster_Nodes (proc_Cluster p)) ",".

(** etcd 3.5 is told to check for corruption. *)
Definition checksCorruption (version : string) : bool :=
  match Semver.ParseTolerant version with
  | Ok v => (Semver.Major v =? 3) && (Semver.Minor v =? 5)
  | Err _ => false
  end.

(** The settings, in the order they are made; no name occurs twice. *)
Definition settings (p : etcdProcess) (me : EtcdNode) : list (string * string) :=
  [("ETCD_DATA_DIR", proc_DataDir p);
   ("ETCD_LOGGER", "zap");
   ("ETCD_LOG_OUTPUTS", "stdout");
   ("ETCD_LISTEN_PEER_URLS", Join (changeHost (Node_PeerUrls me) (proc_ListenAddress p)) ",");
   ("ETCD_LISTEN_CLIENT_URLS", Join (changeHost (clientUrls p me) (proc_ListenAddress p)) ",");
   ("ETCD_ADVERTISE_CLIENT_URLS", Join (clientUrls p me) ",");
   ("ETCD_INITIAL_ADVERTISE_PEER_URLS", Join (Node_PeerUrls me) ",")] ++
  (if bool_decide (proc_ListenMetricsURLs p = []) then []
   else [("ETCD_LISTEN_METRICS_URLS", Join (proc_ListenMetricsURLs p) ",")]) ++
  [("ETCD_INITIAL_CLUSTER_STATE", if proc_CreateNewCluster p then "new" else "existing");
   ("ETCD_ENABLE_V2", "false");
   ("ETCD_NAME", proc_MyNodeName p)] ++
  (if String.eqb (Cluster_ClusterToken (proc_Cluster p)) "" then []
   else [("ETCD_INITIAL_CLUSTER_TOKEN", Cluster_ClusterToken (proc_Cluster p))]) ++
  [("ETCD_INITIAL_CLUSTER", initialCluster p);
   ("ETCD_STRICT_RECONFIG_CHECK", "true")] ++
  (if String.eqb (proc_PKIPeersDir p) "" then []
   else [("ETCD_PEER_CLIENT_CERT_AUTH", "true");
         ("ETCD_PEER_TRUSTED_CA_FILE", PathJoin [proc_PKIPeersDir p; "ca.crt"]);
         ("ETCD_PEER_CERT_FILE", PathJoin [proc_PKIPeersDir p; "me.crt"]);
         ("ETCD_PEER_KEY_FILE", PathJoin [proc_PKIPeersDir p; "me.key"])]) ++
  (if String.eqb (proc_PKIClientsDir p) "" then []
   else [("ETCD_CLIENT_CERT_AUTH", "true");
         ("ETCD_TRUSTED_CA_FILE", PathJoin [proc_PKIClientsDir p; "ca.crt"]);
         ("ETCD_CERT_FILE", PathJoin [proc_PKIClientsDir p; "server.crt"]);
         ("ETCD_KEY_FILE", PathJoin [proc_PKIClientsDir p; "server.key"])]) ++
  (if checksCorruption (proc_EtcdVersion p)
   then [("ETCD_EXPERIMENTAL_INITIAL_CORRUPT_CHECK", "true")] else []).

Definition setAll (l : list (string * string)) (env : gmap string string) : gmap string string :=
  foldl (fun env kv => <[fst kv := snd kv]> env) env l.

(** The manager's own variables that start with ETCD_ overwrite the settings; one
    without "=" makes the index [envPair[1]] panic. *)
Fixpoint overwrite (environ : list string) (env : gmap string string) : option (gmap string string) :=
  match environ with
  | [] => Some env
  | e :: environ' =>
      if HasPrefix e "ETCD_" then
        match SplitN e "=" 2 with
        | [k; v] => overwrite environ' (<[k := v]> env)
        | _ => None
        end
      else overwrite environ' env
  end.

Record command := mkExec {
  cmd_path : string;
  cmd_dir : string;
  cmd_args : list string;
  cmd_env : gmap string string;
}.

(** The command of [Start], an error without our node, or a panic ([None]). *)
Definition startCommand (environ : list string) (p : etcdProcess) : option (result command) :=
  let path := PathJoin [proc_BinDir p; "etcd"] in
  let args := path :: if proc_ForceNewCluster p then ["--force-new-cluster"] else [] in
  match findMyNode p with
  | None => Some (Err "unable to find self node")
  | Some me =>
      match overwrite environ (setAll (settings p me) ∅) with
      | None => None
      | Some env =>
          let env := if proc_IgnoreListenMetricsURLs p then delete "ETCD_LISTEN_METRICS_URLS" env else env in
          Some (Ok (mkExec path (proc_CurrentDir p) args env))
      end
  end.
End Start.

(** ** NewClient *)

(** The scheme of a URL of a unix domain socket. *)
Definition unixScheme (url : string) : string :=
  if HasPrefix url "unix://" then "unix"
  else if HasPrefix url "unixs://" then "unixs" else "".

Definition IsAbs (p : string) : bool := HasPrefix p "/".

(** A relative socket becomes absolute, from the directory of the process. *)
Definition absoluteUrl (dir url : string) : result string :=
  let scheme := unixScheme url in
  if String.eqb scheme "" then Ok url
  else if HasPrefix url (scheme +:+ ":///") then Ok url
  else
    let path := TrimPrefix url (scheme +:+ "://") in
    if String.eqb dir "" then Err "clientURL was set to relative path, but process directory was not set"
    else if negb (IsAbs dir) then Err "process directory was not absolute"
    else Ok (scheme +:+ "://" +:+ PathJoin [dir; path]).

Fixpoint absoluteUrls (dir : string) (urls : list string) : result (list string) :=
  match urls with
  | [] => Ok []
  | u :: urls' =>
      match absoluteUrl dir u with
      | Err e => Err e
      | Ok u' =>
          match absoluteUrls dir urls' with
          | Err e => Err e
          | Ok us => Ok (u' :: us)
          end
      end
  end.

(** The endpoints of [etcdProcess.NewClient].  The code rewrites the URLs of the
    node in place; [absoluteUrls_idem] shows that a second call finds the same. *)
Definition clientEndpoints (p : etcdProcess) : result (list string) :=
  match findMyNode p with
  | None => Err "unable to find self node"
  | Some me => absoluteUrls (proc_CurrentDir p) (clientUrls p me)
  end.

(** ** RestoreV3Snapshot *)

Definition restoreArgs (p : etcdProcess) (me : EtcdNode) (snapshotFile : string) : list string :=
  [PathJoin [proc_BinDir p; "etcdctl"]; "snapshot"; "restore"; snapshotFile;
   "--name"; Node_Name me;
   "--initial-cluster"; initialCluster p;
   "--initial-cluster-token"; Cluster_ClusterToken (proc_Cluster p);
   "--initial-advertise-peer-urls"; Join (Node_PeerUrls me) ",";
   "--data-dir"; proc_DataDir p].

(** ** Clients *)

Lemma PathJoin_abs dir es : IsAbs dir = true -> exists b, PathJoin (dir :: es) = "/" +:+ b.
Proof.
  intros Hd. unfold PathJoin. rewrite filter_cons_True by (by intros ->).
  destruct dir as [|x dir]; [done|].
  assert (exists r, Join (String x dir :: filter (fun e => e <> "") es) "/" = String x r) as [r ->]
    by (destruct (filter _ es); by eexists).
  unfold Clean. change (String.eqb (String x r) "") with false.
  assert (HasPrefix (String x r) "/" = true) as ->.
  { unfold IsAbs in Hd. cbn in Hd |- *. apply andb_true_iff in Hd as [-> _]. by destruct r. }
  by eexists.
Qed.

Lemma absoluteUrl_idem dir url url' :
  absoluteUrl dir url = Ok url' -> absoluteUrl dir url' = Ok url'.
Proof.
  unfold absoluteUrl. destruct (String.eqb (unixScheme url) "") eqn:Hs; [by intros [= <-]; rewrite Hs|].
  destruct (HasPrefix url (unixScheme url +:+ ":///")) eqn:Ha; [by intros [= <-]; rewrite Hs, Ha|].
  destruct (String.eqb dir "") eqn:Hd; [done|]. destruct (IsAbs dir) eqn:Habs; [|done]. cbn [negb].
  intros [= <-]. destruct (PathJoin_abs dir [TrimPrefix url (unixScheme url +:+ "://")] Habs) as [b ->].
  assert (unixScheme url = "unix" \/ unixScheme url = "unixs") as [E|E]
    by (unfold unixScheme in *; repeat case_match; auto; done).
  all: rewrite E; by destruct b.
Qed.

Lemma absoluteUrls_idem dir urls urls' :
  absoluteUrls dir urls = Ok urls' -> absoluteUrls dir urls' = Ok urls'.
Proof.
  revert urls'. induction urls as [|u urls IH]; intros urls'; [by intros [= <-]|]. cbn.
  destruct (absoluteUrl dir u) as [u'|] eqn:Hu; [|done].
  destruct (absoluteUrls dir urls) as [us|] eqn:Hus; [|done]. intros [= <-]. cbn.
  by rewrite (absoluteUrl_idem dir u u' Hu), (IH us eq_refl).
Qed.

(** ** The environment of etcd *)

Section Environment.
Context {U : Type} `{!UrlLib U}.

(** The value an entry of the manager's environment gives to [k]. *)
Definition sets (k e : string) : option string :=
  if HasPrefix e "ETCD_" then
    match SplitN e "=" 2 with
    | [k'; v] => if String.eqb k' k then Some v else None
    | _ => None
    end
  else None.

Lemma overwrite_lookup environ env env' k :
  overwrite environ env = Some env' ->
  env' !! k = match last (omap (sets k) environ) with Some v => Some v | None => env !! k end.
Proof.
  revert env. induction environ as [|e environ IH]; intros env; cbn [overwrite]; [by intros [= <-]|].
  assert (forall v, last (match v with Some x => x :: omap (sets k) environ | None => omap (sets k) environ end)
    = match last (omap (sets k) environ) with Some x => Some x | None => v end) as Hlast.
  { intros [x|]; [rewrite last_cons|]; by destruct (last (omap (sets k) environ)). }
  cbn [omap list_omap]. rewrite Hlast. unfold sets at 2.
  destruct (HasPrefix e "ETCD_"); [|intros H; rewrite (IH _ H); by destruct (last _)].
  destruct (SplitN e "=" 2) as [|k' [|v [|]]]; try done. intros H. rewrite (IH _ H).
  destruct (last _); [done|]. destruct (String.eqb_spec k' k) as [->|Hne];
    [by rewrite lookup_insert_eq|by rewrite lookup_insert_ne].
Qed.

Lemma setAll_none l env k : k ∉ l.*1 -> setAll l env !! k = env !! k.
Proof.
  revert env. induction l as [|[k' v'] l IH]; intros env Hk; [done|].
  apply not_elem_of_cons in Hk as [Hne Hk]. change (setAll l (<[k' := v']> env) !! k = env !! k).
  rewrite IH by done. by rewrite lookup_insert_ne.
Qed.

Lemma setAll_lookup l env k v : NoDup l.*1 -> (k, v) ∈ l -> setAll l env !! k = Some v.
Proof.
  revert env. induction l as [|[k' v'] l IH]; intros env Hnd Hin; [set_solver|]. cbn in Hnd.
  apply NoDup_cons in Hnd as [Hk Hnd]. change (setAll l (<[k' := v']> env) !! k = Some v).
  apply elem_of_cons in Hin as [[= -> ->]|Hin]; [|by apply IH].
  rewrite setAll_none by done. apply lookup_insert_eq.
Qed.

Lemma settings_NoDup p me : NoDup (settings p me).*1.
Proof.
  unfold settings. repeat case_match; apply (bool_decide_unpack _); vm_compute; exact I.
Qed.
End Environment.

Section Theorems.
Context {U : Type} `{!UrlLib U}.

Lemma cut_contains c s : contains_byte s c = true -> exists a b, cut c s = Some (a, b).
Proof.
  induction s as [|d s IH]; [done|]. cbn. destruct (Ascii.eqb c d) eqn:E; [by eexists _, _|].
  cbn. intros H. destruct (IH H) as (a & b & ->). by eexists _, _.
Qed.

Lemma overwrite_total environ env :
  Forall (fun e => HasPrefix e "ETCD_" = true -> contains_byte e "=" = true) environ ->
  is_Some (overwrite environ env).
Proof.
  intros H. revert env. induction H as [|e environ He _ IH]; intros env; cbn [overwrite]; [by eexists|].
  destruct (HasPrefix e "ETCD_"); [|apply IH].
  destruct (cut_contains "=" e (He eq_refl)) as (a & b & E). unfold SplitN. rewrite E. apply IH.
Qed.

Lemma no_override k environ :
  Forall (fun e => sets k e = None) environ -> last (omap (sets k) environ) = None.
Proof. induction 1 as [|e environ He _ IH]; [done|]. cbn. by rewrite He. Qed.

(** C24: what etcd is started with.  When the node is known and the manager's own
    ETCD_ variables are well formed, the command exists and is run in the
    directory of the process, forcing a new cluster exactly if asked to.  A
    variable that the manager's own environment sets has the last value it has
    there, every other one the value of the settings: in particular, a
    quarantined etcd advertises only its quarantined client URLs, and clients
    and peers need certificates exactly if the directories of the keys are set.
    The metrics URLs are gone if they are to be ignored, whoever set them. *)
Theorem Start_environment environ p me
  (Hme : findMyNode p = Some me)
  (Hform : Forall (fun e => HasPrefix e "ETCD_" = true -> contains_byte e "=" = true) environ) :
  exists cmd, startCommand environ p = Some (Ok cmd) /\ cmd_dir cmd = proc_CurrentDir p /\
    ("--force-new-cluster" ∈ cmd_args cmd <->
       proc_ForceNewCluster p = true \/ PathJoin [proc_BinDir p; "etcd"] = "--force-new-cluster") /\
    (proc_IgnoreListenMetricsURLs p = true -> cmd_env cmd !! "ETCD_LISTEN_METRICS_URLS" = None) /\
    forall k, k <> "ETCD_LISTEN_METRICS_URLS" \/ proc_IgnoreListenMetricsURLs p = false ->
      (forall v, last (omap (sets k) environ) = Some v -> cmd_env cmd !! k = Some v) /\
      (Forall (fun e => sets k e = None) environ ->
         (forall v, (k, v) ∈ settings p me -> cmd_env cmd !! k = Some v) /\
         (k ∉ (settings p me).*1 -> cmd_env cmd !! k = None) /\
         (k = "ETCD_ADVERTISE_CLIENT_URLS" -> cmd_env cmd !! k =
            Some (Join (if proc_Quarantined p then Node_QuarantinedClientUrls me
                        else Node_ClientUrls me) ",")) /\
         (k = "ETCD_CLIENT_CERT_AUTH" -> cmd_env cmd !! k =
            if String.eqb (proc_PKIClientsDir p) "" then None else Some "true") /\
         (k = "ETCD_PEER_CLIENT_CERT_AUTH" -> cmd_env cmd !! k =
            if String.eqb (proc_PKIPeersDir p) "" then None else Some "true")).
Proof.
  unfold startCommand. rewrite Hme.
  destruct (overwrite_total environ (setAll (settings p me) ∅) Hform) as [env Henv]. rewrite Henv.
  eexists. split; [reflexivity|]. cbn [cmd_dir cmd_args cmd_env]. split; [done|]. split; [|split].
  - rewrite elem_of_cons. destruct (proc_ForceNewCluster p).
    + split; [by left|]. intros _. right. by left.
    + split; [intros [H|H]; [by right|by apply elem_of_nil in H]|]. intros [?|?]; [done|by left].
  - intros ->. apply lookup_delete_eq.
  - intros k Hk.
    assert (forall o, env !! k = o ->
      (if proc_IgnoreListenMetricsURLs p then delete "ETCD_LISTEN_METRICS_URLS" env else env) !! k = o) as Hdel.
    { intros o <-. destruct (proc_IgnoreListenMetricsURLs p); [|done].
      destruct Hk; [|done]. by rewrite lookup_delete_ne. }
    pose proof (overwrite_lookup environ _ _ k Henv) as Hl.
    split; [intros v Hv; apply Hdel; by rewrite Hl, Hv|]. intros Hno. rewrite (no_override k environ Hno) in Hl.
    assert (forall v, (k, v) ∈ settings p me -> env !! k = Some v) as Hin.
    { intros v Hv. rewrite Hl. apply setAll_lookup; [apply settings_NoDup|done]. }
    assert (k ∉ (settings p me).*1 -> env !! k = None) as Hout.
    { intros Hv. rewrite Hl, setAll_none by done. apply lookup_empty. }
    split_and!; [by auto|by auto|..]; intros ->; apply Hdel.
    + apply Hin. unfold settings. apply elem_of_app. left. do 5 right. left.
    + destruct (String.eqb (proc_PKIClientsDir p) "") eqn:E.
      * apply Hout. unfold settings. rewrite E. repeat case_match; apply (bool_decide_unpack _); vm_compute; exact I.
      * apply Hin. unfold settings. rewrite E. do 6 (apply elem_of_app; right). apply elem_of_app. left. left.
    + destruct (String.eqb (proc_PKIPeersDir p) "") eqn:E.
      * apply Hout. unfold settings. rewrite E. repeat case_match; apply (bool_decide_unpack _); vm_compute; exact I.
      * apply Hin. unfold settings. rewrite E. do 5 (apply elem_of_app; right). apply elem_of_app. left. left.
Qed.
End Theorems.

Module ProcessDemo.
(** URLs "scheme://host" of a fixed length of the scheme, for the example. *)
#[export] Instance urls : UrlLib string :=
  {| urlParse := fun s => if HasPrefix s "https://" then Some s else None;
     urlScheme := fun _ => "https";
     urlHostname := fun s => default "" (Split (TrimPrefix s "https://") ":" !! 0%nat);
     urlPort := fun s => default "" (last (Split s ":"));
     urlWithHost := fun _ h => "https://" +:+ h |}.
Definition me : EtcdNode := mkEtcdNode "n1" ["https://n1:2380"] ["https://n1:4001"] ["https://n1:8001"] true.
Definition process : etcdProcess :=
  mkEtcdProcess "/opt/etcd-v3.5.7" "/mnt/data/tok" "3.5.7" false (mkEtcdCluster 0 "tok" [me]) "n1" true false
    "0.0.0.0" [] "/mnt/pki/tok/peers" "/mnt/pki/tok/clients" "" false false.
Definition environ : list string := ["PATH=/bin"; "ETCD_QUOTA_BACKEND_BYTES=8"; "ETCD_LOGGER=capnslog"].
End ProcessDemo.
Import ProcessDemo.

Lemma Start_environment_witness :
  exists cmd, startCommand environ process = Some (Ok cmd) /\
    cmd_env cmd !! "ETCD_LOGGER" = Some "capnslog" /\
    cmd_env cmd !! "ETCD_ADVERTISE_CLIENT_URLS" = Some "https://n1:8001" /\
    cmd_env cmd !! "ETCD_LISTEN_CLIENT_URLS" = Some "https://0.0.0.0:8001".
Proof.
  destruct (Start_environment environ process me) as (cmd & Hcmd & _ & _ & _ & Henv);
    [vm_compute; reflexivity|repeat constructor; vm_compute; congruence|].
  exists cmd. split; [exact Hcmd|].
  assert (forall k, String.eqb k "ETCD_LISTEN_METRICS_URLS" = false -> k <> "ETCD_LISTEN_METRICS_URLS")
    as Hne by (intros k Hk; by apply String.eqb_neq).
  pose proof (Henv "ETCD_LOGGER" (or_introl (Hne "ETCD_LOGGER" eq_refl))) as [H1 _].
  pose proof (Henv "ETCD_ADVERTISE_CLIENT_URLS"
    (or_introl (Hne "ETCD_ADVERTISE_CLIENT_URLS" eq_refl))) as [_ H2].
  pose proof (Henv "ETCD_LISTEN_CLIENT_URLS"
    (or_introl (Hne "ETCD_LISTEN_CLIENT_URLS" eq_refl))) as [_ H3].
  clear Henv. split; [|split].
  - apply H1. vm_compute. reflexivity.
  - assert (Forall (fun e => sets "ETCD_ADVERTISE_CLIENT_URLS" e = None) environ) as Hf
      by (apply (bool_decide_unpack _); vm_compute; exact I).
    exact (proj1 (proj2 (proj2 (H2 Hf))) eq_refl).
  - assert (Forall (fun e => sets "ETCD_LISTEN_CLIENT_URLS" e = None) environ) as Hf
      by (apply (bool_decide_unpack _); vm_compute; exact I).
    apply (proj1 (H3 Hf)). apply (bool_decide_unpack _). vm_compute. exact I.
Defined.
