(* ===== verification/Pki.v ===== *)
(** * Key pairs: pkg/pki and pkg/etcd/pki.go

    A key pair lives in a slot of a store, on disk ([FileSlot], fs.go) or in
    memory ([MemSlot], inmem.go); [ensureKeypair] keeps what is there if the
    certificate is still right, and otherwise has the CA sign a new one.
    [createKeypairs] does this for the certificates of an etcd.

    RSA, X.509 and PEM are libraries: making a key, signing and self-signing are
    operations of the environment, the encodings are parameters.  An IP address
    is represented by its text. *)

From stdpp Require Import base gmap sets list strings sorting.
From S2P Require Import Prelude Effects ProtoEtcd GoLib Vfs Binaries PrivateApi EtcdServer EtcdProcess.

Local Open Scope Z_scope.

(** ** Data *)

Inductive ExtKeyUsage := ClientAuth | ServerAuth.

(** [certutil.Config] *)
Record CertConfig := mkCertConfig {
  cc_CommonName : string;
  cc_Organization : list string;
  cc_DNSNames : list string;
  cc_IPs : list string;
  cc_Usages : list ExtKeyUsage;
}.

(** The parts of an [x509.Certificate] that are used; [PK] is the type of public
    keys. *)
Record Certificate (PK : Type) := mkCertificate {
  crt_CommonName : string;
  crt_DNSNames : list string;
  crt_IPs : list string;
  crt_NotBefore : time;
  crt_NotAfter : time;
  crt_PublicKey : PK;
  crt_Raw : string;
}.
Arguments mkCertificate {_} _ _ _ _ _ _ _.
Arguments crt_CommonName {_} _. Arguments crt_DNSNames {_} _. Arguments crt_IPs {_} _.
Arguments crt_NotBefore {_} _. Arguments crt_NotAfter {_} _. Arguments crt_PublicKey {_} _.
Arguments crt_Raw {_} _.

(** What is to be signed. *)
Record template := mkTemplate {
  tm_CommonName : string;
  tm_Organization : list string;
  tm_DNSNames : list string;
  tm_IPs : list string;
  tm_SerialNumber : Z;
  tm_NotBefore : time;
  tm_NotAfter : time;
  tm_ExtKeyUsage : list ExtKeyUsage;
}.

(** The library: private and public keys, PEM blocks. *)
Class KeyLib (K PK : Type) := {
  key_eq_dec :: EqDecision K;
  pk_eq_dec :: EqDecision PK;
  publicKey : K -> PK;
  ParsePrivateKeyPEM : string -> option (option K);   (* an error; or a key that may not be RSA *)
  ParseCertsPEM : string -> result (list (Certificate PK));
  EncodeKey : K -> string;
  EncodeCert : Certificate PK -> string;
}.

Section Pki.
Context {K PK : Type} `{!KeyLib K PK}.

Record Keypair := mkKeypair {
  kp_PrivateKey : option K;
  kp_Certificate : option (Certificate PK);
}.
Definition emptyKeypair : Keypair := mkKeypair None None.

Record CA := mkCA {
  ca_primaryCertificate : option (Certificate PK);
  ca_privateKey : K;
  ca_certificates : list (Certificate PK);
}.

(** The package variables. *)
Record CertDurations := mkCertDurations { CertDuration : duration; CertMinTimeLeft : duration }.
Definition defaultDurations : CertDurations :=
  mkCertDurations (2 * 365 * 24 * Hour) (20 * 365 * 24 * Hour).

(** ** The environment *)

Inductive pki_op : Type :=
| PNow
| PReadFile (p : string)
| PMkdirAll (p : string)
| POpenFile (p : string)                      (* create or truncate, to write *)
| PEncode (p data : string)                   (* pem.Encode to the file *)
| PClose (p : string)
| PNewPrivateKey
| PSerial                                     (* a random serial number *)
| PCreateCertificate (t : template) (parent : Certificate PK) (pub : PK) (priv : K)
| PNewSelfSignedCACert (cfg : CertConfig) (key : K).

Definition pki_res (e : pki_op) : Type :=
  match e with
  | PNow => time
  | PReadFile _ => read_result
  | PNewPrivateKey => result K
  | PSerial => result Z
  | PCreateCertificate _ _ _ _ | PNewSelfSignedCACert _ _ => result (Certificate PK)
  | _ => option error
  end.
Definition PkiSig : sig := Sig pki_op pki_res.

Abbreviation PM := (M PkiSig).
Abbreviation pcall e := (@call PkiSig _ e).
Abbreviation pexch e r := (@existT (op PkiSig) (@res PkiSig) e r).

(** A slot of a store ([MutableKeypair]): the mutator gets the pair that is there,
    and its answer replaces it. *)
Class MutableKeypair (slot S : Type) :=
  MutateKeypair : slot -> (Keypair -> PM S (result Keypair)) -> PM S (result Keypair).

(** ** fs.go *)

Inductive load (T : Type) := LoadOk (t : T) | LoadNotExist | LoadErr (e : error).
Arguments LoadOk {_} _. Arguments LoadNotExist {_}. Arguments LoadErr {_} _.

Section Files.
Context {S : Type}.

Definition loadPrivateKey (path : string) : PM S (load K) :=
  r ← pcall (PReadFile path);
  match r with
  | ReadNotExist => mret LoadNotExist
  | ReadErr _ => mret (LoadErr "unable to read key")
  | ReadOk data =>
      match ParsePrivateKeyPEM data with
      | None => mret (LoadErr "unable to parse private key")
      | Some None => mret (LoadErr "unexpected private key type")
      | Some (Some key) => mret (LoadOk key)
      end
  end.

(** [ParseOneCertificate] of utils.go *)
Definition ParseOneCertificate (b : string) : result (Certificate PK) :=
  match ParseCertsPEM b with
  | Err _ => Err "error parsing certificate data"
  | Ok [] => Err "did not find any certificates"
  | Ok [cert] => Ok cert
  | Ok _ => Err "found multiple certificates"
  end.

(** A missing file is no error, and leaves the certificate out. *)
Definition loadCertificate (path : string) : PM S (result (option (Certificate PK))) :=
  r ← pcall (PReadFile path);
  match r with
  | ReadNotExist => mret (Ok None)
  | ReadErr _ => mret (Err "unable to read certificate")
  | ReadOk data =>
      match ParseOneCertificate data with
      | Err _ => mret (Err "error parsing certificate data")
      | Ok cert => mret (Ok (Some cert))
      end
  end.

Definition loadCertificateBundle (path : string) : PM S (result (list (Certificate PK))) :=
  r ← pcall (PReadFile path);
  match r with
  | ReadNotExist => mret (Ok [])
  | ReadErr _ => mret (Err "unable to read certificate")
  | ReadOk data =>
      match ParseCertsPEM data with
      | Err _ => mret (Err "error parsing certificate data")
      | Ok certs => mret (Ok certs)
      end
  end.

(** Write blocks to a file, one after the other. *)
Definition writeBlocks (path : string) (blocks : list string) : PM S (option error) :=
  d ← pcall (PMkdirAll (Dir path));
  match d with
  | Some _ => mret (Some "creating directories")
  | None =>
      o ← pcall (POpenFile path);
      match o with
      | Some _ => mret (Some "opening file")
      | None =>
          r ← for_each blocks tt (fun b _ =>
                e ← pcall (PEncode path b);
                match e with
                | Some _ => pcall (PClose path) ≫= fun _ => mret (inr "writing file")
                | None => mret (inl tt)
                end);
          match r with
          | inr e => mret (Some e)
          | inl _ =>
              c ← pcall (PClose path);
              mret (match c with Some _ => Some "closing file" | None => None end)
          end
      end
  end.

Definition writePrivateKey (path : string) (key : K) : PM S (option error) :=
  writeBlocks path [EncodeKey key].
Definition writeCertificates (path : string) (certs : list (Certificate PK)) : PM S (option error) :=
  writeBlocks path (EncodeCert <$> certs).

(** [MutableKeypairFromFile] *)
Record FileSlot := mkFileSlot { fs_PrivateKeyPath : string; fs_CertificatePath : string }.

(** Whether the new value has to be written. *)
Definition keyChanged (original new : option K) : bool :=
  match original with None => true | Some k => negb (bool_decide (Some k = new)) end.
Definition certChanged (original new : option (Certificate PK)) : bool :=
  match original, new with
  | Some a, Some b => negb (String.eqb (crt_Raw a) (crt_Raw b))
  | _, _ => true
  end.

(** The three parts of its [MutateKeypair]: load, mutate, store. *)
Definition loadPair (slot : FileSlot) : PM S (result Keypair) :=
  k ← loadPrivateKey (fs_PrivateKeyPath slot);
  match k with
  | LoadErr e => mret (Err e)
  | _ =>
      c ← loadCertificate (fs_CertificatePath slot);
      match c with
      | Err e => mret (Err e)
      | Ok cert => mret (Ok (mkKeypair (match k with LoadOk key => Some key | _ => None end) cert))
      end
  end.

Definition storePair (slot : FileSlot) (original keypair : Keypair) : PM S (result Keypair) :=
  w ← (if keyChanged (kp_PrivateKey original) (kp_PrivateKey keypair) then
         key ← deref "keypair.PrivateKey" (kp_PrivateKey keypair);
         writePrivateKey (fs_PrivateKeyPath slot) key
       else mret None);
  match w with
  | Some e => mret (Err e)
  | None =>
      w ← (if certChanged (kp_Certificate original) (kp_Certificate keypair) then
             crt ← deref "keypair.Certificate" (kp_Certificate keypair);
             writeCertificates (fs_CertificatePath slot) [crt]
           else mret None);
      match w with
      | Some e => mret (Err e)
      | None => mret (Ok keypair)
      end
  end.

#[export] Instance FileSlot_mutable : MutableKeypair FileSlot S := fun slot mutator =>
  o ← loadPair slot;
  match o with
  | Err e => mret (Err e)
  | Ok original =>
      m ← mutator original;
      match m with
      | Err e => mret (Err e)
      | Ok keypair => storePair slot original keypair
      end
  end.

(** [FSStore.Keypair] *)
Definition fsKeypair (basedir name : string) : FileSlot :=
  mkFileSlot (PathJoin [basedir; name +:+ ".key"]) (PathJoin [basedir; name +:+ ".crt"]).

Definition WriteCABundle (basedir : string) (ca : CA) : PM S (option error) :=
  writeCertificates (PathJoin [basedir; "ca.crt"]) (ca_certificates ca).

(** The certificates in the order of their bytes; the first one for the key is
    the primary one. *)
Definition raw_le (a b : Certificate PK) : Prop := str_le (crt_Raw a) (crt_Raw b).
#[local] Instance raw_le_dec : RelDecision raw_le.
Proof. intros a b. unfold raw_le. apply _. Defined.

Definition LoadCA (basedir name : string) : PM S (result CA) :=
  k ← loadPrivateKey (PathJoin [basedir; name +:+ ".key"]);
  match k with
  | LoadNotExist => mret (Err "file does not exist")
  | LoadErr e => mret (Err e)
  | LoadOk key =>
      c ← loadCertificateBundle (PathJoin [basedir; name +:+ ".crt"]);
      match c with
      | Err e => mret (Err e)
      | Ok certs =>
          let sorted := stable_sort raw_le certs in
          match List.find (fun c => bool_decide (publicKey key = crt_PublicKey c)) sorted with
          | None => mret (Err "did not find certificate for private key")
          | Some cert => mret (Ok (mkCA (Some cert) key sorted))
          end
      end
  end.
End Files.

(** ** inmem.go *)

(** A slot of an [InMemoryStore], by its name; the store is the state. *)
Record MemSlot := mkMemSlot { ms_name : string }.

#[export] Instance MemSlot_mutable : MutableKeypair MemSlot (gmap string Keypair) := fun slot mutator =>
  store ← get;
  m ← mutator (default emptyKeypair (store !! ms_name slot));
  match m with
  | Err e => mret (Err e)
  | Ok keypair => modify <[ms_name slot := keypair]> ≫= fun _ => mret (Ok keypair)
  end.

(** ** certs.go and certutils.go *)

Section Certs.
Context (durations : CertDurations) {S : Type}.

Definition newSignedCert (cfg : CertConfig) (key : K) (ca : CA) (d : duration) : PM S (result (Certificate PK)) :=
  n ← pcall PSerial;
  match n with
  | Err e => mret (Err e)
  | Ok serial =>
      if String.eqb (cc_CommonName cfg) "" then mret (Err "must specify a CommonName")
      else if bool_decide (cc_Usages cfg = []) then mret (Err "must specify at least one ExtKeyUsage")
      else
        caCert ← deref "caCert" (ca_primaryCertificate ca);
        t ← pcall PNow;
        pcall (PCreateCertificate
          (mkTemplate (cc_CommonName cfg) (cc_Organization cfg) (cc_DNSNames cfg) (cc_IPs cfg) serial
             (crt_NotBefore caCert) (t + d) (cc_Usages cfg))
          caCert (publicKey key) (ca_privateKey ca))
  end.

(** Whether the certificate can stay. *)
Definition certMatches (now : time) (config : CertConfig) (cert : Certificate PK) : bool :=
  negb (timeSub (crt_NotAfter cert) now <=? CertMinTimeLeft durations) &&
  String.eqb (crt_CommonName cert) (cc_CommonName config) &&
  bool_decide (sort_strings (cc_DNSNames config) = sort_strings (crt_DNSNames cert)) &&
  bool_decide (sort_strings (cc_IPs config) = sort_strings (crt_IPs cert)).

(** The mutator of [ensureKeypair]. *)
Definition ensureMutator (config : CertConfig) (signer : CA) (keypair : Keypair) : PM S (result Keypair) :=
  k ← match kp_PrivateKey keypair with
      | Some key => mret (Ok key)
      | None => pcall PNewPrivateKey
      end;
  match k with
  | Err _ => mret (Err "unable to create private key")
  | Ok key =>
      kept ← match kp_Certificate keypair with
             | None => mret None
             | Some cert =>
                 t ← pcall PNow;
                 mret (if certMatches t config cert then Some cert else None)
             end;
      match kept with
      | Some cert => mret (Ok (mkKeypair (Some key) (Some cert)))
      | None =>
          c ← newSignedCert config key signer (CertDuration durations);
          match c with
          | Err _ => mret (Err "error signing certificate")
          | Ok cert => mret (Ok (mkKeypair (Some key) (Some cert)))
          end
      end
  end.

Definition ensureKeypair {slot} `{!MutableKeypair slot S} (s : slot) (config : CertConfig) (signer : CA)
    : PM S (result Keypair) :=
  MutateKeypair s (ensureMutator config signer).

(** [NewCA]: always a new key and certificate. *)
Definition caMutator (_ : Keypair) : PM S (result Keypair) :=
  k ← pcall PNewPrivateKey;
  match k with
  | Err _ => mret (Err "unable to create private key")
  | Ok key =>
      c ← pcall (PNewSelfSignedCACert (mkCertConfig "ca" [] [] [] []) key);
      match c with
      | Err _ => mret (Err "error signing certificate")
      | Ok cert => mret (Ok (mkKeypair (Some key) (Some cert)))
      end
  end.

Definition NewCA {slot} `{!MutableKeypair slot S} (s : slot) : PM S (result CA) :=
  r ← MutateKeypair s caMutator;
  match r with
  | Err e => mret (Err e)
  | Ok kp =>
      key ← deref "keypair.PrivateKey" (kp_PrivateKey kp);
      mret (Ok (mkCA (kp_Certificate kp) key (option_list (kp_Certificate kp))))
  end.
End Certs.

(** ** etcd/pki.go *)

Section EtcdPki.
Context {U : Type} `{!UrlLib U} (ParseIP : string -> option string).
Context (durations : CertDurations) {S : Type}.

Definition add_DNSName (h : string) (c : CertConfig) : CertConfig :=
  mkCertConfig (cc_CommonName c) (cc_Organization c) (cc_DNSNames c ++ [h]) (cc_IPs c) (cc_Usages c).
Definition set_IPs (ips : list string) (c : CertConfig) : CertConfig :=
  mkCertConfig (cc_CommonName c) (cc_Organization c) (cc_DNSNames c) ips (cc_Usages c).

(** The loop of [addAltNames] over the URLs. *)
Fixpoint addUrlNames (c : CertConfig) (urls : list string) : result CertConfig :=
  match urls with
  | [] => Ok c
  | urlString :: urls' =>
      match urlParse urlString with
      | None => Err "cannot parse url"
      | Some u =>
          let h := urlHostname u in
          if String.eqb (urlScheme u) "http" || String.eqb (urlScheme u) "https" then
            addUrlNames (match ParseIP h with
                         | None => add_DNSName h c
                         | Some ip => set_IPs (cc_IPs c ++ [ip]) c
                         end) urls'
          else if String.eqb (urlScheme u) "unix" || String.eqb (urlScheme u) "unixs" then
            addUrlNames (add_DNSName h c) urls'
          else Err "unknown URL"
      end
  end.

Definition addAltNames (c : CertConfig) (urls : list string) : result CertConfig :=
  match addUrlNames c urls with
  | Err e => Err e
  | Ok c =>
      if bool_decide ("127.0.0.1" ∈ cc_IPs c) then Ok c
      else
        let ips := cc_IPs c ++ ["127.0.0.1"] in
        if bool_decide ("::1" ∈ ips) then Ok (set_IPs ips c)
        else Ok (set_IPs (ips ++ ["::1"]) c)
  end.

Fixpoint removeDuplicates (seen : gset string) (ips : list string) : list string :=
  match ips with
  | [] => []
  | s :: ips' =>
      if bool_decide (s ∈ seen) then removeDuplicates seen ips'
      else s :: removeDuplicates ({[s]} ∪ seen) ips'
  end.
Definition removeDuplicateIPs (ips : list string) : list string := removeDuplicates ∅ ips.

(** The certificate that etcd uses with its peers. *)
Definition peerConfig (me : EtcdNode) (peerClientIPs : list string) : result CertConfig :=
  match addAltNames (mkCertConfig (Node_Name me) [] [Node_Name me] peerClientIPs [ClientAuth; ServerAuth])
          (Node_PeerUrls me) with
  | Err e => Err e
  | Ok c => Ok (set_IPs (removeDuplicateIPs (cc_IPs c)) c)
  end.

(** The one it serves its clients with. *)
Definition serverConfig (me : EtcdNode) : result CertConfig :=
  match addAltNames (mkCertConfig (Node_Name me) [] [Node_Name me] [] [ServerAuth; ClientAuth])
          (Node_ClientUrls me) with
  | Err e => Err e
  | Ok c => addAltNames c (Node_PeerUrls me)
  end.

(** A key pair in a directory with the bundle of its CA. *)
Definition keypairIn (dir name : string) (ca : CA) (config : result CertConfig) : PM S (option error) :=
  b ← WriteCABundle dir ca;
  match b with
  | Some e => mret (Some e)
  | None =>
      match config with
      | Err e => mret (Some e)
      | Ok c =>
          r ← ensureKeypair durations (fsKeypair dir name) c ca;
          mret (match r with Err e => Some e | Ok _ => None end)
      end
  end.

(** A program with a store in memory of its own. *)
Definition inMemory {A} (m : PM (gmap string Keypair) A) : PM S A :=
  fun s => bind (m ∅) (fun '(a, _) => Ret (a, s)).
End EtcdPki.

(** ** The uses of a key pair: tlsconfig.go, and [BuildTLSClientConfig] of
    etcdprocess.go *)

(** The fields of a [tls.Config] that are set; [tls_RootCAs] and [tls_ClientCAs]
    are the certificates of [CA.CertPool]. *)
Record tlsConfig := mkTlsConfig {
  tls_RootCAs : option (list (Certificate PK));
  tls_ClientCAs : option (list (Certificate PK));
  tls_RequireAndVerifyClientCert : bool;
  tls_ServerName : string;
  tls_Certificates : list (string * option K * Certificate PK);
}.

Section TlsConfigs.
Context (durations : CertDurations) {slot S : Type} `{!MutableKeypair slot S}.
(* [Keypairs]: a store and a CA *)
Context (store : string -> slot) (ca : CA).

Definition EnsureKeypair (name : string) (config : CertConfig) : PM S (result Keypair) :=
  ensureKeypair durations (store name) config ca.

Definition CertPool : list (Certificate PK) := ca_certificates ca.

(** [tls.Certificate] of a pair *)
Definition tlsCertificate (kp : Keypair) : PM S (string * option K * Certificate PK) :=
  cert ← deref "keypair.Certificate" (kp_Certificate kp);
  mret (crt_Raw cert, kp_PrivateKey kp, cert).

Definition BuildTLSClientConfig (cn : string) : PM S (result tlsConfig) :=
  r ← EnsureKeypair "client" (mkCertConfig cn [] [] [] [ClientAuth]);
  match r with
  | Err e => mret (Err e)
  | Ok kp => c ← tlsCertificate kp; mret (Ok (mkTlsConfig (Some CertPool) None false "" [c]))
  end.

Definition GRPCClientConfig (myPeerID : string) : PM S (result tlsConfig) :=
  r ← EnsureKeypair ("etcd-manager-client-" +:+ myPeerID)
        (mkCertConfig ("etcd-manager-client-" +:+ myPeerID) [] [] [] [ClientAuth]);
  match r with
  | Err e => mret (Err e)
  | Ok kp => c ← tlsCertificate kp; mret (Ok (mkTlsConfig (Some CertPool) None false "" [c]))
  end.

Definition GRPCServerConfig (myPeerID : string) : PM S (result tlsConfig) :=
  let name := "etcd-manager-server-" +:+ myPeerID in
  r ← EnsureKeypair name (mkCertConfig name [] [name] [] [ServerAuth]);
  match r with
  | Err e => mret (Err e)
  | Ok kp => c ← tlsCertificate kp; mret (Ok (mkTlsConfig None (Some CertPool) true name [c]))
  end.
End TlsConfigs.

(** ** [createKeypairs] of etcd/pki.go *)

(** The fields of an [etcdProcess] that it sets. *)
Record processPki := mkProcessPki {
  pp_PKIPeersDir : string;
  pp_PKIClientsDir : string;
  pp_etcdClientsCA : option CA;
  pp_etcdClientTLSConfig : option tlsConfig;
}.
Definition set_PKIPeersDir (d : string) (p : processPki) : processPki :=
  mkProcessPki d (pp_PKIClientsDir p) (pp_etcdClientsCA p) (pp_etcdClientTLSConfig p).
Definition set_PKIClientsDir (d : string) (p : processPki) : processPki :=
  mkProcessPki (pp_PKIPeersDir p) d (pp_etcdClientsCA p) (pp_etcdClientTLSConfig p).
Definition set_etcdClientsCA (ca : option CA) (p : processPki) : processPki :=
  mkProcessPki (pp_PKIPeersDir p) (pp_PKIClientsDir p) ca (pp_etcdClientTLSConfig p).
Definition set_etcdClientTLSConfig (c : tlsConfig) (p : processPki) : processPki :=
  mkProcessPki (pp_PKIPeersDir p) (pp_PKIClientsDir p) (pp_etcdClientsCA p) (Some c).

Section CreateKeypairs.
Context {U : Type} `{!UrlLib U} (ParseIP : string -> option string) (durations : CertDurations).

Definition createKeypairs (peersCA clientsCA : option CA) (pkiDir : string) (me : EtcdNode)
    (peerClientIPs : list string) : PM processPki (option error) :=
  p ← match peersCA with
      | None => mret None
      | Some ca =>
          let peersDir := PathJoin [pkiDir; "peers"] in
          modify (set_PKIPeersDir peersDir) ≫= fun _ =>
          keypairIn durations peersDir "me" ca (peerConfig ParseIP me peerClientIPs)
      end;
  match p with
  | Some e => mret (Some e)
  | None =>
      modify (set_etcdClientsCA clientsCA) ≫= fun _ =>
      match clientsCA with
      | None => mret None
      | Some ca =>
          let clientsDir := PathJoin [pkiDir; "clients"] in
          modify (set_PKIClientsDir clientsDir) ≫= fun _ =>
          c ← keypairIn durations clientsDir "server" ca (serverConfig ParseIP me);
          match c with
          | Some e => mret (Some e)
          | None =>
              t ← inMemory (BuildTLSClientConfig durations mkMemSlot ca (Node_Name me));
              match t with
              | Err e => mret (Some e)
              | Ok c => modify (set_etcdClientTLSConfig c) ≫= fun _ => mret None
              end
          end
      end
  end.
End CreateKeypairs.


(** ** What a slot promises *)

(** The pair that two reads of files stand for. *)
Definition decodePair (rk rc : read_result) (kp : Keypair) : Prop :=
  match rk with
  | ReadNotExist => kp_PrivateKey kp = None
  | ReadOk data => exists key, ParsePrivateKeyPEM data = Some (Some key) /\ kp_PrivateKey kp = Some key
  | ReadErr _ => False
  end /\
  match rc with
  | ReadNotExist => kp_Certificate kp = None
  | ReadOk data => exists cert, ParseCertsPEM data = Ok [cert] /\ kp_Certificate kp = Some cert
  | ReadErr _ => False
  end.

(** The exchanges of a store. *)
Definition store_io (x : exchange PkiSig) : Prop :=
  match asked x with
  | PReadFile _ | PMkdirAll _ | POpenFile _ | PEncode _ _ | PClose _ => True
  | _ => False
  end.
Definition complete (r : result Keypair) : Prop :=
  forall kp, r = Ok kp -> is_Some (kp_PrivateKey kp) /\ is_Some (kp_Certificate kp).
Abbreviation triple P C R m := (hoare (fun _ => True) P C R m).

(** The interface between a store and the code that issues certificates.
    [slot_holds]: what the mutator is given, as seen before it runs;
    [slot_stored]: its answer is in the slot when the update returns. *)
Class SlotLaws (slot S : Type) `{!MutableKeypair slot S} := {
  slot_holds : slot -> S -> trace PkiSig -> Keypair -> Prop;
  slot_stored : slot -> S -> trace PkiSig -> Keypair -> Keypair -> Prop;
  mutate_law : forall (sl : slot) (mutator : Keypair -> PM S (result Keypair)) (s : S)
      (R : Keypair -> Keypair -> trace PkiSig -> Prop) (C : crash -> Prop),
    (forall original s1,
       wpm (mutator original) s1
         (fun r _ t => forall kp, r = Ok kp ->
            is_Some (kp_PrivateKey kp) /\ is_Some (kp_Certificate kp) /\ R original kp t)
         (fun c _ => C c)) ->
    wpm (MutateKeypair sl mutator) s
      (fun r s' t => forall kp, r = Ok kp -> exists original t1 t2 t3,
         t = t1 ++ t2 ++ t3 /\ slot_holds sl s t1 original /\
         R original kp t2 /\ slot_stored sl s' t3 original kp)
      (fun c _ => C c);
  (* besides those of the mutator there are no exchanges but its own, and no crashes *)
  mutate_triple : forall (sl : slot) (mutator : Keypair -> PM S (result Keypair)) P C,
    (forall x, store_io x -> P x) ->
    (forall original, triple P C complete (mutator original)) ->
    triple P C complete (MutateKeypair sl mutator);
}.

(** A slot in memory. *)
#[export] Program Instance MemSlot_laws : SlotLaws MemSlot (gmap string Keypair) := {
  slot_holds sl store t original := t = [] /\ original = default emptyKeypair (store !! ms_name sl);
  slot_stored sl store t _ kp := t = [] /\ store !! ms_name sl = Some kp;
}.
Next Obligation.
  intros sl mutator s R C Hm. unfold MutateKeypair, MemSlot_mutable.
  wpm_step. apply wpm_get. cbn beta. wpm_step. eapply wpm_mono; [apply Hm| |done].
  intros [kp|e] s1 t Hr; cbn beta iota; wpm_steps; intros kp' Heq; simplify_eq.
  destruct (Hr kp' eq_refl) as (_ & _ & HR).
  exists (default emptyKeypair (s !! ms_name sl)), [], t, [].
  rewrite lookup_insert_eq. auto.
Qed.
Next Obligation.
  intros sl mutator P C HP Hm. unfold MutateKeypair, MemSlot_mutable.
  eapply hoare_bind; [apply hoare_get|]. intros store _.
  eapply hoare_bind; [apply Hm|]. intros [kp|e] Hc; [|by apply hoare_ret].
  hoare_step. hoare_step; [done|done]. by apply hoare_ret.
Qed.

(** The exchanges that write a file: it is created or truncated, and every block
    reaches it. *)
Definition wrote (path : string) (blocks : list string) : trace PkiSig :=
  pexch (PMkdirAll (Dir path)) None :: pexch (POpenFile path) None ::
  ((fun b => pexch (PEncode path b) None) <$> blocks) ++ [pexch (PClose path) None].

Lemma writeBlocks_spec {S} path blocks (s : S) :
  wpm (writeBlocks path blocks) s
    (fun r s' t => s' = s /\ (r = None -> t = wrote path blocks)) (fun _ _ => False).
Proof.
  unfold writeBlocks. wpm_step. wpm_step. destruct r as [e|]; cbn beta iota; [wpm_steps; done|].
  wpm_step. wpm_step. destruct r as [e|]; cbn beta iota; [wpm_steps; done|]. wpm_step.
  eapply wpm_mono; [apply (wpm_for_each
    (fun done (_ : unit) s1 t => s1 = s /\ t = ((fun b => pexch (PEncode path b) None) <$> done))
    (fun _ s1 _ => s1 = s) (fun _ _ => False) blocks _ [] tt s [])| |done].
  - done.
  - intros ds b [] s1 t [-> ->] _. wpm_step. wpm_step.
    destruct r as [e|]; cbn beta iota; wpm_steps; [done|]. by rewrite fmap_app.
  - intros [[]|e] s1 t H; cbn in H |- *; wpm_steps; [|naive_solver].
    destruct H as [-> ->]. by destruct r.
Qed.

Lemma loadPrivateKey_spec {S} path (s : S) :
  wpm (loadPrivateKey path) s
    (fun r s' t => s' = s /\ exists rk, t = [pexch (PReadFile path) rk] /\
       match r with
       | LoadOk key => exists data, rk = ReadOk data /\ ParsePrivateKeyPEM data = Some (Some key)
       | LoadNotExist => rk = ReadNotExist
       | LoadErr _ => True
       end) (fun _ _ => False).
Proof.
  unfold loadPrivateKey. wpm_step. wpm_step. destruct r as [data| |e]; cbn beta iota;
    wpm_steps; (split; [done|]); eexists; (split; [done|]); eauto.
Qed.

Lemma ParseOneCertificate_ok b cert : ParseOneCertificate b = Ok cert -> ParseCertsPEM b = Ok [cert].
Proof. unfold ParseOneCertificate. repeat case_goal; naive_solver. Qed.

Lemma loadCertificate_spec {S} path (s : S) :
  wpm (loadCertificate path) s
    (fun r s' t => s' = s /\ exists rc, t = [pexch (PReadFile path) rc] /\
       match r with
       | Ok (Some cert) => exists data, rc = ReadOk data /\ ParseCertsPEM data = Ok [cert]
       | Ok None => rc = ReadNotExist
       | Err _ => True
       end) (fun _ _ => False).
Proof.
  unfold loadCertificate. wpm_step. wpm_step. destruct r as [data| |e]; cbn beta iota;
    wpm_steps; (split; [done|]); eexists; (split; [done|]); eauto using ParseOneCertificate_ok.
Qed.

Lemma loadPair_spec {S} sl (s : S) :
  wpm (loadPair sl) s
    (fun r s' t => s' = s /\ forall kp, r = Ok kp -> exists rk rc,
       t = [pexch (PReadFile (fs_PrivateKeyPath sl)) rk; pexch (PReadFile (fs_CertificatePath sl)) rc] /\
       decodePair rk rc kp) (fun _ _ => False).
Proof.
  unfold loadPair. wpm_step. eapply wpm_mono; [apply loadPrivateKey_spec| |done].
  intros k _ t1 (-> & rk & -> & Hk).
  destruct k as [key| |e]; [..|by wpm_steps].
  all: wpm_step; eapply wpm_mono; [apply loadCertificate_spec| |done].
  all: intros [[cert|]|e] _ t2 (-> & rc & -> & Hc); wpm_steps; (split; [done|]); intros kp ?;
    simplify_eq; eexists _, _; (split; [done|]); unfold decodePair; simpl; naive_solver.
Qed.

(** The exchanges of [storePair] when it succeeds: the files that have to change
    are written, the key first. *)
Definition stored (sl : FileSlot) (original : Keypair) (key : K) (cert : Certificate PK) : trace PkiSig :=
  (if decide (kp_PrivateKey original = Some key) then []
   else wrote (fs_PrivateKeyPath sl) [EncodeKey key]) ++
  (if certChanged (kp_Certificate original) (Some cert)
   then wrote (fs_CertificatePath sl) [EncodeCert cert] else []).

Lemma storePair_spec {S} sl original key cert (s : S) :
  wpm (storePair sl original (mkKeypair (Some key) (Some cert))) s
    (fun r s' t => s' = s /\ forall kp, r = Ok kp ->
       kp = mkKeypair (Some key) (Some cert) /\ t = stored sl original key cert) (fun _ _ => False).
Proof.
  unfold storePair. simpl. wpm_step.
  apply (wpm_mono _ _ (fun r s' t => s' = s /\ (r = None -> t =
    (if decide (kp_PrivateKey original = Some key) then []
     else wrote (fs_PrivateKeyPath sl) [EncodeKey key]))) _ (fun _ _ => False)).
  { destruct (keyChanged _ _) eqn:Hk.
    - simpl. unfold deref. wpm_step. wpm_step. eapply wpm_mono; [apply writeBlocks_spec| |done].
      intros r s' t [-> Ht]. split; [done|]. intros Hr. rewrite (Ht Hr). rewrite decide_False; [done|].
      intros Hko. rewrite Hko in Hk. simpl in Hk. by rewrite bool_decide_true in Hk.
    - wpm_step. split; [done|]. intros _. rewrite decide_True; [done|].
      destruct (kp_PrivateKey original); simpl in Hk; [|done]. zify_bools. done. }
  2: done.
  intros [e|] _ t1 [-> Ht1]; [by wpm_steps|]. rewrite (Ht1 eq_refl). unfold stored. wpm_step.
  destruct (certChanged _ _).
  - simpl. unfold deref. wpm_step. wpm_step. eapply wpm_mono; [apply writeBlocks_spec| |done].
    intros [e|] s' t [-> Ht]; wpm_steps; (split; [done|]); intros kp ?; simplify_eq.
    split; [done|]. rewrite (Ht eq_refl). by rewrite app_nil_r.
  - wpm_steps. split; [done|]. intros kp ?. by simplify_eq.
Qed.

(** A slot on disk. *)
#[export] Program Instance FileSlot_laws {S} : SlotLaws FileSlot S := {
  slot_holds sl _ t original := exists rk rc,
    t = [pexch (PReadFile (fs_PrivateKeyPath sl)) rk; pexch (PReadFile (fs_CertificatePath sl)) rc] /\
    decodePair rk rc original;
  slot_stored sl _ t original kp := exists key cert,
    kp = mkKeypair (Some key) (Some cert) /\ t = stored sl original key cert;
}.
Next Obligation.
  intros S sl mutator s R C Hm. unfold MutateKeypair, FileSlot_mutable.
  wpm_step. eapply wpm_mono; [apply loadPair_spec| |done].
  intros [original|e] _ t1 [-> Hl]; [|by wpm_steps]. specialize (Hl _ eq_refl).
  wpm_step. eapply wpm_mono; [apply Hm| |done].
  intros [[k c]|e] s1 t2 Hr; [|by wpm_steps].
  destruct (Hr _ eq_refl) as ([key Hk] & [cert Hc] & HR). simpl in Hk, Hc. subst k c.
  eapply wpm_mono; [apply storePair_spec| |done].
  intros r s2 t3 [-> Ht3] kp ->. destruct (Ht3 kp eq_refl) as [-> ->].
  exists original, t1, t2, (stored sl original key cert). split_and!; eauto.
Qed.
Next Obligation.
  intros S sl mutator P C HP Hm. unfold MutateKeypair, FileSlot_mutable.
  apply (hoare_bind _ _ _ (fun _ => True)).
  { unfold loadPair, loadPrivateKey, loadCertificate. hoare_solve; by apply HP. }
  intros [original|e] _; [|by apply hoare_ret].
  eapply hoare_bind; [apply Hm|]. intros [[k c]|e] Hc; [|by apply hoare_ret].
  destruct (Hc _ eq_refl) as [[key Hk] [cert Hcrt]]. simpl in Hk, Hcrt. subst k c.
  unfold storePair, writePrivateKey, writeCertificates, writeBlocks. simpl. hoare_solve; by apply HP.
Qed.
(** ** Issuing certificates *)

Section Issue.
Context (durations : CertDurations).

(** The certificate was signed now, for this key and configuration, by the CA. *)
Definition issued (config : CertConfig) (signer : CA) (key : K) (cert : Certificate PK)
    (t : trace PkiSig) : Prop :=
  exists caCert serial now,
    ca_primaryCertificate signer = Some caCert /\ pexch PNow now ∈ t /\
    pexch (PCreateCertificate
             (mkTemplate (cc_CommonName config) (cc_Organization config) (cc_DNSNames config)
                (cc_IPs config) serial (crt_NotBefore caCert) (now + CertDuration durations)
                (cc_Usages config))
             caCert (publicKey key) (ca_privateKey signer)) (Ok cert) ∈ t.

(** What a stored certificate needs to be kept. *)
Definition acceptable (config : CertConfig) (cert : Certificate PK) (now : time) : Prop :=
  CertMinTimeLeft durations < timeSub (crt_NotAfter cert) now /\
  crt_CommonName cert = cc_CommonName config /\
  crt_DNSNames cert ≡ₚ cc_DNSNames config /\ crt_IPs cert ≡ₚ cc_IPs config.

Definition ensured (config : CertConfig) (signer : CA) (original kp : Keypair) (t : trace PkiSig) : Prop :=
  exists key cert, kp = mkKeypair (Some key) (Some cert) /\
    (kp_PrivateKey original = Some key \/
     kp_PrivateKey original = None /\ pexch PNewPrivateKey (Ok key) ∈ t) /\
    ((kp_Certificate original = Some cert /\ exists now, pexch PNow now ∈ t /\ acceptable config cert now) \/
     issued config signer key cert t).

Lemma sort_strings_eq l l' : sort_strings l = sort_strings l' <-> l ≡ₚ l'.
Proof.
  split; [|apply sort_strings_unique]. intros H.
  rewrite <- (stable_sort_perm str_le l), <- (stable_sort_perm str_le l').
  unfold sort_strings in H. by rewrite H.
Qed.

Lemma certMatches_acceptable now config cert :
  certMatches durations now config cert = true <-> acceptable config cert now.
Proof.
  unfold certMatches, acceptable.
  rewrite !andb_true_iff, negb_true_iff, Z.leb_gt, String.eqb_eq, !bool_decide_eq_true, !sort_strings_eq.
  naive_solver.
Qed.

Lemma newSignedCert_spec {S} config key signer (s : S) :
  wpm (newSignedCert config key signer (CertDuration durations)) s
    (fun r s' t => s' = s /\ forall cert, r = Ok cert -> issued config signer key cert t)
    (fun c _ => c = NilDeref "caCert" /\ ca_primaryCertificate signer = None).
Proof.
  unfold newSignedCert. wpm_step. wpm_step.
  destruct r as [serial|e]; cbn beta iota; [|by wpm_steps].
  destruct (String.eqb _ _); [by wpm_steps|]. case_bool_decide; [by wpm_steps|].
  wpm_step. unfold deref. destruct (ca_primaryCertificate signer) as [caCert|] eqn:Hca; wpm_step; [|done].
  wpm_step. wpm_step. wpm_step. split; [done|]. intros cert ->.
  exists caCert, serial, r. split; [done|]. split; set_solver.
Qed.

Lemma ensureMutator_spec {S} config signer original (s : S) :
  wpm (ensureMutator durations config signer original) s
    (fun r _ t => forall kp, r = Ok kp ->
       is_Some (kp_PrivateKey kp) /\ is_Some (kp_Certificate kp) /\ ensured config signer original kp t)
    (fun c _ => c = NilDeref "caCert" /\ ca_primaryCertificate signer = None).
Proof.
  unfold ensureMutator. wpm_step.
  apply (wpm_mono _ _ (fun r s' t => forall key, r = Ok key ->
    kp_PrivateKey original = Some key \/
    kp_PrivateKey original = None /\ pexch PNewPrivateKey (Ok key) ∈ t) _ (fun _ _ => False)); [|shelve|done].
  { destruct (kp_PrivateKey original); wpm_steps; [naive_solver|]. intros key ->. right. set_solver. }
  Unshelve.
  intros [key|e] s1 t1 Hk; [|by wpm_steps]. specialize (Hk _ eq_refl). cbn beta iota. wpm_step.
  apply (wpm_mono _ _ (fun r s' t => forall cert, r = Some cert ->
    kp_Certificate original = Some cert /\ exists now, pexch PNow now ∈ t /\ acceptable config cert now)
    _ (fun _ _ => False)); [|shelve|done].
  { destruct (kp_Certificate original) as [cert|]; wpm_steps; [|done].
    intros c Hc. case_match; simplify_eq. split; [done|]. exists r. rewrite <- certMatches_acceptable.
    set_solver. }
  Unshelve.
  intros [cert|] s2 t2 Hc; wpm_step.
  - intros kp ?. simplify_eq. simpl. split_and!; [done..|]. exists key, cert.
    split; [done|]. specialize (Hc _ eq_refl). rewrite ?app_nil_r. split; [set_solver|]. left. set_solver.
  - eapply wpm_mono; [apply newSignedCert_spec| |done].
    intros [cert|e] s3 t3 [-> Hi]; wpm_steps; [|done]. intros kp ?. simplify_eq. simpl.
    split_and!; [done..|]. exists key, cert. split; [done|]. split; [set_solver|]. right.
    destruct (Hi _ eq_refl) as (ca & n & tm & ? & ? & ?). exists ca, n, tm. set_solver.
Qed.

Lemma ensureKeypair_spec {slot S} `{!MutableKeypair slot S, !SlotLaws slot S} (sl : slot) config signer s :
  wpm (ensureKeypair durations sl config signer) s
    (fun r s' t => forall kp, r = Ok kp -> exists original t1 t2 t3,
       t = t1 ++ t2 ++ t3 /\ slot_holds sl s t1 original /\
       ensured config signer original kp t2 /\ slot_stored sl s' t3 original kp)
    (fun c _ => c = NilDeref "caCert" /\ ca_primaryCertificate signer = None).
Proof. apply mutate_law. intros. apply ensureMutator_spec. Qed.
End Issue.
(** ** Alternative names *)

Section AltNames.
Context {U : Type} `{!UrlLib U} (ParseIP : string -> option string).

(** What a URL contributes to a certificate. *)
Inductive altName := AltDNS (h : string) | AltIP (ip : string).
Definition urlAltName (urlString : string) : option altName :=
  match urlParse urlString with
  | None => None
  | Some u =>
      let h := urlHostname u in
      if String.eqb (urlScheme u) "http" || String.eqb (urlScheme u) "https" then
        Some (match ParseIP h with None => AltDNS h | Some ip => AltIP ip end)
      else if String.eqb (urlScheme u) "unix" || String.eqb (urlScheme u) "unixs" then Some (AltDNS h)
      else None
  end.

Definition has_name (c : CertConfig) (n : altName) : Prop :=
  match n with AltDNS h => h ∈ cc_DNSNames c | AltIP ip => ip ∈ cc_IPs c end.

Definition same_subject (c c' : CertConfig) : Prop :=
  cc_CommonName c' = cc_CommonName c /\ cc_Organization c' = cc_Organization c /\
  cc_Usages c' = cc_Usages c.

(** [c'] is [c] with the names of the URLs. *)
Definition with_names (c c' : CertConfig) (extra : altName -> Prop) : Prop :=
  same_subject c c' /\ forall n, has_name c' n <-> has_name c n \/ extra n.

Definition names_of (urls : list string) (n : altName) : Prop :=
  exists u, u ∈ urls /\ urlAltName u = Some n.
Definition loopback (n : altName) : Prop := n = AltIP "127.0.0.1" \/ n = AltIP "::1".

Lemma addUrlNames_spec urls c :
  match addUrlNames ParseIP c urls with
  | Ok c' => Forall (fun u => is_Some (urlAltName u)) urls /\ with_names c c' (names_of urls)
  | Err _ => exists u, u ∈ urls /\ urlAltName u = None
  end.
Proof.
  revert c. induction urls as [|u urls IH]; intros c; simpl.
  { split; [constructor|]. split; [done|]. intros n. unfold names_of. set_solver. }
  assert (forall n c1, urlAltName u = Some n -> with_names c c1 (eq n) ->
    match addUrlNames ParseIP c1 urls with
    | Ok c' => Forall (fun u => is_Some (urlAltName u)) (u :: urls) /\ with_names c c' (names_of (u :: urls))
    | Err _ => exists u', u' ∈ u :: urls /\ urlAltName u' = None
    end) as Hstep.
  { intros n c1 Hn [[Hcn [Ho Hu]] Hc1]. specialize (IH c1).
    destruct (addUrlNames ParseIP c1 urls) as [c'|e]; [|set_solver].
    destruct IH as (Hall & (Hcn' & Ho' & Hu') & Hc'). split; [constructor; eauto|].
    split; [split_and!; congruence|]. intros n'. rewrite Hc', Hc1. unfold names_of. set_solver. }
  unfold urlAltName in Hstep at 1.
  assert (urlAltName u = None -> exists u', u' ∈ u :: urls /\ urlAltName u' = None) as Hbad by set_solver.
  unfold urlAltName at 1 in Hbad.
  destruct (urlParse u) as [v|]; [|by apply Hbad].
  destruct (_ || _).
  - destruct (ParseIP (urlHostname v)) as [ip|]; eapply Hstep; try done; (split; [done|]);
      intros [h|ip']; simpl; set_solver.
  - destruct (_ || _); [|by apply Hbad]. eapply Hstep; [done|]. split; [done|].
    intros [h|ip']; simpl; set_solver.
Qed.

Lemma addAltNames_eq urls c c' :
  addAltNames ParseIP c urls = Ok c' -> exists c1 ips,
    addUrlNames ParseIP c urls = Ok c1 /\ c' = set_IPs (cc_IPs c1 ++ ips) c1 /\
    Forall (fun ip => ip = "127.0.0.1" \/ ip = "::1") ips /\ "127.0.0.1" ∈ cc_IPs c'.
Proof.
  unfold addAltNames. destruct (addUrlNames ParseIP c urls) as [c1|e]; [|done].
  intros H. exists c1. repeat case_bool_decide; simplify_eq.
  - exists []. rewrite app_nil_r. by destruct c'.
  - exists ["127.0.0.1"]. simpl. split_and!; [done..|rewrite Forall_cons; auto|set_solver].
  - exists ["127.0.0.1"; "::1"]. rewrite <- app_assoc. simpl.
    split_and!; [done..|rewrite !Forall_cons; auto|set_solver].
Qed.

Lemma addAltNames_spec urls c c' :
  addAltNames ParseIP c urls = Ok c' ->
  Forall (fun u => is_Some (urlAltName u)) urls /\ same_subject c c' /\
  (forall n, has_name c n \/ names_of urls n -> has_name c' n) /\
  (forall n, has_name c' n -> has_name c n \/ names_of urls n \/ loopback n) /\
  "127.0.0.1" ∈ cc_IPs c'.
Proof.
  intros (c1 & ips & Hu & -> & Hips & Hlo)%addAltNames_eq.
  pose proof (addUrlNames_spec urls c) as Hs. rewrite Hu in Hs. destruct Hs as (Hall & Hsub & Hn).
  split_and!; [done|exact Hsub|..|done].
  - intros n Hn1%Hn. destruct n; simpl in *; set_solver.
  - intros n Hn1. destruct n as [h|ip]; simpl in Hn1.
    + apply (Hn (AltDNS h)) in Hn1. tauto.
    + apply elem_of_app in Hn1 as [H|H]; [apply (Hn (AltIP ip)) in H; tauto|].
      rewrite Forall_forall in Hips. right; right. unfold loopback. apply Hips in H. naive_solver.
Qed.

Lemma removeDuplicates_spec ips : forall seen,
  NoDup (removeDuplicates seen ips) /\
  forall ip, ip ∈ removeDuplicates seen ips <-> ip ∈ ips /\ ip ∉ seen.
Proof.
  induction ips as [|s ips IH]; intros seen; simpl; [split; [constructor|set_solver]|].
  case_bool_decide as Hs.
  - destruct (IH seen) as [Hnd Hin]. split; [done|]. set_solver.
  - destruct (IH ({[s]} ∪ seen)) as [Hnd Hin]. split; [constructor; [|done]; rewrite Hin; set_solver|].
    intros ip. rewrite elem_of_cons, Hin. destruct (decide (ip = s)); set_solver.
Qed.

(** The certificate names this node, the names of its URLs, itself, and nothing
    beyond those, [ips] and the loopback addresses. *)
Definition config_for (me : EtcdNode) (urls ips : list string) (c : CertConfig) : Prop :=
  cc_CommonName c = Node_Name me /\ Forall (fun u => is_Some (urlAltName u)) urls /\
  "127.0.0.1" ∈ cc_IPs c /\
  (forall n, n = AltDNS (Node_Name me) \/ (exists ip, n = AltIP ip /\ ip ∈ ips) \/ names_of urls n ->
     has_name c n) /\
  (forall n, has_name c n ->
     n = AltDNS (Node_Name me) \/ (exists ip, n = AltIP ip /\ ip ∈ ips) \/ names_of urls n \/ loopback n).

Lemma start_names me ips usages n :
  has_name (mkCertConfig (Node_Name me) [] [Node_Name me] ips usages) n <->
  n = AltDNS (Node_Name me) \/ exists ip, n = AltIP ip /\ ip ∈ ips.
Proof. destruct n; simpl; set_solver. Qed.

Lemma peerConfig_spec me ips c :
  peerConfig ParseIP me ips = Ok c ->
  config_for me (Node_PeerUrls me) ips c /\ NoDup (cc_IPs c) /\ cc_Usages c = [ClientAuth; ServerAuth].
Proof.
  unfold peerConfig. destruct (addAltNames _ _ _) as [c1|e] eqn:Ha; [|done]. intros [= <-].
  apply addAltNames_spec in Ha as (Hall & (Hcn & _ & Hus) & Hto & Hfrom & Hlo). simpl in Hcn, Hus.
  destruct (removeDuplicates_spec (cc_IPs c1) ∅) as [Hnd Hin].
  assert (forall n, has_name (set_IPs (removeDuplicateIPs (cc_IPs c1)) c1) n <-> has_name c1 n) as Hsame.
  { intros [h|ip]; simpl; [done|]. unfold removeDuplicateIPs. rewrite Hin. set_solver. }
  split_and!; [|exact Hnd|done]. split_and!; [done..| | |].
  - by apply (Hsame (AltIP "127.0.0.1")).
  - intros n Hn. apply Hsame, Hto. rewrite start_names. tauto.
  - intros n Hn%Hsame%Hfrom. rewrite start_names in Hn. tauto.
Qed.

Lemma serverConfig_spec me c :
  serverConfig ParseIP me = Ok c ->
  config_for me (Node_ClientUrls me ++ Node_PeerUrls me) [] c /\ cc_Usages c = [ServerAuth; ClientAuth].
Proof.
  unfold serverConfig. destruct (addAltNames _ _ (Node_ClientUrls me)) as [c1|e] eqn:Ha; [|done]. intros Hb.
  apply addAltNames_spec in Ha as (Hall & (Hcn & _ & Hus) & Hto & Hfrom & _). simpl in Hcn, Hus.
  apply addAltNames_spec in Hb as (Hall' & (Hcn' & _ & Hus') & Hto' & Hfrom' & Hlo).
  assert (forall n, names_of (Node_ClientUrls me ++ Node_PeerUrls me) n <->
    names_of (Node_ClientUrls me) n \/ names_of (Node_PeerUrls me) n) as Happ
    by (intros n; unfold names_of; set_solver).
  split; [|congruence]. split_and!; [congruence|by apply Forall_app|done| |].
  - intros n. rewrite Happ. intros Hn. apply Hto'. pose proof (Hto n) as H. rewrite start_names in H. tauto.
  - intros n Hn. rewrite Happ. apply Hfrom' in Hn as [Hn|Hn]; [|tauto].
    apply Hfrom in Hn. rewrite start_names in Hn. tauto.
Qed.

(** ** Who signs what *)

(** A CA whose primary certificate is for its key. *)
Definition wfCA (ca : CA) : Prop :=
  exists primary, ca_primaryCertificate ca = Some primary /\ primary ∈ ca_certificates ca /\
    crt_PublicKey primary = publicKey (ca_privateKey ca).

Definition tm_config (tm : template) : CertConfig :=
  mkCertConfig (tm_CommonName tm) (tm_Organization tm) (tm_DNSNames tm) (tm_IPs tm) (tm_ExtKeyUsage tm).

(** Every certificate that is signed in [x] is signed by a CA, for a configuration. *)
Definition signs (allowed : CA -> CertConfig -> Prop) (x : exchange PkiSig) : Prop :=
  forall tm parent pub priv, asked x = PCreateCertificate tm parent pub priv ->
    exists ca, allowed ca (tm_config tm) /\ ca_primaryCertificate ca = Some parent /\ priv = ca_privateKey ca.

Lemma store_io_signs allowed x : store_io x -> signs allowed x.
Proof. unfold store_io, signs. intros H tm parent pub priv E. by rewrite E in H. Qed.

Context (durations : CertDurations).

Lemma newSignedCert_triple {S} (allowed : CA -> CertConfig -> Prop) config key ca d :
  wfCA ca -> allowed ca config ->
  triple (signs allowed) (fun _ => False) (fun _ => True)
    (newSignedCert config key ca d : PM S _).
Proof.
  intros (primary & Hp & _) Hok. unfold newSignedCert. rewrite Hp. simpl.
  assert (forall e r, (forall tm parent pub priv, e <> PCreateCertificate tm parent pub priv) ->
    signs allowed (pexch e r)) as Hother by (intros e r H tm parent pub priv E; by destruct (H tm parent pub priv)).
  apply (hoare_bind _ _ _ (fun _ => True)); [hoare_step; [by apply Hother|done]|].
  intros [serial|e] _; [|by apply hoare_ret].
  destruct (String.eqb _ _); [by apply hoare_ret|]. case_bool_decide; [by apply hoare_ret|].
  apply (hoare_bind _ _ _ (eq primary)); [by apply hoare_ret|]. intros ? <-.
  apply (hoare_bind _ _ _ (fun _ => True)); [hoare_step; [by apply Hother|done]|].
  intros tm _. hoare_step; [|done]. intros tm' parent pub priv E. simpl in E. simplify_eq.
  exists ca. by destruct config.
Qed.

Lemma ensureKeypair_triple {slot S} `{!MutableKeypair slot S, !SlotLaws slot S} (sl : slot)
    (allowed : CA -> CertConfig -> Prop) config ca :
  wfCA ca -> allowed ca config ->
  triple (signs allowed) (fun _ => False) complete (ensureKeypair durations sl config ca).
Proof.
  intros Hca Hok. apply mutate_triple; [apply store_io_signs|]. intros original.
  unfold ensureMutator. eapply (hoare_bind _ _ _ (fun _ => True)).
  { hoare_solve. }
  intros [key|e] _; [|by apply hoare_ret]. eapply (hoare_bind _ _ _ (fun _ => True)).
  { hoare_solve. }
  intros [cert|] _; [apply hoare_ret; intros kp ?; by simplify_eq|].
  eapply hoare_bind; [by apply newSignedCert_triple|].
  intros [cert|e] _; apply hoare_ret; intros kp ?; by simplify_eq.
Qed.

Lemma LoadCA_wf {S} basedir name (s : S) :
  wpm (LoadCA basedir name) s (fun r _ _ => forall ca, r = Ok ca -> wfCA ca) (fun _ _ => False).
Proof.
  unfold LoadCA. wpm_step. eapply wpm_mono; [apply loadPrivateKey_spec| |done].
  intros [key| |e] _ t (-> & _); [|by wpm_steps..]. wpm_step.
  unfold loadCertificateBundle. wpm_step. wpm_step.
  destruct r as [data| |e]; cbn beta iota; [|wpm_steps..|by wpm_steps]; [|done].
  destruct (ParseCertsPEM data) as [certs|e]; wpm_steps; [|done..].
  intros ca ?. simplify_eq. eexists. split; [done|]. simpl.
  match goal with H : List.find _ _ = Some _ |- _ => apply List.find_some in H as [Hin Hk] end.
  zify_bools. split; [by apply list_elem_of_In|done].
Qed.

Lemma inMemory_triple {S A} P C (R : A -> Prop) (m : PM (gmap string Keypair) A) :
  triple P C R m -> triple P C R (inMemory m : PM S A).
Proof.
  intros H s _. unfold wpm, inMemory. apply wp_bind. eapply wp_mono; [apply (H ∅ I)|].
  intros t [[a st]|c]; simpl; [|done]. rewrite app_nil_r. naive_solver.
Qed.

(** The certificates of an etcd: for its peers, for its clients, and that of the
    manager as a client. *)
Definition allowedFor (peersCA clientsCA : option CA) (me : EtcdNode) (peerClientIPs : list string)
    (ca : CA) (c : CertConfig) : Prop :=
  (peersCA = Some ca /\ config_for me (Node_PeerUrls me) peerClientIPs c /\ NoDup (cc_IPs c) /\
     cc_Usages c = [ClientAuth; ServerAuth]) \/
  (clientsCA = Some ca /\ config_for me (Node_ClientUrls me ++ Node_PeerUrls me) [] c /\
     cc_Usages c = [ServerAuth; ClientAuth]) \/
  (clientsCA = Some ca /\ c = mkCertConfig (Node_Name me) [] [] [] [ClientAuth]).

Lemma keypairIn_triple {S} (allowed : CA -> CertConfig -> Prop) dir name ca config :
  wfCA ca -> (forall c, config = Ok c -> allowed ca c) ->
  triple (signs allowed) (fun _ => False) (fun _ => True)
    (keypairIn durations dir name ca config : PM S _).
Proof.
  intros Hca Hok. unfold keypairIn. apply (hoare_bind _ _ _ (fun _ => True)).
  { unfold WriteCABundle, writeCertificates, writeBlocks. hoare_solve. }
  intros [e|] _; [by apply hoare_ret|]. destruct config as [c|e]; [|by apply hoare_ret].
  eapply hoare_bind; [apply ensureKeypair_triple; auto|]. intros. by apply hoare_ret.
Qed.

Lemma BuildTLSClientConfig_triple {slot S} `{!MutableKeypair slot S, !SlotLaws slot S}
    (allowed : CA -> CertConfig -> Prop) (store : string -> slot) ca cn :
  wfCA ca -> allowed ca (mkCertConfig cn [] [] [] [ClientAuth]) ->
  triple (signs allowed) (fun _ => False) (fun _ => True) (BuildTLSClientConfig durations store ca cn).
Proof.
  intros Hca Hok. eapply hoare_bind; [by apply ensureKeypair_triple|].
  intros [kp|e] Hr; [|by apply hoare_ret]. destruct (Hr kp eq_refl) as [_ [cert Hc]].
  unfold tlsCertificate. rewrite Hc. simpl. hoare_solve.
Qed.

Lemma createKeypairs_triple peersCA clientsCA pkiDir me ips :
  (forall ca, peersCA = Some ca \/ clientsCA = Some ca -> wfCA ca) ->
  triple (signs (allowedFor peersCA clientsCA me ips)) (fun _ => False) (fun _ => True)
    (createKeypairs ParseIP durations peersCA clientsCA pkiDir me ips).
Proof.
  intros Hwf. unfold createKeypairs. apply (hoare_bind _ _ _ (fun _ => True)).
  { destruct peersCA as [ca|]; [|by apply hoare_ret].
    hoare_step. hoare_step; done. apply keypairIn_triple; [auto|].
    intros c Hc%peerConfig_spec. left. tauto. }
  intros [e|] _; [by apply hoare_ret|]. hoare_step; [hoare_step; done|].
  destruct clientsCA as [ca|]; [|by apply hoare_ret]. hoare_step; [hoare_step; done|].
  apply (hoare_bind _ _ _ (fun _ => True)).
  { apply keypairIn_triple; [auto|]. intros c Hc%serverConfig_spec. right; left. tauto. }
  intros [e|] _; [by apply hoare_ret|]. eapply hoare_bind.
  { apply inMemory_triple, BuildTLSClientConfig_triple; [auto|]. right; right. done. }
  intros [c|e] _; [|by apply hoare_ret]. hoare_step; [hoare_step; done|]. by apply hoare_ret.
Qed.

(** A CA that was read from its files, or made with a certificate for its key. *)
Definition properCA (ca : CA) : Prop :=
  (exists basedir name t, runs (LoadCA basedir name ()) t (Done (Ok ca, ()))) \/
  (exists name t s s', runs (NewCA (mkMemSlot name) s) t (Done (Ok ca, s')) /\
     forall cfg key cert, pexch (PNewSelfSignedCACert cfg key) (Ok cert) ∈ t ->
       crt_PublicKey cert = publicKey key).

Lemma NewCA_spec {slot S} `{!MutableKeypair slot S, !SlotLaws slot S} (sl : slot) (s : S) :
  wpm (NewCA sl) s
    (fun r _ t => forall ca, r = Ok ca -> exists cfg key cert,
       ca = mkCA (Some cert) key [cert] /\ pexch (PNewSelfSignedCACert cfg key) (Ok cert) ∈ t)
    (fun _ _ => False).
Proof.
  unfold NewCA. wpm_step. eapply wpm_mono; [apply (mutate_law sl caMutator s
    (fun _ kp t => exists cfg key cert, kp = mkKeypair (Some key) (Some cert) /\
       pexch (PNewSelfSignedCACert cfg key) (Ok cert) ∈ t) (fun _ => False))| |done].
  - intros original s1. unfold caMutator. wpm_step. wpm_step.
    destruct r as [key|e]; cbn beta iota; [|by wpm_steps]. wpm_step. wpm_step.
    destruct r as [cert|e]; cbn beta iota; wpm_steps; intros kp ?; simplify_eq.
    split_and!; [done..|]. eexists _, key, cert. split; [done|]. right. left.
  - intros [kp|e] s' t H; cbn beta iota; [|by wpm_steps].
    destruct (H kp eq_refl) as (_ & t1 & t2 & t3 & -> & _ & (cfg & key & cert & -> & Hin) & _).
    simpl. wpm_step. unfold deref. wpm_step. wpm_step. intros ca ?. simplify_eq.
    exists cfg, key, cert. split; [done|]. set_solver.
Qed.

Lemma properCA_wf ca : properCA ca -> wfCA ca.
Proof.
  intros [(basedir & name & t & Hrun)|(name & t & s & s' & Hrun & Hself)].
  - exact (wp_runs _ _ _ _ Hrun (LoadCA_wf basedir name ()) ca eq_refl).
  - pose proof (NewCA_spec (mkMemSlot name) s) as Hs.
    destruct (wp_runs _ _ _ _ Hrun Hs ca eq_refl) as (cfg & key & cert & -> & Hin).
    exists cert. split_and!; [done|set_solver|by eapply Hself].
Qed.

(** *** What is left in the directories *)

(** The exchanges of [keypairIn] when it succeeds: the bundle of the CA is
    written, the pair is read, and what [ensured] asks for is in the files. *)
Definition pairLeft (dir name : string) (ca : CA) (c : CertConfig) (t : trace PkiSig) : Prop :=
  exists original key cert rk rc t2,
    t = wrote (PathJoin [dir; "ca.crt"]) (EncodeCert <$> ca_certificates ca) ++
        [pexch (PReadFile (fs_PrivateKeyPath (fsKeypair dir name))) rk;
         pexch (PReadFile (fs_CertificatePath (fsKeypair dir name))) rc] ++
        t2 ++ stored (fsKeypair dir name) original key cert /\
    decodePair rk rc original /\ ensured durations c ca original (mkKeypair (Some key) (Some cert)) t2.

(** The client configuration of the manager: a new key, and a certificate that
    the CA signed for it now. *)
Definition clientLeft (ca : CA) (cn : string) (c : tlsConfig) (t : trace PkiSig) : Prop :=
  exists key cert, c = mkTlsConfig (Some (ca_certificates ca)) None false "" [(crt_Raw cert, Some key, cert)] /\
    pexch PNewPrivateKey (Ok key) ∈ t /\ issued durations (mkCertConfig cn [] [] [] [ClientAuth]) ca key cert t.

(** The files change, the process does not. *)
Lemma ensureKeypair_keeps {S} sl config ca (s0 : S) :
  hoare (eq s0) (fun _ => True) (fun _ => True) (fun _ => True) (ensureKeypair durations (sl : FileSlot) config ca).
Proof.
  unfold ensureKeypair, MutateKeypair, FileSlot_mutable, loadPair, loadPrivateKey, loadCertificate, storePair,
    writePrivateKey, writeCertificates, writeBlocks, ensureMutator, newSignedCert, deref. hoare_solve.
Qed.

Lemma keypairIn_left {S} dir name ca config (s : S) :
  wpm (keypairIn durations dir name ca config) s
    (fun r s' t => s' = s /\ (r = None -> exists c, config = Ok c /\ pairLeft dir name ca c t)) (fun _ _ => True).
Proof.
  unfold keypairIn. wpm_step. unfold WriteCABundle, writeCertificates.
  eapply wpm_mono; [apply writeBlocks_spec| |done]. intros [e|] _ tb [-> Hb]; [by wpm_step|]. specialize (Hb eq_refl).
  destruct config as [c|e]; [|by wpm_step]. wpm_step.
  eapply wpm_mono; [exact (wpm_conj _ _ _ _ _ _ (ensureKeypair_spec durations (fsKeypair dir name) c ca s)
    (ensureKeypair_keeps (fsKeypair dir name) c ca s s eq_refl))| |done].
  intros r s' t [Hr [<- _]]. wpm_step. split; [done|]. destruct r as [kp|e]; [|done]. intros _. exists c. split; [done|].
  destruct (Hr kp eq_refl) as (original & t1 & t2 & t3 & -> & (rk & rc & -> & Hd) & He & (key & cert & -> & ->)).
  exists original, key, cert, rk, rc, t2. rewrite Hb, app_nil_r. done.
Qed.

Lemma BuildTLSClientConfig_left ca cn :
  wpm (BuildTLSClientConfig durations mkMemSlot ca cn) ∅
    (fun r _ t => forall c, r = Ok c -> clientLeft ca cn c t) (fun _ _ => True).
Proof.
  unfold BuildTLSClientConfig, EnsureKeypair. wpm_step. eapply wpm_mono; [apply ensureKeypair_spec| |done].
  intros [kp|e] s' t H; [|by wpm_step].
  destruct (H kp eq_refl) as (original & t1 & t2 & t3 & -> & [-> ->] & (key & cert & -> & Hk & Hc) & [-> _]).
  unfold tlsCertificate. simpl. wpm_step. wpm_step. wpm_step. wpm_step. wpm_step. intros c [= <-]. rewrite !app_nil_r.
  exists key, cert. split; [done|]. rewrite lookup_empty in Hk, Hc. simpl in Hk, Hc.
  destruct Hk as [[=]|[_ Hk]]. destruct Hc as [[[=] _]|Hc]. done.
Qed.

Lemma inMemory_left {S A} (m : PM (gmap string Keypair) A) (s : S) (R : A -> trace PkiSig -> Prop) :
  wpm m ∅ (fun r _ t => R r t) (fun _ _ => True) ->
  wpm (inMemory m) s (fun r s' t => s' = s /\ R r t) (fun _ _ => True).
Proof.
  intros H. unfold wpm, inMemory. apply wp_bind. eapply wp_mono; [exact H|].
  intros t [[a st]|c] Ht; simpl; [|done]. by rewrite app_nil_r.
Qed.

(** What a successful [createKeypairs] leaves in the process and on disk. *)
Definition keypairsLeft (peersCA clientsCA : option CA) (pkiDir : string) (me : EtcdNode) (peerClientIPs : list string)
    (s s' : processPki) (t : trace PkiSig) : Prop :=
  exists tp tc, t = tp ++ tc /\ pp_etcdClientsCA s' = clientsCA /\
    match peersCA with
    | None => tp = [] /\ pp_PKIPeersDir s' = pp_PKIPeersDir s
    | Some ca => pp_PKIPeersDir s' = PathJoin [pkiDir; "peers"] /\
        exists c, peerConfig ParseIP me peerClientIPs = Ok c /\ pairLeft (PathJoin [pkiDir; "peers"]) "me" ca c tp
    end /\
    match clientsCA with
    | None => tc = [] /\ pp_PKIClientsDir s' = pp_PKIClientsDir s /\ pp_etcdClientTLSConfig s' = pp_etcdClientTLSConfig s
    | Some ca => pp_PKIClientsDir s' = PathJoin [pkiDir; "clients"] /\
        exists c tls ts tm, tc = ts ++ tm /\ serverConfig ParseIP me = Ok c /\
          pairLeft (PathJoin [pkiDir; "clients"]) "server" ca c ts /\
          pp_etcdClientTLSConfig s' = Some tls /\ clientLeft ca (Node_Name me) tls tm
    end.
Lemma createKeypairs_left peersCA clientsCA pkiDir me ips s :
  wpm (createKeypairs ParseIP durations peersCA clientsCA pkiDir me ips) s
    (fun r s' t => r = None -> keypairsLeft peersCA clientsCA pkiDir me ips s s' t) (fun _ _ => True).
Proof.
  unfold createKeypairs. wpm_step.
  apply (wpm_mono _ _ (fun r s1 t => r = None ->
    pp_PKIClientsDir s1 = pp_PKIClientsDir s /\ pp_etcdClientTLSConfig s1 = pp_etcdClientTLSConfig s /\
    match peersCA with
    | None => t = [] /\ pp_PKIPeersDir s1 = pp_PKIPeersDir s
    | Some ca => pp_PKIPeersDir s1 = PathJoin [pkiDir; "peers"] /\
        exists c, peerConfig ParseIP me ips = Ok c /\ pairLeft (PathJoin [pkiDir; "peers"]) "me" ca c t
    end) _ (fun _ _ => True)); [|intros [e|] s1 tp Hp; [by wpm_step|]|done].
  { destruct peersCA as [ca|]; [|by wpm_step]. do 2 wpm_step.
    eapply wpm_mono; [apply keypairIn_left| |done]. intros r s1 t [-> Hr] ->. split; [done|]. split; [done|]. split; [done|].
    by apply Hr. }
  destruct (Hp eq_refl) as (Hd & Ht & Hpeers). do 2 wpm_step. destruct clientsCA as [ca|].
  2:{ wpm_step. intros _. exists tp, []. rewrite ?app_nil_r. by destruct peersCA. }
  do 3 wpm_step. eapply wpm_mono; [apply keypairIn_left| |done]. intros [e|] s2 ts [-> Hc]; [by wpm_step|].
  destruct (Hc eq_refl) as (c & Hcfg & Hleft). wpm_step.
  eapply wpm_mono; [apply inMemory_left, BuildTLSClientConfig_left| |done].
  intros [tls|e] s3 tm [-> Htls]; [|by wpm_step]. do 3 wpm_step. intros _. exists tp, (ts ++ tm).
  rewrite ?app_nil_r. simpl. split; [done|]. split; [done|]. split; [by destruct peersCA|]. split; [done|].
  exists c, tls, ts, tm. auto 10.
Qed.

(** C32: whatever the files hold and whichever calls fail, with CAs that were loaded
    from their files or made for a restore, [createKeypairs] does not crash.  If it
    succeeds, each directory of the process holds the bundle of its CA and a key
    with a certificate: for the peers "me.key" and "me.crt", for the clients
    "server.key" and "server.crt".  The key is the one that was there, or a new one
    if there was none.  The certificate is one that the CA signed now for this key,
    or the one that was there if it has the wanted name and alternative names and
    enough time left (whether that one was signed by this CA, or for this key, is
    not checked).  The client configuration of the manager holds a new key with a
    certificate that the clients' CA signed for it now.  Every certificate that is
    signed is signed with the key of a CA under a certificate for that key, and is
    one of three: by the peers' CA, for the name of the node, its peer URLs and the
    given addresses (each once); by the clients' CA, for its name, its client URLs
    and its peer URLs; by the clients' CA, for the manager, as a client only and
    with no other names.  The first two hold 127.0.0.1, every host and address of
    those URLs, and besides the loopback addresses no other. *)
Theorem createKeypairs_signs peersCA clientsCA pkiDir me peerClientIPs (s : processPki) t o
  (Hp : forall ca, peersCA = Some ca -> properCA ca)
  (Hc : forall ca, clientsCA = Some ca -> properCA ca)
  (Hrun : runs (createKeypairs ParseIP durations peersCA clientsCA pkiDir me peerClientIPs s) t o) :
  (exists r s', o = Done (r, s') /\
     (r = None -> keypairsLeft peersCA clientsCA pkiDir me peerClientIPs s s' t)) /\
  forall tm parent pub priv r, pexch (PCreateCertificate tm parent pub priv) r ∈ t ->
    exists ca, ca_primaryCertificate ca = Some parent /\ priv = ca_privateKey ca /\
      crt_PublicKey parent = publicKey priv /\
      allowedFor peersCA clientsCA me peerClientIPs ca (tm_config tm).
Proof.
  assert (forall ca, peersCA = Some ca \/ clientsCA = Some ca -> wfCA ca) as Hwf
    by (intros ca [?|?]; apply properCA_wf; auto).
  pose proof (wp_runs _ _ _ _ Hrun
    (createKeypairs_triple peersCA clientsCA pkiDir me peerClientIPs Hwf s I)) as H.
  pose proof (wp_runs _ _ _ _ Hrun (createKeypairs_left peersCA clientsCA pkiDir me peerClientIPs s)) as Hl.
  destruct o as [[r s']|c]; [|by destruct H]. destruct H as (_ & Ht & _). split; [eauto|].
  intros tm parent pub priv rr Hin. rewrite Forall_forall in Ht.
  destruct (Ht _ Hin tm parent pub priv eq_refl) as (ca & Hok & Hpar & ->).
  destruct (Hwf ca) as (primary & Hprim & _ & Hpk); [unfold allowedFor in Hok; tauto|].
  exists ca. split_and!; [done..| |done]. congruence.
Qed.
End AltNames.

(** ** Keeping and renewing *)

Lemma default_never_keeps config cert issuedAt now :
  crt_NotAfter cert <= issuedAt + CertDuration defaultDurations -> issuedAt <= now ->
  ~ acceptable defaultDurations config cert now.
Proof.
  intros H1 H2 (H3 & _). unfold timeSub, defaultDurations, int64_min, int64_max in *.
  cbn [CertDuration CertMinTimeLeft] in *. unfold Hour, Minute, Second, Millisecond in *. lia.
Qed.

(** The pair that [ensureKeypair] returns, whichever store it is in and
    whatever the environment answers.  It has a key and a certificate; the key is
    the one that was stored, or a new one if there was none; the certificate is
    the one that was stored, if it has the name and the alternative names that
    are asked for and is valid for longer than [CertMinTimeLeft], and otherwise
    one that the CA signed now for this key; what was replaced is in the store.
    With the default durations a certificate that was issued earlier is always
    replaced.  A nil primary certificate of the CA is the only crash. *)
Theorem ensureKeypair_correct {slot S} `{!MutableKeypair slot S, !SlotLaws slot S}
  durations (sl : slot) config signer (s : S) t o
  (Hrun : runs (ensureKeypair durations sl config signer s) t o) :
  match o with
  | Crashed c => c = NilDeref "caCert" /\ ca_primaryCertificate signer = None
  | Done (Err _, _) => True
  | Done (Ok kp, s') => exists original t1 t2 t3,
      t = t1 ++ t2 ++ t3 /\ slot_holds sl s t1 original /\ slot_stored sl s' t3 original kp /\
      ensured durations config signer original kp t2 /\
      (durations = defaultDurations -> forall issuedAt cert key,
         kp_Certificate original = Some cert -> crt_NotAfter cert <= issuedAt + CertDuration durations ->
         (forall now, pexch PNow now ∈ t2 -> issuedAt <= now) ->
         kp_PrivateKey kp = Some key ->
         exists cert', kp_Certificate kp = Some cert' /\ issued durations config signer key cert' t2)
  end.
Proof.
  pose proof (wp_runs _ _ _ _ Hrun (ensureKeypair_spec durations sl config signer s)) as H.
  destruct o as [[[kp|e] s']|c]; [|done..].
  destruct (H kp eq_refl) as (original & t1 & t2 & t3 & -> & Hh & He & Hs).
  exists original, t1, t2, t3. split_and!; [done..|].
  intros -> issuedAt cert key Hc Hna Hnow Hk.
  destruct He as (key' & cert' & -> & _ & [(Hkept & now & Hin & Hacc)|Hi]); simpl in Hk; simplify_eq; [|by eauto].
  by destruct (default_never_keeps config cert' issuedAt now Hna (Hnow _ Hin)).
Qed.
End Pki.

(** ** An example *)

Module PkiDemo.
Import ProcessDemo.
(** Keys are texts, the public key of [k] is ["pub-" ++ k]; the file "ca.crt" holds
    two certificates, one of an older key. *)
Definition caCert : Certificate string := mkCertificate "ca" [] [] 0 (100 * 365 * 24 * Hour) "pub-cakey" "new".
Definition oldCaCert : Certificate string := mkCertificate "ca" [] [] 0 (100 * 365 * 24 * Hour) "pub-oldkey" "old".
Definition meCert : Certificate string :=
  mkCertificate "n1" ["n1"; "n1"] ["127.0.0.1"; "::1"] 0 (2 * 365 * 24 * Hour) "pub-mykey" "me".

#[export] Instance keys : KeyLib string string := {|
  publicKey := fun k => "pub-" +:+ k;
  ParsePrivateKeyPEM := fun s => Some (Some s);
  ParseCertsPEM := fun s => if String.eqb s "BUNDLE" then Ok [oldCaCert; caCert]
                            else if String.eqb s "ME" then Ok [meCert] else Err "no certificate";
  EncodeKey := fun k => k;
  EncodeCert := crt_Raw;
|}.

Abbreviation DemoSig := (@PkiSig string string).

(** The disk, which keeps the texts that are written; a year has passed. *)
Definition now : time := 365 * 24 * Hour.
Definition host : handler DemoSig (gmap string string) := fun e w =>
  match e return pki_res e * gmap string string with
  | PNow => (now, w)
  | PReadFile p => (match w !! p with Some d => ReadOk d | None => ReadNotExist end, w)
  | PMkdirAll _ => (None, w)
  | POpenFile p => (None, <[p := ""]> w)
  | PEncode p d => (None, <[p := default "" (w !! p) +:+ d]> w)
  | PClose _ => (None, w)
  | PNewPrivateKey => (Ok "fresh", w)
  | PSerial => (Ok 7, w)
  | PCreateCertificate tm _ pub _ =>
      (Ok (mkCertificate (tm_CommonName tm) (tm_DNSNames tm) (tm_IPs tm) (tm_NotBefore tm)
             (tm_NotAfter tm) pub "signed"), w)
  | PNewSelfSignedCACert _ k => (Ok caCert, w)
  end.
Definition disk : gmap string string :=
  {["/ca/ca.key" := "cakey"; "/ca/ca.crt" := "BUNDLE"; "/pki/peers/me.key" := "mykey"; "/pki/peers/me.crt" := "ME"]}.
Definition theCA : CA := mkCA (Some caCert) "cakey" [caCert; oldCaCert].
Definition parseIP (s : string) : option string := if String.eqb s "10.0.0.1" then Some s else None.
Definition noPki : @processPki string string := mkProcessPki "" "" None None.
Definition create : M DemoSig (@processPki string string) (option error) :=
  createKeypairs parseIP defaultDurations (Some theCA) (Some theCA) "/pki" ProcessDemo.me ["10.0.0.1"].
Definition ensure : M DemoSig unit (result Keypair) :=
  ensureKeypair defaultDurations (fsKeypair "/pki/peers" "me")
    (mkCertConfig "n1" [] ["n1"; "n1"] ["127.0.0.1"; "::1"] [ClientAuth]) theCA.
End PkiDemo.

Import ProcessDemo PkiDemo.

Lemma createKeypairs_signs_witness :
  properCA PkiDemo.theCA /\
  match outcome_of PkiDemo.host (PkiDemo.create PkiDemo.noPki) PkiDemo.disk with
  | Done (None, p) => pp_PKIPeersDir p = "/pki/peers" /\ pp_PKIClientsDir p = "/pki/clients"
  | _ => False
  end /\
  forall tm parent pub priv r,
    @existT (op PkiDemo.DemoSig) (@res PkiDemo.DemoSig) (PCreateCertificate tm parent pub priv) r ∈ trace_of PkiDemo.host (PkiDemo.create PkiDemo.noPki) PkiDemo.disk ->
    tm_CommonName tm = "n1".
Proof.
  assert (properCA PkiDemo.theCA) as Hca.
  { left. exists "/ca", "ca", (trace_of PkiDemo.host (LoadCA "/ca" "ca" ()) PkiDemo.disk).
    apply exec_runs_eq. vm_compute. reflexivity. }
  split; [exact Hca|]. split; [vm_compute; split; reflexivity|].
  intros tm parent pub priv r Hin.
  destruct (createKeypairs_signs (U := string) PkiDemo.parseIP defaultDurations (Some PkiDemo.theCA) (Some PkiDemo.theCA)
    "/pki" ProcessDemo.me ["10.0.0.1"] PkiDemo.noPki _ _
    (fun ca H => match H in _ = o return match o with Some c => properCA c | None => True end with eq_refl => Hca end)
    (fun ca H => match H in _ = o return match o with Some c => properCA c | None => True end with eq_refl => Hca end)
    (exec_runs PkiDemo.host (PkiDemo.create PkiDemo.noPki) PkiDemo.disk)) as [_ H].
  destruct (H tm parent pub priv r Hin) as (ca & _ & _ & _ & [(_ & (Hn & _) & _)|[(_ & (Hn & _) & _)|[_ Hn]]]).
  - exact Hn.
  - exact Hn.
  - apply (f_equal cc_CommonName) in Hn. exact Hn.
Defined.

Lemma ensureKeypair_correct_witness :
  outcome_of PkiDemo.host (PkiDemo.ensure ()) PkiDemo.disk =
    Done (Ok (mkKeypair (Some "mykey")
      (Some (mkCertificate "n1" ["n1"; "n1"] ["127.0.0.1"; "::1"] 0 (3 * 365 * 24 * Hour) "pub-mykey" "signed"))), ()) /\
  exists original t1 t2 t3,
    trace_of PkiDemo.host (PkiDemo.ensure ()) PkiDemo.disk = t1 ++ t2 ++ t3 /\
    slot_holds (fsKeypair "/pki/peers" "me") () t1 original.
Proof.
  split; [vm_compute; reflexivity|].
  pose proof (ensureKeypair_correct defaultDurations (fsKeypair "/pki/peers" "me")
    (mkCertConfig "n1" [] ["n1"; "n1"] ["127.0.0.1"; "::1"] [ClientAuth]) PkiDemo.theCA () _ _
    (exec_runs PkiDemo.host (PkiDemo.ensure ()) PkiDemo.disk)) as H.
  assert (outcome_of PkiDemo.host (PkiDemo.ensure ()) PkiDemo.disk =
    Done (Ok (mkKeypair (Some "mykey")
      (Some (mkCertificate "n1" ["n1"; "n1"] ["127.0.0.1"; "::1"] 0 (3 * 365 * 24 * Hour) "pub-mykey" "signed"))), ()))
    as Ho by (vm_compute; reflexivity).
  unfold outcome_of in Ho. rewrite Ho in H.
  destruct H as (original & t1 & t2 & t3 & Ht & Hh & _). exists original, t1, t2, t3.
  split; [exact Ht|exact Hh].
Defined.
