(* ===== verification/Volumes.v ===== *)
(** * Mounting the volume of etcd: pkg/volumes

    The data of etcd is on a volume that belongs to the cluster and not to a
    machine.  A provider (one per cloud: aws, gce, ...) finds the volumes, attaches
    one to this machine and tells its device; [mountMasterVolumes] (mounter.go)
    makes sure that exactly one of them is attached, formatted and mounted, and
    [WaitForVolumes] (boot.go) repeats this until there is one.

    A provider is an instance of [Volumes] (interfaces.go), whose methods are
    programs over the machine ([HostSig]) and over the API of the cloud, a
    signature of its own. *)

From stdpp Require Import base gmap sets list strings.
From S2P Require Import Prelude Effects EffectsSum GoLib PrivateApi.

Local Open Scope Z_scope.

(** ** interfaces.go *)

Record Volume := mkVolume {
  vol_MountName : string;
  vol_ProviderID : string;
  vol_EtcdName : string;
  vol_LocalDevice : string;
  vol_AttachedTo : string;
  vol_Mountpoint : string;
  vol_Status : string;
  vol_Description : string;
}.

Definition set_LocalDevice (d : string) (v : Volume) : Volume :=
  mkVolume (vol_MountName v) (vol_ProviderID v) (vol_EtcdName v) d (vol_AttachedTo v)
    (vol_Mountpoint v) (vol_Status v) (vol_Description v).
Definition set_AttachedTo (a : string) (v : Volume) : Volume :=
  mkVolume (vol_MountName v) (vol_ProviderID v) (vol_EtcdName v) (vol_LocalDevice v) a
    (vol_Mountpoint v) (vol_Status v) (vol_Description v).
Definition set_Mountpoint (p : string) (v : Volume) : Volume :=
  mkVolume (vol_MountName v) (vol_ProviderID v) (vol_EtcdName v) (vol_LocalDevice v)
    (vol_AttachedTo v) p (vol_Status v) (vol_Description v).

#[export] Instance Volume_eq_dec : EqDecision Volume.
Proof. solve_decision. Defined.

(** ** The machine *)

(** Mounts are made in the namespace of this process or, from a container, in
    that of the host (through nsenter). *)
Inductive namespace := Own | Host.

Record MountPoint := mkMountPoint { mp_Device : string; mp_Path : string }.

Inductive stat_result := StatOk (isDir isSymlink : bool) | StatNotExist | StatErr (e : error).

Inductive host_op : Type :=
| HStat (p : string)
| HLstat (p : string)
| HEvalSymlinks (p : string)
| HAbs (p : string)
| HReadDir (p : string)                          (* names, and whether they are directories *)
| HReadFile (p : string)
| HWriteFile (p data : string)
| HMkdirAll (p : string)
| HExec (cmd : list string)
| HNsenter (root : string)
| HListMounts (ns : namespace)
| HFormatAndMount (ns : namespace) (source target fstype : string)
| HResize (ns : namespace) (device target : string)
| HGetDeviceNameFromMount (target : string)
| HMount (source target fstype : string)
| HSleep (d : duration)
| HRange.

Definition host_res (e : host_op) : Type :=
  match e with
  | HStat _ | HLstat _ => stat_result
  | HEvalSymlinks _ | HAbs _ | HReadFile _ | HExec _ | HGetDeviceNameFromMount _ => result string
  | HReadDir _ => result (list (string * bool))
  | HListMounts _ => result (list MountPoint)
  | HWriteFile _ _ | HMkdirAll _ | HNsenter _ | HFormatAndMount _ _ _ _ | HResize _ _ _ | HMount _ _ _ =>
      option error
  | HSleep _ => unit
  | HRange => list nat
  end.
Definition HostSig : sig := Sig host_op host_res.

(** Programs on a machine with the API [C] of a cloud. *)
Abbreviation HM C := (M (HostSig ⊕ C)).
Definition hcall {C S} (e : host_op) : HM C S (host_res e) := @call (HostSig ⊕ C) S (inl e).
Definition ccall {C S} (e : op C) : HM C S (res e) := @call (HostSig ⊕ C) S (inr e).

#[export] Instance Host_range {C} : HasRange (HostSig ⊕ C) :=
  {| range_op := inl HRange : op (HostSig ⊕ C); range_code := fun r => r |}.

(** The interface.  A method that changes its argument answers the new value,
    also when it fails. *)
Class Volumes (C : sig) (S : Type) := {
  AttachVolume : Volume -> HM C S (Volume * option error);
  FindVolumes : HM C S (result (list Volume));
  FindMountedVolume : Volume -> HM C S (result string);
  MyIP : HM C S (result string);
}.

(** ** Discovery on clouds: what the providers share *)

Definition discoveryNode (id : string) (ips : list string) : DiscoveryNode :=
  mkDiscoveryNode id ((fun ip => mkNodeEndpoint ip 0) <$> ips).

(** The instances that volumes are attached to; of the volumes of one instance the
    last one counts. *)
Definition instanceToVolumeMap (vs : list Volume) : gmap string Volume :=
  foldl (fun m v => if String.eqb (vol_AttachedTo v) "" then m else <[vol_AttachedTo v := v]> m) ∅ vs.

(** ** boot.go: paths of the host *)

Section Machine.
Context (Containerized : bool).

Definition pathFor (hostPath : string) : string :=
  (if Containerized then "/rootfs/" else "/") +:+ String.substring 1 (String.length hostPath - 1) hostPath.

Definition PathFor {C S} (hostPath : string) : HM C S string :=
  match String.get 0 hostPath with
  | None => die (NilDeref "hostPath[0]")
  | Some _ => if HasPrefix hostPath "/" then mret (pathFor hostPath) else die (Fatal "path was not absolute")
  end.

(** ** retry.go *)

Definition backoff_step {C S} (d : duration) (n : nat) (condition : HM C S (result bool))
    (again : HM C S (result bool)) : HM C S (result bool) :=
  r ← condition;
  match r with
  | Err e => mret (Err e)
  | Ok true => mret (Ok true)
  | Ok false =>
      match n with
      | O => mret (Ok false)
      | _ => hcall (HSleep d) ≫= fun _ => again
      end
  end.

(** The condition is tried at most [attempts] times. *)
Fixpoint SleepUntil {C S} (d : duration) (attempts : nat) (condition : HM C S (result bool)) : HM C S (result bool) :=
  match attempts with
  | O => mret (Ok false)
  | Datatypes.S n => backoff_step d n condition (SleepUntil d n condition)
  end.

(** ** mounter.go *)

Section Devices.
Context {C : sig} {S : Type}.

Definition namesFor (dev : string) : HM C S (list string) :=
  p ← PathFor dev;
  s ← hcall (HEvalSymlinks dev);
  match s with
  | Err _ => mret [dev; p]
  | Ok s =>
      a ← hcall (HAbs s);
      mret [dev; p; match a with Ok a => a | Err _ => s end]
  end.

(** [for k := range aliases] gives the indices of the slice. *)
Definition isSameDevice (dev1 dev2 : string) : HM C S bool :=
  aliases1 ← namesFor dev1;
  aliases2 ← namesFor dev2;
  mret (existsb (fun k1 => existsb (fun k2 => Nat.eqb k1 k2) (seq 0 (length aliases2)))
          (seq 0 (length aliases1))).
End Devices.

Record VolumeMountController (P : Type) := mkController {
  vc_mounted : gmap string Volume;
  vc_provider : P;
}.
Arguments mkController {_} _ _. Arguments vc_mounted {_} _. Arguments vc_provider {_} _.

Section Mounter.
Context {C : sig} {P : Type} `{!Volumes C P}.
Abbreviation MM := (HM C (VolumeMountController P)).

Definition newVolumeMountController (p : P) : VolumeMountController P := mkController ∅ p.

(** A method of the provider. *)
Definition provider {A} (m : HM C P A) : MM A :=
  zoom vc_provider (fun p k => mkController (vc_mounted k) p) m.
Definition addMounted (v : Volume) (k : VolumeMountController P) : VolumeMountController P :=
  mkController (<[vol_ProviderID v := v]> (vc_mounted k)) (vc_provider k).

(** The wait for the device, at most [fuel] times. *)
Definition awaitDevice (fuel : nat) (v : Volume) : MM (result string) :=
  repeat_until fuel (
    found ← provider (FindMountedVolume v);
    match found with
    | Err e => mret (Some (Err e))
    | Ok dev =>
        if String.eqb dev "" then hcall (HSleep Second) ≫= fun _ => mret None
        else mret (Some (Ok dev))
    end).

(** From a container the device is mounted once more. *)
Definition mountInContainer (device mountpoint fstype : string) : MM (option error) :=
  source ← PathFor device;
  target ← PathFor mountpoint;
  d ← hcall (HGetDeviceNameFromMount target);
  match d with
  | Err _ => mret (Some "error checking for mounts inside container")
  | Ok mountedDevice =>
      if negb (String.eqb mountedDevice "") then
        same ← isSameDevice device mountedDevice;
        if (same : bool) then mret None else mret (Some "device already mounted")
      else
        e ← hcall (HMount source target fstype);
        mret (match e with Some _ => Some "error mounting inside container" | None => None end)
  end.

(** Format and mount, unless something is mounted there. *)
Definition mountDevice (ns : namespace) (device mountpoint fstype : string) (mounts : list MountPoint)
    : MM (option error) :=
  match filter (fun m => mp_Path m = mountpoint) mounts with
  | [] =>
      p ← PathFor mountpoint;
      e ← hcall (HMkdirAll p);
      match e with
      | Some e => mret (Some e)
      | None =>
          e ← hcall (HFormatAndMount ns device mountpoint fstype);
          mret (match e with Some _ => Some "error formatting and mounting disk" | None => None end)
      end
  | [_] => mret None
  | _ => mret (Some "found multiple existing mounts")
  end.

Definition safeFormatAndMount (fuel : nat) (v : Volume) (mountpoint fstype : string) : MM (option error) :=
  d ← awaitDevice fuel v;
  match d with
  | Err e => mret (Some e)
  | Ok device =>
      n ← (if Containerized then
             root ← PathFor "/";
             hcall (HNsenter root)
           else mret None);
      match n with
      | Some _ => mret (Some "error building ns-enter helper")
      | None =>
          let ns := if Containerized then Host else Own in
          l ← hcall (HListMounts ns);
          match l with
          | Err _ => mret (Some "error listing existing mounts")
          | Ok mounts =>
              e ← mountDevice ns device mountpoint fstype mounts;
              match e with
              | Some e => mret (Some e)
              | None =>
                  e ← hcall (HResize ns device mountpoint);
                  match e with
                  | Some _ => mret (Some "error resizing disk")
                  | None => if Containerized then mountInContainer device mountpoint fstype else mret None
                  end
              end
          end
      end
  end.

(** Attach volumes until there is one. *)
Definition attachOne (v : Volume) (attached : list Volume) : MM (list Volume + list Volume) :=
  match attached with
  | _ :: _ => mret (inr attached)
  | [] =>
      r ← provider (AttachVolume v);
      match r with
      | (_, Some _) => mret (inl attached)
      | (v', None) =>
          if String.eqb (vol_LocalDevice v') "" && String.eqb (vol_Mountpoint v') "" then
            die (Fatal "AttachVolume did not set LocalDevice or Mountpoint")
          else mret (inl (attached ++ [v']))
      end
  end.

Definition attachMasterVolumes : MM (result (list Volume)) :=
  r ← provider FindVolumes;
  match r with
  | Err e => mret (Err e)
  | Ok volumes =>
      let tryAttach := filter (fun v => vol_AttachedTo v = "") volumes in
      let attached := filter (fun v => vol_LocalDevice v <> "") volumes in
      match tryAttach with
      | [] => mret (Ok attached)
      | _ =>
          a ← for_each tryAttach attached attachOne;
          mret (Ok (match a with inl l | inr l => l end))
      end
  end.

(** One volume of the loop of [mountMasterVolumes]. *)
Definition mountOne (fuel : nat) (v : Volume) : MM (unit + option error) :=
  k ← get;
  if negb (bool_decide (vc_mounted k = ∅)) then mret (inr None)
  else if bool_decide (is_Some (vc_mounted k !! vol_ProviderID v)) then mret (inl tt)
  else if negb (String.eqb (vol_Mountpoint v) "") then
    modify (addMounted v) ≫= fun _ => mret (inl tt)
  else
    p ← PathFor "/mnt/disks";
    s ← hcall (HStat p);
    match s with
    | StatErr _ => mret (inr (Some "error checking for /mnt/disks"))
    | _ =>
        let mountpoint := (match s with StatOk _ _ => "/mnt/disks/" | _ => "/mnt/" end) +:+ vol_MountName v in
        e ← safeFormatAndMount fuel v mountpoint "";
        match e with
        | Some _ => mret (inl tt)
        | None =>
            p ← PathFor mountpoint;
            modify (addMounted (set_Mountpoint p v)) ≫= fun _ => mret (inl tt)
        end
    end.

Definition mountMasterVolumes (fuel : nat) : MM (result (list Volume)) :=
  a ← attachMasterVolumes;
  match a with
  | Err _ => mret (Err "unable to attach master volumes")
  | Ok attached =>
      r ← for_each attached tt (fun v _ => mountOne fuel v);
      match r with
      | inr (Some e) => mret (Err e)
      | _ =>
          k ← get;
          l ← range (vc_mounted k);
          mret (Ok l.*2)
      end
  end.

(** boot.go: at most [rounds] attempts. *)
Definition WaitForVolumes (rounds fuel : nat) : MM (list Volume) :=
  repeat_until rounds (
    r ← mountMasterVolumes fuel;
    match r with
    | Err _ => hcall (HSleep Second) ≫= fun _ => mret None
    | Ok (v :: l) => mret (Some (v :: l))
    | Ok [] => hcall (HSleep Minute) ≫= fun _ => mret None
    end).
End Mounter.

(** ** The mounter with an unknown provider *)

(** The provider as part of the environment: its methods can answer anything. *)
Inductive prov_op := PAttachVolume (v : Volume) | PFindVolumes | PFindMountedVolume (v : Volume) | PMyIP.
Definition prov_res (e : prov_op) : Type :=
  match e with
  | PAttachVolume _ => (Volume * option error)%type
  | PFindVolumes => result (list Volume)
  | _ => result string
  end.
Definition ProvSig : sig := Sig prov_op prov_res.
#[export] Instance anyProvider : Volumes ProvSig unit := {|
  AttachVolume := fun v => @call (HostSig ⊕ ProvSig) _ (inr (PAttachVolume v));
  FindVolumes := @call (HostSig ⊕ ProvSig) _ (inr PFindVolumes);
  FindMountedVolume := fun v => @call (HostSig ⊕ ProvSig) _ (inr (PFindMountedVolume v));
  MyIP := @call (HostSig ⊕ ProvSig) _ (inr PMyIP);
|}.

Abbreviation VT := (trace (HostSig ⊕ ProvSig)).
Abbreviation hx e r := (@existT (op (HostSig ⊕ ProvSig)) (@res (HostSig ⊕ ProvSig)) (inl e) r).
Abbreviation px e r := (@existT (op (HostSig ⊕ ProvSig)) (@res (HostSig ⊕ ProvSig)) (inr e) r).
Abbreviation VM := (HM ProvSig (VolumeMountController unit)).

(** The provider reported the volume as attached to this machine, or attached it. *)
Definition ours (v : Volume) (t : VT) : Prop :=
  (exists vs, px PFindVolumes (Ok vs) ∈ t /\ v ∈ vs /\ vol_LocalDevice v <> "") \/
  (exists v0, px (PAttachVolume v0) (v, None) ∈ t /\
     (vol_LocalDevice v <> "" \/ vol_Mountpoint v <> "")).

(** What has happened before a device is formatted: the volume is ours, the
    provider named the device, and nothing was mounted at the target. *)
Definition may_format (ns : namespace) (device target : string) (t : VT) : Prop :=
  exists t0 mounts v, t = t0 ++ [hx (HListMounts ns) (Ok mounts); hx (HMkdirAll (pathFor target)) None] /\
    Forall (fun m => mp_Path m <> target) mounts /\ ours v t0 /\ vol_Mountpoint v = "" /\
    device <> "" /\ px (PFindMountedVolume v) (Ok device) ∈ t0 /\
    (target = "/mnt/" +:+ vol_MountName v \/ target = "/mnt/disks/" +:+ vol_MountName v).

Definition formats (ns : namespace) (device target fstype : string)
    (x : exchange (HostSig ⊕ ProvSig)) : Prop := asked x = inl (HFormatAndMount ns device target fstype).
Definition careful (t : VT) : Prop :=
  forall ns device target fstype, guarded (formats ns device target fstype) (may_format ns device target) t.

Definition no_format (x : exchange (HostSig ⊕ ProvSig)) : Prop :=
  match asked x with inl (HFormatAndMount _ _ _ _) => False | _ => True end.

(** The crashes: the loops with a bound, a provider that does not say where the
    volume is, and device names that are not absolute paths. *)
Definition mount_crash (c : crash) : Prop :=
  c = OutOfFuel \/ c = Fatal "AttachVolume did not set LocalDevice or Mountpoint" \/
  c = Fatal "path was not absolute" \/ c = NilDeref "hostPath[0]".

Lemma ours_app_l v t t' : ours v t -> ours v (t ++ t').
Proof. unfold ours. set_solver. Qed.
Lemma ours_app_r v t t' : ours v t' -> ours v (t ++ t').
Proof. unfold ours. set_solver. Qed.

Lemma careful_app t t' :
  careful t ->
  (forall ns device target fstype,
     guarded (formats ns device target fstype) (fun t1 => may_format ns device target (t ++ t1)) t') ->
  careful (t ++ t').
Proof. intros H H' ns device target fstype. apply guarded_app; auto. Qed.

Lemma careful_quiet t : Forall no_format t -> careful t.
Proof.
  intros H ns device target fstype. apply guarded_Forall. eapply Forall_impl; [exact H|].
  intros x Hx E. unfold no_format, formats in *. by rewrite E in Hx.
Qed.

(** A trace that is careful after [t0]. *)
Definition careful_after (t0 t : VT) : Prop :=
  forall ns device target fstype,
    guarded (formats ns device target fstype) (fun t1 => may_format ns device target (t0 ++ t1)) t.

Lemma careful_after_quiet t0 t : Forall no_format t -> careful_after t0 t.
Proof.
  intros H ns device target fstype. apply guarded_Forall. eapply Forall_impl; [exact H|].
  intros x Hx E. unfold no_format, formats in *. by rewrite E in Hx.
Qed.

Lemma careful_after_app t0 t t' :
  careful_after t0 t -> careful_after (t0 ++ t) t' -> careful_after t0 (t ++ t').
Proof.
  intros H H' ns device target fstype. apply guarded_app; [apply H|].
  eapply guarded_mono; [apply H'|]. intros t1. by rewrite app_assoc.
Qed.

(** After the exchanges [t0], [m] formats only what it may, crashes only in the
    known ways, and ends with [Q]. *)
Definition carefully {A} (t0 : VT) (m : VM A) (k : VolumeMountController unit)
    (Q : A -> VolumeMountController unit -> VT -> Prop) : Prop :=
  wpm m k (fun a k' t => careful_after t0 t /\ Q a k' t) (fun c t => mount_crash c /\ careful_after t0 t).

Section Rules.
Context (t0 : VT) (k : VolumeMountController unit).

Lemma carefully_ret {A} (a : A) Q : Q a k [] -> carefully t0 (mret a) k Q.
Proof. intros H. split; [by apply careful_after_quiet|done]. Qed.

Lemma carefully_die {A} c Q : mount_crash c -> carefully t0 (die c : VM A) k Q.
Proof. intros H. split; [done|by apply careful_after_quiet]. Qed.

Lemma carefully_bind {A B} (m : VM A) (f : A -> VM B) Q :
  carefully t0 m k (fun a k' t => carefully (t0 ++ t) (f a) k' (fun b k'' t' => Q b k'' (t ++ t'))) ->
  carefully t0 (m ≫= f) k Q.
Proof.
  intros H. apply wpm_bind. eapply wpm_mono; [exact H| |done].
  intros a k' t [Ht Hf]. eapply wpm_mono; [exact Hf| |]; simpl.
  - intros b k'' t' [Ht' HQ]. split; [by apply careful_after_app|done].
  - intros c t' [HQ Ht']. split; [done|by apply careful_after_app].
Qed.

Lemma carefully_mono {A} (m : VM A) (Q Q' : A -> VolumeMountController unit -> VT -> Prop) :
  carefully t0 m k Q -> (forall a k' t, Q a k' t -> Q' a k' t) -> carefully t0 m k Q'.
Proof. intros H HQ. eapply wpm_mono; [exact H| |done]. naive_solver. Qed.

Lemma carefully_hcall e (Q : host_res e -> VolumeMountController unit -> VT -> Prop) :
  (forall r, no_format (hx e r)) -> (forall r, Q r k [hx e r]) -> carefully t0 (hcall e) k Q.
Proof. intros He H r. split; [apply careful_after_quiet; by repeat constructor|apply H]. Qed.

Lemma carefully_provider e (Q : prov_res e -> VolumeMountController unit -> VT -> Prop) :
  (forall r, Q r k [px e r]) ->
  carefully t0 (provider (@call (HostSig ⊕ ProvSig) unit (inr e))) k Q.
Proof.
  intros H r. simpl. destruct k as [m []]. split; [apply careful_after_quiet; by repeat constructor|apply H].
Qed.

Lemma carefully_PathFor p Q : Q (pathFor p) k [] -> carefully t0 (PathFor p) k Q.
Proof.
  intros HQ. unfold PathFor. destruct (String.get 0 p); [|apply carefully_die; unfold mount_crash; tauto].
  destruct (HasPrefix p "/"); [by apply carefully_ret|apply carefully_die; unfold mount_crash; tauto].
Qed.

Lemma carefully_get Q : Q k k [] -> carefully t0 get k Q.
Proof. intros H. split; [by apply careful_after_quiet|done]. Qed.
Lemma carefully_modify f Q : Q tt (f k) [] -> carefully t0 (modify f) k Q.
Proof. intros H. split; [by apply careful_after_quiet|done]. Qed.
End Rules.

Ltac care_step :=
  lazymatch goal with
  | |- carefully _ (mret _) _ _ => apply carefully_ret
  | |- carefully _ (_ ≫= _) _ _ => apply carefully_bind
  | |- carefully _ (PathFor _) _ _ => apply carefully_PathFor
  | |- carefully _ get _ _ => apply carefully_get
  | |- carefully _ (modify _) _ _ => apply carefully_modify
  | |- carefully ?t (hcall ?e) ?k ?Q => refine (carefully_hcall t k e Q (fun _ => I) _); intros ?
  | |- carefully ?t (provider (call (inr ?e))) ?k ?Q => refine (carefully_provider t k e Q _); intros ?
  | |- carefully ?t (provider (FindMountedVolume ?v)) ?k ?Q => refine (carefully_provider t k (PFindMountedVolume v) Q _); intros ?
  | |- carefully ?t (provider (AttachVolume ?v)) ?k ?Q => refine (carefully_provider t k (PAttachVolume v) Q _); intros ?
  | |- carefully ?t (provider FindVolumes) ?k ?Q => refine (carefully_provider t k PFindVolumes Q _); intros ?
  end; simpl.

Lemma namesFor_index0 t0 k dev :
  carefully t0 (namesFor dev) k (fun l k' _ => k' = k /\ exists p l', l = dev :: p :: l').
Proof.
  unfold namesFor. care_step. care_step. care_step. care_step. destruct r as [s|e]; [|care_step; eauto].
  care_step. care_step. care_step. eauto.
Qed.

(** Whatever the devices are, the comparison of the indices succeeds. *)
Lemma isSameDevice_true t0 k dev1 dev2 :
  carefully t0 (isSameDevice dev1 dev2) k (fun b k' _ => k' = k /\ b = true).
Proof.
  unfold isSameDevice. care_step. eapply carefully_mono; [apply namesFor_index0|].
  intros ? ? t (-> & p1 & l1 & ->). care_step. eapply carefully_mono; [apply namesFor_index0|].
  intros ? ? t' (-> & p2 & l2 & ->). by care_step.
Qed.

(** Inside the container something is mounted at the place of [target], or the
    device was mounted there. *)
Definition visible (device target : string) (t : VT) : Prop :=
  exists d, hx (HGetDeviceNameFromMount (pathFor target)) (Ok d) ∈ t /\
    (d <> "" \/ exists fstype, hx (HMount (pathFor device) (pathFor target) fstype) None ∈ t).

Lemma mountInContainer_spec t0 k device mountpoint fstype :
  carefully t0 (mountInContainer device mountpoint fstype) k
    (fun r k' t => k' = k /\ (r = None -> visible device mountpoint t)).
Proof.
  unfold mountInContainer. do 5 care_step. care_step. destruct r as [d|e]; [|by care_step].
  destruct (String.eqb d "") eqn:Hd; zify_bools; cbn [negb].
  - do 3 care_step. split; [done|]. intros Hr. destruct r as [e|]; [done|].
    exists d. split; [set_solver|]. right. exists fstype. set_solver.
  - care_step. eapply carefully_mono; [apply isSameDevice_true|]. intros b k' t [-> ->]. care_step. split; [done|].
    intros _. exists d. split; [set_solver|by left].
Qed.

Lemma awaitDevice_spec fuel v k : forall t0,
  carefully t0 (awaitDevice fuel v) k
    (fun r k' t => k' = k /\ forall dev, r = Ok dev -> dev <> "" /\ px (PFindMountedVolume v) (Ok dev) ∈ t).
Proof.
  unfold awaitDevice. induction fuel as [|fuel IH]; intros t0; simpl.
  { apply carefully_die. unfold mount_crash. auto. }
  do 3 care_step. destruct r as [dev|e]; [destruct (String.eqb dev "") eqn:Hd|].
  - do 3 care_step. eapply carefully_mono; [apply IH|]. intros r' k' t (-> & Hr). split; [done|].
    intros dev' E. destruct (Hr dev' E). split; [done|]. set_solver.
  - zify_bools. do 2 care_step. split; [done|]. intros dev' [= ->]. set_solver.
  - by do 2 care_step.
Qed.

Definition mounts_as (v : Volume) (target : string) : Prop :=
  target = "/mnt/" +:+ vol_MountName v \/ target = "/mnt/disks/" +:+ vol_MountName v.

(** One mount was listed at [target], or none was and [device] was formatted and
    mounted there. *)
Definition occupied (ns : namespace) (device target : string) (mounts : list MountPoint) (t : VT) : Prop :=
  (exists m, filter (fun m => mp_Path m = target) mounts = [m]) \/
  (Forall (fun m => mp_Path m <> target) mounts /\ exists fstype, hx (HFormatAndMount ns device target fstype) None ∈ t).

(** All steps of a mount of [device] at [target] succeeded. *)
Definition placed (device target : string) (t : VT) : Prop :=
  exists mounts, let ns := if Containerized then Host else Own in
    hx (HListMounts ns) (Ok mounts) ∈ t /\ occupied ns device target mounts t /\
    hx (HResize ns device target) None ∈ t /\ (Containerized = true -> visible device target t).

(** A volume of ours is in its place: it was there when the provider reported or
    attached it, or it was put at the place named after it, on the device that the
    provider named. *)
Definition in_place (v : Volume) (t : VT) : Prop :=
  (ours v t /\ vol_Mountpoint v <> "") \/
  exists v0 device target, ours v0 t /\ vol_Mountpoint v0 = "" /\ v = set_Mountpoint (pathFor target) v0 /\
    mounts_as v0 target /\ device <> "" /\ px (PFindMountedVolume v0) (Ok device) ∈ t /\ placed device target t.

Lemma ours_grows v t t' : t ⊆ t' -> ours v t -> ours v t'.
Proof. unfold ours. set_solver. Qed.
Lemma occupied_grows ns device target mounts t t' :
  t ⊆ t' -> occupied ns device target mounts t -> occupied ns device target mounts t'.
Proof. unfold occupied. set_solver. Qed.
Lemma visible_grows device target t t' : t ⊆ t' -> visible device target t -> visible device target t'.
Proof. intros Ht (d & H1 & H2). exists d. set_solver. Qed.
Lemma placed_grows device target t t' : t ⊆ t' -> placed device target t -> placed device target t'.
Proof.
  intros Ht (mounts & H1 & H2 & H3 & H4). exists mounts. cbv zeta. split_and!; eauto using occupied_grows.
  intros Hc. eauto using visible_grows.
Qed.
Lemma in_place_grows v t t' : t ⊆ t' -> in_place v t -> in_place v t'.
Proof.
  intros Ht [[H ?]|(v0 & device & target & H1 & H2 & H3 & H4 & H5 & H6 & H7)]; [left; eauto using ours_grows|right].
  exists v0, device, target. split_and!; eauto using ours_grows, placed_grows.
Qed.

Lemma mountDevice_spec ns device target fstype mounts v t0 k :
  ours v t0 -> vol_Mountpoint v = "" -> device <> "" ->
  px (PFindMountedVolume v) (Ok device) ∈ t0 -> mounts_as v target ->
  carefully (t0 ++ [hx (HListMounts ns) (Ok mounts)])
    (mountDevice ns device target fstype mounts) k
    (fun r k' t => k' = k /\ (r = None -> occupied ns device target mounts t)).
Proof.
  intros Hours Hm Hd Hf Ht. unfold mountDevice.
  destruct (filter _ mounts) as [|m1 [|m2 l]] eqn:Hfil.
  2:{ care_step. split; [done|]. intros _. left. by exists m1. }
  2:{ by care_step. }
  assert (Forall (fun m => mp_Path m <> target) mounts) as Hnone.
  { apply Forall_forall. intros m Hin E. assert (m ∈ filter (fun m => mp_Path m = target) mounts) as H.
    { by apply list_elem_of_filter. } rewrite Hfil in H. by apply elem_of_nil in H. }
  do 4 care_step. destruct r as [e|]; [by care_step|]. care_step. intros r. split.
  2:{ care_step. split; [done|]. intros Hr. destruct r; [done|]. right. split; [done|]. exists fstype. cbn. set_solver. }
  intros ns' device' target' fstype' t1 x t2 Hx Hfx. destruct t1 as [|y t1].
  - apply (f_equal (fun l => asked <$> head l)) in Hx. simpl in Hx. rewrite Hfx in Hx. simplify_eq.
    exists t0, mounts, v. rewrite !app_nil_r, <- app_assoc. by split_and!.
  - apply (f_equal length) in Hx. simpl in Hx. rewrite length_app in Hx. simpl in Hx. lia.
Qed.

Lemma safeFormatAndMount_spec fuel v target fstype t0 k :
  ours v t0 -> vol_Mountpoint v = "" -> mounts_as v target ->
  carefully t0 (safeFormatAndMount fuel v target fstype) k
    (fun r k' t => k' = k /\ (r = None -> exists device, device <> "" /\ px (PFindMountedVolume v) (Ok device) ∈ t /\
       placed device target t)).
Proof.
  intros Hours Hm Ht. unfold safeFormatAndMount. care_step. eapply carefully_mono; [apply awaitDevice_spec|].
  intros [device|e] k' t (-> & Hdev); simpl; [|by care_step].
  destruct (Hdev device eq_refl) as [Hne Hin]. care_step.
  apply (carefully_mono _ _ _ (fun _ k' _ => k' = k)).
  { destruct Containerized; [by do 3 care_step|by care_step]. }
  intros [e|] k' t1 ->; [by care_step|].
  do 2 care_step. destruct r as [mounts|e]; [|by care_step].
  care_step. eapply carefully_mono; [apply (mountDevice_spec _ device target fstype mounts v)|];
    [by apply ours_app_l, ours_app_l|done|done|set_solver|done|].
  intros [e|] k' t2 [-> Hocc]; [by care_step|]. specialize (Hocc eq_refl). do 2 care_step. destruct r as [e|]; [by care_step|].
  set (ns := if Containerized then Host else Own) in *.
  assert (forall t3, (Containerized = true -> visible device target t3) ->
    placed device target (t ++ t1 ++ hx (HListMounts ns) (Ok mounts) :: t2 ++ hx (HResize ns device target) None :: t3)) as Hplaced.
  { intros t3 Hvis. exists mounts. fold ns. split_and!; [set_solver| |set_solver|].
    - eapply occupied_grows; [|exact Hocc]. set_solver.
    - intros Hc. eapply visible_grows; [|by apply Hvis]. set_solver. }
  destruct Containerized eqn:Ec.
  - eapply carefully_mono; [apply mountInContainer_spec|]. intros r k' t3 [-> Hvis]. split; [done|]. intros Hr.
    exists device. split; [done|]. split; [set_solver|]. apply Hplaced. auto.
  - care_step. split; [done|]. intros _. exists device. split; [done|]. split; [set_solver|]. by apply Hplaced.
Qed.

Lemma carefully_for_each {A B R} (I : B -> VolumeMountController unit -> VT -> Prop)
    (Q : R -> VolumeMountController unit -> VT -> Prop) (xs : list A) (body : A -> B -> VM (B + R)) t0 :
  (forall x acc k t, x ∈ xs -> I acc k t ->
     carefully (t0 ++ t) (body x acc) k
       (fun r k' t' => match r with inl a => I a k' (t ++ t') | inr b => Q b k' (t ++ t') end)) ->
  forall acc k t, I acc k t ->
  carefully (t0 ++ t) (for_each xs acc body) k
    (fun r k' t' => match r with inl a => I a k' (t ++ t') | inr b => Q b k' (t ++ t') end).
Proof.
  induction xs as [|x xs IH]; intros Hb acc k t HI; simpl.
  { care_step. by rewrite app_nil_r. }
  care_step. eapply carefully_mono; [apply Hb; [by left|done]|].
  intros [a|b] k' t' H; simpl.
  - rewrite <- app_assoc. eapply carefully_mono; [apply IH; [|exact H]|].
    + intros. apply Hb; [by right|done].
    + intros [a'|b] k'' t'' H'; by rewrite app_assoc.
  - care_step. by rewrite app_nil_r.
Qed.

(** Every volume of the list is ours. *)
Lemma attachMasterVolumes_spec t0 k :
  carefully t0 attachMasterVolumes k
    (fun r k' t => k' = k /\ forall l, r = Ok l -> Forall (fun v => ours v t) l).
Proof.
  unfold attachMasterVolumes. do 2 care_step. destruct r as [vs|e]; [|by care_step].
  assert (Forall (fun v => ours v [px PFindVolumes (Ok vs)]) (filter (fun v => vol_LocalDevice v <> "") vs)) as Hl.
  { apply Forall_forall. intros v [Hd Hin]%list_elem_of_filter. left. exists vs. split_and!; [left|done|done]. }
  destruct (filter (fun v => vol_AttachedTo v = "") vs) as [|v0 vs0] eqn:Htry.
  { care_step. split; [done|]. by intros l [= <-]. }
  apply carefully_bind. eapply carefully_mono; [apply (carefully_for_each
    (fun attached k' t => k' = k /\ Forall (fun v => ours v t) attached)
    (fun attached k' t => k' = k /\ Forall (fun v => ours v t) attached) _ attachOne t0); [|by split]|].
  - intros v attached k' t _ [-> Hat]. unfold attachOne. destruct attached as [|a0 l0].
    + do 2 care_step. destruct r as [v' [e|]]; [by care_step|].
      destruct (_ && _) eqn:Hset; [apply carefully_die; unfold mount_crash; tauto|].
      care_step. split; [done|]. constructor; [|constructor]. right. exists v. split; [set_solver|].
      apply andb_false_iff in Hset as [H|H]; zify_bools; auto.
    + care_step. by rewrite app_nil_r.
  - intros [l|l] k' t [-> H]; care_step; (split; [done|]); intros l' [= <-]; by rewrite app_nil_r.
Qed.

(** Whatever happens, at most one volume counts as mounted, and it is in its
    place. *)
Definition mounted_ok (k : VolumeMountController unit) (t : VT) : Prop :=
  vc_mounted k = ∅ \/ exists id v, vc_mounted k = {[id := v]} /\ vol_ProviderID v = id /\ in_place v t.

Lemma mounted_ok_grows k t t' : t ⊆ t' -> mounted_ok k t -> mounted_ok k t'.
Proof. intros Ht [H|(id & v & H1 & H2 & H3)]; [by left|right]. exists id, v. eauto using in_place_grows. Qed.

Lemma pathFor_nonempty p : pathFor p <> "".
Proof. unfold pathFor. by destruct Containerized. Qed.

Lemma in_place_mountpoint v t : in_place v t -> vol_Mountpoint v <> "".
Proof. intros [[_ ?]|(v0 & device & target & _ & _ & -> & _)]; [done|apply pathFor_nonempty]. Qed.

Lemma mountOne_spec fuel v t0 k :
  ours v t0 -> mounted_ok k t0 ->
  carefully t0 (mountOne fuel v) k (fun _ k' t => mounted_ok k' (t0 ++ t)).
Proof.
  intros Hv Hk. assert (forall t, mounted_ok k (t0 ++ t)) as Hk0 by (intros t; eapply mounted_ok_grows; [|exact Hk]; set_solver).
  unfold mountOne. do 2 care_step. case_bool_decide as He; simpl; [|by care_step].
  case_bool_decide; [by care_step|].
  assert (forall v' t, in_place v' t -> mounted_ok (addMounted v' k) t) as Hadd.
  { intros v' t Hm. right. exists (vol_ProviderID v'), v'. split; [|done]. simpl. by rewrite He. }
  destruct (String.eqb (vol_Mountpoint v) "") eqn:Hm; zify_bools; simpl.
  - do 4 care_step. destruct r as [d sl| |e]; simpl; [..|by care_step].
    + apply carefully_bind. eapply carefully_mono; [apply safeFormatAndMount_spec; [by repeat apply ours_app_l|done|by right]|].
      intros [e|] k' t [-> Hp]; [by care_step|]. destruct (Hp eq_refl) as (device & Hd & Hf & Hpl).
      do 5 care_step. apply Hadd. right. exists v, device, ("/mnt/disks/" +:+ vol_MountName v).
      split_and!; [by apply ours_app_l|done|done|by right|done|set_solver|]. eapply placed_grows; [|exact Hpl]. set_solver.
    + apply carefully_bind. eapply carefully_mono; [apply safeFormatAndMount_spec; [by repeat apply ours_app_l|done|by left]|].
      intros [e|] k' t [-> Hp]; [by care_step|]. destruct (Hp eq_refl) as (device & Hd & Hf & Hpl).
      do 5 care_step. apply Hadd. right. exists v, device, ("/mnt/" +:+ vol_MountName v).
      split_and!; [by apply ours_app_l|done|done|by left|done|set_solver|]. eapply placed_grows; [|exact Hpl]. set_solver.
  - do 3 care_step. apply Hadd. left. split; [by apply ours_app_l|done].
Qed.

(** The volumes that are answered: none, or one that is in its place. *)
Definition one_in_place (l : list Volume) (t : VT) : Prop := l = [] \/ exists v, l = [v] /\ in_place v t.

Lemma listMounted_spec t0 k :
  mounted_ok k t0 ->
  carefully t0 (k ← get; l ← range (vc_mounted k); mret (Ok l.*2)) k
    (fun r k' t => mounted_ok k' (t0 ++ t) /\ forall l, r = Ok l -> one_in_place l (t0 ++ t)).
Proof.
  intros Hk. care_step. care_step. intros code. split; [apply careful_after_quiet; by repeat constructor|].
  simpl. split; [eapply mounted_ok_grows; [|exact Hk]; set_solver|]. intros l [= <-].
  pose proof (shuffle_perm code (map_to_list (vc_mounted k))) as Hp.
  destruct Hk as [He|(id & v & He & _ & Hm)]; rewrite He in Hp |- *.
  - left. rewrite map_to_list_empty in Hp |- *. by apply Permutation_nil_r in Hp as ->.
  - right. exists v. rewrite map_to_list_singleton in Hp |- *. apply Permutation_singleton_r in Hp as ->.
    split; [done|]. eapply in_place_grows; [|exact Hm]. set_solver.
Qed.

Lemma mountMasterVolumes_spec fuel t0 k :
  mounted_ok k t0 ->
  carefully t0 (mountMasterVolumes fuel) k
    (fun r k' t => mounted_ok k' (t0 ++ t) /\ forall l, r = Ok l -> one_in_place l (t0 ++ t)).
Proof.
  intros Hk. assert (forall t, mounted_ok k (t0 ++ t)) as Hk0 by (intros t; eapply mounted_ok_grows; [|exact Hk]; set_solver).
  unfold mountMasterVolumes. care_step. eapply carefully_mono; [apply attachMasterVolumes_spec|].
  intros [attached|e] k' t (-> & Hl); simpl; [|by care_step].
  specialize (Hl attached eq_refl). rewrite Forall_forall in Hl. care_step.
  eapply carefully_mono; [apply (carefully_for_each (fun _ k' t' => mounted_ok k' (t0 ++ t') /\ forall v, v ∈ attached -> ours v t')
    (fun _ k' t' => mounted_ok k' (t0 ++ t')) attached _ t0)|].
  - intros v [] k1 t1 Hv [Hk1 Ho]. eapply carefully_mono; [by apply mountOne_spec; [apply ours_app_r, Ho|]|].
    intros [[]|r] k2 t2 H2; rewrite <- app_assoc in H2; [|done]. split; [done|]. intros v' Hv'. by apply ours_app_l, Ho.
  - by split.
  - intros r k1 t1 H. assert (mounted_ok k1 (t0 ++ t ++ t1)) as Hk1 by (destruct r; naive_solver).
    assert (mounted_ok k1 ((t0 ++ t) ++ t1)) as Hk2 by (by rewrite <- app_assoc).
    destruct r as [[]|[e|]].
    + eapply carefully_mono; [by apply listMounted_spec|]. intros a k2 t2 H'. cbn beta in H'. by rewrite <- !app_assoc in H'.
    + care_step. by rewrite app_nil_r.
    + eapply carefully_mono; [by apply listMounted_spec|]. intros a k2 t2 H'. cbn beta in H'. by rewrite <- !app_assoc in H'.
Qed.

Lemma WaitForVolumes_spec rounds fuel t0 k :
  mounted_ok k t0 ->
  carefully t0 (WaitForVolumes rounds fuel) k
    (fun l k' t => mounted_ok k' (t0 ++ t) /\ exists v, l = [v] /\ in_place v (t0 ++ t)).
Proof.
  unfold WaitForVolumes. revert t0 k. induction rounds as [|rounds IH]; intros t0 k Hk; simpl.
  { apply carefully_die. unfold mount_crash. auto. }
  assert (forall t r k', mounted_ok k' (t0 ++ t) ->
    carefully (t0 ++ t) (hcall (HSleep r) ≫= fun _ => mret None) k' (fun (a : option (list Volume)) k2 t2 =>
      a = None /\ mounted_ok k2 (t0 ++ t ++ t2))) as Hsleep.
  { intros t d k' Hk'. do 3 care_step. split; [done|]. eapply mounted_ok_grows; [|exact Hk']. set_solver. }
  care_step. eapply (carefully_mono _ _ _ (fun r k' t => match r with
      | Some l => mounted_ok k' (t0 ++ t) /\ exists v, l = [v] /\ in_place v (t0 ++ t)
      | None => mounted_ok k' (t0 ++ t) end)).
  { care_step. eapply carefully_mono; [by apply mountMasterVolumes_spec|].
    intros [[|v l]|e] k' t [Hk' Hl].
    - eapply carefully_mono; [by apply Hsleep|]. by intros r k2 t2 [-> ?].
    - care_step. rewrite app_nil_r. split; [done|]. by destruct (Hl _ eq_refl).
    - eapply carefully_mono; [by apply Hsleep|]. by intros r k2 t2 [-> ?]. }
  intros [l|] k' t H; [care_step; by rewrite app_nil_r|].
  eapply carefully_mono; [by apply IH|]. intros l k2 t2 H'. cbn beta in H'. by rewrite <- !app_assoc in H'.
Qed.


Lemma wpm_PathFor {C S} p (k : S) Q Cr :
  Q (pathFor p) k [] -> (forall c, Cr c []) -> wpm (PathFor p : HM C S string) k Q Cr.
Proof.
  intros HQ HC. unfold PathFor. destruct (String.get 0 p); [|wpm_step; apply HC].
  destruct (HasPrefix p "/"); wpm_step; [done|apply HC].
Qed.

Definition device_found (x : exchange (HostSig ⊕ ProvSig)) : option string :=
  match x with
  | existT e r =>
      match e return @res (HostSig ⊕ ProvSig) e -> option string with
      | inl (HGetDeviceNameFromMount _) => fun r => match r with Ok d => Some d | Err _ => None end
      | _ => fun _ => None
      end r
  end.

(** The names of devices are found without mounting. *)
Definition naming (x : exchange (HostSig ⊕ ProvSig)) : Prop :=
  match asked x with inl (HEvalSymlinks _) | inl (HAbs _) => True | _ => False end.

Lemma emits_PathFor p : emits naming (PathFor p : VM _).
Proof. unfold PathFor. emits_solve. Qed.

Lemma emits_isSameDevice dev1 dev2 : emits naming (isSameDevice dev1 dev2 : VM _).
Proof.
  unfold isSameDevice, namesFor, hcall.
  repeat first [apply emits_PathFor | emits_step]; done.
Qed.

Lemma mountInContainer_other device mountpoint fstype (k : VolumeMountController unit) :
  wpm (mountInContainer (C := ProvSig) device mountpoint fstype) k
    (fun r _ t => forall other,
       hx (HGetDeviceNameFromMount (pathFor mountpoint)) (Ok other) ∈ t -> other <> "" ->
       r = None /\ forall source target fs e, hx (HMount source target fs) e ∉ t)
    (fun _ _ => True).
Proof.
  unfold mountInContainer. wpm_step. apply wpm_PathFor; [|done]. wpm_step. apply wpm_PathFor; [|done].
  wpm_step. unfold hcall at 1. wpm_step. destruct r as [d|e]; cbn beta iota.
  2: { wpm_step. intros other Hin Hne. exfalso. cbn in Hin.
       apply list_elem_of_singleton in Hin. by apply (f_equal device_found) in Hin. }
  destruct (String.eqb d "") eqn:Hd; zify_bools; cbn [negb].
  - wpm_step. unfold hcall. wpm_step. wpm_step. intros other Hin Hne. subst d. exfalso. cbn in Hin.
    repeat (apply elem_of_cons in Hin as [Hin|Hin]; [apply (f_equal device_found) in Hin; simpl in Hin; congruence|]).
    by apply elem_of_nil in Hin.
  - wpm_step. eapply wpm_mono; [apply (wpm_conj _ _ _ _ _ _ (isSameDevice_true [] k device d) (emits_isSameDevice device d k))| |done].
    intros b k' t [[_ [-> ->]] Ht]. wpm_step. intros other _ _. split; [done|].
    intros source target fs e Hin. cbn in Hin. rewrite app_nil_r in Hin.
    apply elem_of_cons in Hin as [Hin|Hin]; [by apply (f_equal device_found) in Hin|].
    rewrite Forall_forall in Ht. by apply Ht in Hin.
Qed.

(** The check that a device mounted inside the container is the wanted one
    cannot fail: it compares the positions in the two lists of names, and not the
    names.  If anything is mounted at the target, whatever it is, the mounting is
    reported as done, and the wanted device is not mounted. *)
Theorem other_device_accepted device mountpoint fstype (k : VolumeMountController unit) t r k' other
  (Hrun : runs (mountInContainer (C := ProvSig) device mountpoint fstype k) t (Done (r, k')))
  (Hother : hx (HGetDeviceNameFromMount (pathFor mountpoint)) (Ok other) ∈ t) (Hne : other <> "") :
  r = None /\ forall source target fs e, hx (HMount source target fs) e ∉ t.
Proof.
  exact (wp_runs _ _ _ _ Hrun (mountInContainer_other device mountpoint fstype k) other Hother Hne).
Qed.
End Machine.

Arguments mkController {_} _ _. Arguments vc_mounted {_} _. Arguments vc_provider {_} _.

(** ** What a provider promises *)

(** [attach_sets]: a volume that was attached says where it is (the mounter relies
    on it); the other methods do not end the process in its place. *)
Definition attach_fatal : crash := Fatal "AttachVolume did not set LocalDevice or Mountpoint".

Class AttachContract (C : sig) (P : Type) `{!Volumes C P} : Prop := {
  attach_sets : forall v s,
    wpm (AttachVolume v) s
      (fun r _ _ => snd r = None -> vol_LocalDevice (fst r) <> "" \/ vol_Mountpoint (fst r) <> "")
      (fun c _ => c <> attach_fatal);
  find_no_fatal : forall s, wpm FindVolumes s (fun _ _ _ => True) (fun c _ => c <> attach_fatal);
  mounted_no_fatal : forall v s, wpm (FindMountedVolume v) s (fun _ _ _ => True) (fun c _ => c <> attach_fatal);
}.

Section Client.
Context (Containerized : bool) {C : sig} {P : Type} `{!Volumes C P, !AttachContract C P}.

Abbreviation safe R m := (hoare (fun _ => True) (fun _ => True) (fun c => c <> attach_fatal) R m).

Lemma Forall_any {A} (l : list A) : Forall (fun _ => True) l.
Proof. by apply Forall_true. Qed.

Lemma safe_wpm {S A} (R : A -> Prop) (m : HM C S A) :
  (forall s, wpm m s (fun a _ _ => R a) (fun c _ => c <> attach_fatal)) -> safe R m.
Proof.
  intros H s _. eapply wpm_mono; [apply H| |]; simpl; intros; split_and?; auto using Forall_any.
Qed.

Lemma safe_zoom {A} (R : A -> Prop) (m : HM C P A) :
  (forall s, wpm m s (fun a _ _ => R a) (fun c _ => c <> attach_fatal)) -> safe R (provider m).
Proof.
  intros H k _. unfold wpm, provider, zoom. apply wp_bind. eapply wp_mono; [apply (H (vc_provider k))|].
  intros t [[a p]|c] Ht; simpl; split_and?; auto using Forall_any.
Qed.

Lemma safe_PathFor {S} c p : safe (fun _ => True) (PathFor c p : HM C S string).
Proof. unfold PathFor. hoare_solve; discriminate. Qed.

Lemma safe_hcall {S} e : safe (fun _ => True) (hcall e : HM C S _).
Proof. by apply safe_wpm. Qed.

Lemma safe_isSameDevice {S} c d1 d2 : safe (fun _ => True) (isSameDevice c d1 d2 : HM C S bool).
Proof.
  unfold isSameDevice, namesFor.
  repeat first [apply safe_PathFor | apply safe_hcall | progress hoare_step]; done.
Qed.

Ltac safe_step :=
  first [ apply safe_PathFor | apply safe_hcall | apply safe_isSameDevice
        | progress hoare_step | progress intros | done | discriminate ].

Lemma safe_attach : safe (fun _ => True) (attachMasterVolumes : HM C (VolumeMountController P) _).
Proof.
  unfold attachMasterVolumes. apply (hoare_bind _ _ _ (fun _ => True)).
  { apply safe_zoom, find_no_fatal. }
  intros [vs|e] _; [|by apply hoare_ret]. destruct (filter (fun v => vol_AttachedTo v = "") vs) as [|v0 vs0]; [by apply hoare_ret|].
  apply (hoare_bind _ _ _ (fun _ => True)); [|intros; by apply hoare_ret].
  apply hoare_for_each_any. intros v attached _. unfold attachOne. destruct attached; [|by apply hoare_ret].
  eapply hoare_bind; [apply safe_zoom, attach_sets|]. intros [v' [e|]] Hset; [by apply hoare_ret|].
  destruct (_ && _) eqn:E; [|by apply hoare_ret]. zify_bools. by destruct (Hset eq_refl).
Qed.

Lemma safe_format fuel v target fstype :
  safe (fun _ => True) (safeFormatAndMount Containerized fuel v target fstype : HM C (VolumeMountController P) _).
Proof.
  unfold safeFormatAndMount. apply (hoare_bind _ _ _ (fun _ => True)).
  { unfold awaitDevice. apply hoare_repeat_until; [discriminate|]. apply (hoare_bind _ _ _ (fun _ => True)).
    { apply safe_zoom. intros s. eapply wpm_mono; [apply mounted_no_fatal|done|done]. }
    repeat safe_step. }
  unfold mountDevice, mountInContainer. repeat safe_step.
Qed.

(** With a provider that keeps its promise the mounter never gives up on an
    attached volume. *)
Lemma mountMasterVolumes_no_fatal fuel :
  safe (fun _ => True) (mountMasterVolumes Containerized fuel : HM C (VolumeMountController P) _).
Proof.
  unfold mountMasterVolumes. apply (hoare_bind _ _ _ (fun _ => True)); [apply safe_attach|].
  intros [attached|e] _; [|by apply hoare_ret]. apply (hoare_bind _ _ _ (fun _ => True)).
  { apply hoare_for_each_any. intros v [] _. unfold mountOne.
    eapply hoare_bind; [apply hoare_get|]. intros k _.
    repeat first [apply safe_format | safe_step]. }
  intros [[]|[e|]] _; repeat safe_step.
Qed.

Lemma WaitForVolumes_no_fatal rounds fuel :
  safe (fun _ => True) (WaitForVolumes Containerized rounds fuel : HM C (VolumeMountController P) _).
Proof.
  unfold WaitForVolumes. apply hoare_repeat_until; [discriminate|].
  apply (hoare_bind _ _ _ (fun _ => True)); [apply mountMasterVolumes_no_fatal|]. repeat safe_step.
Qed.
End Client.

(** ** An example *)

Module MountDemo.
Definition vol1 : Volume := mkVolume "master-vol1" "vol1" "a" "" "" "" "available" "vol1".
(** A machine with nothing mounted, and a provider with one free volume. *)
Definition machine : handler (HostSig ⊕ ProvSig) unit := fun e w =>
  (match e return @res (HostSig ⊕ ProvSig) e with
   | inl (HStat _) => StatNotExist
   | inl (HLstat _) => StatNotExist
   | inl (HEvalSymlinks p) => Ok p
   | inl (HAbs p) => Ok p
   | inl (HReadDir _) => Ok []
   | inl (HReadFile _) => Err "no such file"
   | inl (HWriteFile _ _) => None
   | inl (HMkdirAll _) => None
   | inl (HExec _) => Ok ""
   | inl (HNsenter _) => None
   | inl (HListMounts _) => Ok []
   | inl (HFormatAndMount _ _ _ _) => None
   | inl (HResize _ _ _) => None
   | inl (HGetDeviceNameFromMount _) => Ok "/dev/sdz"
   | inl (HMount _ _ _) => None
   | inl (HSleep _) => tt
   | inl HRange => []
   | inr (PAttachVolume v) => (set_LocalDevice "/dev/xvdu" v, None)
   | inr PFindVolumes => Ok [vol1]
   | inr (PFindMountedVolume v) => Ok (vol_LocalDevice v)
   | inr PMyIP => Ok "10.0.0.1"
   end, w).
Definition wait : prog (HostSig ⊕ ProvSig) _ :=
  WaitForVolumes (C := ProvSig) false 1 1 (newVolumeMountController tt).
Definition inContainer : prog (HostSig ⊕ ProvSig) _ :=
  mountInContainer (C := ProvSig) true "/dev/xvdu" "/mnt/master-vol1" "" (newVolumeMountController tt).
End MountDemo.


Lemma other_device_accepted_witness :
  outcome_of MountDemo.machine MountDemo.inContainer tt = Done (None, newVolumeMountController tt) /\
  forall source target fs e,
    @existT (op (HostSig ⊕ ProvSig)) (@res (HostSig ⊕ ProvSig)) (inl (HMount source target fs)) e
      ∉ trace_of MountDemo.machine MountDemo.inContainer tt.
Proof.
  split; [vm_compute; reflexivity|].
  assert (outcome_of MountDemo.machine MountDemo.inContainer tt = Done (None, newVolumeMountController tt)) as Ho
    by (vm_compute; reflexivity).
  refine (proj2 (other_device_accepted true "/dev/xvdu" "/mnt/master-vol1" "" (newVolumeMountController tt) _ None
    (newVolumeMountController tt) "/dev/sdz" (exec_runs_eq MountDemo.machine MountDemo.inContainer tt _ Ho) _ _)).
  - vm_compute. left.
  - discriminate.
Defined.
