(* ===== verification/VolumesAws.v ===== *)
(** * Volumes on AWS: pkg/volumes/aws

    The provider for EBS volumes, and the discovery of peers by the instances that
    volumes are attached to.  A device name is reserved in [aws_deviceMap] before
    EC2 is asked to attach a volume under it.

    The API of EC2 and of the instance metadata is the environment ([AwsSig]). *)

From Stdlib Require Import Ascii.
From stdpp Require Import base gmap sets list strings.
From S2P Require Import Prelude Effects EffectsSum GoLib PrivateApi Volumes.

Local Open Scope Z_scope.

(** ** The API *)

Record ec2Volume := mkEc2Volume {
  ev_VolumeId : string;
  ev_State : string;
  ev_Tags : list (string * string);
  ev_Attachments : list (string * string);        (* instance, device *)
}.
Record describeVolumesInput := mkDescribeVolumes {
  dv_Filters : list (string * string);
  dv_VolumeIds : list string;
}.
Record ec2Instance := mkEc2Instance {
  ei_InstanceId : string;
  ei_Ipv6Address : option string;
  ei_PrivateIpAddress : string;
  ei_NetworkInterfaces : list string;              (* their private addresses *)
}.

(** The answer to AttachVolume; [Refused] is an [awserr.Error] with its code. *)
Inductive attach_answer := Attached | Refused (code : string) | AttachFailed.
(** The answers of the metadata service. *)
Inductive meta_answer := MetaOk (s : string) | Meta404 | MetaErr.

Inductive aws_op : Type :=
| DescribeVolumesPages (r : describeVolumesInput)
| Ec2AttachVolume (device instance volume : string)
| DescribeInstances (ids : list string)
| NewSession
| MetadataRegion
| GetMetadata (path : string).
Definition aws_res (e : aws_op) : Type :=
  match e with
  | DescribeVolumesPages _ => result (list ec2Volume)
  | Ec2AttachVolume _ _ _ => attach_answer
  | DescribeInstances _ => result (list ec2Instance)
  | NewSession => option error
  | MetadataRegion | GetMetadata _ => meta_answer
  end.
Definition AwsSig : sig := Sig aws_op aws_res.
Abbreviation acall e := (@call (HostSig ⊕ AwsSig) _ (inr e)).

(** ** volumes.go *)

Definition devices : list string :=
  ["/dev/xvdu"; "/dev/xvdv"; "/dev/xvdx"; "/dev/xvdx"; "/dev/xvdy"; "/dev/xvdz"].

Record AWSVolumes := mkAWSVolumes {
  aws_matchTagKeys : list string;
  aws_matchTags : gmap string string;
  aws_nameTag : string;
  aws_clusterName : string;
  aws_deviceMap : gmap string string;
  aws_instanceID : string;
  aws_localIP : string;
  aws_zone : string;
}.
Definition set_deviceMap (m : gmap string string) (a : AWSVolumes) : AWSVolumes :=
  mkAWSVolumes (aws_matchTagKeys a) (aws_matchTags a) (aws_nameTag a) (aws_clusterName a) m
    (aws_instanceID a) (aws_localIP a) (aws_zone a).

Abbreviation AM := (HM AwsSig AWSVolumes).

(** "key" or "key=value", as for most providers. *)
Fixpoint splitTags (volumeTags : list string) (keys : list string) (tags : gmap string string)
    : list string * gmap string string :=
  match volumeTags with
  | [] => (keys, tags)
  | volumeTag :: rest =>
      match SplitN volumeTag "=" 2 with
      | [k] => splitTags rest (keys ++ [k]) tags
      | k :: v :: _ => splitTags rest keys (<[k := v]> tags)
      | [] => splitTags rest keys tags
      end
  end.

Definition NewAWSVolumes (clusterName : string) (volumeTags : list string) (nameTag : string)
    : HM AwsSig unit (result AWSVolumes) :=
  let '(keys, tags) := splitTags volumeTags [] ∅ in
  let make instanceID localIP zone := mkAWSVolumes keys tags nameTag clusterName ∅ instanceID localIP zone in
  s ← acall NewSession;
  match s with
  | Some _ => mret (Err "error starting new AWS session")
  | None =>
      region ← acall MetadataRegion;
      match region with
      | MetaOk _ =>
          zone ← acall (GetMetadata "placement/availability-zone");
          match zone with
          | MetaOk zone =>
              id ← acall (GetMetadata "instance-id");
              match id with
              | MetaOk instanceID =>
                  ip ← acall (GetMetadata "ipv6");
                  match ip with
                  | MetaOk ip => mret (Ok (make instanceID ip zone))
                  | MetaErr => mret (Err "error querying ec2 metadata service (ipv6)")
                  | Meta404 =>
                      ip ← acall (GetMetadata "local-ipv4");
                      match ip with
                      | MetaOk ip => mret (Ok (make instanceID ip zone))
                      | _ => mret (Err "error querying ec2 metadata service (for local-ipv4)")
                      end
                  end
              | _ => mret (Err "error querying ec2 metadata service (for instance-id)")
              end
          | _ => mret (Err "error querying ec2 metadata service (for az)")
          end
      | _ => mret (Err "error querying ec2 metadata service (for az/region)")
      end
  end.

(** The name of a volume: that of its last name tag with a value. *)
Definition etcdNameOf (a : AWSVolumes) (v : ec2Volume) : string :=
  if String.eqb (aws_nameTag a) "" then ev_VolumeId v
  else foldl (fun etcdName '(k, v) =>
         if String.eqb (aws_nameTag a) k && negb (String.eqb v "")
         then aws_clusterName a +:+ "-" +:+ default "" (SplitN v "/" 2 !! 0%nat) else etcdName)
       (ev_VolumeId v) (ev_Tags v).

Definition buildVolume (a : AWSVolumes) (v : ec2Volume) : Volume :=
  foldl (fun vol '(instance, device) =>
      let vol := set_AttachedTo instance vol in
      if String.eqb instance (aws_instanceID a) then set_LocalDevice device vol else vol)
    (mkVolume ("master-" +:+ ev_VolumeId v) (ev_VolumeId v) (etcdNameOf a v) "" "" "" (ev_State v) (ev_VolumeId v))
    (ev_Attachments v).

Definition isRootVolume (vol : Volume) : bool :=
  String.eqb (vol_LocalDevice vol) "/dev/sda1" || String.eqb (vol_LocalDevice vol) "/dev/xvda".

Definition describeVolumes (request : describeVolumesInput) : AM (result (list Volume)) :=
  a ← get;
  r ← acall (DescribeVolumesPages request);
  match r with
  | Err _ => mret (Err "error querying for EC2 volumes")
  | Ok vs => mret (Ok (filter (fun vol => isRootVolume vol = false) (buildVolume a <$> vs)))
  end.

Definition findVolumes (filterByAZ : bool) : AM (result (list Volume)) :=
  a ← get;
  tags ← range (aws_matchTags a);
  describeVolumes (mkDescribeVolumes
    ((if filterByAZ then [("availability-zone", aws_zone a)] else []) ++
     ((fun '(k, v) => ("tag:" +:+ k, v)) <$> tags) ++
     ((fun k => ("tag-key", k)) <$> aws_matchTagKeys a)) []).

Section Machine.
Context (Containerized : bool).

Definition findNvmeVolume (findName : string) : AM (result string) :=
  p ← PathFor Containerized (PathJoin ["/dev/disk/by-id"; findName]);
  s ← hcall (HLstat p);
  match s with
  | StatNotExist => mret (Ok "")
  | StatErr _ => mret (Err "error getting stat")
  | StatOk _ false => mret (Ok "")
  | StatOk _ true =>
      r ← hcall (HEvalSymlinks p);
      match r with
      | Err _ => mret (Err "error reading target of symlink")
      | Ok resolved =>
          devPath ← PathFor Containerized "/dev";
          let resolved := if HasPrefix resolved devPath then "/dev" +:+ TrimPrefix resolved devPath
                          else resolved in
          mret (if HasPrefix resolved "/dev" then Ok resolved else Err "resolved symlink was unexpected")
      end
  end.

Definition FindMountedVolume_aws (volume : Volume) : AM (result string) :=
  let device := vol_LocalDevice volume in
  p ← PathFor Containerized device;
  s ← hcall (HStat p);
  match s with
  | StatOk _ _ => mret (Ok device)
  | StatErr _ => mret (Err "error checking for device")
  | StatNotExist =>
      if String.eqb (vol_ProviderID volume) "" then mret (Ok "")
      else
        r ← findNvmeVolume ("nvme-Amazon_Elastic_Block_Store_" +:+ ReplaceByte "-" "" (vol_ProviderID volume));
        match r with
        | Err _ => mret (Err "error checking for nvme volume")
        | Ok device => mret (Ok device)
        end
  end.
End Machine.

(** A device name that is not reserved, in the order of [devices]. *)
Definition reserved (m : gmap string string) (d : string) : bool :=
  negb (String.eqb (default "" (m !! d)) "").
Definition assignDevice (volumeID : string) : AM (result string) :=
  a ← get;
  match List.find (fun d => negb (reserved (aws_deviceMap a) d)) devices with
  | Some d => modify (set_deviceMap (<[d := volumeID]> (aws_deviceMap a))) ≫= fun _ => mret (Ok d)
  | None => mret (Err "all devices in use")
  end.

Definition releaseDevice (d volumeID : string) : AM unit :=
  a ← get;
  if negb (String.eqb (default "" (aws_deviceMap a !! d)) volumeID) then die (Fatal "deviceMap logic error")
  else modify (set_deviceMap (<[d := ""]> (aws_deviceMap a))).

(** The loop that finds a device under which EC2 attaches the volume: at most
    [fuel] requests. *)
Definition attachAtDevice (fuel : nat) (volumeID : string) : AM (result string) :=
  repeat_until fuel (
    d ← assignDevice volumeID;
    match d with
    | Err e => mret (Some (Err e))
    | Ok device =>
        a ← get;
        r ← acall (Ec2AttachVolume device (aws_instanceID a) volumeID);
        match r with
        | Attached => mret (Some (Ok device))
        | Refused code =>
            if String.eqb code "InvalidParameterValue" then mret None
            else mret (Some (Err "error attaching EBS volume"))
        | AttachFailed => mret (Some (Err "error attaching EBS volume"))
        end
    end).

(** One look at the volume, after it was asked for. *)
Definition checkAttached (volumeID device : string) : AM (option (option error)) :=
  r ← describeVolumes (mkDescribeVolumes [] [volumeID]);
  match r with
  | Err _ => mret (Some (Some "error describing EBS volume"))
  | Ok [] => mret (Some (Some "EBS volume disappeared during attach"))
  | Ok [v] =>
      a ← get;
      if negb (String.eqb (vol_AttachedTo v) "") then
        if String.eqb (vol_AttachedTo v) (aws_instanceID a) then mret (Some None)
        else releaseDevice device volumeID ≫= fun _ => mret (Some (Some "unable to attach volume"))
      else if String.eqb (vol_Status v) "attaching" then
        hcall (HSleep (10 * Second)) ≫= fun _ => mret None
      else mret (Some (Some "observed unexpected volume state"))
  | Ok _ => mret (Some (Some "multiple volumes found"))
  end.

(** The wait is bounded by [fuel]; for the requests [length devices] is enough. *)
Definition AttachVolume_aws (fuel : nat) (volume : Volume) : AM (Volume * option error) :=
  let volumeID := vol_ProviderID volume in
  d ← (if String.eqb (vol_LocalDevice volume) "" then attachAtDevice (S (length devices)) volumeID
       else mret (Ok (vol_LocalDevice volume)));
  match d with
  | Err e => mret (volume, Some e)
  | Ok device =>
      r ← repeat_until fuel (checkAttached volumeID device);
      match r with
      | Some e => mret (volume, Some e)
      | None => mret (set_LocalDevice device volume, None)
      end
  end.

Definition MyIP_aws : AM (result string) := a ← get; mret (Ok (aws_localIP a)).

#[export] Instance aws_volumes (Containerized : bool) (fuel : nat) : Volumes AwsSig AWSVolumes := {|
  AttachVolume := AttachVolume_aws fuel;
  FindVolumes := findVolumes true;
  FindMountedVolume := FindMountedVolume_aws Containerized;
  MyIP := MyIP_aws;
|}.

(** ** discovery.go *)

Definition instanceEndpoints (i : ec2Instance) : list string :=
  match ei_Ipv6Address i with
  | Some ip => [ip]
  | None => filter (fun ip => ip <> "") (ei_PrivateIpAddress i :: ei_NetworkInterfaces i)
  end.

Definition Poll_aws : AM (result (gmap string DiscoveryNode)) :=
  r ← findVolumes false;
  match r with
  | Err e => mret (Err e)
  | Ok allVolumes =>
      let m := instanceToVolumeMap allVolumes in
      if bool_decide (m = ∅) then mret (Ok ∅)
      else
        ids ← range m;
        r ← acall (DescribeInstances ids.*1);
        match r with
        | Err _ => mret (Err "error from AWS DescribeInstances")
        | Ok instances =>
            mret (Ok (foldl (fun nodes i =>
              match m !! ei_InstanceId i with
              | None => nodes
              | Some volume =>
                  <[vol_EtcdName volume := discoveryNode (vol_EtcdName volume) (instanceEndpoints i)]> nodes
              end) ∅ instances))
        end
  end.

(** ** Attaching *)

Abbreviation AT := (trace (HostSig ⊕ AwsSig)).
Abbreviation ax e r := (@existT (op (HostSig ⊕ AwsSig)) (@res (HostSig ⊕ AwsSig)) (inr e) r).

(** The names in [devices], without the one that is listed twice. *)
Definition distinct : list string := ["/dev/xvdu"; "/dev/xvdv"; "/dev/xvdx"; "/dev/xvdy"; "/dev/xvdz"].

Lemma elem_of_devices d : d ∈ devices <-> d ∈ distinct.
Proof. unfold devices, distinct. set_solver. Qed.

Lemma distinct_NoDup : NoDup distinct.
Proof. apply (bool_decide_unpack _). vm_compute. exact I. Qed.

Definition free (m : gmap string string) : list string := filter (fun d => reserved m d = false) distinct.

Lemma reserved_insert m d x d' :
  x <> "" -> reserved (<[d := x]> m) d' = bool_decide (d' = d) || reserved m d'.
Proof.
  intros Hx. unfold reserved. destruct (decide (d' = d)) as [->|Hne].
  - rewrite lookup_insert_eq, bool_decide_true by done. simpl. by apply negb_true_iff, String.eqb_neq.
  - rewrite lookup_insert_ne by done. by rewrite bool_decide_false.
Qed.

Lemma free_reserve m d x :
  x <> "" -> d ∈ free m -> S (length (free (<[d := x]> m))) = length (free m).
Proof.
  intros Hx Hd. unfold free in *.
  assert (forall l : list string, NoDup l -> d ∈ filter (fun d => reserved m d = false) l ->
    S (length (filter (fun d' => reserved (<[d := x]> m) d' = false) l)) =
    length (filter (fun d => reserved m d = false) l)) as H; [|apply H; [apply distinct_NoDup|done]].
  clear Hd. induction l as [|y l IH]; intros Hnd Hin; [by apply elem_of_nil in Hin|].
  apply NoDup_cons in Hnd as [Hy Hnd].
  assert (forall l : list string, d ∉ l -> filter (fun d' => reserved (<[d := x]> m) d' = false) l =
    filter (fun d => reserved m d = false) l) as Hsame.
  { clear -Hx. induction l as [|z l IH]; intros Hz; [done|].
    rewrite !filter_cons, (reserved_insert m d x z Hx), bool_decide_false by set_solver. simpl.
    rewrite IH by set_solver. done. }
  rewrite !filter_cons, (reserved_insert m d x y Hx). rewrite filter_cons in Hin.
  destruct (decide (y = d)) as [->|Hne].
  - rewrite (bool_decide_true (d = d)) by done. simpl. destruct (reserved m d) eqn:Hr; simpl in *.
    + exfalso. apply list_elem_of_filter in Hin as [? _]. congruence.
    + by rewrite Hsame.
  - rewrite (bool_decide_false (y = d)) by done. simpl. destruct (reserved m y); simpl in *.
    + by apply IH.
    + f_equal. apply IH; [done|]. set_solver.
Qed.

(** What [assignDevice] does to the map. *)
Lemma assignDevice_spec volumeID a :
  wpm (assignDevice volumeID) a
    (fun r a' t => t = [] /\
       match r with
       | Ok d => d ∈ free (aws_deviceMap a) /\ a' = set_deviceMap (<[d := volumeID]> (aws_deviceMap a)) a
       | Err e => free (aws_deviceMap a) = [] /\ a' = a /\ e = "all devices in use"
       end) (fun _ _ => False).
Proof.
  unfold assignDevice. wpm_step. wpm_step.
  destruct (List.find _ devices) as [d|] eqn:Hf; wpm_steps; (split; [done|]).
  - apply List.find_some in Hf as [Hin Hr]. zify_bools. split; [|done]. unfold free.
    apply list_elem_of_filter. rewrite <- elem_of_devices. split; [done|by apply list_elem_of_In].
  - split; [|done]. unfold free. destruct (filter _ distinct) as [|d l] eqn:E; [done|].
    assert (d ∈ filter (fun d => reserved (aws_deviceMap a) d = false) distinct) as Hd by (rewrite E; left).
    apply list_elem_of_filter in Hd as [Hr Hd]. rewrite <- elem_of_devices in Hd.
    apply list_elem_of_In in Hd. apply (List.find_none _ _ Hf) in Hd. by rewrite Hr in Hd.
Qed.

(** The requests to attach, by their devices. *)
Definition attach_request (x : exchange (HostSig ⊕ AwsSig)) : option (string * string * string) :=
  match asked x with inr (Ec2AttachVolume d i v) => Some (d, i, v) | _ => None end.
Definition asked_devices (t : AT) : list string := (fun r => fst (fst r)) <$> omap attach_request t.

(** The answer to a request to attach. *)
Definition attach_answered (x : exchange (HostSig ⊕ AwsSig)) : option attach_answer :=
  match x with
  | existT e r =>
      match e return @res (HostSig ⊕ AwsSig) e -> option attach_answer with
      | inr (Ec2AttachVolume _ _ _) => fun r => Some r
      | _ => fun _ => None
      end r
  end.

Lemma free_insert m d x d' : x <> "" -> d' ∈ free (<[d := x]> m) <-> d' <> d /\ d' ∈ free m.
Proof.
  intros Hx. unfold free. rewrite !list_elem_of_filter, (reserved_insert m d x d' Hx).
  destruct (decide (d' = d)) as [->|Hne]; [rewrite bool_decide_true by done|rewrite bool_decide_false by done];
    simpl; naive_solver.
Qed.

(** What the loop over the devices has done: every request was for a device that
    was free, no device twice, and all of them are reserved now. *)
Definition requested (volumeID : string) (a a' : AWSVolumes) (t : AT) : Prop :=
  (exists m, a' = set_deviceMap m a) /\
  Forall (fun x => exists d, d ∈ free (aws_deviceMap a) /\
            attach_request x = Some (d, aws_instanceID a, volumeID)) t /\
  NoDup (asked_devices t) /\
  (forall d, reserved (aws_deviceMap a') d = true <-> reserved (aws_deviceMap a) d = true \/ d ∈ asked_devices t).

Lemma requested_nil volumeID a : requested volumeID a a [].
Proof.
  split_and!; [by exists (aws_deviceMap a); destruct a|constructor..|]. intros d. unfold asked_devices. set_solver.
Qed.

Lemma requested_cons volumeID a a' d r t :
  volumeID <> "" -> d ∈ free (aws_deviceMap a) ->
  requested volumeID (set_deviceMap (<[d := volumeID]> (aws_deviceMap a)) a) a' t ->
  requested volumeID a a' (ax (Ec2AttachVolume d (aws_instanceID a) volumeID) r :: t).
Proof.
  intros Hid Hd ((m & ->) & Hall & Hnd & Hres). simpl in *.
  assert (d ∉ asked_devices t) as Hnew.
  { intros Hin. unfold asked_devices in Hin. apply list_elem_of_fmap in Hin as ([[d' i] v] & -> & Hin).
    apply list_elem_of_omap in Hin as (x & Hx & Hreq). rewrite Forall_forall in Hall.
    destruct (Hall x Hx) as (d & Hfree & E). simpl in *. rewrite E in Hreq. simplify_eq.
    apply (free_insert _ _ _ _ Hid) in Hfree. naive_solver. }
  split_and!; [by exists m|constructor|by constructor|].
  - by exists d.
  - eapply Forall_impl; [exact Hall|]. intros x (d' & Hd' & E). exists d'. split; [|done].
    apply (free_insert _ _ _ _ Hid) in Hd'. tauto.
  - intros d'. rewrite Hres, (reserved_insert _ _ _ _ Hid), orb_true_iff, bool_decide_eq_true.
    unfold asked_devices. simpl. rewrite elem_of_cons. tauto.
Qed.

(** One more request than there are free devices is enough. *)
Lemma attachAtDevice_spec volumeID fuel : volumeID <> "" -> forall a,
  (length (free (aws_deviceMap a)) < fuel)%nat ->
  wpm (attachAtDevice fuel volumeID) a
    (fun r a' t => requested volumeID a a' t /\
       match r with
       | Ok d => d ∈ free (aws_deviceMap a) /\ aws_deviceMap a' !! d = Some volumeID /\
                 ax (Ec2AttachVolume d (aws_instanceID a) volumeID) Attached ∈ t
       | Err _ => free (aws_deviceMap a) = [] \/ t <> []
       end) (fun _ _ => False).
Proof.
  intros Hid. induction fuel as [|fuel IH]; intros a Hlt; [lia|]. unfold attachAtDevice. simpl.
  wpm_step. wpm_step. eapply wpm_mono; [apply assignDevice_spec| |done].
  intros [d|e] a1 t [-> H]; cbn beta iota.
  2: { destruct H as (Hf & -> & ->). wpm_steps. split; [apply requested_nil|by left]. }
  destruct H as [Hd ->]. pose proof (free_reserve _ _ _ Hid Hd) as Hlen.
  wpm_step. wpm_step. wpm_step. wpm_step.
  pose proof (requested_nil volumeID (set_deviceMap (<[d := volumeID]> (aws_deviceMap a)) a)) as Hnil.
  apply (requested_cons _ a _ _ r) in Hnil; [|done..].
  destruct r as [|code|]; cbn beta iota; [|destruct (String.eqb code _)|].
  - wpm_step. wpm_step. split; [exact Hnil|]. split; [done|]. split; [apply lookup_insert_eq|left].
  - wpm_step. eapply wpm_mono; [apply IH; simpl; lia| |done].
    intros r' a' t' [Hreq Hr]. split; [by apply (requested_cons _ a)|]. destruct r' as [d'|e]; [|by right].
    destruct Hr as (Hf & Hm & Hin). apply (free_insert _ _ _ _ Hid) in Hf.
    split; [tauto|]. split; [done|]. by right.
  - wpm_step. wpm_step. split; [exact Hnil|by right].
  - wpm_step. wpm_step. split; [exact Hnil|by right].
Qed.

(** EC2 said that the volume is attached to the instance [i]. *)
Definition seen_at (a : AWSVolumes) (volumeID i : string) (t : AT) : Prop :=
  exists vs v, ax (DescribeVolumesPages (mkDescribeVolumes [] [volumeID])) (Ok vs) ∈ t /\
    v ∈ vs /\ vol_AttachedTo (buildVolume a v) = i /\ i <> "".

(** The last that EC2 said is that the volume is attached to another instance. *)
Definition elsewhere (a : AWSVolumes) (volumeID : string) (x : exchange (HostSig ⊕ AwsSig)) : Prop :=
  exists vs v, x = ax (DescribeVolumesPages (mkDescribeVolumes [] [volumeID])) (Ok vs) /\
    filter (fun vol => isRootVolume vol = false) (buildVolume a <$> vs) = [v] /\
    vol_AttachedTo v <> "" /\ vol_AttachedTo v <> aws_instanceID a.
Definition lost (a : AWSVolumes) (volumeID : string) (t : AT) : Prop :=
  exists x, last t = Some x /\ elsewhere a volumeID x.

Lemma lost_app a volumeID t1 t2 : t2 <> [] -> lost a volumeID (t1 ++ t2) <-> lost a volumeID t2.
Proof. intros H. unfold lost. rewrite last_app. by destruct (last t2) eqn:E; [|apply last_None in E]. Qed.

Definition released (d : string) (a : AWSVolumes) : AWSVolumes :=
  set_deviceMap (<[d := ""]> (aws_deviceMap a)) a.

Definition no_request (x : exchange (HostSig ⊕ AwsSig)) : Prop := attach_request x = None.

(** The answer to a request to describe volumes. *)
Definition described (x : exchange (HostSig ⊕ AwsSig)) : option (result (list ec2Volume)) :=
  match x with
  | existT e r =>
      match e return @res (HostSig ⊕ AwsSig) e -> option (result (list ec2Volume)) with
      | inr (DescribeVolumesPages _) => fun r => Some r
      | _ => fun _ => None
      end r
  end.

Lemma describeVolumes_spec request a :
  wpm (describeVolumes request) a
    (fun r a' t => a' = a /\ Forall no_request t /\ exists x, t = [ax (DescribeVolumesPages request) x] /\
       match r, x with
       | Ok l, Ok vs => l = filter (fun vol => isRootVolume vol = false) (buildVolume a <$> vs) /\
           forall vol, vol ∈ l -> exists v, v ∈ vs /\ vol = buildVolume a v
       | Err _, Err _ => True
       | _, _ => False
       end) (fun _ _ => False).
Proof.
  unfold describeVolumes. wpm_step. wpm_step. wpm_step. wpm_step. destruct r as [vs|e]; cbn beta iota; wpm_step.
  - split; [done|]. split; [by repeat constructor|]. eexists; split; [done|]. simpl. split; [done|].
    intros vol [_ Hv]%list_elem_of_filter. apply list_elem_of_fmap in Hv as (v & -> & Hv). eauto.
  - split; [done|]. split; [by repeat constructor|]. by eexists.
Qed.

Lemma not_lost a volumeID x :
  (forall vs v, x = Ok vs -> filter (fun vol => isRootVolume vol = false) (buildVolume a <$> vs) = [v] ->
     vol_AttachedTo v = "" \/ vol_AttachedTo v = aws_instanceID a) ->
  ~ lost a volumeID [ax (DescribeVolumesPages (mkDescribeVolumes [] [volumeID])) x].
Proof.
  intros H (y & [= <-] & vs & v & E & Hf & H1 & H2). apply (f_equal described) in E. simpl in E. injection E as ->.
  by destruct (H vs v eq_refl Hf).
Qed.

Lemma checkAttached_spec volumeID d a :
  wpm (checkAttached volumeID d) a
    (fun r a' t => Forall no_request t /\ t <> [] /\
       match r with
       | None => a' = a
       | Some None => a' = a /\ seen_at a volumeID (aws_instanceID a) t
       | Some (Some _) => a' = a /\ ~ lost a volumeID t \/ a' = released d a /\ lost a volumeID t
       end)
    (fun c t => c = Fatal "deviceMap logic error" /\ default "" (aws_deviceMap a !! d) <> volumeID /\ Forall no_request t).
Proof.
  unfold checkAttached. wpm_step. eapply wpm_mono; [apply describeVolumes_spec| |done].
  intros r a' t (-> & Hq & x & -> & Hl).
  destruct r as [[|v [|v' l]]|e], x as [vs|e']; cbn beta iota; try done.
  - destruct Hl as [Hf _]. wpm_step. split; [done|]. split; [done|]. left. split; [done|].
    apply not_lost. intros ? ? [= <-] Hs. by rewrite Hs in Hf.
  - destruct Hl as [Hf Hv]. destruct (Hv v) as (x & Hx & Ev); [left|].
    assert (vol_AttachedTo v <> "" ->
      seen_at a volumeID (vol_AttachedTo v) [ax (DescribeVolumesPages (mkDescribeVolumes [] [volumeID])) (Ok vs)]) as Hseen.
    { intros Hne. exists vs, x. rewrite <- Ev. split; [left|]. auto. }
    wpm_step. wpm_step. destruct (String.eqb (vol_AttachedTo v) "") eqn:Hat; zify_bools; cbn [negb].
    { destruct (String.eqb (vol_Status _) "attaching"); [wpm_step; unfold hcall; wpm_step; wpm_step|wpm_step].
      - split; [by repeat constructor|done].
      - split; [done|]. split; [done|]. left. split; [done|].
        apply not_lost. intros ? ? [= <-] Hs. rewrite Hs in Hf. injection Hf as ->. by left. }
    destruct (String.eqb _ (aws_instanceID a)) eqn:Hi; zify_bools.
    { wpm_step. split; [done|]. split; [done|]. split; [done|]. rewrite <- Hi at 1. auto. }
    unfold releaseDevice. wpm_step. wpm_step. wpm_step.
    destruct (String.eqb (default "" _) volumeID) eqn:Hm; zify_bools; cbn [negb].
    + wpm_step. wpm_step. split; [done|]. split; [done|]. right. split; [done|].
      eexists. split; [done|]. exists vs, v. done.
    + wpm_step. auto.
  - destruct Hl as [Hf _]. wpm_step. split; [done|]. split; [done|]. left. split; [done|].
    apply not_lost. intros ? ? [= <-] Hs. by rewrite Hs in Hf.
  - wpm_step. split; [done|]. split; [done|]. left. split; [done|]. by apply not_lost.
Qed.

Lemma waitAttached_spec volumeID d fuel a :
  wpm (repeat_until fuel (checkAttached volumeID d)) a
    (fun r a' t => Forall no_request t /\ t <> [] /\
       match r with
       | None => a' = a /\ seen_at a volumeID (aws_instanceID a) t
       | Some _ => a' = a /\ ~ lost a volumeID t \/ a' = released d a /\ lost a volumeID t
       end)
    (fun c t => Forall no_request t /\
       (c = OutOfFuel \/ c = Fatal "deviceMap logic error" /\ default "" (aws_deviceMap a !! d) <> volumeID)).
Proof.
  induction fuel as [|fuel IH]; simpl; [apply wpm_die; auto|].
  assert (forall i t1 t2, seen_at a volumeID i t2 -> seen_at a volumeID i (t1 ++ t2)) as Happ.
  { intros i t1 t2 (vs & v & ? & ?). exists vs, v. set_solver. }
  wpm_step. eapply wpm_mono; [apply checkAttached_spec| |].
  - intros [r|] a' t (Hq & Hne & Hr).
    + wpm_step. rewrite app_nil_r. by destruct r.
    + subst a'. eapply wpm_mono; [exact IH| |]; simpl.
      * intros r a' t' (Hq' & Hne' & Hr). rewrite Forall_app. split; [done|]. split; [by destruct t|].
        destruct r; [rewrite lost_app by done|]; naive_solver.
      * intros c t' [Hq' Hc]. by rewrite Forall_app.
  - intros c t (-> & Hm & Hq). auto.
Qed.

Lemma no_request_devices t : Forall no_request t -> asked_devices t = [].
Proof.
  unfold asked_devices, no_request. induction 1 as [|x t Hx _ IH]; [done|]. simpl. rewrite Hx. apply IH.
Qed.

Lemma asked_devices_app t t' : asked_devices (t ++ t') = asked_devices t ++ asked_devices t'.
Proof. unfold asked_devices. by rewrite omap_app, fmap_app. Qed.

(** The requests of an attempt, and the device it got. *)
Definition attempt (v : Volume) (a : AWSVolumes) (t : AT) : Prop :=
  NoDup (asked_devices t) /\
  forall x d i w, x ∈ t -> attach_request x = Some (d, i, w) ->
    vol_LocalDevice v = "" /\ d ∈ free (aws_deviceMap a) /\ i = aws_instanceID a /\ w = vol_ProviderID v.

Definition attached_at (v : Volume) (a a' : AWSVolumes) (d : string) (t : AT) : Prop :=
  if decide (vol_LocalDevice v = "")
  then d ∈ free (aws_deviceMap a) /\ aws_deviceMap a' !! d = Some (vol_ProviderID v) /\
       ax (Ec2AttachVolume d (aws_instanceID a) (vol_ProviderID v)) Attached ∈ t
  else d = vol_LocalDevice v.

Lemma requested_attempt v a a' t t' :
  vol_LocalDevice v = "" -> requested (vol_ProviderID v) a a' t -> Forall no_request t' -> attempt v a (t ++ t').
Proof.
  intros Hl (_ & Hall & Hnd & _) Hq. split.
  - rewrite asked_devices_app, (no_request_devices t' Hq), app_nil_r. done.
  - intros x d i w [Hx|Hx]%elem_of_app Hr.
    + rewrite Forall_forall in Hall. destruct (Hall x Hx) as (d' & Hd & E). rewrite E in Hr. by simplify_eq.
    + rewrite Forall_forall in Hq. apply Hq in Hx. unfold no_request in Hx. congruence.
Qed.

(** The device that the attempt holds: the one the volume came with, or the one
    of the request that was accepted. *)
Definition holds (v : Volume) (a : AWSVolumes) (d : string) (t : AT) : Prop :=
  if decide (vol_LocalDevice v = "") then ax (Ec2AttachVolume d (aws_instanceID a) (vol_ProviderID v)) Attached ∈ t
  else d = vol_LocalDevice v.

(** After a failure exactly the devices of the requests are reserved in addition,
    but for the one that the attempt holds if the volume went to another instance. *)
Definition failed_with (v : Volume) (a a' : AWSVolumes) (t : AT) : Prop :=
  (exists m, a' = set_deviceMap m a) /\
  ((~ lost a (vol_ProviderID v) t /\
    forall d, reserved (aws_deviceMap a') d = true <-> reserved (aws_deviceMap a) d = true \/ d ∈ asked_devices t) \/
   (lost a (vol_ProviderID v) t /\ exists d, holds v a d t /\
    forall d', reserved (aws_deviceMap a') d' = true <->
      (reserved (aws_deviceMap a) d' = true \/ d' ∈ asked_devices t) /\ d' <> d)).

Lemma reserved_released d a d' :
  reserved (aws_deviceMap (released d a)) d' = true <-> reserved (aws_deviceMap a) d' = true /\ d' <> d.
Proof.
  unfold reserved, released. simpl. destruct (decide (d' = d)) as [->|Hne];
    [rewrite lookup_insert_eq; naive_solver|rewrite lookup_insert_ne by done; naive_solver].
Qed.

Lemma seen_at_app a vid i t1 t2 : seen_at a vid i t2 -> seen_at a vid i (t1 ++ t2).
Proof. intros (vs & v & ? & ?). exists vs, v. set_solver. Qed.

Lemma free_nonempty d m : d ∈ free m -> d <> "".
Proof. intros [_ Hd]%list_elem_of_filter. by repeat (apply elem_of_cons in Hd as [->|Hd]; [done|]); apply elem_of_nil in Hd. Qed.

Lemma free_bound m : (length (free m) < S (length devices))%nat.
Proof. unfold free. pose proof (length_filter (fun d => reserved m d = false) distinct) as H. simpl in *. lia. Qed.

Lemma requested_failed v a a1 a2 t1 t2 d :
  requested (vol_ProviderID v) a a1 t1 -> Forall no_request t2 ->
  (a2 = a1 /\ ~ lost a (vol_ProviderID v) (t1 ++ t2) \/
   a2 = released d a1 /\ lost a (vol_ProviderID v) (t1 ++ t2) /\ holds v a d (t1 ++ t2)) ->
  failed_with v a a2 (t1 ++ t2).
Proof.
  intros ((m & ->) & _ & _ & Hres) Hq H2. unfold failed_with.
  rewrite asked_devices_app, (no_request_devices t2 Hq), app_nil_r. simpl in Hres.
  destruct H2 as [[-> Hl]|(-> & Hl & Hd)].
  - split; [by exists m|]. left. by split.
  - split; [by eexists|]. right. split; [done|]. exists d. split; [done|].
    intros d'. by rewrite reserved_released, Hres.
Qed.

Lemma requested_not_lost volumeID a a1 t : requested volumeID a a1 t -> ~ lost a volumeID t.
Proof.
  intros (_ & Hall & _) (x & Hx & vs & v & -> & _). apply last_Some in Hx as [t' ->]. apply Forall_app in Hall as [_ Hall].
  apply Forall_cons in Hall as [(d & _ & H) _]. done.
Qed.

Lemma AttachVolume_spec fuel v a : vol_ProviderID v <> "" ->
  wpm (AttachVolume_aws fuel v) a
    (fun r a' t => attempt v a t /\
       match snd r with
       | None => exists d, d <> "" /\ fst r = set_LocalDevice d v /\ attached_at v a a' d t /\
                   seen_at a (vol_ProviderID v) (aws_instanceID a) t
       | Some _ => fst r = v /\ failed_with v a a' t
       end)
    (fun c t => attempt v a t /\
       (c = OutOfFuel \/ c = Fatal "deviceMap logic error" /\ vol_LocalDevice v <> "" /\
          default "" (aws_deviceMap a !! vol_LocalDevice v) <> vol_ProviderID v)).
Proof.
  intros Hid. unfold AttachVolume_aws. wpm_step.
  destruct (String.eqb (vol_LocalDevice v) "") eqn:Hl; zify_bools.
  - eapply wpm_mono; [apply (attachAtDevice_spec _ _ Hid), free_bound| |done].
    intros [d|e] a1 t1 [Hreq Hr]; cbn beta iota.
    2: { wpm_step. split; [by apply (requested_attempt v a a1)|]. split; [done|].
         apply (requested_failed v a a1 a1 t1 [] ""); [done|constructor|]. left. rewrite app_nil_r.
         eauto using requested_not_lost. }
    destruct Hr as (Hf & Hm & Hin). pose proof Hreq as ((m & ->) & _).
    wpm_step. eapply wpm_mono; [apply waitAttached_spec| |].
    + intros [e|] a2 t2 (Hq & Hne & H2); wpm_step; rewrite !app_nil_r; (split; [by eapply requested_attempt|]).
      * split; [done|]. apply (requested_failed v a _ a2 t1 t2 d Hreq); [done|]. rewrite lost_app by done.
        destruct H2 as [?|[-> Hlost]]; [by left|right]. split; [done|]. split; [done|].
        unfold holds. rewrite decide_True by done. set_solver.
      * destruct H2 as [-> Hseen]. exists d. split; [by eapply free_nonempty|]. split; [done|].
        split; [|by apply seen_at_app]. unfold attached_at. rewrite decide_True by done. set_solver.
    + intros c t2 [Hq Hc]. split; [by eapply requested_attempt|]. destruct Hc as [->|[_ Hne]]; [by left|].
      simpl in Hm, Hne. by rewrite Hm in Hne.
  - wpm_step. wpm_step. simpl. pose proof (requested_nil (vol_ProviderID v) a) as Hnil.
    assert (forall t2, Forall no_request t2 -> attempt v a t2) as Hatt.
    { intros t2 Hq. split; [rewrite (no_request_devices t2 Hq); constructor|]. intros x d i w Hx Hreq.
      rewrite Forall_forall in Hq. apply Hq in Hx. unfold no_request in Hx. congruence. }
    eapply wpm_mono; [apply waitAttached_spec| |].
    + intros [e|] a2 t2 (Hq & Hne & H2); wpm_step; rewrite !app_nil_r; (split; [by apply Hatt|]).
      * split; [done|]. apply (requested_failed v a a a2 [] t2 (vol_LocalDevice v) Hnil); [done|]. simpl.
        destruct H2 as [?|[-> Hlost]]; [by left|right]. split; [done|]. split; [done|].
        unfold holds. by rewrite decide_False.
      * destruct H2 as [-> Hseen]. exists (vol_LocalDevice v). split_and!; try done.
        unfold attached_at. by rewrite decide_False.
    + intros c t2 [Hq Hc]. split; [by apply Hatt|]. tauto.
Qed.


(** ** Refused requests *)

Definition refused (x : exchange (HostSig ⊕ AwsSig)) : Prop :=
  forall ans, attach_answered x = Some ans ->
    ans = AttachFailed \/ exists code, ans = Refused code /\ code <> "InvalidParameterValue".

(** Try to attach one volume after the other. *)
Definition attachAll (fuel : nat) (vs : list Volume) : AM unit :=
  for_fold vs tt (fun v _ => AttachVolume_aws fuel v ≫= fun _ => mret tt).

(** With no device free there is no request. *)
Lemma attach_none_free fuel v a :
  vol_LocalDevice v = "" -> free (aws_deviceMap a) = [] ->
  wpm (AttachVolume_aws fuel v) a
    (fun r a' t => t = [] /\ a' = a /\ r = (v, Some "all devices in use")) (fun _ _ => False).
Proof.
  intros Hl Hf. unfold AttachVolume_aws. rewrite Hl. cbn [String.eqb]. wpm_step. unfold attachAtDevice.
  cbn [repeat_until]. wpm_step. wpm_step. eapply wpm_mono; [apply assignDevice_spec| |done].
  intros [d|e] a1 t [-> H]; cbn beta iota.
  - destruct H as [H _]. rewrite Hf in H. by apply elem_of_nil in H.
  - destruct H as (_ & -> & ->). by wpm_steps.
Qed.

(** A refused attempt takes a device away for good. *)
Lemma refused_attempt fuel v a :
  vol_ProviderID v <> "" -> vol_LocalDevice v = "" ->
  wpm (AttachVolume_aws fuel v) a
    (fun _ a' t => Forall refused t -> length (free (aws_deviceMap a')) = pred (length (free (aws_deviceMap a))))
    (fun _ _ => True).
Proof.
  intros Hid Hl. unfold AttachVolume_aws. rewrite Hl. cbn [String.eqb]. wpm_step. unfold attachAtDevice.
  cbn [repeat_until]. wpm_step. wpm_step. eapply wpm_mono; [apply assignDevice_spec| |done].
  intros [d|e] a1 t [-> H]; cbn beta iota.
  2: { destruct H as (Hf & -> & ->). wpm_steps. intros _. by rewrite Hf. }
  destruct H as [Hd ->]. pose proof (free_reserve _ _ _ Hid Hd) as Hlen.
  wpm_step. wpm_step. wpm_step. wpm_step. cbn beta.
  destruct r as [|code|]; cbn beta iota.
  - wpm_step. wpm_step. apply wpm_any; [|done]. intros b a' t' Hr. exfalso. apply Forall_cons_1 in Hr as [Hr _].
    destruct (Hr Attached eq_refl) as [?|(code & ? & _)]; done.
  - destruct (String.eqb code _) eqn:Hc; zify_bools.
    + wpm_step. apply wpm_any; [|done]. intros b a' t'. apply wpm_any; [|done]. intros b' a'' t'' Hr. exfalso.
      apply Forall_cons_1 in Hr as [Hr _]. destruct (Hr _ eq_refl) as [?|(code' & ? & Hne)]; [done|]. by simplify_eq.
    + wpm_steps. intros _. simpl. lia.
  - wpm_steps. intros _. simpl. lia.
Qed.

Lemma attachAll_refused fuel vs :
  Forall (fun v => vol_ProviderID v <> "" /\ vol_LocalDevice v = "") vs -> forall a,
  wpm (attachAll fuel vs) a
    (fun _ a' t => Forall refused t ->
       length (free (aws_deviceMap a')) = (length (free (aws_deviceMap a)) - length vs)%nat) (fun _ _ => True).
Proof.
  unfold attachAll. induction 1 as [|v vs [Hid Hl] _ IH]; intros a; simpl.
  { apply wpm_ret. intros _. lia. }
  wpm_step. wpm_step. eapply wpm_mono; [by apply refused_attempt| |done].
  intros r a1 t H1. wpm_step. eapply wpm_mono; [apply IH| |done].
  intros r' a2 t2 H2 Hall. rewrite app_nil_r in Hall. apply Forall_app in Hall as [Ha Hb].
  rewrite (H2 Hb), (H1 Ha). lia.
Qed.

(** A request that EC2 refuses leaves its device name reserved for good.  After
    five volumes whose requests were refused (another machine was faster, which is
    the normal case) no device name is left, and every later attempt to attach any
    volume fails without asking EC2. *)
Theorem aws_refusals_exhaust fuel vs a t r a'
  (Hvs : Forall (fun v => vol_ProviderID v <> "" /\ vol_LocalDevice v = "") vs) (Hlen : (5 <= length vs)%nat)
  (Hrun : runs (attachAll fuel vs a) t (Done (r, a'))) (Hrefused : Forall refused t) :
  forall fuel' v t' o, vol_LocalDevice v = "" -> runs (AttachVolume_aws fuel' v a') t' o ->
    t' = [] /\ o = Done ((v, Some "all devices in use"), a').
Proof.
  assert (free (aws_deviceMap a') = []) as Hnone.
  { apply length_zero_iff_nil. pose proof (free_bound (aws_deviceMap a)) as Hb.
    pose proof (wp_runs _ _ _ _ Hrun (attachAll_refused fuel vs Hvs a) Hrefused) as H.
    assert (length (free (aws_deviceMap a)) <= 5)%nat; [|lia].
    unfold free. pose proof (length_filter (fun d => reserved (aws_deviceMap a) d = false) distinct). simpl in *. lia. }
  intros fuel' v t' o Hl Hr. pose proof (wp_runs _ _ _ _ Hr (attach_none_free fuel' v a' Hl Hnone)) as H.
  destruct o as [[r' a'']|c]; [|done]. destruct H as (-> & -> & ->). done.
Qed.

(** The provider keeps the promise that the mounter relies on. *)
Lemma attachAtDevice_device fuel volumeID a :
  wpm (attachAtDevice fuel volumeID) a (fun r _ _ => forall d, r = Ok d -> d <> "") (fun c _ => c = OutOfFuel).
Proof.
  revert a. unfold attachAtDevice. induction fuel as [|fuel IH]; intros a; cbn [repeat_until]; [by apply wpm_die|].
  wpm_step. wpm_step. eapply wpm_mono; [apply assignDevice_spec| |done].
  intros [d|e] a1 t [-> H]; cbn beta iota; [|by wpm_steps].
  destruct H as [Hd ->]. apply free_nonempty in Hd. wpm_step. wpm_step. wpm_step. wpm_step.
  destruct r as [|code|]; cbn beta iota; [wpm_steps; naive_solver| |by wpm_steps].
  destruct (String.eqb code _); [|by wpm_steps]. wpm_step. eapply wpm_mono; [apply IH|done|done].
Qed.

#[export] Instance aws_contract Containerized fuel :
  AttachContract AwsSig AWSVolumes (Volumes0 := aws_volumes Containerized fuel).
Proof.
  split.
  - intros v a. simpl. unfold AttachVolume_aws. wpm_step.
    apply (wpm_mono _ _ (fun r _ _ => forall d, r = Ok d -> d <> "") _ (fun c _ => c = OutOfFuel)); [|shelve|by intros ? ? ->].
    { destruct (String.eqb (vol_LocalDevice v) "") eqn:E; zify_bools; [apply attachAtDevice_device|].
      wpm_step. naive_solver. }
    Unshelve.
    intros [d|e] a1 t Hd; cbn beta iota; [|by wpm_steps]. wpm_step.
    eapply wpm_mono; [apply waitAttached_spec| |].
    + intros [e|] a2 t2 _; wpm_step; [done|]. intros _. left. by apply Hd.
    + intros c t2 [_ [->|[-> _]]]; discriminate.
  - intros a. simpl. unfold findVolumes, describeVolumes. by wpm_steps.
  - intros v a. simpl. unfold FindMountedVolume_aws, findNvmeVolume, PathFor, hcall. wpm_steps; done || discriminate.
Qed.

(** ** An example *)

Module AwsDemo.
Definition provider : AWSVolumes := mkAWSVolumes [] ∅ "" "c" ∅ "i-1" "10.0.0.1" "z".
Definition vol (id : string) : Volume := mkVolume ("master-" +:+ id) id id "" "" "" "available" id.
(** The world is the answer of EC2 to requests; a volume shows up where it was
    attached. *)
Definition ec2 : handler (HostSig ⊕ AwsSig) (attach_answer) := fun e w =>
  (match e return @res (HostSig ⊕ AwsSig) e with
   | inl (HStat _) => StatNotExist
   | inl (HLstat _) => StatNotExist
   | inl (HEvalSymlinks p) => Ok p
   | inl (HAbs p) => Ok p
   | inl (HReadDir _) => Ok []
   | inl (HReadFile _) => Err "no such file"
   | inl (HWriteFile _ _) => None
   | inl (HMkdirAll _) => None
   | inl (HExec _) => Ok ""
   | inl (HNsenter _) => None
   | inl (HListMounts _) => Ok []
   | inl (HFormatAndMount _ _ _ _) => None
   | inl (HResize _ _ _) => None
   | inl (HGetDeviceNameFromMount _) => Ok ""
   | inl (HMount _ _ _) => None
   | inl (HSleep _) => tt
   | inl HRange => []
   | inr (DescribeVolumesPages r) => Ok ((fun id => mkEc2Volume id "in-use" [] [("i-1", "/dev/xvdu")]) <$> dv_VolumeIds r)
   | inr (Ec2AttachVolume _ _ _) => w
   | inr (DescribeInstances _) => Ok []
   | inr NewSession => None
   | inr MetadataRegion => MetaOk "r"
   | inr (GetMetadata _) => Meta404
   end, w).
Definition attach : prog (HostSig ⊕ AwsSig) _ := AttachVolume_aws 1 (vol "v1") provider.
Definition attempts : prog (HostSig ⊕ AwsSig) _ :=
  attachAll 1 [vol "v1"; vol "v2"; vol "v3"; vol "v1"; vol "v2"] provider.
Definition afterwards : AWSVolumes :=
  match outcome_of ec2 attempts (Refused "VolumeInUse") with Done (_, a) => a | Crashed _ => provider end.
End AwsDemo.


Lemma aws_refusals_exhaust_witness :
  outcome_of AwsDemo.ec2 AwsDemo.attempts (Refused "VolumeInUse") = Done (tt, AwsDemo.afterwards) /\
  forall t' o, runs (AttachVolume_aws 1 (AwsDemo.vol "v3") AwsDemo.afterwards) t' o ->
    t' = [] /\ o = Done ((AwsDemo.vol "v3", Some "all devices in use"), AwsDemo.afterwards).
Proof.
  assert (outcome_of AwsDemo.ec2 AwsDemo.attempts (Refused "VolumeInUse") = Done (tt, AwsDemo.afterwards)) as Ho
    by (vm_compute; reflexivity).
  split; [exact Ho|]. intros t' o Hr.
  refine (aws_refusals_exhaust 1 [AwsDemo.vol "v1"; AwsDemo.vol "v2"; AwsDemo.vol "v3"; AwsDemo.vol "v1"; AwsDemo.vol "v2"]
    AwsDemo.provider _ tt AwsDemo.afterwards _ _
    (exec_runs_eq AwsDemo.ec2 AwsDemo.attempts (Refused "VolumeInUse") _ Ho) _ 1 (AwsDemo.vol "v3") t' o eq_refl Hr).
  - repeat constructor; discriminate.
  - simpl. lia.
  - assert (forall d i v, refused (ax (Ec2AttachVolume d i v) (Refused "VolumeInUse"))) as Href.
    { intros d i v ans Hans. right. exists "VolumeInUse". split; [|discriminate].
      change (Some (Refused "VolumeInUse") = Some ans) in Hans. by injection Hans as <-. }
    repeat (apply Forall_cons_2; [apply Href|]). apply Forall_nil_2.
Defined.
