(* ===== verification/VolumesGce.v ===== *)
(** * Volumes on GCE: pkg/volumes/gce

    Persistent disks, URLs of resources (gce_url.go, urls.go), operations (op.go)
    and discovery.  The compute and metadata APIs are the environment ([GceSig]);
    [wait.Poll] of apimachinery asks it on each round whether its time is up. *)

From Stdlib Require Import Ascii.
From stdpp Require Import base gmap sets list strings.
From S2P Require Import Prelude Effects EffectsSum GoLib Vfs PrivateApi Volumes VolumesAws.

Local Open Scope Z_scope.

(** ** gce_url.go and urls.go *)

Record GoogleCloudURL := mkURL {
  gu_Version : string;
  gu_Project : string;
  gu_Type : string;
  gu_Name : string;
  gu_Global : bool;
  gu_Region : string;
  gu_Zone : string;
}.

Definition BuildURL (u : GoogleCloudURL) : string :=
  "https://www.googleapis.com/compute/" +:+ (if String.eqb (gu_Version u) "" then "v1" else gu_Version u) +:+ "/" +:+
  (if String.eqb (gu_Project u) "" then "" else "projects/" +:+ gu_Project u +:+ "/") +:+
  (if gu_Global u then "global/" else "") +:+
  (if String.eqb (gu_Region u) "" then "" else "regions/" +:+ gu_Region u +:+ "/") +:+
  (if String.eqb (gu_Zone u) "" then "" else "zones/" +:+ gu_Zone u +:+ "/") +:+
  gu_Type u +:+ "/" +:+ gu_Name u.

Definition set_Project (p : string) (u : GoogleCloudURL) : GoogleCloudURL :=
  mkURL (gu_Version u) p (gu_Type u) (gu_Name u) (gu_Global u) (gu_Region u) (gu_Zone u).
Definition set_Zone (z : string) (u : GoogleCloudURL) : GoogleCloudURL :=
  mkURL (gu_Version u) (gu_Project u) (gu_Type u) (gu_Name u) (gu_Global u) (gu_Region u) z.
Definition set_Region (r : string) (u : GoogleCloudURL) : GoogleCloudURL :=
  mkURL (gu_Version u) (gu_Project u) (gu_Type u) (gu_Name u) (gu_Global u) r (gu_Zone u).
Definition set_Global (u : GoogleCloudURL) : GoogleCloudURL :=
  mkURL (gu_Version u) (gu_Project u) (gu_Type u) (gu_Name u) true (gu_Region u) (gu_Zone u).
Definition set_Resource (t n : string) (u : GoogleCloudURL) : GoogleCloudURL :=
  mkURL (gu_Version u) (gu_Project u) t n (gu_Global u) (gu_Region u) (gu_Zone u).

(** The loop over the tokens from position 5 on. *)
Fixpoint parseTokens (parsed : GoogleCloudURL) (tokens : list string) : result GoogleCloudURL :=
  match tokens with
  | [] => Err "invalid google cloud URL (unexpected end)"
  | t :: rest =>
      if String.eqb t "projects" then
        match rest with
        | [] => Err "invalid google cloud URL (unexpected projects)"
        | p :: rest' => parseTokens (set_Project p parsed) rest'
        end
      else if String.eqb t "zones" then
        match rest with
        | [] => Err "invalid google cloud URL (unexpected zones)"
        | z :: rest' => parseTokens (set_Zone z parsed) rest'
        end
      else
        match String.eqb t "regions", rest with
        | true, r :: ((_ :: _) as rest') => parseTokens (set_Region r parsed) rest'
        | _, _ =>
            if String.eqb t "global" then parseTokens (set_Global parsed) rest
            else match rest with
                 | [] => Err "invalid google cloud URL (no name)"
                 | [n] => Ok (set_Resource t n parsed)
                 | _ => Err "invalid google cloud URL (content after name)"
                 end
        end
  end.

Definition ParseGoogleCloudURL (u : string) : result GoogleCloudURL :=
  match Split u "/" with
  | s :: e :: h :: rest =>
      if negb (String.eqb s "https:" && String.eqb e "" && String.eqb h "www.googleapis.com")
      then Err "invalid google cloud URL (schema / host)"
      else
        match rest with
        | c :: v :: rest' =>
            if negb (String.eqb c "compute") then Err "invalid google cloud URL (not compute)"
            else if negb (String.eqb v "v1") && negb (String.eqb v "beta")
            then Err "invalid google cloud URL (not compute/v1 or compute/beta)"
            else parseTokens (mkURL v "" "" "" false "" "") rest'
        | _ => Err "invalid google cloud URL (not compute)"
        end
  | _ => Err "invalid google cloud URL (token count)"
  end.

Definition regionFromZone (zone : string) : result string :=
  match last_index "-" zone with
  | None => Err "unexpected zone"
  | Some ix => Ok (String.substring 0 ix zone)
  end.

Definition lastComponent (s : string) : string :=
  match last_index "/" s with
  | None => s
  | Some ix => String.substring (S ix) (String.length s - S ix) s
  end.

(** ** Labels *)

Definition hex_val (c : ascii) : option N :=
  let n := N_of_ascii c in
  if (48 <=? n)%N && (n <=? 57)%N then Some (n - 48)%N
  else if (97 <=? n)%N && (n <=? 102)%N then Some (n - 87)%N
  else if (65 <=? n)%N && (n <=? 70)%N then Some (n - 55)%N
  else None.

(** [url.QueryUnescape] *)
Fixpoint QueryUnescape (s : string) : option string :=
  match s with
  | EmptyString => Some ""
  | String "%" (String a (String b s')) =>
      match hex_val a, hex_val b, QueryUnescape s' with
      | Some x, Some y, Some r => Some (String (ascii_of_N (16 * x + y)) r)
      | _, _, _ => None
      end
  | String "%" _ => None
  | String c s' =>
      match QueryUnescape s' with
      | Some r => Some (String (if Ascii.eqb c "+" then " "%char else c) r)
      | None => None
      end
  end.

Definition DecodeGCELabel (s : string) : result string :=
  match QueryUnescape (ReplaceByte "-" "%" s) with
  | None => Err "cannot decode GCE label"
  | Some v => Ok v
  end.

(** ** The API *)

Record gceDisk := mkGceDisk {
  gd_Name : string;
  gd_SelfLink : string;
  gd_Zone : string;
  gd_Status : string;
  gd_Labels : gmap string string;
  gd_Users : list string;
}.
(** An operation; [go_Error] is the message of its first error. *)
Record gceOperation := mkGceOperation {
  go_Name : string;
  go_SelfLink : string;
  go_Status : string;
  go_Error : option string;
}.

Inductive opScope := ZoneOp (zone : string) | RegionOp (region : string) | GlobalOp.

Inductive gce_op : Type :=
| GListDisks (project zone : string)
| GAttachDisk (project zone instance deviceName source : string)
| GGetOperation (project : string) (scope : opScope) (name : string)
| GPollTick                                       (* whether the time of wait.Poll is up *)
| GGetInstance (project zone name : string)       (* the addresses of its interfaces *)
| GNewService
| GMetadata (what : string)
| GListZones (project : string).                  (* name and region of each zone *)
Definition gce_res (e : gce_op) : Type :=
  match e with
  | GListDisks _ _ => result (list gceDisk)
  | GAttachDisk _ _ _ _ _ => result gceOperation
  | GGetOperation _ _ _ => option gceOperation * option error
  | GPollTick => bool
  | GGetInstance _ _ _ => result (list string)
  | GNewService => option error
  | GMetadata _ => result string
  | GListZones _ => result (list (string * string))
  end.
Definition GceSig : sig := Sig gce_op gce_res.
Abbreviation gcall e := (@call (HostSig ⊕ GceSig) _ (inr e)).

(** ** op.go *)

Section Operations.
Context {S : Type}.
Abbreviation GM := (HM GceSig S).

Definition opIsDone (op : option gceOperation) : bool :=
  match op with Some o => String.eqb (go_Status o) "DONE" | None => false end.
Definition getErrorFromOp (op : option gceOperation) : option error :=
  match op with Some o => go_Error o | None => None end.

(** [wait.Poll]: a pause, the condition, until it is done, fails or the time is
    up; at most [fuel] rounds. *)
Definition waitForOp (fuel : nat) (op : gceOperation)
    (getOperation : string -> GM (option gceOperation * option error)) : GM (option error) :=
  if opIsDone (Some op) then mret (getErrorFromOp (Some op))
  else
    repeat_until fuel (
      hcall (HSleep (3 * Second)) ≫= fun _ =>
      late ← gcall GPollTick;
      if (late : bool) then mret (Some (Some "timed out waiting for the condition"))
      else
        p ← getOperation (go_Name op);
        match getErrorFromOp (fst p) with
        | Some e => mret (Some (Some e))
        | None => if opIsDone (fst p) then mret (Some None) else mret None
        end).

Definition WaitForOp (fuel : nat) (op : gceOperation) : GM (option error) :=
  match ParseGoogleCloudURL (go_SelfLink op) with
  | Err _ => mret (Some "error parsing operation URL")
  | Ok u =>
      let scope := if negb (String.eqb (gu_Zone u) "") then ZoneOp (gu_Zone u)
                   else if negb (String.eqb (gu_Region u) "") then RegionOp (gu_Region u)
                   else GlobalOp in
      waitForOp fuel op (fun name => gcall (GGetOperation (gu_Project u) scope name))
  end.
End Operations.

(** ** volumes.go *)

Record GCEVolumes := mkGCEVolumes {
  gce_matchTagKeys : list string;
  gce_matchTags : gmap string string;
  gce_nameTag : string;
  gce_clusterName : string;
  gce_project : string;
  gce_zone : string;
  gce_region : string;
  gce_instanceName : string;
  gce_internalIP : option string;
  gce_allZonesInRegion : list string;
}.
Abbreviation GV := (HM GceSig GCEVolumes).

Definition NewGCEVolumes (ParseIP : string -> option string) (clusterName : string)
    (volumeTags : list string) (nameTag : string) : HM GceSig unit (result GCEVolumes) :=
  let '(keys, tags) := splitTags volumeTags [] ∅ in
  c ← gcall GNewService;
  match c with
  | Some _ => mret (Err "error building compute API client")
  | None =>
      project ← gcall (GMetadata "project");
      match project with
      | Err _ => mret (Err "error reading project from GCE")
      | Ok project =>
          let project := TrimSpace project in
          if String.eqb project "" then mret (Err "project metadata was empty") else
          zone ← gcall (GMetadata "zone");
          match zone with
          | Err _ => mret (Err "error reading zone from GCE")
          | Ok zone =>
              if String.eqb (TrimSpace zone) "" then mret (Err "zone metadata was empty") else
              match regionFromZone zone with
              | Err _ => mret (Err "error determining region from zone")
              | Ok region =>
                  name ← gcall (GMetadata "instance-name");
                  match name with
                  | Err _ => mret (Err "error reading instance name from GCE")
                  | Ok name =>
                      let instanceName := TrimSpace name in
                      if String.eqb instanceName "" then mret (Err "instance name metadata was empty") else
                      ip ← gcall (GMetadata "internal-ip");
                      match ip with
                      | Err _ => mret (Err "error querying InternalIP from GCE")
                      | Ok ip =>
                          if String.eqb ip "" then mret (Err "InternalIP from metadata was empty") else
                          match ParseIP ip with
                          | None => mret (Err "InternalIP from metadata was not parseable")
                          | Some ip =>
                              zones ← gcall (GListZones project);
                              match zones with
                              | Err _ => mret (Err "error querying for GCE zones")
                              | Ok zones =>
                                  mret (Ok (mkGCEVolumes keys tags nameTag clusterName project (TrimSpace zone)
                                    region instanceName (Some ip)
                                    (filter (fun z => lastComponent (snd z) = region) zones).*1))
                              end
                          end
                      end
                  end
              end
          end
      end
  end.

(** All keys are there, and all tags have their values. *)
Definition matchesTags_gce (g : GCEVolumes) (d : gceDisk) : bool :=
  forallb (fun k => bool_decide (is_Some (gd_Labels d !! k))) (gce_matchTagKeys g) &&
  bool_decide (map_Forall (fun k v => gd_Labels d !! k = Some v) (gce_matchTags g)).

Definition gceEtcdName (g : GCEVolumes) (d : gceDisk) : result string :=
  let v := default "" (gd_Labels d !! gce_nameTag g) in
  if String.eqb (gce_nameTag g) "" || String.eqb v "" then Ok (gd_Name d)
  else match DecodeGCELabel v with
       | Err _ => Err "error decoding GCE label"
       | Ok plaintext => Ok (gce_clusterName g +:+ "-" +:+ default "" (SplitN plaintext "/" 2 !! 0%nat))
       end.

(** The users of a disk, one after the other. *)
Fixpoint attachUsers (g : GCEVolumes) (d : gceDisk) (users : list string) (vol : Volume) : result Volume :=
  match users with
  | [] => Ok vol
  | attachedTo :: users' =>
      match ParseGoogleCloudURL attachedTo with
      | Err _ => Err "error parsing disk attachmnet url"
      | Ok u =>
          let vol := set_AttachedTo attachedTo vol in
          attachUsers g d users'
            (if String.eqb (gu_Project u) (gce_project g) && String.eqb (gu_Zone u) (gce_zone g) &&
                String.eqb (gu_Name u) (gce_instanceName g)
             then set_LocalDevice ("/dev/disk/by-id/google-" +:+ gd_Name d) vol else vol)
      end
  end.

Definition buildGCEVolume (g : GCEVolumes) (d : gceDisk) : result Volume :=
  match gceEtcdName g d with
  | Err e => Err e
  | Ok etcdName =>
      attachUsers g d (gd_Users d)
        (mkVolume ("master-" +:+ lastComponent (gd_Zone d) +:+ "-" +:+ gd_Name d) (gd_SelfLink d) etcdName
           "" "" "" (gd_Status d) (gd_SelfLink d))
  end.

(** The disks of one zone; malformed ones are skipped. *)
Definition gceVolumesOf (g : GCEVolumes) (disks : list gceDisk) : list Volume :=
  omap (fun d => if matchesTags_gce g d
                 then match buildGCEVolume g d with Ok v => Some v | Err _ => None end else None) disks.

Definition findVolumes_gce (filterByZone : bool) : GV (result (list Volume)) :=
  g ← get;
  r ← for_each (if filterByZone then [gce_zone g] else gce_allZonesInRegion g) []
        (fun zone acc =>
           l ← gcall (GListDisks (gce_project g) zone);
           mret (match l with
                 | Err _ => inr (Err "error querying GCE disks")
                 | Ok disks => inl (acc ++ gceVolumesOf g disks)
                 end));
  mret (match r with inl vs => Ok vs | inr e => e end).

Definition AttachVolume_gce (fuel : nat) (volume : Volume) : GV (Volume * option error) :=
  let volumeName := lastComponent (vol_ProviderID volume) in
  g ← get;
  r ← gcall (GAttachDisk (gce_project g) (gce_zone g) (gce_instanceName g) volumeName (vol_ProviderID volume));
  match r with
  | Err _ => mret (volume, Some "error attaching disk")
  | Ok attachOp =>
      e ← WaitForOp fuel attachOp;
      match e with
      | Some _ => mret (volume, Some "error waiting for disk attach to complete")
      | None => mret (set_LocalDevice ("/dev/disk/by-id/google-" +:+ volumeName) volume, None)
      end
  end.

(** The device of a volume, if it is there; as for several other providers. *)
Definition findLocalDevicePath {C S} (Containerized : bool) (volume : Volume) : HM C S (result string) :=
  p ← PathFor Containerized (vol_LocalDevice volume);
  s ← hcall (HStat p);
  mret (match s with
        | StatOk _ _ => Ok (vol_LocalDevice volume)
        | StatNotExist => Ok ""
        | StatErr _ => Err "error checking for device"
        end).

Definition MyIP_gce : GV (result string) :=
  g ← get;
  mret (match gce_internalIP g with None => Err "unable to determine local IP" | Some ip => Ok ip end).

#[export] Instance gce_volumes (Containerized : bool) (fuel : nat) : Volumes GceSig GCEVolumes := {|
  AttachVolume := AttachVolume_gce fuel;
  FindVolumes := findVolumes_gce true;
  FindMountedVolume := findLocalDevicePath Containerized;
  MyIP := MyIP_gce;
|}.

(** ** discovery.go *)

Definition Poll_gce : GV (result (gmap string DiscoveryNode)) :=
  r ← findVolumes_gce false;
  match r with
  | Err e => mret (Err e)
  | Ok allVolumes =>
      entries ← range (instanceToVolumeMap allVolumes);
      nodes ← for_fold entries ∅ (fun '(i, volume) nodes =>
        match ParseGoogleCloudURL i with
        | Err _ => mret nodes
        | Ok u =>
            if String.eqb (gu_Project u) "" || String.eqb (gu_Zone u) "" || String.eqb (gu_Name u) ""
            then mret nodes
            else
              r ← gcall (GGetInstance (gu_Project u) (gu_Zone u) (gu_Name u));
              mret (match r with
                    | Err _ => nodes
                    | Ok ips => <[vol_EtcdName volume :=
                        discoveryNode (vol_EtcdName volume) (filter (fun ip => ip <> "") ips)]> nodes
                    end)
        end);
      mret (Ok nodes)
  end.

(** ** URLs are read back *)

(** The parts of a URL. *)
Definition urlTokens (u : GoogleCloudURL) : list string :=
  ["https:"; ""; "www.googleapis.com"; "compute"; gu_Version u] ++
  (if String.eqb (gu_Project u) "" then [] else ["projects"; gu_Project u]) ++
  (if gu_Global u then ["global"] else []) ++
  (if String.eqb (gu_Region u) "" then [] else ["regions"; gu_Region u]) ++
  (if String.eqb (gu_Zone u) "" then [] else ["zones"; gu_Zone u]) ++
  [gu_Type u; gu_Name u].

(** A URL of a resource: a supported version, parts without slashes, and a type
    that is not one of the words that start a qualifier. *)
Definition resourceURL (u : GoogleCloudURL) : Prop :=
  (gu_Version u = "v1" \/ gu_Version u = "beta") /\
  Forall (fun s => contains_byte s "/" = false) [gu_Project u; gu_Region u; gu_Zone u; gu_Type u; gu_Name u] /\
  gu_Type u <> "projects" /\ gu_Type u <> "zones" /\ gu_Type u <> "global".

Lemma BuildURL_tokens u : gu_Version u <> "" -> BuildURL u = Join (urlTokens u) "/".
Proof.
  intros Hv. unfold BuildURL, urlTokens.
  destruct (String.eqb (gu_Version u) "") eqn:E; [zify_bools; done|].
  destruct (String.eqb (gu_Project u) ""), (gu_Global u), (String.eqb (gu_Region u) ""), (String.eqb (gu_Zone u) "");
    simpl; repeat (rewrite <- string_app_assoc; simpl); reflexivity.
Qed.

Lemma urlTokens_parts u :
  resourceURL u -> Forall (fun s => contains_byte s "/" = false) (urlTokens u).
Proof.
  intros (Hv & Hp & _). rewrite !Forall_cons in Hp. destruct Hp as (? & ? & ? & ? & ? & _).
  assert (contains_byte (gu_Version u) "/" = false) by (by destruct Hv as [-> | ->]).
  unfold urlTokens. repeat case_match; simpl; by repeat constructor.
Qed.

Lemma parseTokens_urlTokens u :
  resourceURL u -> parseTokens (mkURL (gu_Version u) "" "" "" false "" "") (drop 5 (urlTokens u)) = Ok u.
Proof.
  intros (_ & _ & H1 & H2 & H3). unfold urlTokens. simpl. rewrite drop_0.
  destruct u as [v p t n g r z]. simpl in *.
  destruct (String.eqb p "") eqn:Ep, g, (String.eqb r "") eqn:Er, (String.eqb z "") eqn:Ez; zify_bools; subst;
    apply String.eqb_neq in H1, H2, H3; simpl; rewrite ?H1, ?H2, ?H3; by destruct (String.eqb t "regions").
Qed.

(** A URL of a resource that was built is read back unchanged; an omitted
    version is read back as "v1". *)
Theorem gce_url_roundtrip u (Hu : resourceURL u) :
  ParseGoogleCloudURL (BuildURL u) = Ok u /\
  (gu_Version u = "v1" ->
   ParseGoogleCloudURL (BuildURL (mkURL "" (gu_Project u) (gu_Type u) (gu_Name u) (gu_Global u) (gu_Region u) (gu_Zone u))) = Ok u).
Proof.
  assert (gu_Version u <> "") as Hv by (destruct Hu as ([-> | ->] & _); discriminate).
  assert (ParseGoogleCloudURL (BuildURL u) = Ok u) as H.
  { rewrite BuildURL_tokens by done. unfold ParseGoogleCloudURL.
    rewrite Split_Join; [|done|by apply urlTokens_parts].
    pose proof (parseTokens_urlTokens u Hu) as Hp. unfold urlTokens in *. simpl in *. rewrite drop_0 in Hp.
    rewrite Hp. destruct Hu as ([-> | ->] & _); reflexivity. }
  split; [exact H|]. intros E. rewrite <- H. f_equal. unfold BuildURL. simpl. by rewrite E.
Qed.

Lemma gce_url_roundtrip_witness :
  let u := mkURL "v1" "p" "disks" "d1" false "" "us-central1-b" in
  BuildURL u = "https://www.googleapis.com/compute/v1/projects/p/zones/us-central1-b/disks/d1" /\
  ParseGoogleCloudURL (BuildURL u) = Ok u.
Proof.
  split; [vm_compute; reflexivity|]. apply gce_url_roundtrip.
  split; [left; reflexivity|]. split; [repeat constructor|]. split_and!; discriminate.
Defined.

(** ** The promise of the provider *)

#[export] Instance gce_contract Containerized fuel :
  AttachContract GceSig GCEVolumes (Volumes0 := gce_volumes Containerized fuel).
Proof.
  split.
  - intros v g. simpl. unfold AttachVolume_gce. wpm_step. wpm_step. wpm_step. wpm_step.
    destruct r as [op|e]; cbn beta iota; [|by wpm_steps]. wpm_step.
    apply (wpm_mono _ _ (fun _ _ _ => True) _ (fun c _ => c = OutOfFuel)); [| |by intros ? ? ->].
    + unfold WaitForOp, waitForOp. destruct (ParseGoogleCloudURL _); [|by wpm_steps].
      destruct (opIsDone _); [by wpm_steps|]. revert g. induction fuel as [|fuel IH]; intros g; simpl; [by apply wpm_die|].
      unfold hcall. wpm_step. wpm_step. wpm_step. wpm_step. wpm_step. destruct r0; [by wpm_steps|]. wpm_step. wpm_step.
      destruct r0 as [op' e']. simpl. destruct (getErrorFromOp op'); [by wpm_steps|].
      destruct (opIsDone op'); [by wpm_steps|]. wpm_step. eapply wpm_mono; [apply IH|done|done].
    + intros [e|] g' t _; wpm_step; [done|]. intros _. left. discriminate.
  - intros g. simpl. unfold findVolumes_gce. wpm_step. wpm_step. wpm_step.
    apply (wpm_mono _ _ (fun _ _ _ => True) _ (fun _ _ => False)); [|by intros; wpm_steps|done].
    generalize (@nil Volume). induction [gce_zone g] as [|z l IH]; intros acc; simpl; [by wpm_steps|].
    wpm_step. wpm_step. wpm_step. wpm_step. destruct r as [disks|e]; [|by wpm_steps].
    eapply wpm_mono; [apply IH|done|done].
  - intros v g. simpl. unfold findLocalDevicePath, PathFor, hcall. wpm_steps; done || discriminate.
Qed.
