(* ===== verification/VolumesClouds.v ===== *)
(** * Volumes on Hetzner Cloud, Scaleway and DigitalOcean

    pkg/volumes/hetzner, pkg/volumes/scaleway and pkg/volumes/do: each finds the
    volumes with certain labels or tags, attaches one of them, and discovers peers
    by the machines that volumes are attached to.  The APIs are the environment. *)

From Stdlib Require Import Ascii.
From stdpp Require Import base gmap sets list strings.
From S2P Require Import Prelude Effects EffectsSum GoLib PrivateApi Volumes VolumesAws VolumesGce.

Local Open Scope Z_scope.

(** ** strings *)

Definition upper_byte (c : ascii) : ascii :=
  let n := N_of_ascii c in if (97 <=? n)%N && (n <=? 122)%N then ascii_of_N (n - 32) else c.
(** [strings.ToUpper] of ASCII text, which labels and tags are. *)
Fixpoint ToUpper (s : string) : string :=
  match s with EmptyString => EmptyString | String c s' => String (upper_byte c) (ToUpper s') end.

(** ** Hetzner Cloud *)

Module Hetzner.
Definition localDevicePrefix : string := "/dev/disk/by-id/scsi-0HC_Volume_".

Record server := mkServer { srv_ID : Z; srv_Location : option string; srv_PrivateNet : list string }.
Record cloudVolume := mkCloudVolume { cv_ID : Z; cv_Location : option string; cv_Server : option Z }.

(** [GetByID] answers nil for what does not exist. *)
Inductive hcloud_op : Type :=
| InstanceID
| GetToken
| ServerByID (id : Z)
| AllVolumes (labelSelector : string)
| VolumeByID (id : Z)
| Attach (volume server : Z)
| WatchProgress (action : Z).
Definition hcloud_res (e : hcloud_op) : Type :=
  match e with
  | InstanceID | Attach _ _ => result Z
  | GetToken => string
  | ServerByID _ => result (option server)
  | AllVolumes _ => result (list cloudVolume)
  | VolumeByID _ => result (option cloudVolume)
  | WatchProgress _ => option error
  end.
Definition HcloudSig : sig := Sig hcloud_op hcloud_res.
Abbreviation call_ e := (@call (HostSig ⊕ HcloudSig) _ (inr e)).

Record HetznerVolumes := mkHetznerVolumes {
  hz_clusterName : string;
  hz_matchPeerTags : gmap string string;
  hz_matchNameTags : gmap string string;
  hz_server : server;
}.
Abbreviation HZ := (HM HcloudSig HetznerVolumes).

(** A tag without a value has the value "". *)
Definition addTag (m : gmap string string) (tag : string) : gmap string string :=
  match SplitN tag "=" 2 with
  | k :: v :: _ => <[k := v]> m
  | k :: _ => <[k := ""]> m
  | [] => m
  end.

Definition NewHetznerVolumes (clusterName : string) (volumeTags : list string) (nameTag : string)
    : HM HcloudSig unit (result HetznerVolumes) :=
  id ← call_ InstanceID;
  match id with
  | Err _ => mret (Err "failed to retrieve server id")
  | Ok serverID =>
      token ← call_ GetToken;
      if String.eqb token "" then mret (Err "HCLOUD_TOKEN is required") else
      s ← call_ (ServerByID serverID);
      match s with
      | Ok (Some server) =>
          match srv_Location server, srv_PrivateNet server with
          | None, _ => mret (Err "failed to find location of the running server")
          | _, [] => mret (Err "failed to find private net of the running server")
          | _, _ =>
              let peerTags := foldl addTag ∅ volumeTags in
              mret (Ok (mkHetznerVolumes clusterName peerTags (addTag peerTags nameTag) server))
          end
      | _ => mret (Err "failed to get info for the running server")
      end
  end.

Definition getMatchingVolumes (matchLabels : gmap string string) : HZ (result (list cloudVolume)) :=
  labels ← range matchLabels;
  r ← call_ (AllVolumes (Join ((fun '(k, v) => if String.eqb v "" then k else k +:+ "=" +:+ v) <$> labels) ","));
  mret (match r with Err _ => Err "failed to get volumes matching label selector" | Ok vs => Ok vs end).

Definition etcdVolume (a : HetznerVolumes) (v : cloudVolume) : Volume :=
  let volumeID := Itoa (cv_ID v) in
  let vol := mkVolume ("hcloud-" +:+ volumeID) volumeID ("vol-" +:+ volumeID) "" "" "" ""
               (hz_clusterName a +:+ "-" +:+ volumeID) in
  match cv_Server v with
  | None => vol
  | Some id =>
      let vol := set_AttachedTo (Itoa id) vol in
      if id =? srv_ID (hz_server a) then set_LocalDevice (localDevicePrefix +:+ volumeID) vol else vol
  end.

Definition FindVolumes_hetzner : HZ (result (list Volume)) :=
  a ← get;
  match srv_Location (hz_server a) with
  | None => mret (Err "failed to find server location for the running server")
  | Some serverLocation =>
      r ← getMatchingVolumes (hz_matchNameTags a);
      match r with
      | Err _ => mret (Err "failed to get matching volumes")
      | Ok vs => mret (Ok (etcdVolume a <$> filter (fun v => cv_Location v = Some serverLocation) vs))
      end
  end.

(** The volume is left as it is after a new attachment. *)
Definition AttachVolume_hetzner (volume : Volume) : HZ (Volume * option error) :=
  a ← get;
  match Atoi (vol_ProviderID volume) with
  | Err _ => mret (volume, Some "failed to convert volume id to int")
  | Ok volumeID =>
      r ← call_ (VolumeByID volumeID);
      match r with
      | Ok (Some v) =>
          match cv_Server v with
          | Some id =>
              if negb (id =? srv_ID (hz_server a))
              then mret (volume, Some "found volume attached to a different server")
              else mret (set_LocalDevice (localDevicePrefix +:+ Itoa (cv_ID v)) volume, None)
          | None =>
              r ← call_ (Attach (cv_ID v) (srv_ID (hz_server a)));
              match r with
              | Err _ => mret (volume, Some "failed to attach volume")
              | Ok action =>
                  e ← call_ (WatchProgress action);
                  match e with
                  | Some _ => mret (volume, Some "failed to wait for volume to be ready")
                  | None => mret (volume, None)
                  end
              end
          end
      | _ => mret (volume, Some "failed to get info for volume id")
      end
  end.

Definition MyIP_hetzner : HZ (result string) :=
  a ← get;
  mret (match srv_PrivateNet (hz_server a) with
        | [] => Err "failed to find server private ip address"
        | ip :: _ => Ok ip
        end).

#[export] Instance hetzner_volumes (Containerized : bool) : Volumes HcloudSig HetznerVolumes := {|
  AttachVolume := AttachVolume_hetzner;
  FindVolumes := FindVolumes_hetzner;
  FindMountedVolume := findLocalDevicePath Containerized;
  MyIP := MyIP_hetzner;
|}.

Definition Poll_hetzner : HZ (result (gmap string DiscoveryNode)) :=
  a ← get;
  r ← getMatchingVolumes (hz_matchPeerTags a);
  match r with
  | Err _ => mret (Err "failed to get matching volumes")
  | Ok vs =>
      r ← for_each vs ∅ (fun v peers =>
        match cv_Server v with
        | None => mret (inl peers)
        | Some serverID =>
            r ← call_ (ServerByID serverID);
            match r with
            | Ok (Some server) =>
                match srv_PrivateNet server with
                | [] => mret (inr "failed to find private net info for server")
                | ip :: _ =>
                    let id := "vol-" +:+ Itoa (cv_ID v) in
                    mret (inl (<[id := discoveryNode id [ip]]> peers))
                end
            | _ => mret (inr "failed to retrieve info for server")
            end
        end);
      mret (match r with inl peers => Ok peers | inr e => Err e end)
  end.
End Hetzner.

(** ** Scaleway *)

Module Scaleway.
Definition localDevicePrefix : string := "/dev/disk/by-id/scsi-0SCW_b_ssd_volume-".

Record scwVolume := mkScwVolume { sv_ID : string; sv_Zone : string; sv_Server : option string }.

Inductive scw_op : Type :=
| NewClient
| MetadataServer                                    (* id and zone of this server *)
| GetServer (id zone : string)
| ListVolumes (zone : string) (tags : list string)
| GetVolume (id zone : string)
| AttachVolumeRequest (zone server volume : string)
| WaitForVolume (id zone : string)
| WaitForServer (id zone : string)
| ListIPs (server : string).                        (* IPv4 addresses; fails for a zone without region *)
Definition scw_res (e : scw_op) : Type :=
  match e with
  | NewClient => option error
  | MetadataServer => result (string * string)
  | GetServer _ _ => result (option string)
  | ListVolumes _ _ => result (list scwVolume)
  | GetVolume _ _ => result (option scwVolume)
  | AttachVolumeRequest _ _ _ | WaitForVolume _ _ | WaitForServer _ _ => option error
  | ListIPs _ => result (list string)
  end.
Definition ScwSig : sig := Sig scw_op scw_res.
Abbreviation call_ e := (@call (HostSig ⊕ ScwSig) _ (inr e)).

Record ScalewayVolumes := mkScalewayVolumes {
  sw_clusterName : string;
  sw_matchTags : list string;
  sw_nameTag : string;
  sw_serverID : string;
  sw_zone : string;
}.
Abbreviation SW := (HM ScwSig ScalewayVolumes).

Definition NewVolumes (clusterName : string) (volumeTags : list string) (nameTag : string)
    : HM ScwSig unit (result ScalewayVolumes) :=
  c ← call_ NewClient;
  match c with
  | Some _ => mret (Err "error creating Scaleway client")
  | None =>
      m ← call_ MetadataServer;
      match m with
      | Err _ => mret (Err "failed to retrieve server metadata")
      | Ok (serverID, zone) =>
          s ← call_ (GetServer serverID zone);
          match s with
          | Ok (Some server) => mret (Ok (mkScalewayVolumes clusterName volumeTags nameTag server zone))
          | _ => mret (Err "failed to get the running server")
          end
      end
  end.

Definition getMatchingVolumes_scw (matchTags : list string) : SW (result (list scwVolume)) :=
  a ← get;
  r ← call_ (ListVolumes (sw_zone a) matchTags);
  mret (match r with Err _ => Err "failed to get volumes matching tags" | Ok vs => Ok vs end).

Definition etcdVolume_scw (a : ScalewayVolumes) (v : scwVolume) : Volume :=
  let vol := mkVolume ("scw-" +:+ sv_ID v) (sv_ID v) ("vol-" +:+ sv_ID v) "" "" "" ""
               (sw_clusterName a +:+ "-" +:+ sv_ID v) in
  match sv_Server v with
  | None => vol
  | Some id =>
      let vol := set_AttachedTo id vol in
      if String.eqb id (sw_serverID a) then set_LocalDevice (localDevicePrefix +:+ sv_ID v) vol else vol
  end.

Definition FindVolumes_scw : SW (result (list Volume)) :=
  a ← get;
  r ← getMatchingVolumes_scw (sw_matchTags a ++ [sw_nameTag a]);
  match r with
  | Err _ => mret (Err "failed to get matching volumes")
  | Ok vs => mret (Ok (etcdVolume_scw a <$> filter (fun v => sv_Zone v <> "" /\ sv_Zone v = sw_zone a) vs))
  end.

(** One round of the loop of [AttachVolume]. *)
Definition attachRound_scw (volume : Volume) : SW (option (Volume * option error)) :=
  a ← get;
  r ← call_ (GetVolume (vol_ProviderID volume) (sw_zone a));
  match r with
  | Ok (Some v) =>
      match sv_Server v with
      | Some id =>
          if negb (String.eqb id (sw_serverID a))
          then mret (Some (volume, Some "found volume attached to a different server"))
          else mret (Some (set_LocalDevice (localDevicePrefix +:+ sv_ID v) volume, None))
      | None =>
          e ← call_ (AttachVolumeRequest (sw_zone a) (sw_serverID a) (sv_ID v));
          match e with
          | Some _ => mret (Some (volume, Some "failed to attach volume"))
          | None =>
              e ← call_ (WaitForVolume (sv_ID v) (sw_zone a));
              match e with
              | Some _ => mret (Some (volume, Some "error waiting for volume"))
              | None =>
                  e ← call_ (WaitForServer (sw_serverID a) (sw_zone a));
                  match e with
                  | Some _ => mret (Some (volume, Some "error waiting for server"))
                  | None => mret None
                  end
              end
          end
      end
  | _ => mret (Some (volume, Some "failed to get info for volume id"))
  end.

Definition AttachVolume_scw (fuel : nat) (volume : Volume) : SW (Volume * option error) :=
  repeat_until fuel (attachRound_scw volume).

Definition getServerIP (serverID : string) : SW (result string) :=
  r ← call_ (ListIPs serverID);
  mret (match r with
        | Err _ => Err "listing server's IPs"
        | Ok [] => Err "expected at least 1 IP attached to the server"
        | Ok (ip :: _) => Ok ip
        end).

Definition MyIP_scw : SW (result string) :=
  a ← get;
  r ← getServerIP (sw_serverID a);
  mret (match r with Err _ => Err "getting IP for server" | Ok ip => Ok ip end).

#[export] Instance scw_volumes (Containerized : bool) (fuel : nat) : Volumes ScwSig ScalewayVolumes := {|
  AttachVolume := AttachVolume_scw fuel;
  FindVolumes := FindVolumes_scw;
  FindMountedVolume := findLocalDevicePath Containerized;
  MyIP := MyIP_scw;
|}.

Definition Poll_scw : SW (result (gmap string DiscoveryNode)) :=
  a ← get;
  r ← getMatchingVolumes_scw (sw_matchTags a);
  match r with
  | Err _ => mret (Err "failed to get matching volumes")
  | Ok vs =>
      r ← for_each vs ∅ (fun v peers =>
        match sv_Server v with
        | None => mret (inl peers)
        | Some serverID =>
            r ← getServerIP serverID;
            mret (match r with
                  | Err _ => inr "getting IP for server"
                  | Ok ip => let id := "vol-" +:+ sv_ID v in inl (<[id := discoveryNode id [ip]]> peers)
                  end)
        end);
      mret (match r with inl peers => Ok peers | inr e => Err e end)
  end.
End Scaleway.

(** ** DigitalOcean *)

Module DigitalOcean.
Definition localDevicePrefix : string := "/dev/disk/by-id/scsi-0DO_Volume_".

Record doVolume := mkDoVolume {
  dv_ID : string;
  dv_Name : string;
  dv_Tags : list string;
  dv_DropletIDs : list Z;
}.

(** The links of an answer: it is the last page, or the number of the page. *)
Inductive pageLinks := LastPage | CurrentPage (page : result Z).

Inductive do_op : Type :=
| GetMetadata (what : string)
| GetAccessToken
| ListVolumes (region : option string) (page : Z)
| AttachAction (volume : string) (droplet : Z)       (* the status of the action *)
| GetVolume (id : string)
| DropletIPv4 (id : Z).
Definition do_res (e : do_op) : Type :=
  match e with
  | GetMetadata _ | AttachAction _ _ | DropletIPv4 _ => result string
  | GetAccessToken => string
  | ListVolumes _ _ => result (list doVolume * pageLinks)
  | GetVolume _ => result doVolume
  end.
Definition DoSig : sig := Sig do_op do_res.
Abbreviation call_ e := (@call (HostSig ⊕ DoSig) _ (inr e)).

Record DOVolumes := mkDOVolumes {
  do_ClusterName : string;
  do_region : string;
  do_dropletName : string;
  do_dropletID : Z;
  do_nameTag : string;
  do_matchTagKeys : list string;
  do_matchTags : gmap string string;
  do_dropletTags : list string;
}.
Abbreviation DM := (HM DoSig DOVolumes).

Definition NewDOVolumes (clusterName : string) (volumeTags : list string) (nameTag : string)
    : HM DoSig unit (result DOVolumes) :=
  let '(keys, tags) := splitTags volumeTags [] ∅ in
  region ← call_ (GetMetadata "region");
  match region with
  | Err _ => mret (Err "failed to get droplet region")
  | Ok region =>
      id ← call_ (GetMetadata "id");
      match id with
      | Err _ => mret (Err "failed to get droplet id")
      | Ok id =>
          match Atoi id with
          | Err _ => mret (Err "failed to convert droplet ID to int")
          | Ok dropletID =>
              name ← call_ (GetMetadata "hostname");
              match name with
              | Err _ => mret (Err "failed to get droplet name")
              | Ok name =>
                  t ← call_ (GetMetadata "tags");
                  match t with
                  | Err _ => mret (Err "failed to get droplet tags")
                  | Ok tagString =>
                      token ← call_ GetAccessToken;
                      if String.eqb token "" then mret (Err "failed to initialize digitalocean cloud")
                      else mret (Ok (mkDOVolumes clusterName region name dropletID nameTag keys tags
                             (Split tagString (ascii_of_nat 10))))
                  end
              end
          end
      end
  end.

(** The pages one after the other; at most [fuel] of them. *)
Fixpoint listPages (fuel : nat) (region : option string) (page : Z) (acc : list doVolume)
    : DM (result (list doVolume)) :=
  match fuel with
  | O => die OutOfFuel
  | S n =>
      r ← call_ (ListVolumes region page);
      match r with
      | Err e => mret (Err e)
      | Ok (vs, links) =>
          match links with
          | LastPage => mret (Ok (acc ++ vs))
          | CurrentPage (Err e) => mret (Err e)
          | CurrentPage (Ok p) => listPages n region (p + 1) (acc ++ vs)
          end
      end
  end.
Definition getAllVolumesByRegion (fuel : nat) (filterByRegion : bool) : DM (result (list doVolume)) :=
  a ← get;
  listPages fuel (if filterByRegion then Some (do_region a) else None) 0 [].

(** [DOVolumes.Contains] *)
Definition hasTag (dotags : list string) (x : string) : bool :=
  existsb (fun n => String.eqb (ToUpper x) (ToUpper n)) dotags.

Definition matchesDropletTags (a : DOVolumes) (v : doVolume) : bool :=
  bool_decide (map_Forall (fun k w =>
    hasTag (dv_Tags v) (k +:+ ":" +:+ w) = true /\ hasTag (do_dropletTags a) (k +:+ ":" +:+ w) = true)
    (do_matchTags a)).

(** The values of the tags "key:value" with a given key. *)
Definition tagValues (key : string) (tags : list string) : list string :=
  omap (fun tag => match SplitN tag ":" 2 with
                   | k :: v :: _ => if String.eqb (ToUpper key) (ToUpper k) then Some v else None
                   | _ => None
                   end) tags.

(** The pairs of a tag of the volume and a tag of the droplet that agree. *)
Definition matchingTagCount (a : DOVolumes) (v : doVolume) : nat :=
  foldr (fun matchTag n =>
    (foldr (fun vt n =>
       (length (filter (fun dt => ToUpper dt = ToUpper vt) (tagValues matchTag (do_dropletTags a))) + n)%nat)
       0%nat (tagValues matchTag (dv_Tags v)) + n)%nat) 0%nat (do_matchTagKeys a).

Definition matchesTags_do (a : DOVolumes) (v : doVolume) : bool :=
  matchesDropletTags a v && bool_decide (length (do_matchTagKeys a) = matchingTagCount a v).

Definition getLocalDeviceName (v : doVolume) : string := localDevicePrefix +:+ dv_Name v.

Definition clusterKey (name : string) : string :=
  if Contains name "etcd-main" then "main" else if Contains name "etcd-events" then "events" else "".

Definition appendMatchedVolume (a : DOVolumes) (v : doVolume) : option Volume :=
  if Contains (do_nameTag a) (clusterKey (dv_Name v)) then
    let vol := mkVolume ("master-" +:+ dv_ID v) (dv_ID v) (dv_Name v) "" "" "" ""
                 (do_ClusterName a +:+ "-" +:+ do_nameTag a) in
    Some (match dv_DropletIDs v with
          | id :: _ => set_LocalDevice (getLocalDeviceName v) (set_AttachedTo (Itoa id) vol)
          | [] => vol
          end)
  else None.

(** [findAllVolumes] and [findVolumes] differ in the tags they compare. *)
Definition findWith (fuel : nat) (match_ : DOVolumes -> doVolume -> bool) (filterByRegion : bool)
    : DM (result (list Volume)) :=
  a ← get;
  r ← getAllVolumesByRegion fuel filterByRegion;
  mret (match r with
        | Err _ => Err "failed to list volumes"
        | Ok vs => Ok (omap (appendMatchedVolume a) (filter (fun v => match_ a v = true) vs))
        end).
Definition findAllVolumes (fuel : nat) (filterByRegion : bool) : DM (result (list Volume)) :=
  findWith fuel matchesDropletTags filterByRegion.
Definition findVolumes_do (fuel : nat) (filterByRegion : bool) : DM (result (list Volume)) :=
  findWith fuel matchesTags_do filterByRegion.

Definition attachRound_do (volume : Volume) : DM (option (Volume * option error)) :=
  a ← get;
  r ← call_ (AttachAction (vol_ProviderID volume) (do_dropletID a));
  match r with
  | Err _ => mret (Some (volume, Some "error attaching volume"))
  | Ok status =>
      if negb (String.eqb status "in-progress") && negb (String.eqb status "completed")
      then mret (Some (volume, Some "invalid status for digitalocean volume"))
      else
        r ← call_ (GetVolume (vol_ProviderID volume));
        match r with
        | Err _ => mret (Some (volume, Some "error getting volume status"))
        | Ok v =>
            match dv_DropletIDs v with
            | [] => hcall (HSleep (10 * Second)) ≫= fun _ => mret None
            | [id] =>
                if negb (id =? do_dropletID a)
                then mret (Some (volume, Some "digitalocean volume is attached to another droplet"))
                else mret (Some (set_LocalDevice (getLocalDeviceName v) volume, None))
            | _ => mret (Some (volume, Some "multiple attachments found for volume"))
            end
        end
  end.
Definition AttachVolume_do (fuel : nat) (volume : Volume) : DM (Volume * option error) :=
  repeat_until fuel (attachRound_do volume).

Definition MyIP_do : DM (result string) := call_ (GetMetadata "interfaces/private/0/ipv4/address").

#[export] Instance do_volumes (Containerized : bool) (fuel : nat) : Volumes DoSig DOVolumes := {|
  AttachVolume := AttachVolume_do fuel;
  FindVolumes := findVolumes_do fuel true;
  FindMountedVolume := findLocalDevicePath Containerized;
  MyIP := MyIP_do;
|}.

Definition Poll_do (fuel : nat) : DM (result (gmap string DiscoveryNode)) :=
  r ← findAllVolumes fuel false;
  match r with
  | Err _ => mret (Err "failed to discover any volumes")
  | Ok vs =>
      entries ← range (instanceToVolumeMap vs);
      r ← for_each entries ∅ (fun '(_, volume) nodes =>
        match Atoi (vol_AttachedTo volume) with
        | Err _ => mret (inr "failed to convert to integer for volume")
        | Ok dropletID =>
            r ← call_ (DropletIPv4 dropletID);
            mret (match r with
                  | Err _ => inr "failed to retrieve droplet"
                  | Ok ip => inl (<[vol_EtcdName volume := discoveryNode (vol_EtcdName volume) [ip]]> nodes)
                  end)
        end);
      mret (match r with inl nodes => Ok nodes | inr e => Err e end)
  end.
End DigitalOcean.

(** ** Promises kept *)

Import Hetzner Scaleway DigitalOcean.

#[export] Instance scw_contract Containerized fuel :
  AttachContract ScwSig ScalewayVolumes (Volumes0 := scw_volumes Containerized fuel).
Proof.
  split.
  - intros v a. simpl. unfold AttachVolume_scw. revert a. induction fuel as [|fuel IH]; intros a; simpl; [by apply wpm_die|].
    wpm_step. apply (wpm_mono _ _ (fun r _ _ => forall x, r = Some x ->
      snd x = None -> vol_LocalDevice (fst x) <> "" \/ vol_Mountpoint (fst x) <> "") _ (fun _ _ => False)); [| |done].
    + unfold attachRound_scw. wpm_steps; intros x [= <-]; try done. intros _. by left.
    + intros [x|] a' t Hx; [wpm_step; by apply Hx|]. eapply wpm_mono; [apply IH|done|done].
  - intros a. simpl. unfold FindVolumes_scw, getMatchingVolumes_scw. by wpm_steps.
  - intros v a. simpl. unfold findLocalDevicePath, PathFor, hcall. wpm_steps; done || discriminate.
Qed.

Lemma listPages_crash fuel region page acc a :
  wpm (listPages fuel region page acc) a (fun _ _ _ => True) (fun c _ => c = OutOfFuel).
Proof.
  revert page acc a. induction fuel as [|fuel IH]; intros page acc a; simpl; [by apply wpm_die|].
  wpm_step. wpm_step. destruct r as [[vs [|[p|e]]]|e]; cbn beta iota; [by wpm_steps| |by wpm_steps..].
  eapply wpm_mono; [apply IH|done|done].
Qed.

#[export] Instance do_contract Containerized fuel :
  AttachContract DoSig DOVolumes (Volumes0 := do_volumes Containerized fuel).
Proof.
  split.
  - intros v a. simpl. unfold AttachVolume_do. revert a. induction fuel as [|fuel IH]; intros a; simpl; [by apply wpm_die|].
    wpm_step. apply (wpm_mono _ _ (fun r _ _ => forall x, r = Some x ->
      snd x = None -> vol_LocalDevice (fst x) <> "" \/ vol_Mountpoint (fst x) <> "") _ (fun _ _ => False)); [| |done].
    + unfold attachRound_do, hcall. wpm_steps; intros x; try done; intros [= <-]; try done. intros _. by left.
    + intros [x|] a' t Hx; [wpm_step; by apply Hx|]. eapply wpm_mono; [apply IH|done|done].
  - intros a. simpl. unfold findVolumes_do, findWith, getAllVolumesByRegion. wpm_step. wpm_step. wpm_step. wpm_step. wpm_step.
    eapply wpm_mono; [apply listPages_crash| |by intros ? ? ->]. intros. by wpm_steps.
  - intros v a. simpl. unfold findLocalDevicePath, PathFor, hcall. wpm_steps; done || discriminate.
Qed.

(** ** A promise broken: Hetzner *)

(** The API reported the end of an attachment. *)
Definition attachment_done (x : exchange (HostSig ⊕ HcloudSig)) : bool :=
  match x with
  | existT e r =>
      match e return @res (HostSig ⊕ HcloudSig) e -> bool with
      | inr (WatchProgress _) => fun r => match r with None => true | Some _ => false end
      | _ => fun _ => false
      end r
  end.
Definition calm (x : exchange (HostSig ⊕ HcloudSig)) : Prop := attachment_done x = false.

(** Nothing was attached, or the process was ended. *)
Definition tame {S A} (R : A -> Prop) (m : HM HcloudSig S A) : Prop :=
  forall s, wpm m s (fun a _ t => Forall calm t /\ R a) (fun c t => Forall calm t \/ c = attach_fatal).

Section Tame.
Context {S : Type}.
Abbreviation T := (HM HcloudSig S).

Lemma tame_ret {A} (R : A -> Prop) a : R a -> tame R (mret a : T A).
Proof. intros H s. apply wpm_ret. auto. Qed.
Lemma tame_emits {A} (m : T A) : emits calm m -> tame (fun _ => True) m.
Proof. intros H s. eapply wpm_mono; [apply H| |]; auto. Qed.
Lemma tame_bind {A B} (R1 : A -> Prop) (R : B -> Prop) (m : T A) (f : A -> T B) :
  tame R1 m -> (forall a, R1 a -> tame R (f a)) -> tame R (m ≫= f).
Proof.
  intros Hm Hf s. apply wpm_bind. eapply wpm_mono; [apply Hm| |done].
  intros a s' t [Ht Ha]. eapply wpm_mono; [by apply Hf| |]; simpl.
  - intros b s'' t' [Ht' Hb]. by rewrite Forall_app.
  - intros c t' [Ht'|Hc]; [left; by apply Forall_app|by right].
Qed.
Lemma tame_mono {A} (R R' : A -> Prop) (m : T A) : tame R m -> (forall a, R a -> R' a) -> tame R' m.
Proof. intros H HR s. eapply wpm_mono; [apply H| |]; naive_solver. Qed.
Lemma tame_for_each {A B R} (xs : list A) (acc : B) (body : A -> B -> T (B + R)) :
  (forall x acc, x ∈ xs -> tame (fun _ => True) (body x acc)) -> tame (fun _ => True) (for_each xs acc body).
Proof.
  revert acc. induction xs as [|x xs IH]; intros acc Hb; simpl; [by apply tame_ret|].
  eapply tame_bind; [apply Hb; by left|]. intros [b|r] _; [|by apply tame_ret].
  apply IH. intros. apply Hb. by right.
Qed.
Lemma tame_repeat {R} fuel (body : T (option R)) :
  tame (fun _ => True) body -> tame (fun _ => True) (repeat_until fuel body).
Proof.
  intros Hb. induction fuel as [|fuel IH]; simpl; [intros s; apply wpm_die; auto|].
  eapply tame_bind; [exact Hb|]. intros [r|] _; [by apply tame_ret|done].
Qed.
End Tame.

Lemma tame_provider {A} (R : A -> Prop) (m : HM HcloudSig HetznerVolumes A) : tame R m -> tame R (provider m).
Proof.
  intros H k. unfold wpm, provider, zoom. apply wp_bind. eapply wp_mono; [apply (H (vc_provider k))|].
  intros t [[a p]|c] Ht; simpl in *; [by rewrite app_nil_r|done].
Qed.

(** A volume that is attached nowhere has no device. *)
Definition unattached_blank (v : Volume) : Prop :=
  vol_AttachedTo v = "" -> vol_LocalDevice v = "" /\ vol_Mountpoint v = "".

Lemma etcdVolume_blank a v : unattached_blank (etcdVolume a v).
Proof.
  unfold unattached_blank, etcdVolume. destruct (cv_Server v) as [id|]; [|done].
  destruct (id =? _); simpl; intros H; by apply Itoa_nonempty in H.
Qed.

Lemma tame_FindVolumes :
  tame (fun r => forall vs, r = Ok vs -> Forall unattached_blank vs) FindVolumes_hetzner.
Proof.
  intros a. unfold FindVolumes_hetzner, getMatchingVolumes. wpm_steps;
    (split; [repeat (apply Forall_cons_2; [reflexivity|]); apply Forall_nil_2|]); intros vs ?; simplify_eq.
  apply Forall_fmap, Forall_forall. intros v _. apply etcdVolume_blank.
Qed.

Lemma attach_keeps v a :
  wpm (AttachVolume_hetzner v) a (fun r _ t => Forall calm t \/ r = (v, None)) (fun _ _ => False).
Proof.
  unfold AttachVolume_hetzner. wpm_step. wpm_step. destruct (Atoi _) as [id|e]; [|wpm_step; by left; repeat constructor].
  wpm_step. wpm_step. destruct r as [[cv|]|e]; cbn beta iota; [|wpm_step; left; by repeat constructor..].
  destruct (cv_Server cv) as [sid|]; [destruct (negb _); wpm_step; left; by repeat constructor|].
  wpm_step. wpm_step. destruct r as [action|e]; cbn beta iota; [|wpm_step; left; by repeat constructor].
  wpm_step. wpm_step. destruct r as [e|]; cbn beta iota; wpm_step; [left; by repeat constructor|by right].
Qed.

Section Mounting.
Context (Containerized : bool).
#[local] Existing Instance hetzner_volumes.
Abbreviation HMM := (HM HcloudSig (VolumeMountController HetznerVolumes)).
#[local] Instance this_volumes : Volumes HcloudSig HetznerVolumes := hetzner_volumes Containerized.

Lemma tame_attachOne v attached :
  vol_LocalDevice v = "" -> vol_Mountpoint v = "" -> tame (fun _ => True) (attachOne v attached : HMM _).
Proof.
  intros Hl Hm. unfold attachOne. destruct attached as [|x l]; [|by apply tame_ret].
  intros k. wpm_step. unfold wpm at 1, provider, zoom. apply wp_bind.
  eapply wp_mono; [apply (attach_keeps v (vc_provider k))|].
  intros t [[[v' e] p]|c] Ht; simpl in *; [|done]. rewrite app_nil_r.
  destruct e as [e|].
  { wpm_step. rewrite app_nil_r. destruct Ht; [done|naive_solver]. }
  destruct (_ && _) eqn:E; wpm_step; rewrite app_nil_r; [by right|].
  destruct Ht as [Ht|Ht]; [done|]. simplify_eq. by rewrite Hl, Hm in E.
Qed.

Lemma emits_PathFor_calm {S} inContainer p : emits calm (PathFor inContainer p : HM HcloudSig S string).
Proof. unfold PathFor. emits_solve. Qed.

Lemma tame_attach : tame (fun _ => True) (attachMasterVolumes : HMM _).
Proof.
  unfold attachMasterVolumes. eapply tame_bind; [apply tame_provider, tame_FindVolumes|].
  intros [vs|e] Hvs; [|by apply tame_ret]. specialize (Hvs vs eq_refl). rewrite Forall_forall in Hvs.
  destruct (filter (fun v => vol_AttachedTo v = "") vs) as [|v0 l] eqn:E; [by apply tame_ret|].
  eapply tame_bind; [|intros; by apply tame_ret]. rewrite <- E. apply tame_for_each.
  intros v acc [Ha Hv]%list_elem_of_filter. destruct (Hvs v Hv Ha). by apply tame_attachOne.
Qed.

Lemma emits_safeFormatAndMount fuel v target fstype :
  emits calm (safeFormatAndMount Containerized fuel v target fstype : HMM _).
Proof.
  unfold safeFormatAndMount, awaitDevice, mountDevice, mountInContainer, isSameDevice, namesFor, hcall, provider.
  simpl. unfold findLocalDevicePath, hcall.
  repeat first [apply emits_PathFor_calm | emits_step]; done.
Qed.

Lemma emits_mountOne fuel v : emits calm (mountOne Containerized fuel v : HMM _).
Proof.
  unfold mountOne, hcall. repeat first [apply emits_PathFor_calm | apply emits_safeFormatAndMount | emits_step]; done.
Qed.

Lemma tame_mountMasterVolumes fuel : tame (fun _ => True) (mountMasterVolumes Containerized fuel : HMM _).
Proof.
  unfold mountMasterVolumes. eapply tame_bind; [apply tame_attach|]. intros [vs|e] _; [|by apply tame_ret].
  apply tame_emits. repeat first [apply emits_mountOne | emits_step]; done.
Qed.

Lemma tame_WaitForVolumes rounds fuel : tame (fun _ => True) (WaitForVolumes Containerized rounds fuel : HMM _).
Proof.
  apply tame_repeat. eapply tame_bind; [apply tame_mountMasterVolumes|].
  intros r _. apply tame_emits. unfold hcall. repeat emits_step; done.
Qed.

(** The Hetzner provider attaches a volume and returns it as it was found,
    without a device: every run of the start-up in which the API reports the end
    of an attachment ends with the fatal error of the mounter, which wants the
    device or the mountpoint from the provider. *)
Theorem hetzner_attach_fatal rounds fuel a t o
  (Hrun : runs (WaitForVolumes Containerized rounds fuel (newVolumeMountController a)) t o)
  (Hdone : Exists (fun x => attachment_done x = true) t) :
  o = Crashed attach_fatal.
Proof.
  pose proof (wp_runs _ _ _ _ Hrun (tame_WaitForVolumes rounds fuel (newVolumeMountController a))) as H.
  assert (~ Forall calm t) as Hn.
  { rewrite Exists_exists in Hdone. destruct Hdone as (x & Hx & E). rewrite Forall_forall. intros Hall.
    specialize (Hall x Hx). unfold calm in Hall. congruence. }
  destruct o as [[r k]|c]; simpl in H; [by destruct H|]. destruct H as [?| ->]; done.
Qed.
End Mounting.

Module HetznerDemo.
(** A project with one free volume, and a server in its location. *)
Definition free : cloudVolume := mkCloudVolume 7 (Some "fsn1") None.
Definition cloud : handler (HostSig ⊕ HcloudSig) unit := fun e w =>
  (match e return @res (HostSig ⊕ HcloudSig) e with
   | inl h => fst (MountDemo.machine (inl h) w)
   | inr InstanceID => Ok 1
   | inr GetToken => "token"
   | inr (ServerByID _) => Ok None
   | inr (AllVolumes _) => Ok [free]
   | inr (VolumeByID _) => Ok (Some free)
   | inr (Attach _ _) => Ok 1
   | inr (WatchProgress _) => None
   end, w).
Definition a0 : HetznerVolumes := mkHetznerVolumes "c" ∅ ∅ (mkServer 1 (Some "fsn1") ["10.0.0.1"]).
Definition start : prog (HostSig ⊕ HcloudSig) _ :=
  WaitForVolumes (Volumes0 := hetzner_volumes false) false 1 1 (newVolumeMountController a0).
End HetznerDemo.

Lemma hetzner_attach_fatal_witness :
  Exists (fun x => attachment_done x = true) (trace_of HetznerDemo.cloud HetznerDemo.start tt) /\
  outcome_of HetznerDemo.cloud HetznerDemo.start tt = Crashed attach_fatal.
Proof.
  assert (Exists (fun x => attachment_done x = true) (trace_of HetznerDemo.cloud HetznerDemo.start tt)) as Hx.
  { apply Exists_exists. exists (@existT (op (HostSig ⊕ HcloudSig)) (@res (HostSig ⊕ HcloudSig)) (inr (WatchProgress 1)) None).
    split; [|reflexivity].
    vm_compute. right. right. right. right. left. }
  split; [exact Hx|].
  exact (hetzner_attach_fatal false 1 1 HetznerDemo.a0 _ _ (exec_runs HetznerDemo.cloud HetznerDemo.start tt) Hx).
Defined.
