(* ===== verification/VolumesExternal.v ===== *)
(** * External disks, and discovery on a path store

    pkg/volumes/external: the volumes are directories that someone else mounted,
    and peers are found by files named after their addresses.
    pkg/privateapi/discovery/vfs: every node publishes a file with its record in a
    common directory, and reads those of the others. *)

From Stdlib Require Import Ascii.
From stdpp Require Import base gmap sets list strings sorting.
From S2P Require Import Prelude Effects EffectsSum GoLib Vfs PrivateApi Volumes.

Local Open Scope Z_scope.

(** ** Addresses *)

(** A [net.IP] is its bytes, 4 or 16 of them. *)
Definition IP : Type := list Z.
Definition To4 (ip : IP) : option IP :=
  if Nat.eqb (length ip) 4 then Some ip
  else if Nat.eqb (length ip) 16 && bool_decide (take 12 ip = repeat 0 10 ++ [255; 255]) then Some (drop 12 ip)
  else None.
Definition IsLoopback (ip : IP) : bool :=
  match To4 ip with
  | Some ip4 => bool_decide (head ip4 = Some 127)
  | None => bool_decide (ip = repeat 0 15 ++ [1])
  end.
Definition IsLinkLocalUnicast (ip : IP) : bool :=
  match To4 ip with
  | Some ip4 => bool_decide (take 2 ip4 = [169; 254])
  | None =>
      match ip with
      | a :: b :: _ => Nat.eqb (length ip) 16 && (a =? 254) && (Z.land b 192 =? 128)
      | _ => false
      end
  end.

(** Shorter addresses first, then byte by byte. *)
Fixpoint bytes_less (a b : IP) : bool :=
  match a, b with
  | x :: a', y :: b' => if x =? y then bytes_less a' b' else x <? y
  | _, _ => false
  end.
Definition ip_less (a b : IP) : bool :=
  if Nat.eqb (length a) (length b) then bytes_less a b else Nat.ltb (length a) (length b).
Definition ip_le (a b : IP) : Prop := ip_less b a = false.
#[export] Instance ip_le_dec : RelDecision ip_le.
Proof. intros a b. unfold ip_le. apply _. Defined.

(** ** external/volumes.go *)

(** The network of the machine.  An address of an unknown type is [None]. *)
Inductive net_op : Type := NInterfaces | NAddrs (iface : string).
Definition net_res (e : net_op) : Type :=
  match e with NInterfaces => result (list string) | NAddrs _ => result (list (option IP)) end.
Definition NetSig : sig := Sig net_op net_res.
Abbreviation ncall e := (@call (HostSig ⊕ NetSig) _ (inr e)).

Record ExternalVolumes := mkExternalVolumes {
  ex_basedir : string;
  ex_clusterName : string;
  ex_localIP : IP;
  ex_volumeTags : list string;
}.
Abbreviation XM := (HM NetSig ExternalVolumes).

Section External.
(** [net.IP.String] and [net.ParseIP]. *)
Context (IPString : IP -> string) (ParseIP : string -> option IP).

Definition usable (addr : option IP) : option IP :=
  match addr with
  | Some ip => if IsLoopback ip || IsLinkLocalUnicast ip then None else Some ip
  | None => None
  end.

(** [ips[0]] panics if there is no address. *)
Definition findLocalIP {S} : HM NetSig S (result IP) :=
  r ← ncall NInterfaces;
  match r with
  | Err _ => mret (Err "error getting network interfaces")
  | Ok ifaces =>
      r ← for_each ifaces [] (fun iface ips =>
            r ← ncall (NAddrs iface);
            mret (match r with
                  | Err _ => inr "error getting addresses for interface"
                  | Ok addrs => inl (ips ++ omap usable addrs)
                  end));
      match r with
      | inr e => mret (Err e)
      | inl ips => ip ← deref "ips[0]" (head (stable_sort ip_le ips)); mret (Ok ip)
      end
  end.

Definition NewExternalVolumes (clusterName basedir : string) (volumeTags : list string)
    : HM NetSig unit (result ExternalVolumes) :=
  r ← findLocalIP;
  match r with
  | Err e => mret (Err e)
  | Ok localIP =>
      if Nat.eqb (length volumeTags) 1
      then mret (Ok (mkExternalVolumes basedir clusterName localIP volumeTags))
      else mret (Err "baremetal expected a single volume tag (the prefix to use)")
  end.

(** As written: a directory whose name has the prefix is the one left out. *)
Definition matchesPrefix (tags : list string) (name : string) : bool :=
  forallb (fun tag => negb (HasPrefix name tag)) tags.

Definition externalVolume (a : ExternalVolumes) (name : string) : Volume :=
  let mntPath := PathJoin [PathJoin [ex_basedir a; name]; "mnt"] in
  mkVolume ("master-" +:+ mntPath) mntPath name mntPath (IPString (ex_localIP a)) mntPath "" mntPath.

Definition FindVolumes_external : XM (result (list Volume)) :=
  a ← get;
  r ← hcall (HReadDir (ex_basedir a));
  match r with
  | Err _ => mret (Err "error reading base directory")
  | Ok files =>
      r ← for_each files [] (fun f allVolumes =>
            let '(name, isDir) := f in
            if negb isDir || negb (matchesPrefix (ex_volumeTags a) name) then mret (inl allVolumes) else
            s ← hcall (HStat (PathJoin [PathJoin [ex_basedir a; name]; "mnt"]));
            mret (match s with
                  | StatNotExist => inl allVolumes
                  | StatErr _ => inr "error doing stat"
                  | StatOk true _ => inl (allVolumes ++ [externalVolume a name])
                  | StatOk false _ => inl allVolumes
                  end));
      mret (match r with inl vs => Ok vs | inr e => Err e end)
  end.

Definition MyIP_external : XM (result string) := a ← get; mret (Ok (IPString (ex_localIP a))).

#[export] Instance external_volumes : Volumes NetSig ExternalVolumes := {|
  AttachVolume := fun v => mret (v, None);
  FindVolumes := FindVolumes_external;
  FindMountedVolume := fun _ => mret (Err "FindMountedVolume should not be called for ExternalVolumes");
  MyIP := MyIP_external;
|}.

(** ** external/discovery.go *)

Definition seedNode (ip : IP) : DiscoveryNode :=
  let ipString := IPString ip in discoveryNode ("ip-" +:+ ReplaceByte "." "-" ipString) [ipString].
Definition addNode (nodes : gmap string DiscoveryNode) (n : DiscoveryNode) : gmap string DiscoveryNode :=
  <[Disc_ID n := n]> nodes.
Definition seedNodes (files : list (string * bool)) : list DiscoveryNode :=
  omap (fun '(name, isDir) => if (isDir : bool) then None else seedNode <$> ParseIP name) files.

Definition Poll_external (seeddir : string) : XM (result (gmap string DiscoveryNode)) :=
  r ← hcall (HReadDir seeddir);
  match r with
  | Err _ => mret (Err "error reading seed directory")
  | Ok files =>
      let nodes := foldl addNode ∅ (seedNodes files) in
      r ← FindVolumes_external;
      match r with
      | Err e => mret (Err e)
      | Ok vs =>
          r ← MyIP_external;
          mret (match r with
                | Err e => Err e
                | Ok ipString => Ok (foldl addNode nodes ((fun v => discoveryNode (vol_EtcdName v) [ipString]) <$> vs))
                end)
      end
  end.
End External.

(** ** The start-up on external disks *)

Section Startup.
Context (IPString : IP -> string) (Containerized : bool) (a : ExternalVolumes).
#[local] Instance this_external : Volumes NetSig ExternalVolumes := external_volumes IPString.

(** Reading, waiting and iterating only. *)
Definition readonly (x : exchange (HostSig ⊕ NetSig)) : Prop :=
  match asked x with
  | inl (HFormatAndMount _ _ _ _ | HResize _ _ _ | HMount _ _ _ | HMkdirAll _ | HWriteFile _ _ | HExec _) => False
  | _ => True
  end.
(** A volume of the base directory, reported as mounted. *)
Definition premounted (v : Volume) : Prop :=
  exists name, v = externalVolume IPString a name /\ matchesPrefix (ex_volumeTags a) name = true.
Definition ext_inv (k : VolumeMountController ExternalVolumes) : Prop :=
  vc_provider k = a /\ map_Forall (fun _ v => premounted v) (vc_mounted k).

Lemma premounted_Mountpoint v : premounted v -> vol_Mountpoint v <> "".
Proof. intros (name & -> & _). by apply PathJoin_nonempty. Qed.

Abbreviation ext_hoare := (hoare ext_inv readonly (fun c => c = OutOfFuel)).

Lemma hoare_FindVolumes :
  hoare (fun b => b = a) readonly (fun _ => False) (fun r => forall vs, r = Ok vs -> Forall premounted vs)
    (FindVolumes_external IPString).
Proof.
  unfold FindVolumes_external. hoare_step. subst. apply (hoare_bind _ _ _ (fun _ => True)).
  { by unfold hcall; hoare_step. }
  intros [files|e] _; [|by apply hoare_ret].
  apply (hoare_bind _ _ _ (fun r : list Volume + error => match r with inl vs => Forall premounted vs | inr _ => True end)).
  - apply (hoare_for_each _ _ _ (Forall premounted) (fun _ => True)); [done|].
    intros [name isDir] vs _ Hvs. destruct (negb isDir || negb (matchesPrefix (ex_volumeTags a) name)) eqn:E; [by apply hoare_ret|].
    apply orb_false_iff in E as [_ E]. apply negb_false_iff in E.
    apply (hoare_bind _ _ _ (fun _ => True)); [by unfold hcall; hoare_step|]. intros st _. apply hoare_ret.
    destruct st as [[] ?| |]; try done. apply Forall_app. split; [done|]. apply Forall_singleton. by exists name.
  - intros [vs|e] Hr; apply hoare_ret; [by intros ? [= <-]|done].
Qed.

(** A method of the provider keeps the controller. *)
Lemma hoare_provider {A} (R : A -> Prop) (m : HM NetSig ExternalVolumes A) :
  hoare (fun b => b = a) readonly (fun _ => False) R m -> ext_hoare R (provider m).
Proof.
  intros H k [Hk Hm]. unfold provider, zoom, wpm. apply wp_bind. rewrite Hk. eapply wp_mono; [apply (H a eq_refl)|].
  intros t [[r b]|c]; simpl; [|by intros [_ []]]. intros (-> & Ht & Hr). rewrite app_nil_r. by repeat split.
Qed.

Lemma hoare_attach : ext_hoare (fun r => forall vs, r = Ok vs -> Forall premounted vs) attachMasterVolumes.
Proof.
  unfold attachMasterVolumes. eapply hoare_bind; [apply hoare_provider, hoare_FindVolumes|].
  intros [vs|e] Hvs; [|by apply hoare_ret]. specialize (Hvs vs eq_refl).
  assert (forall P (HP : forall v, Decision (P v)), Forall premounted (filter P vs)) as Hf
    by (intros; rewrite Forall_forall in Hvs |- *; intros x [_ Hx]%list_elem_of_filter; auto).
  destruct (filter (fun v => vol_AttachedTo v = "") vs) as [|v0 rest] eqn:E;
    [apply hoare_ret; intros ? [= <-]; apply Hf|]. rewrite <- E.
  apply (hoare_bind _ _ _ (fun r : list Volume + list Volume => match r with inl l | inr l => Forall premounted l end)).
  - apply (hoare_for_each _ _ _ (Forall premounted) (Forall premounted)); [apply Hf|].
    intros v att Hv Hatt. unfold attachOne. destruct att; [|by apply hoare_ret]. cbn [AttachVolume this_external external_volumes].
    apply (hoare_bind _ _ _ (fun r => r = (v, None))).
    { apply hoare_provider. by apply hoare_ret. }
    intros ? ->. assert (premounted v) as Hp by (apply list_elem_of_filter in Hv as [_ Hv]; by eapply Forall_forall in Hvs).
    apply premounted_Mountpoint in Hp as Hne. apply String.eqb_neq in Hne. rewrite Hne, andb_false_r.
    apply hoare_ret. by apply Forall_singleton.
  - intros r Hr. apply hoare_ret. intros ? [= <-]. by destruct r.
Qed.

Lemma hoare_mount fuel :
  ext_hoare (fun r => forall vs, r = Ok vs -> Forall premounted vs) (mountMasterVolumes Containerized fuel).
Proof.
  unfold mountMasterVolumes. eapply hoare_bind; [apply hoare_attach|].
  intros [vs|e] Hvs; [|by apply hoare_ret]. specialize (Hvs vs eq_refl).
  apply (hoare_bind _ _ _ (fun r => r = inl tt \/ r = inr None)).
  - eapply hoare_mono; [apply (hoare_for_each _ _ _ (fun _ => True) (fun r => r = None)); [done|]|].
    + intros v _ Hv _. eapply Forall_forall in Hvs; [|exact Hv]. unfold mountOne.
      hoare_step. destruct (negb _); [by apply hoare_ret|]. destruct (bool_decide (is_Some _)); [by apply hoare_ret|].
      apply premounted_Mountpoint in Hvs as Hne. apply String.eqb_neq in Hne. rewrite Hne. simpl.
      apply (hoare_bind _ _ _ (fun _ => True)); [|intros; by apply hoare_ret]. apply hoare_modify; [|done].
      intros k [Hk Hm]. split; [done|]. by apply map_Forall_insert_2.
    + intros [[]|?] H; [by left|right; by subst].
  - intros r Hr. destruct Hr as [-> | ->]; (hoare_step; eapply hoare_bind; [by apply hoare_range|]; intros l Hl; apply hoare_ret;
      intros ? [= <-]; match goal with H : ext_inv _ |- _ => destruct H as [_ Hm] end;
      apply Forall_fmap; eapply Permutation_Forall; [symmetry; exact Hl|]; apply map_Forall_to_list in Hm;
      eapply Forall_impl; [exact Hm|]; by intros [? ?]).
Qed.

(** On external disks the start-up only reads, in every environment: it formats, mounts, resizes and creates nothing, and ends with volumes that are directories of the base directory, reported as mounted where they are, or at the bound on its attempts.  As the code is written these are the directories whose names do not have the tag as a prefix. *)
Theorem external_readonly rounds fuel t o :
  runs (WaitForVolumes Containerized rounds fuel (newVolumeMountController a)) t o ->
  Forall readonly t /\
  match o with
  | Done (vs, _) => vs <> [] /\ Forall premounted vs
  | Crashed c => c = OutOfFuel
  end.
Proof.
  assert (ext_hoare (fun vs => vs <> [] /\ Forall premounted vs) (WaitForVolumes Containerized rounds fuel)) as H.
  { apply hoare_repeat_until; [done|]. eapply hoare_bind; [apply hoare_mount|]. intros [[|v vs]|e] Hr.
    - apply (hoare_bind _ _ _ (fun _ => True)); [by unfold hcall; hoare_step|]. intros. by apply hoare_ret.
    - apply hoare_ret. split; [done|]. by apply Hr.
    - apply (hoare_bind _ _ _ (fun _ => True)); [by unfold hcall; hoare_step|]. intros. by apply hoare_ret. }
  intros Hrun. assert (ext_inv (newVolumeMountController a)) as Hinv by (split; [done|apply map_Forall_empty]).
  pose proof (wp_runs _ _ _ _ Hrun (H _ Hinv)) as Hq. destruct o as [[vs k]|c]; naive_solver.
Qed.
End Startup.

Module ExternalDemo.
Definition volumes : ExternalVolumes := mkExternalVolumes "/mnt/disks" "c" [10; 0; 0; 1] ["etcd-"].
Definition dotted (ip : IP) : string := Join (Itoa <$> ip) ".".
(** A directory with the prefix, one without, and a file. *)
Definition machine : handler (HostSig ⊕ NetSig) unit := fun e w =>
  match e with
  | inl (HReadDir _) => (Ok [("etcd-main", true); ("main", true); ("notes", false)], w)
  | inl (HStat _ | HLstat _) => (StatOk true false, w)
  | inl (HEvalSymlinks _ | HAbs _ | HReadFile _ | HExec _ | HGetDeviceNameFromMount _) => (Ok "", w)
  | inl (HListMounts _) => (Ok [], w)
  | inl (HSleep _) => (tt, w)
  | inl HRange => ([], w)
  | inl _ => (None, w)
  | inr NInterfaces => (Ok ["lo"; "eth0"], w)
  | inr (NAddrs i) => (Ok (if String.eqb i "lo" then [Some [127; 0; 0; 1]] else [Some [10; 0; 0; 7]; Some [10; 0; 0; 1]]), w)
  end.
Definition boot : prog (HostSig ⊕ NetSig) _ :=
  WaitForVolumes (Volumes0 := external_volumes dotted) false 1 1 (newVolumeMountController volumes).
End ExternalDemo.

Lemma external_readonly_witness :
  Forall readonly (trace_of ExternalDemo.machine ExternalDemo.boot tt) /\
  exists k, outcome_of ExternalDemo.machine ExternalDemo.boot tt =
    Done ([externalVolume ExternalDemo.dotted ExternalDemo.volumes "main"], k).
Proof.
  assert (exists k, outcome_of ExternalDemo.machine ExternalDemo.boot tt =
    Done ([externalVolume ExternalDemo.dotted ExternalDemo.volumes "main"], k)) as [k E] by (eexists; vm_compute; reflexivity).
  apply exec_runs_eq in E as Hr.
  split; [|exists k; exact E].
  exact (proj1 (external_readonly ExternalDemo.dotted false ExternalDemo.volumes 1 1 _ _ Hr)).
Defined.

(** ** privateapi/discovery/vfs/discovery.go *)

Inductive disc_op : Type := DReadDir (base : string) | DReadFile (p : string) | DWriteFile (p data : string).
Definition disc_res (e : disc_op) : Type :=
  match e with DReadDir _ => result (list string) | DReadFile _ => result string | DWriteFile _ _ => option error end.
Definition DiscSig : sig := Sig disc_op disc_res.
Abbreviation dcall e := (@call DiscSig _ e).

Record VFSDiscovery := mkVFSDiscovery { vd_base : string; vd_me : DiscoveryNode }.

Section VfsDiscovery.
(** [json.Marshal] and [json.Unmarshal] of a node. *)
Context (Marshal : DiscoveryNode -> result string) (Unmarshal : string -> result DiscoveryNode).

Definition publish {S} (d : VFSDiscovery) : M DiscSig S (option error) :=
  if String.eqb (Disc_ID (vd_me d)) "" then mret (Some "DiscoveryNode does not have ID set") else
  match Marshal (vd_me d) with
  | Err _ => mret (Some "error marshalling to JSON")
  | Ok meJson =>
      e ← dcall (DWriteFile (PathJoin [vd_base d; Disc_ID (vd_me d)]) meJson);
      mret (match e with Some _ => Some "error writing file" | None => None end)
  end.

Definition NewVFSDiscovery {S} (base : string) (me : DiscoveryNode) : M DiscSig S (result VFSDiscovery) :=
  let d := mkVFSDiscovery base me in
  e ← publish d;
  mret (match e with Some e => Err e | None => Ok d end).

(** A file that cannot be read or parsed is left out. *)
Definition readNode {S} (p : string) (nodes : gmap string DiscoveryNode) : M DiscSig S (gmap string DiscoveryNode) :=
  r ← dcall (DReadFile p);
  mret (match r with
        | Err _ => nodes
        | Ok data => match Unmarshal data with Err _ => nodes | Ok node => <[Base p := node]> nodes end
        end).

Definition Poll_vfs {S} (d : VFSDiscovery) : M DiscSig S (result (gmap string DiscoveryNode)) :=
  r ← dcall (DReadDir (vd_base d));
  match r with
  | Err _ => mret (Err "error reading directory")
  | Ok files => nodes ← for_fold files ∅ readNode; mret (Ok nodes)
  end.
End VfsDiscovery.

(** ** What is published is found *)

(** A store in which reading finds what was written. *)
Definition store : handler DiscSig (gmap string string) := fun e w =>
  match e with
  | DReadDir base => (Ok (filter (fun p => PathJoin [base; Base p] = p) (map_to_list w).*1), w)
  | DReadFile p => (match w !! p with Some data => Ok data | None => Err "file does not exist" end, w)
  | DWriteFile p data => (None, <[p := data]> w)
  end.

(** The entries of a fold of insertions. *)
Lemma fold_insert {P N} `{EqDecision P} (key : P -> string) (val : P -> option N) (files : list P) :
  let fold := foldl (fun m p => match val p with Some v => <[key p := v]> m | None => m end) (∅ : gmap string N) files in
  (forall k v, fold !! k = Some v -> exists p, p ∈ files /\ key p = k /\ val p = Some v) /\
  ((forall p q, p ∈ files -> q ∈ files -> key p = key q -> p = q) ->
   forall p v, p ∈ files -> val p = Some v -> fold !! key p = Some v).
Proof.
  induction files as [|x files [IH1 IH2]] using rev_ind; simpl; [split; [set_solver|intros _ p v H; set_solver]|].
  rewrite foldl_snoc. split.
  - intros k v. destruct (val x) as [vx|] eqn:Ex; [|intros H; destruct (IH1 k v H) as (p & ? & ? & ?); exists p; set_solver].
    intros [[<- <-]|[_ H]]%lookup_insert_Some; [exists x; set_solver|].
    destruct (IH1 k v H) as (p & ? & ? & ?); exists p; set_solver.
  - intros Hu p v Hp Hv. destruct (decide (p = x)) as [->|Hne]; [rewrite Hv; by rewrite lookup_insert_eq|].
    assert (p ∈ files) as Hpf by set_solver.
    assert (key p <> key x) as Hk by (intros E; apply Hne, Hu; set_solver).
    destruct (val x); [rewrite lookup_insert_ne by done|]; (apply IH2; [|done|done]); intros; apply Hu; set_solver.
Qed.

Section Published.
Context (Marshal : DiscoveryNode -> result string) (Unmarshal : string -> result DiscoveryNode).
Context (base : string) (Hbase : cleanPath base).
(** What is written can be read back. *)
Hypothesis Unmarshal_Marshal : forall n j, Marshal n = Ok j -> Unmarshal j = Ok n.

Definition fileOf (id : string) : string := PathJoin [base; id].
Definition publishable (n : DiscoveryNode) : Prop := plain (Disc_ID n) = true /\ is_ok (Marshal n) = true.

(** The store has the records [m], and nothing else. *)
Definition records (m : gmap string DiscoveryNode) (w : gmap string string) : Prop :=
  (forall id n, m !! id = Some n -> Disc_ID n = id /\ publishable n) /\
  (forall p j, w !! p = Some j <-> exists id n, p = fileOf id /\ m !! id = Some n /\ Marshal n = Ok j).

Lemma Base_fileOf id : plain id = true -> Base (fileOf id) = id.
Proof. intros Hid. apply (Base_below base [] id Hbase). simpl. by rewrite Hid. Qed.

Lemma records_insert m w n j :
  plain (Disc_ID n) = true -> Marshal n = Ok j -> records m w ->
  records (<[Disc_ID n := n]> m) (<[fileOf (Disc_ID n) := j]> w).
Proof.
  intros Hp Hj [H1 H2]. split.
  - intros id n' [[<- <-]|[_ H]]%lookup_insert_Some; [|auto]. split; [done|]. split; [done|by rewrite Hj].
  - intros p j'. rewrite lookup_insert_Some, H2. split.
    + intros [[<- <-]|[Hne (id & n' & -> & Hn & Hm)]]; [exists (Disc_ID n), n; by rewrite lookup_insert_eq|].
      exists id, n'. rewrite lookup_insert_ne by congruence. auto.
    + intros (id & n' & -> & [[<- <-]|[Hne Hn]]%lookup_insert_Some & Hm); [left; split; congruence|].
      right. split; [|by exists id, n']. intros E. apply Hne. destruct (H1 id n' Hn) as [<- [Hid _]].
      rewrite <- (Base_fileOf _ Hid), <- E. by rewrite Base_fileOf.
Qed.

Lemma publish_spec (s : unit) n m w :
  publishable n -> records m w ->
  evm store (publish Marshal (mkVFSDiscovery base n)) s w
    (fun r s' w' => r = None /\ records (<[Disc_ID n := n]> m) w').
Proof.
  intros [Hp Hok] Hw. unfold publish. simpl.
  destruct (String.eqb_spec (Disc_ID n) "") as [E|_]; [by rewrite E in Hp|].
  destruct (Marshal n) as [j|e] eqn:Ej; [|done]. apply evm_bind. split; [done|]. by apply records_insert.
Qed.

Lemma publishAll_spec (s : unit) ns m w :
  Forall publishable ns -> records m w ->
  evm store (for_each ns tt (fun n _ => e ← publish Marshal (mkVFSDiscovery base n);
      mret (match e with Some e => inr e | None => inl tt end))) s w
    (fun r s' w' => r = inl tt /\ records (foldl (fun m n => <[Disc_ID n := n]> m) m ns) w').
Proof.
  intros Hns. revert m w s. induction Hns as [|n ns Hn Hns IH]; intros m w s Hw; cbn [for_each foldl]; [by apply evm_ret|].
  apply evm_bind, evm_bind. eapply evm_mono; [by apply publish_spec|]. intros r s' w' [-> Hw']. apply evm_ret. cbn beta iota.
  by apply IH.
Qed.

(** What a poll of the store makes of the files. *)
Definition parsed (w : gmap string string) (p : string) : option DiscoveryNode :=
  match w !! p with
  | Some data => match Unmarshal data with Ok n => Some n | Err _ => None end
  | None => None
  end.

Lemma readNode_spec (s : unit) w p (nodes : gmap string DiscoveryNode) :
  evm store (readNode Unmarshal p nodes) s w
    (fun r _ w' => w' = w /\ r = match parsed w p with Some v => <[Base p := v]> nodes | None => nodes end).
Proof. unfold evm, readNode, parsed, mbind, M_bind, mret, M_ret, call. cbn. destruct (w !! p) as [data|]; [|done]. by destruct (Unmarshal data). Qed.

Lemma Poll_loop (s : unit) w files (nodes : gmap string DiscoveryNode) :
  evm store (for_fold files nodes (readNode Unmarshal)) s w
    (fun r _ w' => w' = w /\
       r = foldl (fun m p => match parsed w p with Some v => <[Base p := v]> m | None => m end) nodes files).
Proof.
  revert nodes s. induction files as [|p files IH]; intros nodes s; cbn [for_fold foldl]; [by apply evm_ret|].
  apply evm_bind. eapply evm_mono; [apply readNode_spec|]. intros r s' w' [-> ->]. apply IH.
Qed.

Lemma Poll_vfs_spec (s : unit) me m w :
  records m w ->
  evm store (Poll_vfs Unmarshal (mkVFSDiscovery base me)) s w (fun r _ w' => w' = w /\ r = Ok m).
Proof.
  intros [H1 H2]. unfold Poll_vfs. cbn [vd_base]. do 2 evm_step. cbn beta iota delta [fst snd store].
  evm_step. eapply evm_mono; [apply Poll_loop|]. intros r s' w' [-> ->]. apply evm_ret. split; [done|]. f_equal.
  set (files := filter _ _).
  assert (forall p, p ∈ files <-> exists id n, p = fileOf id /\ m !! id = Some n) as Hf.
  { intros p. unfold files. rewrite list_elem_of_filter, list_elem_of_fmap. split.
    - intros [_ ([p' j] & -> & Hin)]. apply elem_of_map_to_list, H2 in Hin as (id & n & -> & Hn & _). eauto.
    - intros (id & n & -> & Hn). destruct (H1 id n Hn) as [<- [Hid Hok]]. split; [by rewrite Base_fileOf|].
      destruct (Marshal n) as [j|] eqn:Ej; [|done]. exists (fileOf (Disc_ID n), j). split; [done|].
      apply elem_of_map_to_list, H2. eauto. }
  assert (forall id n, m !! id = Some n -> Base (fileOf id) = id /\ parsed w (fileOf id) = Some n) as Hpar.
  { intros id n Hn. destruct (H1 id n Hn) as [<- [Hid Hok]]. split; [by apply Base_fileOf|].
    destruct (Marshal n) as [j|] eqn:Ej; [|done]. unfold parsed.
    assert (w !! fileOf (Disc_ID n) = Some j) as -> by (apply H2; eauto). by rewrite (Unmarshal_Marshal _ _ Ej). }
  destruct (fold_insert Base (parsed w) files) as [F1 F2]. apply map_eq. intros id. apply option_eq. intros n. split.
  - intros (p & Hp & <- & Hv)%F1. apply Hf in Hp as (id' & n' & -> & Hn'). destruct (Hpar id' n' Hn') as [-> E]. congruence.
  - intros Hn. destruct (Hpar id n Hn) as [Hb Hv]. rewrite <- Hb at 1. apply F2; [|apply Hf; eauto|done].
    intros p q (id1 & n1 & -> & Hn1)%Hf (id2 & n2 & -> & Hn2)%Hf. destruct (Hpar _ _ Hn1) as [-> _], (Hpar _ _ Hn2) as [-> _]. by intros ->.
Qed.

(** Nodes that publish themselves in a common directory find each other: after any nodes with proper identities have published, each in turn, a poll of the directory gives for every identity the record published last, and nothing else. *)
Theorem discovery_roundtrip (ns : list DiscoveryNode) me :
  Forall publishable ns ->
  evm store (for_each ns tt (fun n _ => e ← publish Marshal (mkVFSDiscovery base n);
      mret (match e with Some e => inr e | None => inl tt end)) ≫= fun _ =>
      Poll_vfs Unmarshal (mkVFSDiscovery base me)) tt ∅
    (fun r _ _ => r = Ok (foldl (fun m n => <[Disc_ID n := n]> m) ∅ ns)).
Proof.
  intros Hns. apply evm_bind. eapply evm_mono.
  { apply (publishAll_spec tt ns ∅); [done|]. split; [intros ? ?; by rewrite lookup_empty|].
    intros p j. rewrite lookup_empty. split; [done|]. intros (id & n & _ & H & _). by rewrite lookup_empty in H. }
  intros r s w [-> Hw]. eapply evm_mono; [by apply Poll_vfs_spec|]. by intros r' s' w' [_ ->].
Qed.
End Published.

Module DiscoveryDemo.
Definition n1 : DiscoveryNode := discoveryNode "n1" ["10.0.0.1"].
Definition n2 : DiscoveryNode := discoveryNode "n2" ["10.0.0.2"].
Definition Marshal (n : DiscoveryNode) : result string :=
  match n with
  | mkDiscoveryNode id [mkNodeEndpoint ip 0] => if String.eqb ip "10.0.0.1" && String.eqb id "n1" then Ok "one"
      else if String.eqb ip "10.0.0.2" && String.eqb id "n2" then Ok "two" else Err "unknown"
  | _ => Err "unknown"
  end.
Definition Unmarshal (s : string) : result DiscoveryNode :=
  if String.eqb s "one" then Ok n1 else if String.eqb s "two" then Ok n2 else Err "no node".
Definition publishBoth : M DiscSig unit (result (gmap string DiscoveryNode)) :=
  for_each [n1; n2; n1] tt (fun n _ => e ← publish Marshal (mkVFSDiscovery "/nodes" n);
    mret (match e with Some e => inr e | None => inl tt end)) ≫= fun _ => Poll_vfs Unmarshal (mkVFSDiscovery "/nodes" n2).
End DiscoveryDemo.

Lemma discovery_roundtrip_witness :
  evm store DiscoveryDemo.publishBoth tt ∅
    (fun r _ _ => r = Ok {[ "n1" := DiscoveryDemo.n1; "n2" := DiscoveryDemo.n2 ]}).
Proof.
  assert (foldl (fun (m : gmap string DiscoveryNode) n => <[Disc_ID n := n]> m) ∅ [DiscoveryDemo.n1; DiscoveryDemo.n2; DiscoveryDemo.n1]
    = {[ "n1" := DiscoveryDemo.n1; "n2" := DiscoveryDemo.n2 ]}) as <- by (vm_compute; reflexivity).
  apply (discovery_roundtrip DiscoveryDemo.Marshal DiscoveryDemo.Unmarshal "/nodes").
  - exists ["nodes"]. split; [discriminate|]. split; [reflexivity|]. right. reflexivity.
  - intros [id eps] j. unfold DiscoveryDemo.Marshal. destruct eps as [|[ip z] rest]; [discriminate|].
    destruct z; [|discriminate|discriminate]. destruct rest; [|discriminate].
    destruct (String.eqb_spec ip "10.0.0.1") as [->|]; [destruct (String.eqb_spec id "n1") as [->|]|]; simpl;
      [intros [= <-]; reflexivity|discriminate|].
    destruct (String.eqb_spec ip "10.0.0.2") as [->|]; [|discriminate].
    destruct (String.eqb_spec id "n2") as [->|]; [intros [= <-]; reflexivity|discriminate].
  - repeat (apply Forall_cons_2; [split; reflexivity|]). apply Forall_nil_2.
Defined.
