(* ===== verification/VolumesAzure.v ===== *)
(** * Volumes on Azure

    pkg/volumes/azure: managed disks with certain tags are attached to a virtual
    machine of a scale set as data disks, each at a logical unit number (LUN).
    The metadata service and the APIs are the environment. *)

From Stdlib Require Import Ascii.
From stdpp Require Import base gmap sets list strings fin_map_dom.
From S2P Require Import Prelude Effects EffectsSum GoLib PrivateApi Volumes.

Local Open Scope Z_scope.

(** ** client.go *)

Record dataDisk := mkDataDisk { dd_Name : string; dd_Lun : string; dd_ManagedDisk : option string }.
Record instanceComputeMetadata := mkComputeMetadata {
  cm_Name : string;
  cm_ResourceGroupName : string;
  cm_VMScaleSetName : string;
  cm_SubscriptionID : string;
  cm_StorageProfile : option (list dataDisk);
}.
(** The private addresses of each interface that has IPv4. *)
Record instanceMetadata := mkInstanceMetadata {
  im_Compute : option instanceComputeMetadata;
  im_Network : option (list (option (list string)));
}.

(** What the APIs answer. *)
Record azDisk := mkAzDisk {
  ad_Name : option string;
  ad_ID : option string;
  ad_Tags : gmap string (option string);
  ad_ManagedBy : option string;
  ad_State : option string;
}.
Record vmDisk := mkVmDisk { vd_Lun : option Z; vd_Name : string; vd_ManagedDisk : string }.
Record azVM := mkAzVM {
  vm_ID : option string;
  vm_Name : option string;
  vm_DataDisks : option (list vmDisk);
  vm_Other : string;                                (* everything else *)
}.
Record azIface := mkAzIface { if_VM : option string; if_IPs : option (list (option string)) }.

(** A listing: what was got, and the error that ended it. *)
Definition pages (T : Type) : Type := list T * option error.

Inductive az_op : Type :=
| AzMetadata
| AzAuthorizer
| AzListVMs (group scaleSet : string)
| AzGetVM (group scaleSet instanceID : string)
| AzUpdateVM (group scaleSet instanceID : string) (vm : azVM)
| AzWaitUpdate
| AzListDisks (group : string)
| AzListInterfaces (group scaleSet : string).
Definition az_res (e : az_op) : Type :=
  match e with
  | AzMetadata => result instanceMetadata
  | AzAuthorizer | AzUpdateVM _ _ _ _ | AzWaitUpdate => option error
  | AzListVMs _ _ => pages azVM
  | AzGetVM _ _ _ => result azVM
  | AzListDisks _ => pages azDisk
  | AzListInterfaces _ _ => pages azIface
  end.
Definition AzSig : sig := Sig az_op az_res.
Abbreviation azcall e := (@call (HostSig ⊕ AzSig) _ (inr e)).

(** The loops over an iterator look at an error only while there is an element: a
    first request that fails is an empty list. *)
Definition collect {T} (p : pages T) : result (list T) :=
  match p with
  | ([], _) => Ok []
  | (_, Some e) => Err e
  | (items, None) => Ok items
  end.

Section Client.
Context {S : Type} (metadata : instanceMetadata).
Abbreviation CM := (HM AzSig S).

Definition compute : CM instanceComputeMetadata := deref "metadata.Compute" (im_Compute metadata).

Definition name : CM string := c ← compute; mret (cm_Name c).
Definition vmScaleSetInstanceID : CM string :=
  c ← compute; mret (default "" (last (Split (cm_Name c) "_"))).
Definition dataDisks : CM (list dataDisk) :=
  c ← compute; deref "StorageProfile" (cm_StorageProfile c).

(** [net.ParseIP], as the text of the address. *)
Context (ParseIP : string -> option string).
Definition localIP : CM (option string) :=
  ifaces ← deref "metadata.Network" (im_Network metadata);
  mret (match concat (omap (fun i => filter (fun a => a <> "") <$> i) ifaces) with
        | a :: _ => ParseIP a
        | [] => None
        end).

Definition listVMScaleSetVMs : CM (result (list azVM)) :=
  c ← compute; r ← azcall (AzListVMs (cm_ResourceGroupName c) (cm_VMScaleSetName c)); mret (collect r).
Definition getVMScaleSetVM (instanceID : string) : CM (result azVM) :=
  c ← compute; azcall (AzGetVM (cm_ResourceGroupName c) (cm_VMScaleSetName c) instanceID).
Definition updateVMScaleSetVM (instanceID : string) (parameters : azVM) : CM (option error) :=
  c ← compute;
  e ← azcall (AzUpdateVM (cm_ResourceGroupName c) (cm_VMScaleSetName c) instanceID parameters);
  match e with
  | Some _ => mret (Some "error updating VM Scale Set VM")
  | None =>
      e ← azcall AzWaitUpdate;
      mret (match e with Some _ => Some "error waiting for VM Scale Set VM update completion" | None => None end)
  end.
Definition listDisks : CM (result (list azDisk)) :=
  c ← compute; r ← azcall (AzListDisks (cm_ResourceGroupName c)); mret (collect r).
Definition listVMSSNetworkInterfaces : CM (result (list azIface)) :=
  c ← compute; r ← azcall (AzListInterfaces (cm_ResourceGroupName c) (cm_VMScaleSetName c)); mret (collect r).
End Client.

Definition newClient {S} : HM AzSig S (result instanceMetadata) :=
  m ← azcall AzMetadata;
  match m with
  | Err _ => mret (Err "error querying instance metadata")
  | Ok m =>
      c ← compute m;
      if String.eqb (cm_SubscriptionID c) "" then mret (Err "empty subscription name")
      else if String.eqb (cm_ResourceGroupName c) "" then mret (Err "empty resource group name")
      else
        e ← azcall AzAuthorizer;
        mret (match e with Some _ => Err "error creating an authorizer" | None => Ok m end)
  end.

(** ** volumes.go *)

Record AzureVolumes := mkAzureVolumes {
  az_clusterName : string;
  az_matchTagKeys : gset string;
  az_matchTags : gmap string string;
  az_nameTag : string;
  az_instanceID : string;
  az_localIP : string;
  az_metadata : instanceMetadata;                   (* of the client *)
}.
Definition set_metadata (m : instanceMetadata) (a : AzureVolumes) : AzureVolumes :=
  mkAzureVolumes (az_clusterName a) (az_matchTagKeys a) (az_matchTags a) (az_nameTag a) (az_instanceID a) (az_localIP a) m.
Abbreviation AZ := (HM AzSig AzureVolumes).

(** "key" or "key=value". *)
Definition azureTags (volumeTags : list string) : gset string * gmap string string :=
  foldl (fun '(keys, tags) volumeTag =>
    match SplitN volumeTag "=" 2 with
    | k :: v :: _ => (keys, <[k := v]> tags)
    | k :: _ => ({[k]} ∪ keys, tags)
    | [] => (keys, tags)
    end) (∅, ∅) volumeTags.

Definition newAzureVolumes (ParseIP : string -> option string) (clusterName : string) (volumeTags : list string)
    (nameTag : string) (client : instanceMetadata) : HM AzSig unit (result AzureVolumes) :=
  let '(keys, tags) := azureTags volumeTags in
  instanceID ← name client;
  if String.eqb instanceID "" then mret (Err "empty name") else
  ip ← localIP client ParseIP;
  mret (match ip with
        | None => Err "error querying internal IP"
        | Some ip => Ok (mkAzureVolumes clusterName keys tags nameTag instanceID ip client)
        end).

Definition NewAzureVolumes (ParseIP : string -> option string) (clusterName : string) (volumeTags : list string)
    (nameTag : string) : HM AzSig unit (result AzureVolumes) :=
  r ← newClient;
  match r with
  | Err _ => mret (Err "error creating a new Azure client")
  | Ok client => newAzureVolumes ParseIP clusterName volumeTags nameTag client
  end.

Definition MyIP_azure : AZ (result string) := a ← get; mret (Ok (az_localIP a)).

(** The iterations that count; a key that is not asked for has the value "". *)
Definition matchCount (a : AzureVolumes) (tags : gmap string string) : nat :=
  (size (filter (fun kv => kv.1 ∈ az_matchTagKeys a) tags) +
   size (filter (fun kv => default "" (az_matchTags a !! kv.1) = kv.2) tags))%nat.
Definition matchesCluster (a : AzureVolumes) (tags : gmap string string) : bool :=
  bool_decide (matchCount a tags = size (az_matchTagKeys a) + size (az_matchTags a))%nat.

(** [*v] of every tag. *)
Definition derefTags (tags : gmap string (option string)) : option (gmap string string) :=
  if bool_decide (map_Forall (fun _ v => is_Some v) tags) then Some (omap id tags) else None.
Definition isDiskForCluster (disk : azDisk) : AZ bool :=
  a ← get;
  tags ← deref "*v" (derefTags (ad_Tags disk));
  mret (matchesCluster a tags).

Definition extractEtcdName (disk : azDisk) : AZ string :=
  a ← get;
  let fromTag := if String.eqb (az_nameTag a) "" then None else ad_Tags disk !! az_nameTag a in
  match fromTag with
  | None => deref "disk.Name" (ad_Name disk)
  | Some v =>
      v ← deref "*v" v;
      if String.eqb v "" then deref "disk.Name" (ad_Name disk)
      else mret (az_clusterName a +:+ "-" +:+ default "" (head (SplitN v "/" 2)))
  end.

(** Only the first two LUNs have a device. *)
Definition lunToDev (lun : string) : string :=
  if String.eqb lun "0" then "/dev/sdc" else if String.eqb lun "1" then "/dev/sdd" else "".

Definition findLocalDevice (id : string) : AZ (result string) :=
  a ← get;
  dds ← dataDisks (az_metadata a);
  r ← for_each dds tt (fun dd _ =>
        managed ← deref "dataDisk.ManagedDisk" (dd_ManagedDisk dd);
        mret (if String.eqb id managed then inr dd else inl tt));
  mret (match r with
        | inl _ => Err "no data disk found"
        | inr dd => let dev := lunToDev (dd_Lun dd) in
                    if String.eqb dev "" then Err "no device found for LUN" else Ok dev
        end).

(** One disk of the cluster. *)
Definition azureVolume (disk : azDisk) : AZ (result Volume) :=
  a ← get;
  diskName ← deref "disk.Name" (ad_Name disk);
  id ← deref "disk.ID" (ad_ID disk);
  etcdName ← extractEtcdName disk;
  state ← deref "disk.DiskProperties" (ad_State disk);
  let v := mkVolume ("master-" +:+ diskName) id etcdName "" "" "" state diskName in
  match ad_ManagedBy disk with
  | None => mret (Ok v)
  | Some managedBy =>
      let v := set_AttachedTo (default "" (last (Split managedBy "/"))) v in
      if String.eqb (vol_AttachedTo v) (az_instanceID a) then
        r ← findLocalDevice id;
        mret (match r with Err _ => Err "error finding a local device" | Ok ld => Ok (set_LocalDevice ld v) end)
      else mret (Ok v)
  end.

Definition refreshMetadata : AZ (option error) :=
  m ← azcall AzMetadata;
  match m with
  | Err _ => mret (Some "error querying instance metadata")
  | Ok m => modify (set_metadata m) ≫= fun _ => mret None
  end.

Definition FindVolumes_azure : AZ (result (list Volume)) :=
  a ← get;
  r ← listDisks (az_metadata a);
  match r with
  | Err _ => mret (Err "error listing disks")
  | Ok disks =>
      e ← refreshMetadata;
      match e with
      | Some _ => mret (Err "error refreshling metadata")
      | None =>
          r ← for_each disks [] (fun disk vs =>
                b ← isDiskForCluster disk;
                if negb b then mret (inl vs) else
                r ← azureVolume disk;
                mret (match r with Err e => inr e | Ok v => inl (vs ++ [v]) end));
          mret (match r with inl vs => Ok vs | inr e => Err e end)
      end
  end.

(** A device that is not there is reported as found. *)
Definition FindMountedVolume_azure (Containerized : bool) (volume : Volume) : AZ (result string) :=
  let dev := vol_LocalDevice volume in
  p ← PathFor Containerized dev;
  s ← hcall (HStat p);
  mret (match s with StatErr _ => Err "error checking for device" | _ => Ok dev end).


Definition nextLun (luns : list Z) : Z :=
  match luns with [] => 0 | _ => int32 (foldl Z.max 0 luns + 1) end.

Definition findAvailableLun : AZ (result Z) :=
  a ← get;
  instID ← vmScaleSetInstanceID (az_metadata a);
  r ← getVMScaleSetVM (az_metadata a) instID;
  match r with
  | Err _ => mret (Err "error getting VM")
  | Ok vm =>
      dds ← deref "StorageProfile.DataDisks" (vm_DataDisks vm);
      luns ← deref "*dd.Lun" (mapM vd_Lun dds);
      mret (Ok (nextLun luns))
  end.

Definition AttachVolume_azure (volume : Volume) : AZ (Volume * option error) :=
  if negb (String.eqb (vol_LocalDevice volume) "") then mret (volume, None) else
  a ← get;
  instID ← vmScaleSetInstanceID (az_metadata a);
  r ← getVMScaleSetVM (az_metadata a) instID;
  match r with
  | Err _ => mret (volume, Some "error getting VM")
  | Ok vm =>
      r ← findAvailableLun;
      match r with
      | Err _ => mret (volume, Some "error finding available Lun")
      | Ok lun =>
          dds ← deref "StorageProfile.DataDisks" (vm_DataDisks vm);
          let d := mkVmDisk (Some lun) (vol_Description volume) (vol_ProviderID volume) in
          let vm' := mkAzVM (vm_ID vm) (vm_Name vm) (Some (dds ++ [d])) (vm_Other vm) in
          e ← updateVMScaleSetVM (az_metadata a) instID vm';
          match e with
          | Some _ => mret (volume, Some "error updating VM")
          | None => mret (set_LocalDevice (lunToDev (Itoa lun)) volume, None)
          end
      end
  end.

#[export] Instance azure_volumes (Containerized : bool) : Volumes AzSig AzureVolumes := {|
  AttachVolume := AttachVolume_azure;
  FindVolumes := FindVolumes_azure;
  FindMountedVolume := FindMountedVolume_azure Containerized;
  MyIP := MyIP_azure;
|}.

(** ** discovery.go *)

(** The addresses of each machine. *)
Definition addIface (iface : azIface) (m : gmap string (list string)) : AZ (gmap string (list string)) :=
  vmID ← deref "VirtualMachine.ID" (if_VM iface);
  confs ← deref "IPConfigurations" (if_IPs iface);
  ips ← deref "PrivateIPAddress" (mapM id confs);
  mret (match ips with [] => m | _ => <[vmID := default [] (m !! vmID) ++ ips]> m end).

Definition Poll_azure : AZ (result (gmap string DiscoveryNode)) :=
  r ← FindVolumes_azure;
  match r with
  | Err _ => mret (Err "error finding volumes")
  | Ok vs =>
      let instances := instanceToVolumeMap vs in
      if bool_decide (instances = ∅) then mret (Ok ∅) else
      a ← get;
      r ← listVMScaleSetVMs (az_metadata a);
      match r with
      | Err _ => mret (Err "error listing VM Scale Set VMs")
      | Ok vms =>
          r ← listVMSSNetworkInterfaces (az_metadata a);
          match r with
          | Err _ => mret (Err "error listing network interfaces")
          | Ok ifaces =>
              endpoints ← for_fold ifaces ∅ addIface;
              nodes ← for_fold vms ∅ (fun vm nodes =>
                vmName ← deref "vm.Name" (vm_Name vm);
                match instances !! vmName with
                | None => mret nodes
                | Some volume =>
                    vmID ← deref "vm.ID" (vm_ID vm);
                    mret (<[vol_EtcdName volume := discoveryNode (vol_EtcdName volume) (default [] (endpoints !! vmID))]> nodes)
                end);
              mret (Ok nodes)
          end
      end
  end.

(** ** Which disks are taken *)

(** A disk of the cluster has every key and every key with its value. *)
Definition hasTags (a : AzureVolumes) (tags : gmap string string) : Prop :=
  az_matchTagKeys a ⊆ dom tags /\ az_matchTags a ⊆ tags.
#[export] Instance hasTags_dec a tags : Decision (hasTags a tags).
Proof. unfold hasTags. apply _. Defined.

Lemma keys_count (keys : gset string) (tags : gmap string string) :
  (size (filter (fun kv => kv.1 ∈ keys) tags) <= size keys)%nat /\
  (size (filter (fun kv => kv.1 ∈ keys) tags) = size keys <-> keys ⊆ dom tags).
Proof.
  rewrite <- size_dom. assert (dom (filter (fun kv : string * string => kv.1 ∈ keys) tags) = keys ∩ dom tags) as ->.
  { apply set_eq. intros k. rewrite elem_of_intersection, !elem_of_dom. unfold is_Some.
    setoid_rewrite map_lookup_filter_Some. simpl. naive_solver. }
  split; [apply subseteq_size; set_solver|]. split.
  - intros H. assert (keys ∩ dom tags = keys) by (apply set_eq, set_subseteq_size_equiv; [set_solver|lia]). set_solver.
  - intros H. f_equal. set_solver.
Qed.

Lemma values_count (match_ tags : gmap string string) :
  map_Forall (fun _ v => v <> "") tags ->
  (size (filter (fun kv => default "" (match_ !! kv.1) = kv.2) tags) <= size match_)%nat /\
  (size (filter (fun kv => default "" (match_ !! kv.1) = kv.2) tags) = size match_ <-> match_ ⊆ tags).
Proof.
  intros Hne. set (f := filter _ tags).
  assert (f ⊆ match_) as Hsub.
  { apply map_subseteq_spec. intros k v [Hk Hd]%map_lookup_filter_Some. simpl in Hd.
    specialize (Hne k v Hk). destruct (match_ !! k); simpl in Hd; congruence. }
  assert (dom f ⊆ dom match_) as Hdom by (by apply subseteq_dom).
  split; [rewrite <- !size_dom; by apply subseteq_size|]. split.
  - intros H. assert (dom f = dom match_) as Hd by (apply set_eq, set_subseteq_size_equiv; [done|rewrite !size_dom; lia]).
    apply map_subseteq_spec. intros k v Hk. assert (k ∈ dom f) as [v' Hv']%elem_of_dom by (rewrite Hd; apply elem_of_dom; eauto).
    assert (match_ !! k = Some v') as E by (eapply map_subseteq_spec in Hsub; eauto).
    apply map_lookup_filter_Some in Hv' as [Ht _]. congruence.
  - intros H. f_equal. apply (anti_symm (⊆)); [done|].
    apply map_subseteq_spec. intros k v Hk. apply map_lookup_filter_Some. split; [by eapply map_subseteq_spec|]. simpl. by rewrite Hk.
Qed.

Lemma matchesCluster_iff a tags :
  map_Forall (fun _ v => v <> "") tags -> matchesCluster a tags = true <-> hasTags a tags.
Proof.
  intros Hne. unfold matchesCluster, matchCount, hasTags. rewrite bool_decide_eq_true.
  destruct (keys_count (az_matchTagKeys a) tags) as [H1 H2].
  destruct (values_count (az_matchTags a) tags Hne) as [H3 H4]. rewrite <- H2, <- H4. lia.
Qed.

(** C40: a disk whose tags all have a value is taken for the cluster exactly if it has every tag key that is asked for and every tag with the value that is asked for; the count of matching tags that the code keeps never takes another disk and never misses one. *)
Theorem azure_disk_match (disk : azDisk) (a : AzureVolumes) t o :
  (forall k v, ad_Tags disk !! k = Some v -> exists s, v = Some s /\ s <> "") ->
  runs (isDiskForCluster disk a) t o ->
  t = [] /\ o = Done (bool_decide (hasTags a (omap id (ad_Tags disk))), a).
Proof.
  intros Htags Hrun. assert (map_Forall (fun _ v => is_Some v) (ad_Tags disk)) as Hs.
  { intros k v Hk. destruct (Htags k v Hk) as (s & -> & _). eauto. }
  assert (wpm (isDiskForCluster disk) a (fun b a' t => t = [] /\ a' = a /\ b = matchesCluster a (omap id (ad_Tags disk)))
    (fun _ _ => False)) as Hw.
  { unfold isDiskForCluster, derefTags. rewrite bool_decide_true by done. by repeat wpm_step. }
  pose proof (wp_runs _ _ _ _ Hrun Hw) as Hq. destruct o as [[b a']|]; [|done]. destruct Hq as (-> & -> & ->).
  split; [done|]. do 2 f_equal. apply eq_true_iff_eq. rewrite bool_decide_eq_true. apply matchesCluster_iff.
  intros k v Hk. rewrite lookup_omap in Hk. apply bind_Some in Hk as (v' & Hk' & E). simpl in E. subst v'.
  destruct (Htags k _ Hk') as (s & [= ->] & Hne). done.
Qed.

(** ** Attachment *)

Abbreviation azx e r := (@existT (op (HostSig ⊕ AzSig)) (@res (HostSig ⊕ AzSig)) (inr e) r).
Abbreviation AzT := (trace (HostSig ⊕ AzSig)).

Lemma foldl_max_le luns m : m <= foldl Z.max m luns.
Proof. revert m. induction luns as [|l luns IH]; intros m; simpl; [lia|]. specialize (IH (Z.max m l)). lia. Qed.
Lemma foldl_max_spec luns m l : l ∈ luns -> l <= foldl Z.max m luns.
Proof.
  revert m. induction luns as [|l' luns IH]; intros m H; [by apply not_elem_of_nil in H|]. simpl.
  apply elem_of_cons in H as [->|H]; [|by apply IH]. pose proof (foldl_max_le luns (Z.max m l')). lia.
Qed.
Lemma foldl_max_bound luns m b : m < b -> Forall (fun l => l < b) luns -> foldl Z.max m luns < b.
Proof. intros Hm H. revert m Hm. induction H; intros m Hm; simpl; [done|]. apply IHForall. lia. Qed.

(** The next LUN is free, as long as the numbers are not used up. *)
Lemma nextLun_free luns :
  Forall (fun l => l < 2 ^ 31 - 1) luns -> nextLun luns ∉ luns /\ 0 <= nextLun luns < 2 ^ 31.
Proof.
  intros H. unfold nextLun. destruct luns as [|l0 rest] eqn:E; [split; [set_solver|lia]|]. rewrite <- E in *.
  assert (0 <= foldl Z.max 0 luns < 2 ^ 31 - 1) as Hb by (split; [apply foldl_max_le|apply foldl_max_bound; [lia|done]]).
  rewrite int32_id by lia. split; [|lia]. intros Hin. pose proof (foldl_max_spec luns 0 _ Hin). lia.
Qed.

(** The update that attaches [v]: the machine as it was read, and one disk more at
    a LUN that is free according to a later reading. *)
Definition appends (v : Volume) (vm' : azVM) (lun : Z) (t : AzT) : Prop :=
  exists g s i g2 s2 i2 vm vm2 dds dds2 luns,
    azx (AzGetVM g s i) (Ok vm) ∈ t /\ vm_DataDisks vm = Some dds /\
    vm' = mkAzVM (vm_ID vm) (vm_Name vm)
      (Some (dds ++ [mkVmDisk (Some lun) (vol_Description v) (vol_ProviderID v)])) (vm_Other vm) /\
    azx (AzGetVM g2 s2 i2) (Ok vm2) ∈ t /\ vm_DataDisks vm2 = Some dds2 /\ mapM vd_Lun dds2 = Some luns /\
    lun = nextLun luns /\ (Forall (fun l => l < 2 ^ 31 - 1) luns -> lun ∉ luns).

Definition attached_ok (v v' : Volume) (e : option error) (t : AzT) : Prop :=
  (forall g s i vm' r, azx (AzUpdateVM g s i vm') r ∈ t -> exists lun, appends v vm' lun t) /\
  match e with
  | Some _ => v' = v
  | None =>
      (vol_LocalDevice v <> "" /\ v' = v) \/
      (exists g s i vm' lun, azx (AzUpdateVM g s i vm') None ∈ t /\ azx AzWaitUpdate None ∈ t /\ appends v vm' lun t /\
         v' = set_LocalDevice (lunToDev (Itoa lun)) v)
  end.

Definition reads (x : exchange (HostSig ⊕ AzSig)) : Prop :=
  match asked x with inr (AzUpdateVM _ _ _ _) => False | _ => True end.
Ltac all_reads := cbn [app]; repeat (apply Forall_cons_2; [exact I|]); apply Forall_nil_2.

Lemma attached_quiet v t e : Forall reads t -> attached_ok v v (Some e) t.
Proof.
  intros H. split; [|done]. intros g s i vm' r Hin. rewrite Forall_forall in H. by specialize (H _ Hin).
Qed.

Lemma attached_update v v' e g s i g2 s2 i2 vm vm2 dds dds2 luns r rest :
  vm_DataDisks vm = Some dds -> vm_DataDisks vm2 = Some dds2 -> mapM vd_Lun dds2 = Some luns -> Forall reads rest ->
  match e with
  | Some _ => v' = v
  | None => r = None /\ azx AzWaitUpdate None ∈ rest /\ v' = set_LocalDevice (lunToDev (Itoa (nextLun luns))) v
  end ->
  attached_ok v v' e (azx (AzGetVM g s i) (Ok vm) :: azx (AzGetVM g2 s2 i2) (Ok vm2) ::
    azx (AzUpdateVM g s i (mkAzVM (vm_ID vm) (vm_Name vm)
      (Some (dds ++ [mkVmDisk (Some (nextLun luns)) (vol_Description v) (vol_ProviderID v)])) (vm_Other vm))) r :: rest).
Proof.
  intros H1 H2 H3 Hrest He. set (vm' := mkAzVM _ _ _ _). set (t := _ :: _).
  assert (appends v vm' (nextLun luns) t) as Ha.
  { exists g, s, i, g2, s2, i2, vm, vm2, dds, dds2, luns. split; [set_solver|]. split; [done|]. split; [done|].
    split; [set_solver|]. do 3 (split; [done|]). apply nextLun_free. }
  split.
  - intros g' s' i' vm'' r' Hin. exists (nextLun luns).
    assert (vm'' = vm') as ->; [|done]. unfold t in Hin. rewrite !elem_of_cons in Hin.
    destruct Hin as [Hin|[Hin|[Hin|Hin]]]; [by apply (f_equal asked) in Hin..| |].
    + apply (f_equal asked) in Hin. by injection Hin.
    + rewrite Forall_forall in Hrest. by specialize (Hrest _ Hin).
  - destruct e; [done|]. destruct He as (-> & Hw & ->). right. exists g, s, i, vm', (nextLun luns).
    split; [set_solver|]. split; [set_solver|]. done.
Qed.

Lemma AttachVolume_azure_spec v a :
  wpm (AttachVolume_azure v) a (fun '(v', e) a' t => a' = a /\ attached_ok v v' e t)
    (fun c _ => exists what, c = NilDeref what).
Proof.
  unfold AttachVolume_azure, findAvailableLun, vmScaleSetInstanceID, getVMScaleSetVM, updateVMScaleSetVM, compute.
  destruct (String.eqb_spec (vol_LocalDevice v) "") as [E|E]; simpl negb; cbn iota.
  2: { wpm_step. split; [done|]. split; [|by left]. intros g s i vm' r Hin. by apply not_elem_of_nil in Hin. }
  repeat wpm_step; try (by eexists);
    try (split; [done|]; apply attached_quiet; all_reads);
    (split; [done|]; simplify_eq; eapply attached_update; [done|done|done|all_reads|]); [done|done|].
  destruct r2; [done|]. split; [done|]. split; [set_solver|done].
Qed.

(** Attaching a disk on Azure.  In every environment a machine is updated only to have, beside the data disks it was read with, this volume at one more LUN, which is one above all that a later reading shows and so free unless the 32-bit numbers are used up; success is reported only if the volume had a device already or the update was accepted and completed, and the device is then that of the LUN; an error leaves the volume as it was.  The only crash is a missing part of an answer. *)
Theorem azure_attach v a t o :
  runs (AttachVolume_azure v a) t o ->
  match o with
  | Done ((v', e), a') => a' = a /\ attached_ok v v' e t
  | Crashed c => exists what, c = NilDeref what
  end.
Proof.
  intros H. pose proof (wp_runs _ _ _ _ H (AttachVolume_azure_spec v a)) as Hq. by destruct o as [[[v' e] a']|c].
Qed.

Module AzureDemo.
Definition metadata : instanceMetadata :=
  mkInstanceMetadata (Some (mkComputeMetadata "masters_7" "group" "masters" "sub" (Some []))) (Some [Some ["10.0.0.1"]]).
Definition volumes : AzureVolumes :=
  mkAzureVolumes "c" {["k8s.io_etcd_main"]} {["role" := "etcd"]} "" "masters_7" "10.0.0.1" metadata.
Definition disk : azDisk := mkAzDisk (Some "d") (Some "id") {["k8s.io_etcd_main" := Some "a/a,b"; "role" := Some "etcd"]} None (Some "Unattached").
Definition volume : Volume := mkVolume "master-d" "id" "d" "" "" "" "Unattached" "d".
(** The machine has one data disk. *)
Definition cloud : handler (HostSig ⊕ AzSig) unit := fun e w =>
  match e with
  | inl (HStat _ | HLstat _) => (StatOk false false, w)
  | inl (HEvalSymlinks _ | HAbs _ | HReadFile _ | HExec _ | HGetDeviceNameFromMount _) => (Ok "", w)
  | inl (HReadDir _) => (Ok [], w)
  | inl (HListMounts _) => (Ok [], w)
  | inl (HSleep _) => (tt, w)
  | inl HRange => ([], w)
  | inl _ => (None, w)
  | inr AzMetadata => (Ok metadata, w)
  | inr (AzListVMs _ _ | AzListInterfaces _ _) => (([], None), w)
  | inr (AzListDisks _) => (([disk], None), w)
  | inr (AzGetVM _ _ _) => (Ok (mkAzVM (Some "vm7") (Some "masters_7") (Some [mkVmDisk (Some 0) "other" "x"]) ""), w)
  | inr _ => (None, w)
  end.
End AzureDemo.

Lemma azure_disk_match_witness :
  outcome_of AzureDemo.cloud (isDiskForCluster AzureDemo.disk AzureDemo.volumes) tt = Done (true, AzureDemo.volumes) /\
  bool_decide (hasTags AzureDemo.volumes (omap id (ad_Tags AzureDemo.disk))) = true.
Proof.
  assert (outcome_of AzureDemo.cloud (isDiskForCluster AzureDemo.disk AzureDemo.volumes) tt = Done (true, AzureDemo.volumes)) as E
    by (vm_compute; reflexivity).
  assert (forall k v, ad_Tags AzureDemo.disk !! k = Some v -> exists s, v = Some s /\ s <> "") as Ht.
  { intros k v Hk. cbn [ad_Tags AzureDemo.disk] in Hk. apply lookup_insert_Some in Hk as [[_ <-]|[_ Hk]];
      [exists "a/a,b"; split; [reflexivity|discriminate]|].
    apply lookup_singleton_Some in Hk as [_ <-]. exists "etcd". split; [reflexivity|discriminate]. }
  split; [exact E|].
  destruct (azure_disk_match AzureDemo.disk AzureDemo.volumes _ _ Ht (exec_runs_eq _ _ _ _ E)) as [_ Ho].
  exact (eq_sym (f_equal (fun o => match o with Done (b, _) => b | Crashed _ => true end) Ho)).
Defined.

Lemma azure_attach_witness :
  outcome_of AzureDemo.cloud (AttachVolume_azure AzureDemo.volume AzureDemo.volumes) tt =
    Done ((set_LocalDevice "/dev/sdd" AzureDemo.volume, None), AzureDemo.volumes) /\
  attached_ok AzureDemo.volume (set_LocalDevice "/dev/sdd" AzureDemo.volume) None
    (trace_of AzureDemo.cloud (AttachVolume_azure AzureDemo.volume AzureDemo.volumes) tt).
Proof.
  assert (outcome_of AzureDemo.cloud (AttachVolume_azure AzureDemo.volume AzureDemo.volumes) tt =
    Done ((set_LocalDevice "/dev/sdd" AzureDemo.volume, None), AzureDemo.volumes)) as E by (vm_compute; reflexivity).
  split; [exact E|]. exact (proj2 (azure_attach _ _ _ _ (exec_runs_eq _ _ _ _ E))).
Defined.
