(* ===== verification/VolumesOpenstack.v ===== *)
(** * Volumes on OpenStack

    pkg/volumes/openstack: Cinder volumes with certain metadata are attached to a
    server; the device is looked up by the volume's id among the disks of the
    machine.  The metadata of the server comes from a config drive or from the
    metadata service.  The APIs are the environment. *)

From Stdlib Require Import Ascii.
From stdpp Require Import base gmap sets list strings sorting.
From S2P Require Import Prelude Effects EffectsSum GoLib PrivateApi Volumes.

Local Open Scope Z_scope.

(** ** Data *)

Definition MetadataLatestPath : string := "openstack/latest/meta_data.json".
Definition MetadataID : string := "metadataService".
Definition MetadataLatestServiceURL : string := "http://169.254.169.254/" +:+ MetadataLatestPath.
Definition ConfigDriveID : string := "configDrive".
Definition ConfigDriveLabel : string := "config-2".
Definition DefaultMetadataSearchOrder : string := ConfigDriveID +:+ ", " +:+ MetadataID.

Record InstanceMetadata := mkInstanceMeta {
  osm_Name : string;
  osm_ProjectID : string;
  osm_AvailabilityZone : string;
  osm_Hostname : string;
  osm_ServerID : string;
}.
Record MetadataService := mkMetadataService {
  mds_serviceURL : string;
  mds_configDrivePath : string;
  mds_mountTarget : string;
  mds_searchOrder : string;
}.

(** Decoded JSON, as far as it is looked at. *)
Inductive jsonValue := JString (s : string) | JOther.
(** One address of a server: the values of the two keys, or not an object. *)
Definition addressEntry : Type := option (option jsonValue * option jsonValue).
(** The addresses by network; a network whose value is not a list is [None]. *)
Definition addresses : Type := gmap string (option (list addressEntry)).

Record osServer := mkOsServer { oss_Name : string; oss_Addresses : addresses; oss_Zone : string }.
Record attachment := mkAttachment { att_ServerID : string; att_Device : string }.
Record cinderVolume := mkCinderVolume {
  cin_ID : string;
  cin_Name : string;
  cin_Description : string;
  cin_Status : string;
  cin_Zone : string;
  cin_Metadata : gmap string string;
  cin_Attachments : list attachment;
}.

Inductive os_op : Type :=
| OsMkdirTemp
| OsRemove (p : string)
| OsMount (dev target fstype : string)
| OsUnmount (target : string)
| OsReadFile (p : string)                            (* open and read *)
| OsHttpGet (url : string)                           (* status and body *)
| OsReadConfig                                       (* the cloud configuration: ignore-volume-az *)
| OsNewClient
| OsAuthenticate
| OsNewBlockStorage
| OsNewCompute
| OsServerGet (id : string)
| OsVolumesList (tenant : string)                    (* all pages *)
| OsVolumesExtract                                   (* of the pages listed *)
| OsVolumeAttach (server volume : string).           (* the device *)
Definition os_res (e : os_op) : Type :=
  match e with
  | OsMkdirTemp | OsReadFile _ | OsVolumeAttach _ _ => result string
  | OsHttpGet _ => result (Z * result string)
  | OsReadConfig => result bool
  | OsServerGet _ => result osServer
  | OsVolumesList _ => option error
  | OsVolumesExtract => result (list cinderVolume)
  | OsRemove _ | OsMount _ _ _ | OsUnmount _ | OsNewClient | OsAuthenticate | OsNewBlockStorage | OsNewCompute => option error
  end.
Definition OsSig : sig := Sig os_op os_res.
Abbreviation oscall e := (@call (HostSig ⊕ OsSig) _ (inr e)).

Section Openstack.
Context (Containerized : bool).
(** [json.Unmarshal] of the metadata, [net.ParseIP] as the text of the address,
    and whether a network contains an address. *)
Context (Unmarshal : string -> result InstanceMetadata) (ParseIP : string -> option string).
Context {CIDR : Type} (cidrContains : CIDR -> string -> bool).

(** ** Metadata of the server *)

Section Metadata.
Context {S : Type}.
Abbreviation MDM := (HM OsSig S).

Definition getFromConfigDrive (mds : MetadataService) : MDM (result InstanceMetadata) :=
  p ← PathFor Containerized "/dev/disk/by-label/";
  s ← hcall (HStat (PathJoin [p; ConfigDriveLabel]));
  d ← (match s with
       | StatNotExist =>
           out ← hcall (HExec ["blkid"; "-l"; "-t"; "LABEL=" +:+ ConfigDriveLabel; "-o"; "device"]);
           mret (match out with Err _ => Err "unable to run blkid" | Ok out => Ok (TrimSpace out) end)
       | _ => mret (Ok (PathJoin [p; ConfigDriveLabel]))
       end);
  match d with
  | Err e => mret (Err e)
  | Ok dev =>
      e ← oscall (OsMount dev (mds_mountTarget mds) "iso9660");
      e ← (match e with Some _ => oscall (OsMount dev (mds_mountTarget mds) "vfat") | None => mret None end);
      match e with
      | Some _ => mret (Err "error mounting configdrive")
      | None =>
          r ← oscall (OsReadFile (PathJoin [mds_mountTarget mds; mds_configDrivePath mds]));
          oscall (OsUnmount (mds_mountTarget mds)) ≫= fun _ =>
          mret (match r with Err e => Err "error reading on config drive" | Ok data => Unmarshal data end)
      end
  end.

Definition getFromMetadataService (mds : MetadataService) : MDM (result InstanceMetadata) :=
  r ← oscall (OsHttpGet (mds_serviceURL mds));
  mret (match r with
        | Err e => Err e
        | Ok (status, body) =>
            if status =? 200 then match body with Err e => Err e | Ok data => Unmarshal data end
            else Err "fetching metadata returned an unexpected status code"
        end).

(** The first source that answers; the last error otherwise.  The initial values
    are nil and no error, but [strings.Split] gives at least one id. *)
Definition getMetadata (mds : MetadataService) : MDM (result InstanceMetadata) :=
  r ← for_each (Split (mds_searchOrder mds) ",") (Err "no source") (fun id _ =>
        r ← (let id := TrimSpace id in
             if String.eqb id ConfigDriveID then getFromConfigDrive mds
             else if String.eqb id MetadataID then getFromMetadataService mds
             else mret (Err "not a valid metadata search order option"));
        mret (match r with Ok m => inr m | Err e => inl (Err e) end));
  mret (match r with inl last => last | inr m => Ok m end).

Definition getLocalMetadata : MDM (result InstanceMetadata) :=
  t ← oscall OsMkdirTemp;
  match t with
  | Err e => mret (Err e)
  | Ok mountTarget =>
      r ← getMetadata (mkMetadataService MetadataLatestServiceURL MetadataLatestPath mountTarget DefaultMetadataSearchOrder);
      oscall (OsRemove mountTarget) ≫= fun _ => mret r
  end.

(** ** util.go *)

(** An address that is not an object panics. *)
Fixpoint fixedIP (networkCIDR : option CIDR) (l : list addressEntry) : MDM (option string) :=
  match l with
  | [] => mret None
  | addr :: rest =>
      m ← deref "addr.(map[string]interface{})" addr;
      match m with
      | (Some (JString "fixed"), Some (JString ip)) =>
          match networkCIDR with
          | Some n => if cidrContains n ip then mret (Some ip) else fixedIP networkCIDR rest
          | None => mret (Some ip)
          end
      | _ => fixedIP networkCIDR rest
      end
  end.

(** The networks in the order of their names. *)
Definition GetServerFixedIP (addrs : addresses) (networkCIDR : option CIDR) : MDM (result string) :=
  r ← for_each (stable_sort str_le (map_to_list addrs).*1) tt (fun key _ =>
        match addrs !! key with
        | Some (Some l) => ip ← fixedIP networkCIDR l; mret (match ip with Some ip => inr ip | None => inl tt end)
        | _ => mret (inl tt)
        end);
  mret (match r with inr ip => Ok ip | inl _ => Err "failed to find Fixed IP address for server" end).
End Metadata.

(** ** volumes.go *)

Record OpenstackVolumes := mkOpenstackVolumes {
  os_meta : InstanceMetadata;
  os_matchTagKeys : list string;
  os_matchTags : gmap string string;
  os_networkCIDR : option CIDR;
  os_clusterName : string;
  os_project : string;
  os_instanceName : string;
  os_internalIP : option string;
  os_nameTag : string;
  os_zone : string;
  os_ignoreAZ : bool;
}.
Abbreviation OS := (HM OsSig OpenstackVolumes).

Definition openstackTags (volumeTags : list string) : list string * gmap string string :=
  foldl (fun '(keys, tags) volumeTag =>
    match SplitN volumeTag "=" 2 with
    | k :: v :: _ => (keys, <[k := v]> tags)
    | k :: _ => (keys ++ [k], tags)
    | [] => (keys, tags)
    end) ([], ∅) volumeTags.

(** Whether volumes of other zones count, or an error. *)
Definition getClients : HM OsSig unit (result bool) :=
  r ← oscall OsReadConfig;
  match r with
  | Err _ => mret (Err "error building openstack credentials")
  | Ok ignoreAZ =>
      e ← for_each
            [(oscall OsNewClient : HM OsSig unit (option error), "error building openstack storage client");
             (oscall OsAuthenticate : HM OsSig unit (option error), "error authenticating openstack client");
             (oscall OsNewBlockStorage : HM OsSig unit (option error), "error building storage client");
             (oscall OsNewCompute : HM OsSig unit (option error), "error building compute client")] tt
            (fun '(request, msg) _ =>
               r ← request; mret (match r with Some _ => inr msg | None => inl tt end));
      mret (match e with inr msg => Err msg | inl _ => Ok ignoreAZ end)
  end.

(** The project, the name of the instance, its address and its zone. *)
Definition discoverTags (meta : InstanceMetadata) (networkCIDR : option CIDR)
    : HM OsSig unit (result (string * string * option string * string)) :=
  let project := TrimSpace (osm_ProjectID meta) in
  let instanceName := TrimSpace (osm_Name meta) in
  if String.eqb project "" then mret (Err "project metadata was empty")
  else if String.eqb instanceName "" then mret (Err "instance name metadata was empty")
  else
    s ← oscall (OsServerGet (TrimSpace (osm_ServerID meta)));
    match s with
    | Err _ => mret (Err "failed to retrieve server information from cloud")
    | Ok server =>
        ip ← GetServerFixedIP (oss_Addresses server) networkCIDR;
        mret (match ip with
              | Err _ => Err "error querying InternalIP from name"
              | Ok ip => Ok (project, instanceName, ParseIP ip, oss_Zone server)
              end)
    end.

Definition NewOpenstackVolumes (clusterName : string) (volumeTags : list string) (nameTag : string) (networkCIDR : option CIDR)
    : HM OsSig unit (result OpenstackVolumes) :=
  m ← getLocalMetadata;
  match m with
  | Err _ => mret (Err "failed to get server metadata")
  | Ok meta =>
      let '(keys, tags) := openstackTags volumeTags in
      c ← getClients;
      match c with
      | Err _ => mret (Err "could not build OpenstackVolumes")
      | Ok ignoreAZ =>
          d ← discoverTags meta networkCIDR;
          mret (match d with
                | Err e => Err e
                | Ok (project, instanceName, internalIP, zone) =>
                    Ok (mkOpenstackVolumes meta keys tags networkCIDR clusterName project instanceName internalIP nameTag zone ignoreAZ)
                end)
      end
  end.

Definition MyIP_openstack : OS (result string) :=
  s ← get; mret (match os_internalIP s with None => Err "unable to determine local IP" | Some ip => Ok ip end).

(** The last attachment counts. *)
Definition buildOpenstackVolume (s : OpenstackVolumes) (d : cinderVolume) : Volume :=
  let etcdName := match cin_Metadata d !! os_nameTag s with
                  | Some plainText => os_clusterName s +:+ "-" +:+ default "" (head (SplitN plainText "/" 2))
                  | None => cin_Name d
                  end in
  foldl (fun vol a =>
           let vol := set_AttachedTo (att_ServerID a) vol in
           if String.eqb (att_ServerID a) (osm_ServerID (os_meta s)) then set_LocalDevice (att_Device a) vol else vol)
    (mkVolume ("master-" +:+ cin_Name d) (cin_ID d) etcdName "" "" "" (cin_Status d) (cin_Description d))
    (cin_Attachments d).

Definition matchesTags_openstack (s : OpenstackVolumes) (filterByAZ : bool) (d : cinderVolume) : bool :=
  forallb (fun k => bool_decide (is_Some (cin_Metadata d !! k))) (os_matchTagKeys s) &&
  forallb (fun '(k, v) => bool_decide (cin_Metadata d !! k = Some v)) (map_to_list (os_matchTags s)) &&
  (if filterByAZ && negb (os_ignoreAZ s) then String.eqb (cin_Zone d) (os_zone s) else true).

Definition findVolumes_openstack (filterByAZ : bool) : OS (result (list Volume)) :=
  s ← get;
  e ← oscall (OsVolumesList (os_project s));
  match e with
  | Some _ => mret (Err "FindVolumes: Failed to list volumes")
  | None =>
      r ← oscall OsVolumesExtract;
      mret (match r with
            | Err _ => Err "FindVolumes: Failed to extract volumes"
            | Ok vols => Ok (buildOpenstackVolume s <$> List.filter (matchesTags_openstack s filterByAZ) vols)
            end)
  end.

(** The names under which a disk with this id can appear; [volumeID[:20]] panics
    for a shorter id. *)
Definition candidateDeviceNodes (volumeID : string) : option (list string) :=
  if (String.length volumeID <? 20)%nat then None
  else Some ["virtio-" +:+ take_str 20 volumeID; "virtio-" +:+ volumeID;
             "scsi-0QEMU_QEMU_HARDDISK_" +:+ take_str 20 volumeID; "scsi-0QEMU_QEMU_HARDDISK_" +:+ volumeID;
             "wwn-0x" +:+ ReplaceByte "-" "" volumeID].

Definition findDevicePath (volumeID : string) : OS (result string) :=
  candidates ← deref "volumeID[:20]" (candidateDeviceNodes volumeID);
  p ← PathFor Containerized "/dev/disk/by-id/";
  r ← hcall (HReadDir p);
  mret (match r with
        | Err e => Err e
        | Ok files =>
            match List.find (fun f => existsb (String.eqb (fst f)) candidates) files with
            | Some f => Ok (PathJoin ["/dev/disk/by-id/"; fst f])
            | None => Ok ""
            end
        end).

Definition probeVolume : OS (option error) :=
  r ← hcall (HReadDir "/sys/class/scsi_host/");
  (match r with
   | Ok dirs => for_fold dirs tt (fun f _ =>
       hcall (HWriteFile ("/sys/class/scsi_host/" +:+ fst f +:+ "/scan") "- - -") ≫= fun _ => mret tt)
   | Err _ => mret tt
   end) ≫= fun _ =>
  out ← hcall (HExec ["udevadm"; "trigger"]);
  mret (match out with Err e => Some e | Ok _ => None end).

(** The closure of the loop sets [device], the accumulator of the attempts. *)
Fixpoint awaitPath (attempts : nat) (volumeID : string) : OS (result string) :=
  match attempts with
  | O => mret (Ok "")
  | Datatypes.S n =>
      r ← findDevicePath volumeID;
      match r with
      | Err e => mret (Err e)
      | Ok devpath =>
          if negb (String.eqb devpath "") then mret (Ok devpath) else
          probeVolume ≫= fun _ =>
          match n with
          | O => mret (Ok "")
          | _ => hcall (HSleep (6 * Second)) ≫= fun _ => awaitPath n volumeID
          end
      end
  end.

Definition FindMountedVolume_openstack (volume : Volume) : OS (result string) :=
  r ← awaitPath 25 (vol_ProviderID volume);
  match r with
  | Err _ => mret (Err "failed to find device path for volume")
  | Ok device =>
      if String.eqb device "" then mret (Ok "") else
      p ← PathFor Containerized device;
      s ← hcall (HStat p);
      mret (match s with
            | StatOk _ _ => Ok device
            | StatNotExist => Ok ""
            | StatErr _ => Err "error checking for device"
            end)
  end.

Definition AttachVolume_openstack (volume : Volume) : OS (Volume * option error) :=
  s ← get;
  r ← oscall (OsVolumeAttach (osm_ServerID (os_meta s)) (vol_ProviderID volume));
  mret (match r with
        | Err _ => (volume, Some "error attaching volume to server")
        | Ok device => (set_LocalDevice device volume, None)
        end).

#[export] Instance openstack_volumes : Volumes OsSig OpenstackVolumes := {|
  AttachVolume := AttachVolume_openstack;
  FindVolumes := findVolumes_openstack true;
  FindMountedVolume := FindMountedVolume_openstack;
  MyIP := MyIP_openstack;
|}.

(** ** discovery.go *)

Definition Poll_openstack : OS (result (gmap string DiscoveryNode)) :=
  r ← findVolumes_openstack false;
  match r with
  | Err e => mret (Err e)
  | Ok allVolumes =>
      s ← get;
      l ← range (instanceToVolumeMap allVolumes);
      nodes ← for_fold l ∅ (fun '(i, volume) nodes =>
        r ← oscall (OsServerGet i);
        match r with
        | Err _ => mret nodes
        | Ok server =>
            a ← GetServerFixedIP (oss_Addresses server) (os_networkCIDR s);
            mret (match a with
                  | Err _ => nodes
                  | Ok address => <[vol_EtcdName volume := discoveryNode (vol_EtcdName volume) [address]]> nodes
                  end)
        end);
      mret (Ok nodes)
  end.
End Openstack.

(** ** Finding the device *)

Section Device.
Context (Containerized : bool) {CIDR : Type}.
Abbreviation OSV := (OpenstackVolumes (CIDR := CIDR)).
Abbreviation OsT := (trace (HostSig ⊕ OsSig)).
Abbreviation ohx e r := (@existT (op (HostSig ⊕ OsSig)) (@res (HostSig ⊕ OsSig)) (inl e) r).

Definition byId : string := pathFor Containerized "/dev/disk/by-id/".

(** A disk of the machine with one of the names of the volume. *)
Definition listedAs (volumeID dev : string) (t : OsT) : Prop :=
  exists candidates files name isDir,
    candidateDeviceNodes volumeID = Some candidates /\ ohx (HReadDir byId) (Ok files) ∈ t /\
    (name, isDir) ∈ files /\ name ∈ candidates /\ dev = PathJoin ["/dev/disk/by-id/"; name].

(** The machine is only asked, and told to look for new disks. *)
Definition looking (x : exchange (HostSig ⊕ OsSig)) : Prop :=
  match asked x with
  | inl (HReadDir _ | HStat _ | HSleep _) => True
  | inl (HWriteFile p data) => (exists host, p = "/sys/class/scsi_host/" +:+ host +:+ "/scan") /\ data = "- - -"
  | inl (HExec cmd) => cmd = ["udevadm"; "trigger"]
  | _ => False
  end.
Definition is_scan (x : exchange (HostSig ⊕ OsSig)) : bool :=
  match asked x with inl (HReadDir p) => String.eqb p byId | _ => false end.
Definition scans (t : OsT) : nat := length (List.filter is_scan t).

Lemma scans_app t t' : scans (t ++ t') = (scans t + scans t')%nat.
Proof. unfold scans. by rewrite List.filter_app, length_app. Qed.

Lemma wpm_PathFor_abs {C S} p (k : S) Q Cr :
  HasPrefix p "/" = true -> Q (pathFor Containerized p) k [] -> wpm (PathFor Containerized p : HM C S string) k Q Cr.
Proof.
  intros Hp HQ. unfold PathFor. destruct p as [|a p]; [done|]. simpl String.get. cbn iota. rewrite Hp. by wpm_step.
Qed.
Lemma Clean_abs p : HasPrefix p "/" = true -> HasPrefix (Clean p) "/" = true.
Proof. intros Hp. unfold Clean. destruct p as [|c p]; [done|]. rewrite Hp. by destruct (Join _ _). Qed.
Lemma device_abs name : HasPrefix (PathJoin ["/dev/disk/by-id/"; name]) "/" = true.
Proof.
  unfold PathJoin. rewrite filter_cons_True by done. destruct (decide (name <> "")) as [H|H].
  - rewrite filter_cons_True by done. by apply Clean_abs.
  - rewrite filter_cons_False by done. by apply Clean_abs.
Qed.

Lemma findDevicePath_spec volumeID (s : OSV) :
  wpm (findDevicePath Containerized volumeID) s
    (fun r s' t => s' = s /\ Forall looking t /\ (scans t <= 1)%nat /\
       forall dev, r = Ok dev -> dev <> "" -> listedAs volumeID dev t)
    (fun c _ => c = NilDeref "volumeID[:20]" /\ candidateDeviceNodes volumeID = None).
Proof.
  unfold findDevicePath. wpm_step. wpm_step. destruct (candidateDeviceNodes volumeID) as [cands|] eqn:Ec; [|by wpm_step].
  wpm_step. wpm_step. apply wpm_PathFor_abs; [done|]. unfold hcall. do 3 wpm_step. split; [done|].
  split; [by repeat constructor|]. split; [unfold scans; simpl; destruct (is_scan _); simpl; lia|].
  intros dev Hdev Hne. destruct r as [files|e]; [|done].
  destruct (List.find _ files) as [[name isDir]|] eqn:Ef; [|congruence].
  apply find_some in Ef as [Hin Hex]. apply existsb_exists in Hex as (c & Hc & E). simpl in *.
  apply String.eqb_eq in E as ->. injection Hdev as <-.
  exists cands, files, c, isDir. rewrite !list_elem_of_In. split; [done|]. split; [left; reflexivity|]. done.
Qed.

Lemma probeVolume_spec (s : OSV) :
  hoare (fun s' => s' = s) (fun x => looking x /\ is_scan x = false) (fun _ => False) (fun _ => True) probeVolume.
Proof.
  unfold probeVolume, hcall. apply (hoare_bind _ _ _ (fun _ => True)).
  { hoare_step; [|done]. split; [done|]. unfold is_scan, byId, pathFor. by destruct Containerized. }
  intros r _. apply (hoare_bind _ _ _ (fun _ => True)).
  - destruct r as [dirs|e]; [|by apply hoare_ret]. apply (hoare_for_fold _ _ _ (fun _ => True)); [done|].
    intros [host d] _ _ _. apply (hoare_bind _ _ _ (fun _ => True)); [|intros; by apply hoare_ret].
    hoare_step; [|done]. split; [|done]. split; [by exists host|done].
  - intros _ _. apply (hoare_bind _ _ _ (fun _ => True)); [by hoare_step|]. intros out _. by apply hoare_ret.
Qed.

Lemma no_scans t : Forall (fun x => looking x /\ is_scan x = false) t -> Forall looking t /\ scans t = 0%nat.
Proof.
  induction 1 as [|x t [H1 H2] _ [IH1 IH2]]; [by split|]. split; [by constructor|]. unfold scans in *. simpl. by rewrite H2.
Qed.

Lemma awaitPath_spec volumeID n (s : OSV) :
  wpm (awaitPath Containerized n volumeID) s
    (fun r s' t => s' = s /\ Forall looking t /\ (scans t <= n)%nat /\
       forall dev, r = Ok dev -> dev <> "" -> listedAs volumeID dev t)
    (fun c _ => c = NilDeref "volumeID[:20]" /\ candidateDeviceNodes volumeID = None).
Proof.
  induction n as [|n IH]; cbn [awaitPath].
  { wpm_step. split; [done|]. split; [constructor|]. split; [done|]. by intros ? [= <-]. }
  wpm_step. eapply wpm_mono; [apply findDevicePath_spec| |done]. intros [dev|e] s' t (-> & Ht & Hs & Hd); cbn beta iota.
  2: { wpm_step. rewrite app_nil_r. split; [done|]. split; [done|]. split; [lia|done]. }
  destruct (String.eqb_spec dev "") as [->|Hne]; simpl negb; cbn iota.
  2: { wpm_step. rewrite app_nil_r. split; [done|]. split; [done|]. split; [lia|]. intros ? [= <-]. by apply Hd. }
  wpm_step. eapply wpm_mono; [by apply (probeVolume_spec s)| |naive_solver].
  intros _ s' t2 (-> & [H2 Z2]%no_scans & _). destruct n as [|n].
  - wpm_step. rewrite app_nil_r. split; [done|]. rewrite Forall_app, scans_app. split; [done|]. split; [lia|]. by intros ? [= <-].
  - unfold hcall. wpm_step. wpm_step. eapply wpm_mono; [apply IH| |done].
    intros r' s' t3 (-> & H3 & S3 & D3). split; [done|]. split.
    { rewrite !Forall_app. split; [done|]. split; [done|]. split; [by repeat constructor|done]. }
    split; [rewrite !scans_app; unfold scans at 3; simpl in *; lia|].
    intros dev Hr Hd'. destruct (D3 dev Hr Hd') as (cs & fs & nm & d & ? & Hin & ?). exists cs, fs, nm, d. set_solver.
Qed.

(** The device of a volume on OpenStack.  In every environment [FindMountedVolume] names a device only if the machine listed a disk under one of the names of this volume and the device is there; it lists the disks at most 25 times, writes to the machine only the request to rescan its buses, and crashes only on a volume id shorter than 20 bytes. *)
Theorem openstack_device v (s : OSV) t o :
  runs (FindMountedVolume_openstack Containerized v s) t o ->
  match o with
  | Done (r, s') =>
      s' = s /\ Forall looking t /\ (scans t <= 25)%nat /\
      forall dev, r = Ok dev -> dev <> "" ->
        listedAs (vol_ProviderID v) dev t /\ exists d l, ohx (HStat (pathFor Containerized dev)) (StatOk d l) ∈ t
  | Crashed c => c = NilDeref "volumeID[:20]" /\ (String.length (vol_ProviderID v) < 20)%nat
  end.
Proof.
  intros Hrun. assert (wpm (FindMountedVolume_openstack Containerized v) s
    (fun r s' t => s' = s /\ Forall looking t /\ (scans t <= 25)%nat /\
       forall dev, r = Ok dev -> dev <> "" ->
        listedAs (vol_ProviderID v) dev t /\ exists d l, ohx (HStat (pathFor Containerized dev)) (StatOk d l) ∈ t)
    (fun c _ => c = NilDeref "volumeID[:20]" /\ candidateDeviceNodes (vol_ProviderID v) = None)) as Hw.
  { unfold FindMountedVolume_openstack. wpm_step. eapply wpm_mono; [apply awaitPath_spec| |done].
    intros [dev|e] s' t' (-> & Ht & Hs & Hd); cbn beta iota; [|wpm_step; by rewrite app_nil_r].
    destruct (String.eqb_spec dev "") as [->|Hne]; [wpm_step; rewrite app_nil_r; do 3 (split; [done|]); by intros ? [= <-]|].
    specialize (Hd dev eq_refl Hne). destruct Hd as (cs & fs & nm & d & Hc & Hin & Hf & Hn & ->).
    wpm_step. apply wpm_PathFor_abs; [apply device_abs|]. unfold hcall. do 3 wpm_step. split; [done|].
    split; [rewrite !Forall_app; split; [done|]; by repeat constructor|]. split; [rewrite scans_app; unfold scans at 2; simpl; lia|].
    intros dev' Hr Hne'. destruct r as [sd sl| |e]; [injection Hr as <-|congruence|done].
    split; [exists cs, fs, nm, d; set_solver|]. exists sd, sl. set_solver. }
  pose proof (wp_runs _ _ _ _ Hrun Hw) as Hq. destruct o as [[r s']|c]; [done|]. destruct Hq as [-> Hc]. split; [done|].
  unfold candidateDeviceNodes in Hc. destruct (String.length (vol_ProviderID v) <? 20)%nat eqn:E; [by apply Nat.ltb_lt|done].
Qed.
End Device.

Module OpenstackDemo.
Definition id : string := "0123456789abcdefghij-tail".
Definition volumes : OpenstackVolumes (CIDR := unit) :=
  mkOpenstackVolumes (mkInstanceMeta "m1" "p" "z" "m1" "srv1") [] ∅ None "c" "p" "m1" (Some "10.0.0.1") "" "z" false.
Definition volume : Volume := mkVolume "master-v" id "v" "" "srv1" "" "in-use" "".
(** The disk is listed under its truncated id. *)
Definition machine : handler (HostSig ⊕ OsSig) unit := fun e w =>
  match e with
  | inl (HStat _ | HLstat _) => (StatOk false true, w)
  | inl (HEvalSymlinks _ | HAbs _ | HReadFile _ | HExec _ | HGetDeviceNameFromMount _) => (Ok "", w)
  | inl (HReadDir _) => (Ok [("ata-x", false); ("virtio-0123456789abcdefghij", false)], w)
  | inl (HListMounts _) => (Ok [], w)
  | inl (HSleep _) => (tt, w)
  | inl HRange => ([], w)
  | inl _ => (None, w)
  | inr (OsMkdirTemp | OsReadFile _ | OsVolumeAttach _ _) => (Ok "", w)
  | inr (OsHttpGet _) => (Ok (200, Ok ""), w)
  | inr OsReadConfig => (Ok false, w)
  | inr (OsServerGet _) => (Err "no server", w)
  | inr OsVolumesExtract => (Ok [], w)
  | inr _ => (None, w)
  end.
Definition find : prog (HostSig ⊕ OsSig) _ := FindMountedVolume_openstack true volume volumes.
Definition device : string := "/dev/disk/by-id/virtio-0123456789abcdefghij".
End OpenstackDemo.

Lemma openstack_device_witness :
  outcome_of OpenstackDemo.machine OpenstackDemo.find tt = Done (Ok OpenstackDemo.device, OpenstackDemo.volumes) /\
  listedAs true OpenstackDemo.id OpenstackDemo.device (trace_of OpenstackDemo.machine OpenstackDemo.find tt).
Proof.
  assert (outcome_of OpenstackDemo.machine OpenstackDemo.find tt = Done (Ok OpenstackDemo.device, OpenstackDemo.volumes)) as E
    by (vm_compute; reflexivity).
  split; [exact E|].
  destruct (openstack_device true OpenstackDemo.volume OpenstackDemo.volumes _ _ (exec_runs_eq _ _ _ _ E)) as (_ & _ & _ & H).
  exact (proj1 (H OpenstackDemo.device eq_refl ltac:(discriminate))).
Defined.
