(* ===== verification/Legacy.v ===== *)
(** * Adopting a legacy etcd: pkg/legacy/adopt.go

    A machine may have run etcd from a static manifest before the manager took
    over.  [ScanForExisting] marks the cluster as created, so that no new one is
    made; [ImportExistingEtcd] reads the manifest, copies the data to where the
    manager wants it and moves the old data away.  The identity of a node
    (pkg/privateapi/id.go) is a file, too. *)

From Stdlib Require Import Ascii.
From stdpp Require Import base gmap sets list strings.
From S2P Require Import Prelude Effects ProtoEtcd GoLib Vfs EtcdVersions.

Local Open Scope Z_scope.

(** ** Data and environment *)

Record legacyManifestContainer := mkContainer {
  lc_Name : string;
  lc_Env : list (string * string);
  lc_Image : string;
}.
Definition legacyManifest : Type := list legacyManifestContainer.

Definition FindEnv (c : legacyManifestContainer) (k : string) : string :=
  match List.find (fun e => String.eqb (fst e) k) (lc_Env c) with Some e => snd e | None => "" end.

Inductive leg_op : Type :=
| LReadFile (p : string)
| LMarkClusterCreated                                (* of the control store *)
| LMkdirAll (p : string)
| LReadDir (p : string)
| LOpen (p : string)
| LCreate (p : string)
| LCopy (src dest : string)
| LClose (p : string)
| LRename (old new : string)
| LCreateFile (p data : string)                      (* ioutils.CreateFile: the file must be new *)
| LRandRead.
Definition leg_res (e : leg_op) : Type :=
  match e with
  | LReadFile _ => file_result
  | LReadDir _ => result (list (string * bool))
  | LRandRead => result (list Z)
  | _ => option error
  end.
Definition LegSig : sig := Sig leg_op leg_res.
Abbreviation LM := (M LegSig unit).
Abbreviation lcall e := (@call LegSig _ e).
Abbreviation lx e r := (@existT (op LegSig) (@res LegSig) e r).
Abbreviation LT := (trace LegSig).

(** ** Copying *)

(** The first error, with the deferred calls of [Close]. *)
Definition first_error (e e' : option error) : option error := match e with Some _ => e | None => e' end.

Definition copyFile (srcfile destfile : string) : LM (option error) :=
  e ← lcall (LOpen srcfile);
  match e with
  | Some e => mret (Some e)
  | None =>
      e ← lcall (LCreate destfile);
      e ← (match e with
           | Some e => mret (Some e)
           | None =>
               e ← lcall (LCopy srcfile destfile);
               c ← lcall (LClose destfile);
               mret (first_error e c)
           end);
      c ← lcall (LClose srcfile);
      mret (first_error e c)
  end.

(** Directories nested at most [fuel] deep. *)
Fixpoint copyDir (fuel : nat) (src dest : string) : LM (option error) :=
  match fuel with
  | O => die OutOfFuel
  | S fuel' =>
      e ← lcall (LMkdirAll dest);
      match e with
      | Some _ => mret (Some "error creating directories")
      | None =>
          r ← lcall (LReadDir src);
          match r with
          | Err _ => mret (Some "error reading source directory")
          | Ok paths =>
              r ← for_each paths tt (fun p _ =>
                    let '(n, isDir) := p in
                    let srcFile := PathJoin [src; n] in
                    let destFile := PathJoin [dest; n] in
                    e ← (if (isDir : bool) then copyDir fuel' srcFile destFile
                         else
                           e ← copyFile srcFile destFile;
                           mret (match e with Some _ => Some "error copying" | None => None end));
                    mret (match e with Some e => inr e | None => inl tt end));
              mret (match r with inl _ => None | inr e => Some e end)
          end
      end
  end.

(** ** Scanning and importing *)

Section Adopt.
(** [yaml.Unmarshal] *)
Context (Unmarshal : string -> result legacyManifest).

Definition etcdKeys : list string := ["etcd"; "etcd-events"].
Definition manifestFile (baseDir k : string) : string := PathJoin [baseDir; "k8s.io"; "manifests"; k +:+ ".manifest"].

Definition ScanForExisting (baseDir : string) : LM (result bool) :=
  r ← for_each etcdKeys tt (fun k _ =>
        b ← lcall (LReadFile (manifestFile baseDir k));
        match b with
        | FileNotExist => mret (inl tt)
        | FileErr _ => mret (inr (Err "error reading file"))
        | FileOk b =>
            if String.eqb (TrimSpace b) "" then mret (inl tt) else
            e ← lcall LMarkClusterCreated;
            mret (inr (match e with Some _ => Err "error marking cluster as created" | None => Ok true end))
        end);
  mret (match r with inl _ => Ok false | inr r => r end).

(** The version is the tag of the image, which may be on a registry with a port. *)
Definition imageVersion (image : string) : result string :=
  match Split image ":" with
  | [_; v] => Ok v
  | [_; _; v] => Ok v
  | _ => Err "unexpected etcd image"
  end.

(** The ports of the two clusters: peers, clients and quarantined clients. *)
Definition suffixes (k : string) : option (string * string * string) :=
  if String.eqb k "etcd" then Some (":2380", ":4001", ":3994")
  else if String.eqb k "etcd-events" then Some (":2381", ":4002", ":3995")
  else None.

(** The URLs of a client for a URL of a peer.  [k] is one of [etcdKeys], for which
    [suffixes] is defined ([suffixes_keys]); the code panics on another. *)
Definition legacyClientUrls (k peerURL : string) : result (string * string) :=
  match suffixes k with
  | None => Err "unhandled legacy etcd"
  | Some (peerSuffix, clientSuffix, quarantineSuffix) =>
      if negb (HasSuffix peerURL peerSuffix) then Err "unexpected peer url"
      else if HasPrefix peerURL "http://" then Ok ("http://0.0.0.0" +:+ clientSuffix, "http://0.0.0.0" +:+ quarantineSuffix)
      else if HasPrefix peerURL "https://" then Ok ("https://0.0.0.0" +:+ clientSuffix, "https://0.0.0.0" +:+ quarantineSuffix)
      else Err "scheme not yet implemented"
  end.

Lemma suffixes_keys : Forall (fun k => is_Some (suffixes k)) etcdKeys.
Proof. repeat constructor; eexists; reflexivity. Qed.

Fixpoint addUrls (k : string) (peerURLs : list string) (node : EtcdNode) : result EtcdNode :=
  match peerURLs with
  | [] => Ok node
  | u :: rest =>
      match legacyClientUrls k u with
      | Err e => Err e
      | Ok (c, q) => addUrls k rest (mkEtcdNode (Node_Name node) (Node_PeerUrls node) (Node_ClientUrls node ++ [c])
                       (Node_QuarantinedClientUrls node ++ [q]) (Node_TlsEnabled node))
      end
  end.

(** One "name=url" of ETCD_INITIAL_CLUSTER. *)
Definition importNode (k v : string) : result EtcdNode :=
  match Split v "=" with
  | [nodeName; urls] =>
      let peerURLs := Split urls "," in addUrls k peerURLs (mkEtcdNode nodeName peerURLs [] [] false)
  | _ => Err "cannot parse ETCD_INITIAL_CLUSTER"
  end.
Fixpoint importNodes (k : string) (entries : list string) : result (list EtcdNode) :=
  match entries with
  | [] => Ok []
  | v :: rest =>
      match importNode k v with
      | Err e => Err e
      | Ok n => match importNodes k rest with Err e => Err e | Ok ns => Ok (n :: ns) end
      end
  end.

(** The last container of that name. *)
Definition etcdContainer (m : legacyManifest) : option legacyManifestContainer :=
  last (List.filter (fun c => String.eqb (lc_Name c) "etcd-container") m).

(** What the manifest says: the version, the token and the nodes. *)
Definition importManifest (k b : string) : result (string * string * list EtcdNode) :=
  match Unmarshal b with
  | Err _ => Err "error parsing manifest"
  | Ok m =>
      match etcdContainer m with
      | None => Err "etcd-container not found in manifest"
      | Some c =>
          match imageVersion (lc_Image c) with
          | Err e => Err e
          | Ok version =>
              if String.eqb (TrimSpace (FindEnv c "ETCD_NAME")) "" then Err "expected ETCD_NAME"
              else match importNodes k (Split (TrimSpace (FindEnv c "ETCD_INITIAL_CLUSTER")) ",") with
                   | Err e => Err e
                   | Ok nodes =>
                       let token := TrimSpace (FindEnv c "ETCD_INITIAL_CLUSTER_TOKEN") in
                       if String.eqb token "" then Err "expected ETCD_INITIAL_CLUSTER_TOKEN"
                       else Ok (version, token, nodes)
                   end
          end
      end
  end.

Definition legacyDir (baseDir k : string) : string :=
  PathJoin [baseDir; "var"; "etcd"; if String.eqb k "etcd" then "data" else "data-events"].
Definition dataDirFor (baseDir token : string) : string := PathJoin [baseDir; "data"; token].
Definition trashcan (baseDir : string) : string := PathJoin [baseDir; "data-trashcan"].

Definition adoptedVersion (version : string) : string :=
  let adoptAs := EtcdVersionForAdoption version in
  if negb (String.eqb adoptAs "") && negb (String.eqb adoptAs version) then adoptAs else version.

Definition importedState (version token : string) (nodes : list EtcdNode) : EtcdState :=
  mkEtcdState false (Some (mkEtcdCluster (int32 (Z.of_nat (length nodes))) token nodes)) (adoptedVersion version) false.

Definition importFrom (fuel : nat) (baseDir k b : string) : LM (result (option EtcdState)) :=
  match importManifest k b with
  | Err e => mret (Err e)
  | Ok (version, token, nodes) =>
      e ← copyDir fuel (legacyDir baseDir k) (dataDirFor baseDir token);
      match e with
      | Some e => mret (Err e)
      | None =>
          e ← lcall (LMkdirAll (trashcan baseDir));
          match e with
          | Some _ => mret (Err "error creating trashcan directory")
          | None =>
              e ← lcall (LRename (legacyDir baseDir k) (PathJoin [trashcan baseDir; token]));
              mret (match e with
                    | Some _ => Err "error renaming directory"
                    | None => Ok (Some (importedState version token nodes))
                    end)
          end
      end
  end.

Definition ImportExistingEtcd (fuel : nat) (baseDir : string) : LM (result (option EtcdState)) :=
  r ← for_each etcdKeys tt (fun k _ =>
        b ← lcall (LReadFile (manifestFile baseDir k));
        match b with
        | FileNotExist => mret (inl tt)
        | FileErr _ => mret (inr (Err "error reading file"))
        | FileOk b =>
            if String.eqb (TrimSpace b) "" then mret (inl tt)
            else r ← importFrom fuel baseDir k b; mret (inr r)
        end);
  mret (match r with inl _ => Ok None | inr r => r end).
End Adopt.

(** ** privateapi/id.go *)

Definition PersistentPeerId (basedir : string) : LM (result string) :=
  let idFile := PathJoin [basedir; "myid"] in
  b ← lcall (LReadFile idFile);
  match b with
  | FileOk b => mret (Ok b)
  | FileErr _ => mret (Err "error reading id file")
  | FileNotExist =>
      r ← lcall LRandRead;
      match r with
      | Err _ => die (Fatal "error generating random token")
      | Ok bytes =>
          let token := RawURLEncode bytes in
          e ← lcall (LMkdirAll basedir);
          match e with
          | Some _ => mret (Err "error creating directories")
          | None =>
              e ← lcall (LCreateFile idFile token);
              mret (match e with Some _ => Err "error creating id file" | None => Ok token end)
          end
      end
  end.

(** ** What a copy and an import have done *)

(** [copied t src dst]: in [t] the directory [src] was read and all it held was
    copied below [dst], to any depth. *)
Inductive copied (t : LT) : string -> string -> Prop :=
| copied_dir src dst entries :
    lx (LMkdirAll dst) None ∈ t -> lx (LReadDir src) (Ok entries) ∈ t ->
    (forall n, (n, false) ∈ entries -> lx (LCopy (PathJoin [src; n]) (PathJoin [dst; n])) None ∈ t) ->
    (forall n, (n, true) ∈ entries -> copied t (PathJoin [src; n]) (PathJoin [dst; n])) ->
    copied t src dst.

(** [deep t n src]: [t] shows [n] directories inside each other, from [src] on. *)
Inductive deep (t : LT) : nat -> string -> Prop :=
| deep_O src : deep t O src
| deep_S k src entries n :
    lx (LReadDir src) (Ok entries) ∈ t -> (n, true) ∈ entries -> deep t k (PathJoin [src; n]) -> deep t (S k) src.

Definition noRename (x : exchange LegSig) : Prop := match asked x with LRename _ _ => False | _ => True end.

Lemma copied_grows t t' src dst : t ⊆ t' -> copied t src dst -> copied t' src dst.
Proof. intros Ht. induction 1 as [src dst es H1 H2 H3 _ IH]. apply (copied_dir t' src dst es); auto. Qed.

Lemma deep_grows t t' k src : t ⊆ t' -> deep t k src -> deep t' k src.
Proof. intros Ht. induction 1; [constructor|]. econstructor; eauto. Qed.

Lemma emits_copyDir fuel src dst : emits noRename (copyDir fuel src dst).
Proof.
  revert src dst. induction fuel as [|fuel IH]; intros src dst; cbn [copyDir]; unfold copyFile; emits_solve; done.
Qed.

Lemma copyFile_spec src dst s :
  wpm (copyFile src dst) s (fun r _ t => r = None -> lx (LCopy src dst) None ∈ t) (fun _ _ => False).
Proof.
  unfold copyFile. wpm_steps; intros H; try discriminate; unfold first_error in *; destruct r1, r2; simplify_eq; set_solver.
Qed.

(** What is there after one entry of a directory. *)
Definition entryCopied (t : LT) (src dst : string) (p : string * bool) : Prop :=
  if p.2 then copied t (PathJoin [src; p.1]) (PathJoin [dst; p.1])
  else lx (LCopy (PathJoin [src; p.1]) (PathJoin [dst; p.1])) None ∈ t.

Lemma entryCopied_grows t t' src dst p : t ⊆ t' -> entryCopied t src dst p -> entryCopied t' src dst p.
Proof. unfold entryCopied. destruct p.2; [apply copied_grows|set_solver]. Qed.

(** A copy that reports no error is complete; it is cut short only by a nesting
    deeper than the fuel. *)
Lemma copyDir_spec fuel src dst s :
  wpm (copyDir fuel src dst) s (fun r _ t => r = None -> copied t src dst) (fun c t => c = OutOfFuel /\ deep t fuel src).
Proof.
  revert src dst s. induction fuel as [|fuel IH]; intros src dst s; cbn [copyDir].
  { wpm_step. split; [done|constructor]. }
  do 2 wpm_step. destruct r; [by wpm_step|]. do 2 wpm_step. destruct r as [paths|]; [|by wpm_step]. wpm_step.
  pose proof (wpm_for_each (fun done (_ : unit) (_ : unit) t => Forall (entryCopied t src dst) done)
    (fun (_ : error) _ _ => True)
    (fun c t => c = OutOfFuel /\ exists n, (n, true) ∈ paths /\ deep t fuel (PathJoin [src; n])) paths) as Hloop.
  eapply wpm_mono; [eapply (Hloop _ [] tt s [])| |].
  - constructor.
  - intros dn [n isDir] _ s1 t1 Hd Hx. wpm_step.
    apply (wpm_mono _ _ (fun r _ t => r = None -> entryCopied t src dst (n, isDir)) _
      (fun c t => c = OutOfFuel /\ isDir = true /\ deep t fuel (PathJoin [src; n]))).
    + destruct isDir; [eapply wpm_mono; [apply IH|done|naive_solver]|]. wpm_step. eapply wpm_mono; [apply copyFile_spec| |done].
      intros r s2 t2 H. wpm_step. rewrite app_nil_r. unfold entryCopied. simpl. destruct r; [done|auto].
    + intros [e|] s2 t2 H; wpm_step; [done|]. rewrite app_nil_r. apply Forall_app. split.
      * eapply Forall_impl; [exact Hd|]. intros p. apply entryCopied_grows. set_solver.
      * constructor; [|constructor]. eapply entryCopied_grows; [|by apply H]. set_solver.
    + intros c t2 (-> & -> & H). split; [done|]. exists n. split; [done|]. eapply deep_grows; [|exact H]. set_solver.
  - intros [u|e] s' t H; wpm_step; [|done]. intros _. apply (copied_dir _ src dst paths); [set_solver..| |];
    simpl in H; rewrite Forall_forall in H; intros n Hn; apply H in Hn; unfold entryCopied in Hn; simpl in Hn.
    + set_solver.
    + eapply copied_grows; [|exact Hn]. set_solver.
  - intros c t (-> & n & Hn & Hdeep). split; [done|]. econstructor; [|exact Hn|eapply deep_grows; [|exact Hdeep]]; set_solver.
Qed.

(** *** Errors *)

(** An answer that is not an error. *)
Definition good_answer (e : leg_op) : leg_res e -> bool :=
  match e with
  | LReadFile _ => fun r => match r with FileErr _ => false | _ => true end
  | LReadDir _ | LRandRead => is_ok
  | _ => fun r => match r with None => true | Some _ => false end
  end.
Definition failed (x : exchange LegSig) : Prop := good_answer (projT1 x) (projT2 x) = false.
Definition failure (t : LT) : Prop := Exists failed t.

Lemma failure_app t t' : failure t \/ failure t' -> failure (t ++ t').
Proof. unfold failure. by rewrite Exists_app. Qed.

Lemma copyFile_fails src dst s :
  wpm (copyFile src dst) s (fun r _ t => r <> None -> failure t) (fun _ _ => False).
Proof.
  unfold copyFile. wpm_steps; unfold failure; rewrite !Exists_cons; unfold failed; simpl; try (intros _; tauto).
  destruct r1, r2, r3; simpl; tauto.
Qed.

(** A copy reports an error only when the disk did. *)
Lemma copyDir_fails fuel src dst s :
  wpm (copyDir fuel src dst) s (fun r _ t => r <> None -> failure t) (fun _ _ => True).
Proof.
  revert src dst s. induction fuel as [|fuel IH]; intros src dst s; cbn [copyDir]; [by wpm_step|].
  do 2 wpm_step. destruct r as [e|]; [wpm_step; intros _; by apply Exists_cons_hd|].
  do 2 wpm_step. destruct r as [paths|e]; [|wpm_step; intros _; by apply Exists_cons_tl, Exists_cons_hd]. wpm_step.
  pose proof (wpm_for_each (fun _ (_ : unit) (_ : unit) _ => True) (fun (_ : error) _ t => failure t) (fun _ _ => True) paths)
    as Hloop.
  eapply wpm_mono; [eapply (Hloop _ [] tt s []); [done|]| |done].
  - intros dn [n isDir] _ s1 t1 _ Hx. wpm_step.
    apply (wpm_mono _ _ (fun r _ t => r <> None -> failure t) _ (fun _ _ => True)); [| |done].
    + destruct isDir; [apply IH|]. wpm_step. eapply wpm_mono; [apply copyFile_fails| |done].
      intros r s2 t2 H. wpm_step. rewrite app_nil_r. destruct r; [intros _; by apply H|done].
    + intros [e|] s2 t2 H; wpm_step; [|done]. rewrite app_nil_r. apply failure_app. right. by apply H.
  - intros [u|e] s' t H; wpm_step; [done|]. intros _. simpl in H. rewrite app_nil_r.
    apply (failure_app [_]). right. apply (failure_app [_]). by right.
Qed.

(** ** The import *)

Section Adoption.
Context (Unmarshal : string -> result legacyManifest).

(** The manifest [k] was read in [t] and says [version], [token] and [nodes]. *)
Definition manifestRead (t : LT) (baseDir k version token : string) (nodes : list EtcdNode) : Prop :=
  k ∈ etcdKeys /\ exists b, lx (LReadFile (manifestFile baseDir k)) (FileOk b) ∈ t /\ TrimSpace b <> ""%string /\
    importManifest Unmarshal k b = Ok (version, token, nodes).

(** The data was copied before: what makes it safe to move it away. *)
Definition movable (baseDir old new : string) (t : LT) : Prop :=
  exists k version token nodes, manifestRead t baseDir k version token nodes /\ old = legacyDir baseDir k /\
    new = PathJoin [trashcan baseDir; token] /\ copied t old (dataDirFor baseDir token).
Definition renames (old new : string) (x : exchange LegSig) : Prop := asked x = LRename old new.

(** The manifest [k] was read, and is not there or is blank. *)
Definition nothingThere (baseDir k : string) (x : exchange LegSig) : Prop :=
  exists f, x = lx (LReadFile (manifestFile baseDir k)) f /\
    (f = FileNotExist \/ exists b, f = FileOk b /\ TrimSpace b = ""%string).

(** [k] is the first manifest that is there: those before it were read first. *)
Definition firstThere (baseDir k : string) (t : LT) : Prop :=
  exists before after tb b ta, etcdKeys = before ++ k :: after /\ Forall2 (nothingThere baseDir) before tb /\
    t = tb ++ lx (LReadFile (manifestFile baseDir k)) (FileOk b) :: ta /\ TrimSpace b <> ""%string.

(** What the import answers: the state of the first manifest that is there;
    nothing, after exactly one read of each manifest and nothing else; or an
    error, because the disk answered one or the manifest is not understood. *)
Definition answered (baseDir : string) (t : LT) (r : result (option EtcdState)) : Prop :=
  match r with
  | Ok (Some st) =>
      exists k version token nodes, manifestRead t baseDir k version token nodes /\ st = importedState version token nodes /\
        firstThere baseDir k t /\
        lx (LRename (legacyDir baseDir k) (PathJoin [trashcan baseDir; token])) None ∈ t
  | Ok None => Forall2 (nothingThere baseDir) etcdKeys t
  | Err _ => failure t \/ exists k b e, k ∈ etcdKeys /\ lx (LReadFile (manifestFile baseDir k)) (FileOk b) ∈ t /\
      importManifest Unmarshal k b = Err e
  end.

Lemma manifestRead_grows t t' baseDir k version token nodes :
  t ⊆ t' -> manifestRead t baseDir k version token nodes -> manifestRead t' baseDir k version token nodes.
Proof. intros Ht (Hk & b & Hb & H). split; [done|]. exists b. auto. Qed.

Lemma no_renames t old new : Forall noRename t -> Forall (fun x => ~ renames old new x) t.
Proof. intros H. eapply Forall_impl; [exact H|]. unfold noRename, renames. intros x Hx E. by rewrite E in Hx. Qed.

Lemma nothingThere_quiet baseDir ks t old new :
  Forall2 (nothingThere baseDir) ks t -> Forall (fun x => ~ renames old new x) t.
Proof. induction 1 as [|k x ks t (f & -> & _) _ IH]; constructor; [discriminate|done]. Qed.

Lemma nothingThere_snoc baseDir ks t k f :
  Forall2 (nothingThere baseDir) ks t -> (f = FileNotExist \/ exists b, f = FileOk b /\ TrimSpace b = ""%string) ->
  Forall2 (nothingThere baseDir) (ks ++ [k]) (t ++ [lx (LReadFile (manifestFile baseDir k)) f]).
Proof. intros Ht Hf. apply Forall2_app; [done|]. constructor; [|constructor]. by exists f. Qed.

(** The body of the import, after the manifests [before] were found absent in
    [tb] and the manifest [k] was read. *)
Lemma importFrom_spec fuel baseDir k b before after tb s :
  etcdKeys = before ++ k :: after -> Forall2 (nothingThere baseDir) before tb -> TrimSpace b <> ""%string ->
  let t0 := tb ++ [lx (LReadFile (manifestFile baseDir k)) (FileOk b)] in
  wpm (importFrom Unmarshal fuel baseDir k b) s
    (fun r _ t => (forall old new, guarded (renames old new) (movable baseDir old new) (t0 ++ t)) /\
       r <> Ok None /\ answered baseDir (t0 ++ t) r)
    (fun c t => (forall old new, Forall (fun x => ~ renames old new x) (t0 ++ t)) /\
       c = OutOfFuel /\ exists k, k ∈ etcdKeys /\ deep (t0 ++ t) fuel (legacyDir baseDir k)).
Proof.
  intros Hkeys Hbefore Hne t0.
  assert (k ∈ etcdKeys) as Hk by (rewrite Hkeys; set_solver).
  assert (lx (LReadFile (manifestFile baseDir k)) (FileOk b) ∈ t0) as Hb by (unfold t0; set_solver).
  assert (forall old new, Forall (fun x => ~ renames old new x) t0) as Ht0.
  { intros. apply Forall_app. split; [by eapply nothingThere_quiet|]. constructor; [discriminate|constructor]. }
  unfold importFrom. destruct (importManifest Unmarshal k b) as [[[version token] nodes]|e] eqn:Em.
  2:{ wpm_step. rewrite app_nil_r. split; [intros; apply guarded_Forall; auto|]. split; [done|]. right. by exists k, b, e. }
  assert (manifestRead t0 baseDir k version token nodes) as Hm by (split; eauto).
  wpm_step. eapply wpm_mono; [apply (wpm_conj _ _ _ _ _ _ (wpm_conj _ _ _ _ _ _ (copyDir_spec fuel _ _ s) (copyDir_fails fuel _ _ s))
    (emits_copyDir fuel _ _ s))| |].
  2:{ intros c t [[[-> Hd] _] Hn]. split; [intros; apply Forall_app; auto using no_renames|]. split; [done|].
      exists k. split; [done|]. eapply deep_grows; [|exact Hd]. set_solver. }
  intros r s' t [[Hc Hf] Hn]. simpl in Hn.
  assert (forall old new, Forall (fun x => ~ renames old new x) (t0 ++ t)) as Ht by (intros; apply Forall_app; auto using no_renames).
  destruct r as [e|].
  { wpm_step; rewrite app_nil_r; split; [intros; apply guarded_Forall; auto|]. split; [done|]. left. apply failure_app. right. by apply Hf. }
  specialize (Hc eq_refl). do 2 wpm_step.
  match goal with |- context [lx (LMkdirAll _) ?r] => rename r into rm end.
  assert (forall old new, Forall (fun x => ~ renames old new x) (t0 ++ t ++ [lx (LMkdirAll (trashcan baseDir)) rm])) as Ht1.
  { intros. rewrite app_assoc, Forall_app. split; [auto|]. constructor; [discriminate|constructor]. }
  destruct rm as [e|].
  { wpm_step; rewrite app_nil_r; split; [intros; apply guarded_Forall; auto|]. split; [done|].
    left. apply failure_app. right. apply failure_app. right. by apply Exists_cons_hd. }
  do 3 wpm_step. match goal with |- context [lx (LRename _ _) ?r] => rename r into rr end. set (tm := t ++ _).
  split; [|split; [by destruct rr|]].
  - intros old new. replace (t0 ++ tm) with ((t0 ++ t ++ [lx (LMkdirAll (trashcan baseDir)) None]) ++
      [lx (LRename (legacyDir baseDir k) (PathJoin [trashcan baseDir; token])) rr]) by (unfold tm; by rewrite <- !app_assoc).
    apply guarded_app; [by apply guarded_Forall|]. intros [|x t1] x' t2 E Hx; [|by destruct t1].
    injection E as <- _. unfold renames in Hx. simpl in Hx. injection Hx as <- <-. rewrite app_nil_r.
    exists k, version, token, nodes. split; [eapply manifestRead_grows; [|exact Hm]; set_solver|]. do 2 (split; [done|]).
    eapply copied_grows; [|exact Hc]. set_solver.
  - destruct rr as [e|].
    + left. apply failure_app. right. unfold tm. apply failure_app. right. by apply Exists_cons_tl, Exists_cons_hd.
    + exists k, version, token, nodes. split; [eapply manifestRead_grows; [|exact Hm]; set_solver|]. split; [done|].
      split; [|set_solver]. exists before, after, tb, b, tm. split; [done|]. split; [done|]. split; [|done].
      unfold t0. by rewrite <- app_assoc.
Qed.

(** C18: adopting a legacy etcd loses no data, whatever the disk answers: the old
    data directory is moved away only after a manifest was read and understood and
    every file in the directory, to any depth, was copied without error to the
    data directory of the cluster the manifest names; the state handed to the
    manager is the one of the first manifest that is there and comes only with the
    move done; the answer that there is nothing to adopt comes exactly after each
    of the two manifests was read and found absent or blank, with nothing else
    asked of the disk; an error comes only when the disk answered one or the
    manifest is not understood; and the import returns unless directories are
    nested deeper than [fuel], in which case nothing was moved. *)
Theorem import_safe fuel baseDir t o :
  runs (ImportExistingEtcd Unmarshal fuel baseDir tt) t o ->
  match o with
  | Done (r, _) => (forall old new, guarded (renames old new) (movable baseDir old new) t) /\ answered baseDir t r
  | Crashed c => (forall old new, Forall (fun x => ~ renames old new x) t) /\ c = OutOfFuel /\
      exists k, k ∈ etcdKeys /\ deep t fuel (legacyDir baseDir k)
  end.
Proof.
  intros Hrun. assert (wpm (ImportExistingEtcd Unmarshal fuel baseDir) tt
    (fun r _ t => (forall old new, guarded (renames old new) (movable baseDir old new) t) /\ answered baseDir t r)
    (fun c t => (forall old new, Forall (fun x => ~ renames old new x) t) /\ c = OutOfFuel /\
      exists k, k ∈ etcdKeys /\ deep t fuel (legacyDir baseDir k))) as Hw.
  2:{ pose proof (wp_runs _ _ _ _ Hrun Hw) as Hq. by destruct o as [[r s']|c]. }
  unfold ImportExistingEtcd. wpm_step.
  pose proof (wpm_for_each_prefix (fun seen (_ : unit) (_ : unit) t => Forall2 (nothingThere baseDir) seen t)
    (fun r _ t => (forall old new, guarded (renames old new) (movable baseDir old new) t) /\ answered baseDir t r)
    (fun c t => (forall old new, Forall (fun x => ~ renames old new x) t) /\ c = OutOfFuel /\
      exists k, k ∈ etcdKeys /\ deep t fuel (legacyDir baseDir k)) etcdKeys) as Hloop.
  eapply wpm_mono; [eapply (Hloop _ tt tt [])| |done].
  - constructor.
  - intros before k after _ s1 t1 Ht Hkeys. do 2 wpm_step. destruct r as [b| |e].
    + destruct (String.eqb_spec (TrimSpace b) "") as [E|Hne]; [wpm_step; rewrite app_nil_r; apply nothingThere_snoc; eauto|].
      wpm_step. eapply wpm_mono; [apply (importFrom_spec fuel baseDir k b before after t1); done| |]; cbn beta zeta.
      * intros r s' t' (H1 & _ & H2). wpm_step. rewrite app_nil_r. by rewrite <- app_assoc in H1, H2.
      * intros c t' H. by rewrite <- app_assoc in H.
    + wpm_step. rewrite app_nil_r. apply nothingThere_snoc; auto.
    + wpm_step. rewrite app_nil_r. split.
      * intros. apply guarded_Forall, Forall_app. split; [by eapply nothingThere_quiet|]. constructor; [discriminate|constructor].
      * left. apply failure_app. right. by apply Exists_cons_hd.
  - intros [u|r] s' t' H; wpm_step; rewrite app_nil_r; [|done]. simpl in H.
    split; [|done]. intros. apply guarded_Forall. by eapply nothingThere_quiet.
Qed.
End Adoption.

Module LegacyDemo.
(** The manifest of one node of "etcd-events", on a registry with a port. *)
Definition etcdPod : legacyManifestContainer :=
  mkContainer "etcd-container" [("ETCD_NAME", "etcd-a"); ("ETCD_INITIAL_CLUSTER", "etcd-a=http://a.example:2381,etcd-b=https://b.example:2381");
    ("ETCD_INITIAL_CLUSTER_TOKEN", " tok ")] "localhost:8000/etcd:2.2.1".
Definition Unmarshal (b : string) : result legacyManifest :=
  if String.eqb b "kind: Pod" then Ok [mkContainer "other" [] "x"; etcdPod] else Err "no manifest".
Definition nodes : list EtcdNode :=
  [mkEtcdNode "etcd-a" ["http://a.example:2381"] ["http://0.0.0.0:4002"] ["http://0.0.0.0:3995"] false;
   mkEtcdNode "etcd-b" ["https://b.example:2381"] ["https://0.0.0.0:4002"] ["https://0.0.0.0:3995"] false].
(** The first manifest is blank; the data holds a file and a directory with a file. *)
Definition machine : handler LegSig unit := fun e w =>
  match e with
  | LReadFile p => (if String.eqb p "/base/k8s.io/manifests/etcd-events.manifest" then FileOk "kind: Pod"
                    else if String.eqb p "/base/k8s.io/manifests/etcd.manifest" then FileOk "  " else FileNotExist, w)
  | LReadDir p => (if String.eqb p "/base/var/etcd/data-events" then Ok [("version", false); ("member", true)]
                   else if String.eqb p "/base/var/etcd/data-events/member" then Ok [("wal", false)] else Err "no directory", w)
  | LRandRead => (Ok [], w)
  | _ => (None, w)
  end.
Definition adopt (fuel : nat) : prog LegSig (result (option EtcdState) * unit) := ImportExistingEtcd Unmarshal fuel "/base" tt.
Definition state : EtcdState := importedState "2.2.1" "tok" nodes.
End LegacyDemo.

Lemma import_safe_witness :
  outcome_of LegacyDemo.machine (LegacyDemo.adopt 2) tt = Done (Ok (Some LegacyDemo.state), tt) /\
  answered LegacyDemo.Unmarshal "/base" (trace_of LegacyDemo.machine (LegacyDemo.adopt 2) tt) (Ok (Some LegacyDemo.state)) /\
  outcome_of LegacyDemo.machine (LegacyDemo.adopt 1) tt = Crashed OutOfFuel /\
  exists k, k ∈ etcdKeys /\ deep (trace_of LegacyDemo.machine (LegacyDemo.adopt 1) tt) 1 (legacyDir "/base" k).
Proof.
  assert (outcome_of LegacyDemo.machine (LegacyDemo.adopt 2) tt = Done (Ok (Some LegacyDemo.state), tt)) as E2
    by (vm_compute; reflexivity).
  assert (outcome_of LegacyDemo.machine (LegacyDemo.adopt 1) tt = Crashed OutOfFuel) as E1 by (vm_compute; reflexivity).
  split; [exact E2|]. split; [exact (proj2 (import_safe _ _ _ _ _ (exec_runs_eq _ _ _ _ E2)))|]. split; [exact E1|].
  exact (proj2 (proj2 (import_safe _ _ _ _ _ (exec_runs_eq _ _ _ _ E1)))).
Defined.
