(* ===== verification/AdmConfig.v ===== *)
(** * etcdadm: configuration, environment and members

    etcdadm (the root of the repository) installs one etcd member on a machine.
    This file has its configuration and the defaults that are filled in
    (apis/config.go, constants/constants.go), the questions it asks its
    environment, and the functions on etcd members (etcd/etcd.go). *)

From Stdlib Require Import Ascii.
From stdpp Require Import base gmap sets list strings.
From S2P Require Import Prelude Effects GoLib.

Local Open Scope Z_scope.

(** ** URLs *)

(** A [url.URL] with a scheme and a host only.  The hosts are IP addresses with a
    port, of which [URL.String] escapes nothing. *)
Record URL := mkUrl { url_Scheme : string; url_Host : string }.
#[export] Instance URL_eq_dec : EqDecision URL.
Proof. solve_decision. Defined.

Definition URLString (u : URL) : string := url_Scheme u +:+ "://" +:+ url_Host u.

(** ":" and digits, or nothing. *)
Definition validOptionalPort (port : string) : bool :=
  match port with
  | EmptyString => true
  | String c rest => Ascii.eqb c ":" && containsOnly rest digits
  end.

(** [URL.Hostname]: the host without the port and the brackets. *)
Definition stripBrackets (host : string) : string :=
  if HasPrefix host "[" && HasSuffix host "]"
  then take_str (String.length host - 2) (drop_str 1 host) else host.
Definition Hostname (u : URL) : string :=
  stripBrackets
    match last_index ":" (url_Host u) with
    | Some i => if validOptionalPort (drop_str i (url_Host u)) then take_str i (url_Host u) else url_Host u
    | None => url_Host u
    end.

Definition StringSlice (l : list URL) : list string := URLString <$> l.
Definition URLListString (l : list URL) : string := Join (StringSlice l) ",".

(** JSON and [url.Parse] are libraries.  What was parsed before an error stays. *)
Fixpoint parseUrls (Parse : string -> result URL) (l : list URL) (tokens : list string) : list URL * option error :=
  match tokens with
  | [] => (l, None)
  | t :: rest =>
      match Parse t with
      | Err e => (l, Some e)
      | Ok u => parseUrls Parse (l ++ [u]) rest
      end
  end.
Definition UnmarshalJSON (unmarshal : string -> result string) (Parse : string -> result URL)
    (l : list URL) (j : string) : list URL * option error :=
  match unmarshal j with
  | Err e => (l, Some e)
  | Ok s => parseUrls Parse l (Split s ",")
  end.

(** ** constants.go *)

Definition DefaultCacheBaseDir : string := "/var/cache/etcdadm/".
Definition DefaultLoopbackHost : string := "127.0.0.1".
Definition DefaultPeerPort : Z := 2380.
Definition DefaultClientPort : Z := 2379.
Definition EtcdHealthCheckKey : string := "health".
Definition EtcdCACertAndKeyBaseName : string := "ca".
Definition EtcdServerCertAndKeyBaseName : string := "server".
Definition EtcdPeerCertAndKeyBaseName : string := "peer".
Definition APIServerEtcdClientCertAndKeyBaseName : string := "apiserver-etcd-client".
Definition EtcdctlClientCertAndKeyBaseName : string := "etcdctl-etcd-client".
Definition MastersGroup : string := "system:masters".
Definition DefaultBackOffSteps : nat := 5.
Definition DefaultBackOffDuration : duration := 2 * Second.
Definition DefaultDownloadConnectTimeout : duration := 10 * Second.
Definition DefaultEtcdDiskPriorities : list string :=
  ["Nice=-10"; "IOSchedulingClass=best-effort"; "IOSchedulingPriority=2"].

(** ** The configuration *)

(** The fields of [EtcdAdmConfig], grouped by who sets them.  First the flags of
    the command line. *)
Record AdmFlags := mkAdmFlags {
  Version : string;
  ReleaseURL : string;
  ImageRepository : string;
  CertificatesDir : string;
  DataDir : string;
  InstallDir : string;
  PodSpecDir : string;
  BindAddr : string;
  EtcdDiskPriorities : list string;
  Snapshot : string;
  SkipHashCheck : bool;
  Retry : bool;
  InitSystem : string;
  Logger : string;
  LogOutputs : string;
  EnableV2 : string;
  ListenMetricsURLs : list URL;
}.

(** What [SetDefaults] sets. *)
Record AdmStatic := mkAdmStatic { UnitFile : string; EnvironmentFile : string; EtcdctlEnvFile : string }.

(** The names of files that follow from the flags. *)
Record AdmPaths := mkAdmPaths {
  CacheDir : string;
  EtcdExecutable : string;
  EtcdctlExecutable : string;
  EtcdctlShellWrapper : string;
  PeerCertFile : string;
  PeerKeyFile : string;
  PeerTrustedCAFile : string;
  CertFile : string;
  KeyFile : string;
  TrustedCAFile : string;
  EtcdctlCertFile : string;
  EtcdctlKeyFile : string;
}.

Record AdmUrls := mkAdmUrls {
  InitialAdvertisePeerURLs : list URL;
  ListenPeerURLs : list URL;
  AdvertiseClientURLs : list URL;
  ListenClientURLs : list URL;
  LoopbackClientURL : URL;
}.

Record EtcdAdmConfig := mkAdm {
  adm_flags : AdmFlags;
  adm_static : AdmStatic;
  adm_paths : AdmPaths;
  adm_urls : AdmUrls;
  ServerCertSANs : list string;
  PeerCertSANs : list string;
  Name : string;
  InitialCluster : string;
  InitialClusterToken : string;
  InitialClusterState : string;
  GOMAXPROCS : Z;
  Endpoint : string;
}.

Definition set_static (x : AdmStatic) (c : EtcdAdmConfig) : EtcdAdmConfig :=
  mkAdm (adm_flags c) x (adm_paths c) (adm_urls c) (ServerCertSANs c) (PeerCertSANs c) (Name c)
    (InitialCluster c) (InitialClusterToken c) (InitialClusterState c) (GOMAXPROCS c) (Endpoint c).
Definition set_paths (x : AdmPaths) (c : EtcdAdmConfig) : EtcdAdmConfig :=
  mkAdm (adm_flags c) (adm_static c) x (adm_urls c) (ServerCertSANs c) (PeerCertSANs c) (Name c)
    (InitialCluster c) (InitialClusterToken c) (InitialClusterState c) (GOMAXPROCS c) (Endpoint c).
Definition set_urls (x : AdmUrls) (c : EtcdAdmConfig) : EtcdAdmConfig :=
  mkAdm (adm_flags c) (adm_static c) (adm_paths c) x (ServerCertSANs c) (PeerCertSANs c) (Name c)
    (InitialCluster c) (InitialClusterToken c) (InitialClusterState c) (GOMAXPROCS c) (Endpoint c).
Definition set_ServerCertSANs (x : list string) (c : EtcdAdmConfig) : EtcdAdmConfig :=
  mkAdm (adm_flags c) (adm_static c) (adm_paths c) (adm_urls c) x (PeerCertSANs c) (Name c)
    (InitialCluster c) (InitialClusterToken c) (InitialClusterState c) (GOMAXPROCS c) (Endpoint c).
Definition set_PeerCertSANs (x : list string) (c : EtcdAdmConfig) : EtcdAdmConfig :=
  mkAdm (adm_flags c) (adm_static c) (adm_paths c) (adm_urls c) (ServerCertSANs c) x (Name c)
    (InitialCluster c) (InitialClusterToken c) (InitialClusterState c) (GOMAXPROCS c) (Endpoint c).
Definition set_Name (x : string) (c : EtcdAdmConfig) : EtcdAdmConfig :=
  mkAdm (adm_flags c) (adm_static c) (adm_paths c) (adm_urls c) (ServerCertSANs c) (PeerCertSANs c) x
    (InitialCluster c) (InitialClusterToken c) (InitialClusterState c) (GOMAXPROCS c) (Endpoint c).
Definition set_InitialCluster (x : string) (c : EtcdAdmConfig) : EtcdAdmConfig :=
  mkAdm (adm_flags c) (adm_static c) (adm_paths c) (adm_urls c) (ServerCertSANs c) (PeerCertSANs c) (Name c)
    x (InitialClusterToken c) (InitialClusterState c) (GOMAXPROCS c) (Endpoint c).
Definition set_InitialClusterToken (x : string) (c : EtcdAdmConfig) : EtcdAdmConfig :=
  mkAdm (adm_flags c) (adm_static c) (adm_paths c) (adm_urls c) (ServerCertSANs c) (PeerCertSANs c) (Name c)
    (InitialCluster c) x (InitialClusterState c) (GOMAXPROCS c) (Endpoint c).
Definition set_InitialClusterState (x : string) (c : EtcdAdmConfig) : EtcdAdmConfig :=
  mkAdm (adm_flags c) (adm_static c) (adm_paths c) (adm_urls c) (ServerCertSANs c) (PeerCertSANs c) (Name c)
    (InitialCluster c) (InitialClusterToken c) x (GOMAXPROCS c) (Endpoint c).
Definition set_GOMAXPROCS (x : Z) (c : EtcdAdmConfig) : EtcdAdmConfig :=
  mkAdm (adm_flags c) (adm_static c) (adm_paths c) (adm_urls c) (ServerCertSANs c) (PeerCertSANs c) (Name c)
    (InitialCluster c) (InitialClusterToken c) (InitialClusterState c) x (Endpoint c).
Definition set_Endpoint (x : string) (c : EtcdAdmConfig) : EtcdAdmConfig :=
  mkAdm (adm_flags c) (adm_static c) (adm_paths c) (adm_urls c) (ServerCertSANs c) (PeerCertSANs c) (Name c)
    (InitialCluster c) (InitialClusterToken c) (InitialClusterState c) (GOMAXPROCS c) x.

(** ** Members: etcd/etcd.go *)

Record Member := mkMember {
  mem_ID : Z;
  mem_Name : string;
  mem_PeerURLs : list string;
  mem_ClientURLs : list string;
}.

Fixpoint stringSlicesEqual (l r : list string) : bool :=
  match l, r with
  | [], [] => true
  | x :: l', y :: r' => String.eqb x y && stringSlicesEqual l' r'
  | _, _ => false
  end.

Definition MemberForPeerURLs (members : list Member) (peerURLs : list string) : option Member :=
  List.find (fun m => stringSlicesEqual (mem_PeerURLs m) peerURLs) members.
Definition MemberForID (members : list Member) (id : Z) : option Member :=
  List.find (fun m => mem_ID m =? id) members.

Definition Started (member : Member) : bool :=
  negb (String.eqb (mem_Name member) "" && bool_decide (mem_ClientURLs member = [])).

Definition InitialClusterFromMembers (members : list Member) : string :=
  Join (concat ((fun m => (fun u => mem_Name m +:+ "=" +:+ u) <$> mem_PeerURLs m) <$> members)) ",".

(** ** The environment *)

(** How a command ended: well, with a status, or it could not be run. *)
Inductive run_result := RunOk | RunExit | RunError (e : error).
Inductive exists_result := IsThere | IsMissing | ExistsErr (e : error).
Inductive remove_result := Removed | RemoveMissing | RemoveErr (e : error).
Inductive get_result := GetOk | PermissionDenied | GetErr (e : error).

Inductive adm_op : Type :=
| AHostname
| ANumCPU
| AResolveBindAddress                        (* netutil.ResolveBindAddress of 0.0.0.0 *)
| AInterfaceAddrs                            (* the addresses of the machine's networks *)
| ANewV4                                     (* a random UUID *)
| ARange                                     (* the order of a map iteration *)
| AStat (p : string)
| AMkdirAll (p : string)
| ARemoveAll (p : string)
| ARemove (p : string)
| ATempDir
| AOpenFile (p : string)                     (* create or truncate, to write *)
| AWrite (p data : string)                   (* to the file opened *)
| AWriteFile (p data : string)
| AOpen (p : string)                         (* to read *)
| ARead (p : string)                         (* what can be read, and the error that ended it *)
| ALookPath (name : string)
| ARun (args : list string)
| AOutput (env args : list string)           (* run with additional environment, capture stdout *)
| AClientTLS (cert key ca : string)          (* TLSInfo.ClientConfig *)
| ANewClient (endpoint : string)
| AMemberList
| AMemberAdd (peerURLs : list string)
| AMemberRemove (id : Z)
| AGet (key : string)
| ACloseClient
| ASleep (n : nat)                           (* the pause after the n-th attempt *)
| ARestoreSnapshot (path name dataDir : string) (peerURLs : list string)
    (initialCluster token : string) (skipHashCheck : bool).

Definition adm_res (e : adm_op) : Type :=
  match e with
  | AHostname | AResolveBindAddress | ATempDir => result string
  | AInterfaceAddrs => result (list string)
  | ANumCPU => Z
  | ANewV4 => string
  | ARange => list nat
  | AStat _ => exists_result
  | ARemove _ => remove_result
  | ARead _ => string * option error
  | ARun _ => run_result
  | AOutput _ _ => result string
  | AMemberList => result (list Member * Z)  (* with the id of the member that answered *)
  | AMemberAdd _ => result (Member * list Member)
  | AGet _ => get_result
  | ACloseClient | ASleep _ => unit
  | _ => option error
  end.
Definition AdmSig : sig := Sig adm_op adm_res.
#[export] Instance Adm_range : HasRange AdmSig := {| range_op := ARange : op AdmSig; range_code := fun r => r |}.

Abbreviation AdmM := (M AdmSig EtcdAdmConfig).
Abbreviation acall e := (@call AdmSig _ e).
Abbreviation axch e r := (@existT (op AdmSig) (@res AdmSig) e r).

(** ** Defaults: apis/config.go *)

Section Defaults.
(** [net.ParseIP], as the text of the address. *)
Context (ParseIP : string -> option string).

Definition SetDefaults : AdmM unit :=
  modify (set_static (mkAdmStatic "/etc/systemd/system/etcd.service" "/etc/etcd/etcd.env" "/etc/etcd/etcdctl.env")).

Definition ensureValidExternalAddress (userAddr : string) : AdmM (result string) :=
  if String.eqb userAddr "" || String.eqb userAddr "0.0.0.0" then
    ip ← acall AResolveBindAddress;
    mret (match ip with Err _ => Err "failed to find a default external address" | Ok ip => Ok ip end)
  else
    match ParseIP userAddr with
    | None => mret (Err "invalid bind address: invalid ip format")
    | Some ip =>
        addrs ← acall AInterfaceAddrs;
        mret (match addrs with
              | Err _ => Err "unable to list system unicast addresses to validate bind address"
              | Ok systemAddrs =>
                  if bool_decide (ip ∈ systemAddrs) then Ok ip
                  else Err "invalid bind address: not found in system interfaces"
              end)
    end.

(** ["%s:%d"] *)
Definition hostPort (address : string) (port : Z) : string := address +:+ ":" +:+ Itoa port.

Definition DefaultInitialAdvertisePeerURLs : AdmM (option error) :=
  c ← get;
  r ← ensureValidExternalAddress (BindAddr (adm_flags c));
  match r with
  | Err _ => mret (Some "failed to set default InitialAdvertisePeerURLs")
  | Ok externalAddress =>
      let u := adm_urls c in
      modify (set_urls (mkAdmUrls
        (InitialAdvertisePeerURLs u ++ [mkUrl "https" (hostPort externalAddress DefaultPeerPort)])
        (ListenPeerURLs u) (AdvertiseClientURLs u) (ListenClientURLs u) (LoopbackClientURL u))) ≫= fun _ => mret None
  end.

Definition DefaultListenPeerURLs : AdmM unit :=
  c ← get;
  let u := adm_urls c in
  modify (set_urls (mkAdmUrls (InitialAdvertisePeerURLs u) (InitialAdvertisePeerURLs u)
    (AdvertiseClientURLs u) (ListenClientURLs u) (LoopbackClientURL u))).

Definition DefaultPeerURLs : AdmM (option error) :=
  e ← DefaultInitialAdvertisePeerURLs;
  match e with
  | Some e => mret (Some e)
  | None => DefaultListenPeerURLs ≫= fun _ => mret None
  end.

Definition DefaultLoopbackClientURL : AdmM unit :=
  c ← get;
  let u := adm_urls c in
  modify (set_urls (mkAdmUrls (InitialAdvertisePeerURLs u) (ListenPeerURLs u) (AdvertiseClientURLs u)
    (ListenClientURLs u) (mkUrl "https" (hostPort DefaultLoopbackHost DefaultClientPort)))).

Definition DefaultAdvertiseClientURLs : AdmM (option error) :=
  c ← get;
  r ← ensureValidExternalAddress (BindAddr (adm_flags c));
  match r with
  | Err _ => mret (Some "failed to set default AdvertiseClientURLs")
  | Ok externalAddress =>
      let u := adm_urls c in
      modify (set_urls (mkAdmUrls (InitialAdvertisePeerURLs u) (ListenPeerURLs u)
        (AdvertiseClientURLs u ++ [mkUrl "https" (hostPort externalAddress DefaultClientPort)])
        (ListenClientURLs u) (LoopbackClientURL u))) ≫= fun _ => mret None
  end.

Definition DefaultListenClientURLs : AdmM unit :=
  c ← get;
  let u := adm_urls c in
  modify (set_urls (mkAdmUrls (InitialAdvertisePeerURLs u) (ListenPeerURLs u) (AdvertiseClientURLs u)
    (AdvertiseClientURLs u ++ [LoopbackClientURL u]) (LoopbackClientURL u))).

(** The errors of the defaults are not looked at. *)
Definition DefaultClientURLs : AdmM (option error) :=
  DefaultLoopbackClientURL ≫= fun _ =>
  DefaultAdvertiseClientURLs ≫= fun _ =>
  DefaultListenClientURLs ≫= fun _ => mret None.

(** [uniqueSANs]: the host names of the URLs. *)
Definition uniqueSANs (l : list URL) : gmap string Z := list_to_map ((fun u => (Hostname u, 0)) <$> l).

Definition DefaultServerCertSANs : AdmM unit :=
  c ← get;
  sans ← range (uniqueSANs (AdvertiseClientURLs (adm_urls c) ++ ListenClientURLs (adm_urls c)));
  modify (set_ServerCertSANs (ServerCertSANs c ++ [Name c] ++ sans.*1)).

Definition DefaultPeerCertSANs : AdmM unit :=
  c ← get;
  sans ← range (uniqueSANs (InitialAdvertisePeerURLs (adm_urls c) ++ ListenPeerURLs (adm_urls c)));
  modify (set_PeerCertSANs (PeerCertSANs c ++ [Name c] ++ sans.*1)).

Definition defaultPaths (f : AdmFlags) : AdmPaths :=
  mkAdmPaths
    (PathJoin [DefaultCacheBaseDir; "etcd"; "v" +:+ Version f])
    (PathJoin [InstallDir f; "etcd"])
    (PathJoin [InstallDir f; "etcdctl"])
    (PathJoin [InstallDir f; "etcdctl.sh"])
    (PathJoin [CertificatesDir f; "peer.crt"])
    (PathJoin [CertificatesDir f; "peer.key"])
    (PathJoin [CertificatesDir f; "ca.crt"])
    (PathJoin [CertificatesDir f; "server.crt"])
    (PathJoin [CertificatesDir f; "server.key"])
    (PathJoin [CertificatesDir f; "ca.crt"])
    (PathJoin [CertificatesDir f; "etcdctl-etcd-client.crt"])
    (PathJoin [CertificatesDir f; "etcdctl-etcd-client.key"]).

Definition setDynamicDefaults : AdmM (option error) :=
  c ← get;
  e ← (if String.eqb (Name c) "" then
         h ← acall AHostname;
         match h with
         | Err _ => mret (Some "unable to use hostname as default name")
         | Ok name => modify (set_Name name) ≫= fun _ => mret None
         end
       else mret None);
  match e with
  | Some e => mret (Some e)
  | None =>
      modify (set_paths (defaultPaths (adm_flags c))) ≫= fun _ =>
      n ← acall ANumCPU;
      modify (set_GOMAXPROCS n) ≫= fun _ =>
      e ← DefaultPeerURLs;
      match e with
      | Some e => mret (Some e)
      | None =>
          e ← DefaultClientURLs;
          match e with
          | Some e => mret (Some e)
          | None => DefaultPeerCertSANs ≫= fun _ => DefaultServerCertSANs ≫= fun _ => mret None
          end
      end
  end.

(** The token is [s[0:8]], which panics for a shorter text. *)
Definition SetInitDynamicDefaults : AdmM (option error) :=
  modify (set_InitialClusterState "new") ≫= fun _ =>
  e ← setDynamicDefaults;
  match e with
  | Some e => mret (Some e)
  | None =>
      uuid ← acall ANewV4;
      (if (String.length uuid <? 8)%nat then die (NilDeref "String()[0:8]") else mret tt) ≫= fun _ =>
      modify (set_InitialClusterToken (take_str 8 uuid)) ≫= fun _ =>
      c ← get;
      modify (set_InitialCluster (Name c +:+ "=" +:+ URLListString (InitialAdvertisePeerURLs (adm_urls c)))) ≫= fun _ =>
      mret None
  end.

Definition SetJoinDynamicDefaults : AdmM (option error) :=
  modify (set_InitialClusterState "existing") ≫= fun _ => setDynamicDefaults.
Definition SetResetDynamicDefaults : AdmM (option error) := setDynamicDefaults.
Definition SetDownloadDynamicDefaults : AdmM (option error) := setDynamicDefaults.
End Defaults.
