(* ===== verification/AdmService.v ===== *)
(** * etcdadm: the files and the service of the member

    The templates of the files that are written (constants/constants.go, executed
    by [html/template]), the environment file and its comparison (service), and
    the preflight check. *)

From Stdlib Require Import Ascii.
From stdpp Require Import base gmap sets list strings sorting.
From S2P Require Import Prelude Effects GoLib Vfs AdmConfig.

Local Open Scope Z_scope.

(** ** html/template *)

(** A value in the text of a template is escaped as HTML. *)
Definition htmlByte (c : ascii) : string :=
  let n := nat_of_ascii c in
  if (n =? 0)%nat then bytes [239; 191; 189]%nat
  else if (n =? 34)%nat then "&#34;"
  else if (n =? 38)%nat then "&amp;"
  else if (n =? 39)%nat then "&#39;"
  else if (n =? 43)%nat then "&#43;"
  else if (n =? 60)%nat then "&lt;"
  else if (n =? 62)%nat then "&gt;"
  else String c EmptyString.
Fixpoint htmlEscape (s : string) : string :=
  match s with EmptyString => EmptyString | String c s' => htmlByte c +:+ htmlEscape s' end.

(** A text of lines, each ended by a newline. *)
Definition nl : string := bytes [10%nat].
Fixpoint unlines (l : list string) : string :=
  match l with [] => "" | x :: l' => x +:+ nl +:+ unlines l' end.

(** [{{ if .X }}K={{ .X }}{{ end }}] *)
Definition optional (key value : string) : string :=
  if String.eqb value "" then "" else key +:+ htmlEscape value.
(** [{{ if .GOMAXPROCS }}] holds of a number that is not zero. *)
Definition procs (n : Z) : string := if n =? 0 then "" else Itoa n.

(** [EnvFileTemplate] *)
Definition envLines (c : EtcdAdmConfig) : list string :=
  let f := adm_flags c in let p := adm_paths c in let u := adm_urls c in
  ["ETCD_NAME=" +:+ htmlEscape (Name c);
   "";
   "# Initial cluster configuration";
   "ETCD_INITIAL_CLUSTER=" +:+ htmlEscape (InitialCluster c);
   optional "ETCD_INITIAL_CLUSTER_TOKEN=" (InitialClusterToken c);
   "ETCD_INITIAL_CLUSTER_STATE=" +:+ htmlEscape (InitialClusterState c);
   "";
   "# Peer configuration";
   "ETCD_INITIAL_ADVERTISE_PEER_URLS=" +:+ htmlEscape (URLListString (InitialAdvertisePeerURLs u));
   "ETCD_LISTEN_PEER_URLS=" +:+ htmlEscape (URLListString (ListenPeerURLs u));
   "";
   "ETCD_CLIENT_CERT_AUTH=true";
   "ETCD_PEER_CERT_FILE=" +:+ htmlEscape (PeerCertFile p);
   "ETCD_PEER_KEY_FILE=" +:+ htmlEscape (PeerKeyFile p);
   "ETCD_PEER_TRUSTED_CA_FILE=" +:+ htmlEscape (PeerTrustedCAFile p);
   "";
   "# Client/server configuration";
   "ETCD_ADVERTISE_CLIENT_URLS=" +:+ htmlEscape (URLListString (AdvertiseClientURLs u));
   "ETCD_LISTEN_CLIENT_URLS=" +:+ htmlEscape (URLListString (ListenClientURLs u));
   "";
   "ETCD_PEER_CLIENT_CERT_AUTH=true";
   "ETCD_CERT_FILE=" +:+ htmlEscape (CertFile p);
   "ETCD_KEY_FILE=" +:+ htmlEscape (KeyFile p);
   "ETCD_TRUSTED_CA_FILE=" +:+ htmlEscape (TrustedCAFile p);
   "";
   "# Other";
   "ETCD_DATA_DIR=" +:+ htmlEscape (DataDir f);
   "ETCD_STRICT_RECONFIG_CHECK=true";
   optional "GOMAXPROCS=" (procs (GOMAXPROCS c));
   optional "ETCD_ENABLE_V2=" (EnableV2 f);
   "";
   "# Logging configuration";
   optional "ETCD_LOGGER=" (Logger f);
   optional "ETCD_LOG_OUTPUTS=" (LogOutputs f);
   "";
   "# Profiling/metrics";
   optional "ETCD_LISTEN_METRICS_URLS=" (URLListString (ListenMetricsURLs f))].
Definition BuildEnvironment (c : EtcdAdmConfig) : string := unlines (envLines c).

(** [UnitFileTemplate] *)
Definition unitLines (c : EtcdAdmConfig) : list string :=
  ["[Unit]";
   "Description=etcd";
   "Documentation=https://github.com/coreos/etcd";
   "Conflicts=etcd-member.service";
   "Conflicts=etcd2.service";
   "";
   "[Service]";
   "EnvironmentFile=" +:+ htmlEscape (EnvironmentFile (adm_static c));
   "ExecStart=" +:+ htmlEscape (EtcdExecutable (adm_paths c));
   "";
   "Type=notify";
   "TimeoutStartSec=0";
   "Restart=on-failure";
   "RestartSec=5s";
   "";
   "LimitNOFILE=65536"] ++
  (htmlEscape <$> EtcdDiskPriorities (adm_flags c)) ++
  ["MemoryLow=200M";
   "";
   "[Install]";
   "WantedBy=multi-user.target"].
Definition unitText (c : EtcdAdmConfig) : string := unlines (unitLines c).

(** [EtcdctlEnvFileTemplate] *)
Definition etcdctlEnvText (c : EtcdAdmConfig) : string :=
  let p := adm_paths c in
  unlines
    ["export ETCDCTL_API=3";
     "";
     "export ETCDCTL_CACERT=" +:+ htmlEscape (TrustedCAFile p);
     "export ETCDCTL_CERT=" +:+ htmlEscape (EtcdctlCertFile p);
     "export ETCDCTL_KEY=" +:+ htmlEscape (EtcdctlKeyFile p);
     "";
     "export ETCDCTL_DIAL_TIMEOUT=3s"].

(** [EtcdctlShellWrapperTemplate] *)
Definition q : string := bytes [34%nat].
Definition etcdctlWrapperText (c : EtcdAdmConfig) : string :=
  let env := htmlEscape (EtcdctlEnvFile (adm_static c)) in
  unlines
    ["#!/usr/bin/env sh";
     "if ! [ -r " +:+ q +:+ env +:+ q +:+ " ]; then";
     bytes [9%nat] +:+ "echo " +:+ q +:+ "Unable to read the etcdctl environment file '" +:+ env +:+
       "'. The file must exist, and this wrapper must be run as root." +:+ q;
     bytes [9%nat] +:+ "exit 1";
     "fi";
     ". " +:+ q +:+ env +:+ q;
     q +:+ htmlEscape (EtcdctlExecutable (adm_paths c)) +:+ q +:+ " " +:+ q +:+ "$@" +:+ q].

(** ** bufio.Scanner *)

(** The end-of-line marker is "\n" or "\r\n"; a line that does not fit the buffer
    of 64 KiB with its newline ends the scan with an error. *)
Definition dropCR (l : string) : string := TrimSuffix l (bytes [13%nat]).
Fixpoint takeLines (l : list string) : list string * option error :=
  match l with
  | [] | [""] => ([], None)
  | x :: l' =>
      if Z.of_nat (String.length x) <? 65536 then
        let '(rest, e) := takeLines l' in (dropCR x :: rest, e)
      else ([], Some "bufio.Scanner: token too long")
  end.
Definition scanLines (s : string) : list string * option error := takeLines (Split s (ascii_of_nat 10)).

(** ** service: writing *)

Definition WriteEnvironmentFile : AdmM (option error) :=
  c ← get;
  let file := EnvironmentFile (adm_static c) in
  e ← acall (AMkdirAll (Dir file));
  match e with
  | Some _ => mret (Some "unable to create environment file directory")
  | None =>
      e ← acall (AOpenFile file);
      match e with
      | Some _ => mret (Some "unable to open the etcd environment file")
      | None =>
          e ← acall (AWrite file (BuildEnvironment c));
          mret (match e with Some _ => Some "error writing etcd environment file" | None => None end)
      end
  end.

Definition WriteEtcdctlEnvFile : AdmM (option error) :=
  c ← get;
  let file := EtcdctlEnvFile (adm_static c) in
  e ← acall (AMkdirAll (Dir file));
  match e with
  | Some _ => mret (Some "unable to create environment file directory")
  | None =>
      e ← acall (AOpenFile file);
      match e with
      | Some _ => mret (Some "unable to open the etcd environment file")
      | None =>
          e ← acall (AWrite file (etcdctlEnvText c));
          mret (match e with Some _ => Some "unable to apply the etcd environment" | None => None end)
      end
  end.

Definition WriteEtcdctlShellWrapper : AdmM (option error) :=
  c ← get;
  let file := EtcdctlShellWrapper (adm_paths c) in
  e ← acall (AOpenFile file);
  match e with
  | Some _ => mret (Some "unable to create the etcd shell wrapper")
  | None =>
      e ← acall (AWrite file (etcdctlWrapperText c));
      mret (match e with Some _ => Some "unable to apply the etcd environment" | None => None end)
  end.

(** ** service/diff.go *)

(** [util.Exists] *)
Definition Exists_ (p : string) : AdmM (result bool) :=
  s ← acall (AStat p);
  mret (match s with IsThere => Ok true | IsMissing => Ok false | ExistsErr e => Err e end).

(** One line of [makeEnvironment]. *)
Definition envEntry (l : string) : option (string * string) :=
  if HasPrefix l "#" then None
  else if String.eqb (TrimSpace l) "" then None
  else match SplitN l "=" 2 with
       | k :: v :: _ => Some (TrimSpace k, TrimSpace v)
       | k :: _ => Some (TrimSpace k, "")
       | [] => None
       end.
Definition addEntry (m : gmap string string) (l : string) : gmap string string :=
  match envEntry l with Some (k, v) => <[k := v]> m | None => m end.

(** The reader gives a text, and possibly an error at its end. *)
Definition makeEnvironment (r : string * option error) : gmap string string * option error :=
  let '(ls, e) := scanLines (fst r) in
  (foldl addEntry ∅ ls, match e with Some e => Some e | None => snd r end).

Definition desiredEnvironment (c : EtcdAdmConfig) : gmap string string * option error :=
  makeEnvironment (BuildEnvironment c, None).

Definition lastUsedEnvironment (environmentFile : string) : AdmM (result (option (gmap string string))) :=
  x ← Exists_ environmentFile;
  match x with
  | Err _ => mret (Err "unable to check if it exists")
  | Ok false => mret (Ok None)
  | Ok true =>
      e ← acall (AOpen environmentFile);
      match e with
      | Some e => mret (Err e)
      | None =>
          r ← acall (ARead environmentFile);
          let '(env, e) := makeEnvironment r in
          mret (match e with Some e => Err e | None => Ok (Some env) end)
      end
  end.

(** The entries that differ, desired and last used; a missing one is "". *)
Definition diffEntries (d lu : gmap string string) : gmap string (string * string) :=
  map_imap (fun k v =>
    if String.eqb v (default "" (lu !! k)) then None
    else if String.eqb k "ETCD_INITIAL_CLUSTER_TOKEN" then None
    else Some (v, default "" (lu !! k))) d.

Definition DiffEnvironmentFile : AdmM (result (gmap string (string * string))) :=
  c ← get;
  l ← lastUsedEnvironment (EnvironmentFile (adm_static c));
  match l with
  | Err _ => mret (Err "unable to read last used environment")
  | Ok None => mret (Ok ∅)
  | Ok (Some lu) =>
      match desiredEnvironment c with
      | (_, Some _) => mret (Err "unable to generate desired environment")
      | (d, None) => mret (Ok (diffEntries d lu))
      end
  end.

(** [FindStringSubmatch] of ["^prefix(.*?)$"] on a line. *)
Definition submatch (prefix line : string) : option string :=
  if HasPrefix line prefix then Some (TrimPrefix line prefix) else None.
(** The first line that matches; an error of the scanner only ends the loop. *)
Definition firstMatch (prefix : string) (text : string) : option string :=
  head (omap (submatch prefix) (fst (scanLines text))).

Definition lastUsedEtcdExecutable (unitFile : string) : AdmM (result (option string)) :=
  x ← Exists_ unitFile;
  match x with
  | Err _ => mret (Err "unable to check if it exists")
  | Ok false => mret (Ok None)
  | Ok true =>
      e ← acall (AOpen unitFile);
      match e with
      | Some e => mret (Err e)
      | None =>
          r ← acall (ARead unitFile);
          mret (match firstMatch "ExecStart=" (fst r) with
                | Some le => Ok (Some le)
                | None => Err "unable to parse executable from systemd unit"
                end)
      end
  end.

Definition etcdVersionForExecutable (etcdExecutable : string) : AdmM (result string) :=
  r ← acall (AOutput [] [etcdExecutable; "--version"]);
  mret (match r with
        | Err _ => Err "unable to check etcd version"
        | Ok out => match firstMatch "etcd Version: " out with
                    | Some v => Ok v
                    | None => Err "unable to parse version from etcd output"
                    end
        end).

(** [None] if the versions are the same, or nothing was installed. *)
Definition DiffVersion : AdmM (result (option (string * string))) :=
  c ← get;
  l ← lastUsedEtcdExecutable (UnitFile (adm_static c));
  match l with
  | Err _ => mret (Err "unable to find path of last used etcd executable")
  | Ok None => mret (Ok None)
  | Ok (Some le) =>
      x ← Exists_ le;
      match x with
      | Err _ => mret (Err "unable to check if it exists")
      | Ok false => mret (Ok None)
      | Ok true =>
          v ← etcdVersionForExecutable le;
          mret (match v with
                | Err _ => Err "unable to determine version"
                | Ok lv => Ok (if String.eqb (Version (adm_flags c)) lv then None
                               else Some (Version (adm_flags c), lv))
                end)
      end
  end.

(** preflight/mandatory.go *)
Definition Mandatory : AdmM (option error) :=
  dv ← DiffVersion;
  match dv with
  | Err _ => mret (Some "unable to compare current and last used etcd versions")
  | Ok (Some _) => mret (Some "the current and last used etcd versions are different")
  | Ok None =>
      dc ← DiffEnvironmentFile;
      mret (match dc with
            | Err _ => Some "unable to compare current and last used configurations"
            | Ok d => if bool_decide (d = ∅) then None
                      else Some "current and last used configuration are different"
            end)
  end.
