(* ===== verification/AdmInit.v ===== *)
(** * etcdadm: binaries and init systems

    The installation of etcd's binaries (binary/etcd.go) and the two ways to run
    the member: by systemd (initsystem/systemd.go) and by the kubelet
    (initsystem/kubelet/initsystem.go). *)

From Stdlib Require Import Ascii.
From stdpp Require Import base gmap sets list strings sorting.
From S2P Require Import Prelude Effects GoLib Vfs AdmConfig AdmService.

Local Open Scope Z_scope.

(** ** binary/etcd.go *)

Section Binary.
(** [runtime.GOARCH] *)
Context (GOARCH : string).

Definition releaseFile (version : string) : string := "etcd-v" +:+ version +:+ "-linux-" +:+ GOARCH +:+ ".tar.gz".
Definition downloadURL (releaseURL version : string) : string :=
  releaseURL +:+ "/v" +:+ version +:+ "/" +:+ releaseFile version.

(** [util.CmdOutputContains] *)
Definition CmdOutputContains (env args : list string) (expected : string) : AdmM (result bool) :=
  r ← acall (AOutput env args);
  mret (match r with Err _ => Err "command failed" | Ok out => Ok (Contains out expected) end).

Definition isEtcdInstalled (version inputDir : string) : AdmM (result bool) :=
  let path := PathJoin [inputDir; "etcd"] in
  x ← Exists_ path;
  match x with
  | Err e => mret (Err e)
  | Ok false => mret (Ok false)
  | Ok true => CmdOutputContains [] [path; "--version"] ("etcd Version: " +:+ version)
  end.

Definition isEtcdctlInstalled (version inputDir : string) : AdmM (result bool) :=
  let path := PathJoin [inputDir; "etcdctl"] in
  x ← Exists_ path;
  match x with
  | Err e => mret (Err e)
  | Ok false => mret (Ok false)
  | Ok true => CmdOutputContains ["ETCDCTL_API=3"] [path; "version"] ("etcdctl version: " +:+ version)
  end.

Definition IsInstalled (version installDir : string) : AdmM (result bool) :=
  r ← isEtcdInstalled version installDir;
  match r with
  | Err e => mret (Err e)
  | Ok false => mret (Ok false)
  | Ok true => isEtcdctlInstalled version installDir
  end.

Definition ran (r : run_result) : option error :=
  match r with RunOk => None | RunExit => Some "exit status" | RunError e => Some e end.

(** The arguments are the fields of one text: blanks in it separate arguments. *)
Definition getArchive (url archive : string) : AdmM (option error) :=
  let argStr := "--fail --connect-timeout " +:+ Itoa (DefaultDownloadConnectTimeout / Second) +:+
    " --progress-bar --location --output " +:+ archive +:+ " " +:+ url in
  r ← acall (ARun ("curl" :: Fields argStr));
  mret (ran r).

Definition extract (extractDir archive : string) : AdmM (option error) :=
  r ← acall (ARun ["tar"; "xzf"; archive; "--strip-components=1"; "-C"; extractDir]);
  mret (ran r).

Definition Download (releaseURL version locationDir : string) : AdmM (option error) :=
  let archive := PathJoin [locationDir; releaseFile version] in
  x ← Exists_ archive;
  match x with
  | Ok true => mret None
  | _ =>
      e ← acall (AMkdirAll locationDir);
      match e with
      | Some _ => mret (Some "unable to create install directory")
      | None =>
          e ← getArchive (downloadURL releaseURL version) archive;
          mret (match e with Some _ => Some "unable to download etcd" | None => None end)
      end
  end.

(** [util.CopyFile] *)
Definition CopyFile (srcFile destFile : string) : AdmM (option error) :=
  r ← acall (ARun ["cp"; "-f"; srcFile; destFile]);
  mret (match ran r with Some _ => Some "unable to copy file" | None => None end).

Definition Install (srcDir installDir : string) : AdmM (option error) :=
  e ← CopyFile (PathJoin [srcDir; "etcd"]) (PathJoin [installDir; "etcd"]);
  match e with
  | Some e => mret (Some e)
  | None => CopyFile (PathJoin [srcDir; "etcdctl"]) (PathJoin [installDir; "etcdctl"])
  end.

(** Only a missing archive means that it is not in the cache. *)
Definition InstallFromCache (version installDir cacheDir : string) : AdmM (bool * option error) :=
  let archive := PathJoin [cacheDir; releaseFile version] in
  s ← acall (AStat archive);
  match s with
  | IsMissing => mret (false, None)
  | _ =>
      t ← acall ATempDir;
      match t with
      | Err _ => mret (true, Some "unable to create tmp dir to extract etcd archive")
      | Ok tmpDir =>
          e ← extract tmpDir archive;
          r ← match e with
              | Some _ => mret (true, Some "unable to extract etcd archive")
              | None =>
                  acall (AMkdirAll installDir) ≫= fun _ =>
                  e ← Install tmpDir installDir;
                  mret (match e with
                        | Some _ => (false, Some "unable to copy binaries")
                        | None => (true, None)
                        end)
              end;
          acall (ARemoveAll tmpDir) ≫= fun _ => mret r
      end
  end.

Definition removed (r : remove_result) : option error :=
  match r with Removed => None | RemoveMissing => Some "no such file or directory" | RemoveErr e => Some e end.
Definition Uninstall (installDir : string) : AdmM (option error) :=
  r ← acall (ARemove (PathJoin [installDir; "etcd"]));
  match removed r with
  | Some e => mret (Some e)
  | None => r ← acall (ARemove (PathJoin [installDir; "etcdctl"])); mret (removed r)
  end.

(** ** The interface *)

Record InitSystemOps := mkInitSystem {
  is_Install : AdmM (option error);
  is_Configure : AdmM (option error);
  is_IsActive : AdmM (result bool);
  is_EnableAndStartService : AdmM (option error);
  is_DisableAndStopService : AdmM (option error);
  is_StartupTimeout : duration;
}.

(** ** initsystem/systemd.go *)

Definition unitName : AdmM string := c ← get; mret (Base (UnitFile (adm_static c))).

Definition reloadSystemd : AdmM (option error) :=
  r ← acall (ARun ["systemctl"; "daemon-reload"]);
  mret (match ran r with Some _ => Some "failed to reload systemd" | None => None end).

(** [start], [stop], [enable] and [disable] differ in the verb. *)
Definition systemctl (verb : string) : AdmM (option error) :=
  service ← unitName;
  e ← reloadSystemd;
  match e with
  | Some e => mret (Some e)
  | None =>
      r ← acall (ARun ["systemctl"; verb; service]);
      mret (match ran r with Some _ => Some ("failed to " +:+ verb +:+ " service") | None => None end)
  end.

(** [IsActive] and [isEnabled]: a status other than zero means no. *)
Definition systemctlIs (verb : string) : AdmM (result bool) :=
  service ← unitName;
  r ← acall (ARun ["systemctl"; verb; service]);
  mret (match r with RunOk => Ok true | RunExit => Ok false | RunError e => Err e end).
Definition IsActive : AdmM (result bool) := systemctlIs "is-active".
Definition isEnabled : AdmM (result bool) := systemctlIs "is-enabled".

Definition EnableAndStartService_systemd : AdmM (option error) :=
  e ← systemctl "enable";
  match e with
  | Some e => mret (Some e)
  | None => systemctl "start"
  end.

Definition DisableAndStopService_systemd : AdmM (option error) :=
  enabled ← isEnabled;
  match enabled with
  | Err _ => mret (Some "error checking if etcd service is enabled")
  | Ok b =>
      e ← (if (b : bool) then systemctl "disable" else mret None);
      match e with
      | Some e => mret (Some e)
      | None =>
          active ← IsActive;
          match active with
          | Err _ => mret (Some "error checking if etcd service is active")
          | Ok b => if (b : bool) then systemctl "stop" else mret None
          end
      end
  end.

Definition fromCache : AdmM (bool * option error) :=
  c ← get;
  r ← InstallFromCache (Version (adm_flags c)) (InstallDir (adm_flags c)) (CacheDir (adm_paths c));
  mret (fst r, match snd r with Some _ => Some "artifact could not be installed from cache" | None => None end).

Definition Install_systemd : AdmM (option error) :=
  c ← get;
  let f := adm_flags c in
  r ← fromCache;
  match r with
  | (_, Some e) => mret (Some e)
  | (inCache, None) =>
      e ← (if (inCache : bool) then mret None else
             e ← Download (ReleaseURL f) (Version f) (CacheDir (adm_paths c));
             match e with
             | Some _ => mret (Some "unable to fetch artifact from upstream")
             | None =>
                 r ← fromCache;
                 mret (match r with
                       | (_, Some e) => Some e
                       | (false, None) => Some "artifact not found in cache after download"
                       | (true, None) => None
                       end)
             end);
      match e with
      | Some e => mret (Some e)
      | None =>
          installed ← IsInstalled (Version f) (InstallDir f);
          mret (match installed with
                | Err _ => Some "failed checking if binary is installed"
                | Ok false => Some "binaries not found in install dir"
                | Ok true => None
                end)
      end
  end.

Definition writeUnitFile : AdmM (option error) :=
  c ← get;
  let file := UnitFile (adm_static c) in
  e ← acall (AMkdirAll (Dir file));
  match e with
  | Some _ => mret (Some "unable to create unit file directory")
  | None =>
      e ← acall (AOpenFile file);
      match e with
      | Some _ => mret (Some "unable to open the etcd service unit file")
      | None =>
          e ← acall (AWrite file (unitText c));
          mret (match e with Some _ => Some "unable to apply etcd environment" | None => None end)
      end
  end.

Definition Configure_systemd : AdmM (option error) :=
  e ← WriteEnvironmentFile;
  match e with
  | Some _ => mret (Some "failed writing environment file for etcd service")
  | None => writeUnitFile
  end.

Definition SystemdInitSystem : InitSystemOps := {|
  is_Install := Install_systemd;
  is_Configure := Configure_systemd;
  is_IsActive := IsActive;
  is_EnableAndStartService := EnableAndStartService_systemd;
  is_DisableAndStopService := DisableAndStopService_systemd;
  is_StartupTimeout := 5 * Second;
|}.

(** ** initsystem/kubelet/initsystem.go *)

Record hostPath := mkHostPath { hp_Path : string; hp_Type : string }.
Record volumeMount := mkVolumeMount { vm_Name : string; vm_MountPath : string }.
Record podVolume := mkPodVolume { pv_Name : string; pv_HostPath : option hostPath }.
Record container := mkContainer {
  ct_Command : list string;
  ct_Env : list (string * string);
  ct_Image : string;
  ct_Name : string;
  ct_Requests : list (string * string);
  ct_Privileged : bool;
  ct_VolumeMounts : list volumeMount;
}.
Record pod := mkPod {
  pod_APIVersion : string;
  pod_Kind : string;
  pod_Labels : list (string * string);
  pod_Name : string;
  pod_Namespace : string;
  pod_Containers : list container;
  pod_HostNetwork : bool;
  pod_PriorityClassName : string;
  pod_Volumes : list podVolume;
}.

(** [yaml.Marshal] *)
Context (Marshal : pod -> result string).

Definition podName : string := "etcd".
Definition podFile (c : EtcdAdmConfig) : string := PathJoin [PodSpecDir (adm_flags c); podName +:+ ".manifest"].
Definition image (c : EtcdAdmConfig) : string :=
  ImageRepository (adm_flags c) +:+ ":v" +:+ Version (adm_flags c).

(** The lines of the environment file. *)
Fixpoint podEnv (lines : list string) (env : gmap string string) : result (gmap string string) :=
  match lines with
  | [] => Ok env
  | l :: rest =>
      let line := TrimSpace l in
      if String.eqb line "" || HasPrefix line "#" then podEnv rest env
      else match SplitN line "=" 2 with
           | [k; v] => podEnv rest (<[k := v]> env)
           | _ => Err "cannot parse environment line"
           end
  end.

Definition env_le (a b : string * string) : Prop := str_le (fst a) (fst b).
#[export] Instance env_le_dec : RelDecision env_le.
Proof. intros a b. unfold env_le. apply _. Defined.

(** A directory of the host at the same path of the container. *)
Definition mountAt (name path type : string) (p : string) : volumeMount * podVolume :=
  (mkVolumeMount name p, mkPodVolume name (Some (mkHostPath path type))).

Definition buildPod (c : EtcdAdmConfig) : AdmM (result pod) :=
  match podEnv (Split (BuildEnvironment c) (ascii_of_nat 10)) ∅ with
  | Err e => mret (Err e)
  | Ok env =>
      l ← range env;
      let f := adm_flags c in
      let mounts := [mountAt "varlogetcd" ("/var/log/" +:+ podName +:+ ".log") "FileOrCreate" "/var/log/etcd.log";
                     mountAt "pki" (CertificatesDir f) "Directory" (CertificatesDir f);
                     mountAt "data" (DataDir f) "Directory" (DataDir f)] in
      mret (Ok (mkPod "v1" "Pod" [("k8s-app", podName)] podName "kube-system"
        [mkContainer ["etcd"] (stable_sort env_le l) (image c) "etcd"
           [("cpu", "100m"); ("memory", "100Mi")] true (fst <$> mounts)]
        true "system-cluster-critical" (snd <$> mounts)))
  end.

Definition EnableAndStartService_kubelet : AdmM (option error) :=
  c ← get;
  e ← acall (AMkdirAll (DataDir (adm_flags c)));
  match e with
  | Some _ => mret (Some "failed to create")
  | None =>
      r ← buildPod c;
      match r with
      | Err e => mret (Some e)
      | Ok pod =>
          match Marshal pod with
          | Err _ => mret (Some "failed to build pod yaml")
          | Ok podBytes =>
              e ← acall (AWriteFile (podFile c) podBytes);
              mret (match e with Some _ => Some "unable to write" | None => None end)
          end
      end
  end.

Definition DisableAndStopService_kubelet : AdmM (option error) :=
  c ← get;
  r ← acall (ARemove (podFile c));
  mret (match r with Removed | RemoveMissing => None | RemoveErr _ => Some "error stopping etcd" end).

Definition IsActive_kubelet : AdmM (result bool) :=
  c ← get;
  s ← acall (AStat (podFile c));
  mret (match s with IsThere => Ok true | IsMissing => Ok false | ExistsErr _ => Err "error checking for etcd manifest" end).

Definition KubeletInitSystem : InitSystemOps := {|
  is_Install := mret None;
  is_Configure := mret None;
  is_IsActive := IsActive_kubelet;
  is_EnableAndStartService := EnableAndStartService_kubelet;
  is_DisableAndStopService := DisableAndStopService_kubelet;
  is_StartupTimeout := 30 * Second;
|}.

(** ** initsystem/initsystem.go *)

Definition systemd : AdmM (result InitSystemOps) :=
  e ← acall (ALookPath "systemctl");
  mret (match e with None => Ok SystemdInitSystem | Some _ => Err "systemd not detected" end).
Definition GetInitSystem : AdmM (result InitSystemOps) :=
  c ← get;
  if String.eqb (InitSystem (adm_flags c)) "systemd" then systemd
  else if String.eqb (InitSystem (adm_flags c)) "kubelet" then mret (Ok KubeletInitSystem)
  else mret (Err "invalid init system").
End Binary.
