(* ===== verification/AdmEnv.v ===== *)
(** * etcdadm: the environment of etcd

    The environment file is written from a template and read back line by line:
    by the comparison with the last used configuration (service/diff.go) and by
    the init system of the kubelet.  Both find exactly the variables of the
    configuration, with the values as HTML text. *)

From Stdlib Require Import Ascii.
From stdpp Require Import base gmap sets list strings.
From S2P Require Import Prelude Effects GoLib Vfs AdmConfig AdmService AdmInit.

Local Open Scope Z_scope.

(** ** Texts without blanks and control characters *)

Definition graphic_byte (c : ascii) : bool := (33 <=? nat_of_ascii c)%nat && (nat_of_ascii c <=? 126)%nat.
Fixpoint graphic (s : string) : bool :=
  match s with EmptyString => true | String c s' => graphic_byte c && graphic s' end.

Lemma graphic_app a b : graphic (a +:+ b) = graphic a && graphic b.
Proof. induction a as [|c a IH]; simpl; [done|]. by rewrite IH, andb_assoc. Qed.

Lemma graphic_drop n s : graphic s = true -> graphic (drop_str n s) = true.
Proof.
  revert s. induction n as [|n IH]; intros [|c s] H; simpl in *; try done.
  apply andb_true_iff in H as [_ H]. auto.
Qed.

Lemma graphic_HasPrefix s w : graphic s = true -> graphic w = false -> HasPrefix s w = false.
Proof.
  intros Hs Hw. destruct (HasPrefix s w) eqn:E; [|done]. apply HasPrefix_split in E.
  rewrite E, graphic_app, Hw in Hs. done.
Qed.

Lemma graphic_HasSuffix s w : graphic s = true -> graphic w = false -> HasSuffix s w = false.
Proof.
  intros Hs Hw. unfold HasSuffix. apply andb_false_iff. right. apply String.eqb_neq. intros E.
  apply (graphic_drop (String.length s - String.length w)) in Hs. congruence.
Qed.

Lemma white_not_graphic w : In w white_space -> graphic w = false.
Proof.
  intros H. apply negb_true_iff. revert w H. apply (proj1 (forallb_forall _ _)). vm_compute. reflexivity.
Qed.

Lemma find_none {A} (f : A -> bool) l : (forall x, In x l -> f x = false) -> List.find f l = None.
Proof. induction l as [|x l IH]; intros H; simpl; [done|]. rewrite H by (by left). apply IH. intros. apply H. by right. Qed.

Lemma TrimSpace_graphic s : graphic s = true -> TrimSpace s = s.
Proof.
  intros Hs. unfold TrimSpace.
  assert (forall n, trim_left_space n s = s) as ->.
  { intros [|n]; cbn [trim_left_space]; [done|]. rewrite find_none; [done|]. auto using graphic_HasPrefix, white_not_graphic. }
  destruct (String.length s); cbn [trim_right_space]; [done|]. rewrite find_none; [done|]. auto using graphic_HasSuffix, white_not_graphic.
Qed.

Lemma graphic_no_byte s c : graphic s = true -> graphic_byte c = false -> contains_byte s c = false.
Proof.
  induction s as [|d s IH]; simpl; [done|]. intros [Hd Hs]%andb_true_iff Hc.
  apply orb_false_iff. split; [|auto]. apply Ascii.eqb_neq. congruence.
Qed.

(** ** Escaping *)

(** What HTML text cannot contain as it is. *)
Definition special (c : ascii) : bool :=
  let n := nat_of_ascii c in
  existsb (Nat.eqb n) [0; 34; 38; 39; 43; 60; 62]%nat.
Fixpoint unspecial (s : string) : bool :=
  match s with EmptyString => true | String c s' => negb (special c) && unspecial s' end.

Lemma htmlByte_cases c :
  if special c then (exists d, htmlByte c = String d EmptyString +:+ drop_str 1 (htmlByte c) /\
                               (3 <= String.length (htmlByte c))%nat)
  else htmlByte c = String c EmptyString.
Proof.
  destruct c as [[] [] [] [] [] [] [] []]; vm_compute; try reflexivity; eexists; split; try reflexivity; lia.
Qed.

Lemma htmlByte_graphic c : graphic_byte c = true -> graphic (htmlByte c) = true.
Proof. destruct c as [[] [] [] [] [] [] [] []]; vm_compute; done. Qed.

Lemma htmlEscape_graphic s : graphic s = true -> graphic (htmlEscape s) = true.
Proof.
  induction s as [|c s IH]; simpl; [done|]. intros [Hc Hs]%andb_true_iff.
  rewrite graphic_app, htmlByte_graphic, IH; done.
Qed.

Lemma htmlEscape_length s : (String.length s <= String.length (htmlEscape s))%nat.
Proof.
  induction s as [|c s IH]; simpl; [lia|]. rewrite string_app_length. pose proof (htmlByte_cases c) as H.
  destruct (special c); [destruct H as (d & _ & H); lia|]. rewrite H. simpl. lia.
Qed.

Lemma htmlEscape_id s : htmlEscape s = s <-> unspecial s = true.
Proof.
  induction s as [|c s IH]; simpl; [done|]. pose proof (htmlByte_cases c) as H. destruct (special c); simpl.
  - split; [|done]. intros E. apply (f_equal String.length) in E. destruct H as (d & _ & H).
    rewrite string_app_length in E. pose proof (htmlEscape_length s). simpl in E. lia.
  - rewrite H. simpl. rewrite <- IH. split; [by intros [=]|by intros ->].
Qed.

Lemma htmlEscape_empty s : htmlEscape s = "" -> s = "".
Proof. intros E. pose proof (htmlEscape_length s) as H. rewrite E in H. destruct s; [done|]. simpl in H. lia. Qed.

(** ** The lines of the file *)

(** A line that is read as no variable, or as one. *)
Definition line_as (l : string) (e : option (string * string)) : Prop :=
  contains_byte l (ascii_of_nat 10) = false /\ dropCR l = l /\ envEntry l = e /\
  match e with
  | None => TrimSpace l = "" \/ HasPrefix (TrimSpace l) "#" = true
  | Some (k, v) => TrimSpace l = l /\ l <> "" /\ HasPrefix l "#" = false /\ SplitN l "=" 2 = [k; v]
  end.

Lemma line_var k v :
  graphic k = true -> contains_byte k "=" = false -> k <> "" -> HasPrefix k "#" = false -> graphic v = true ->
  line_as (k +:+ String "=" v) (Some (k, v)).
Proof.
  intros Hk Heq Hne Hh Hv. assert (graphic (k +:+ String "=" v) = true) as Hl by (rewrite graphic_app, Hk; done).
  assert (SplitN (k +:+ String "=" v) "=" 2 = [k; v]) as Hs.
  { cbn [SplitN]. by rewrite cut_app. }
  assert (HasPrefix (k +:+ String "=" v) "#" = false) as Hp.
  { destruct k as [|c [|d k]]; [done|exact Hh|exact Hh]. }
  assert (k +:+ String "=" v <> "") as Hn by (by destruct k).
  split; [by apply graphic_no_byte|]. split; [unfold dropCR, TrimSuffix; by rewrite graphic_HasSuffix|].
  split; [|by rewrite TrimSpace_graphic].
  unfold envEntry. rewrite Hp, TrimSpace_graphic, Hs, !TrimSpace_graphic by done.
  destruct (String.eqb_spec (k +:+ String "=" v) ""); done.
Qed.

Lemma line_none l :
  contains_byte l (ascii_of_nat 10) = false -> dropCR l = l ->
  TrimSpace l = "" \/ HasPrefix (TrimSpace l) "#" = true -> envEntry l = None -> line_as l None.
Proof. unfold line_as. auto. Qed.

(** The variables a configuration sets, in the order of the file; those in the
    second form only with a value. *)
Definition always (k v : string) : option (string * string) := Some (k, v).
Definition unlessEmpty (k v : string) : option (string * string) := if String.eqb v "" then None else Some (k, v).
Definition settingsOf (c : EtcdAdmConfig) : list (string * string) :=
  let f := adm_flags c in let p := adm_paths c in let u := adm_urls c in
  omap id
    [always "ETCD_NAME" (Name c);
     always "ETCD_INITIAL_CLUSTER" (InitialCluster c);
     unlessEmpty "ETCD_INITIAL_CLUSTER_TOKEN" (InitialClusterToken c);
     always "ETCD_INITIAL_CLUSTER_STATE" (InitialClusterState c);
     always "ETCD_INITIAL_ADVERTISE_PEER_URLS" (URLListString (InitialAdvertisePeerURLs u));
     always "ETCD_LISTEN_PEER_URLS" (URLListString (ListenPeerURLs u));
     always "ETCD_CLIENT_CERT_AUTH" "true";
     always "ETCD_PEER_CERT_FILE" (PeerCertFile p);
     always "ETCD_PEER_KEY_FILE" (PeerKeyFile p);
     always "ETCD_PEER_TRUSTED_CA_FILE" (PeerTrustedCAFile p);
     always "ETCD_ADVERTISE_CLIENT_URLS" (URLListString (AdvertiseClientURLs u));
     always "ETCD_LISTEN_CLIENT_URLS" (URLListString (ListenClientURLs u));
     always "ETCD_PEER_CLIENT_CERT_AUTH" "true";
     always "ETCD_CERT_FILE" (CertFile p);
     always "ETCD_KEY_FILE" (KeyFile p);
     always "ETCD_TRUSTED_CA_FILE" (TrustedCAFile p);
     always "ETCD_DATA_DIR" (DataDir f);
     always "ETCD_STRICT_RECONFIG_CHECK" "true";
     unlessEmpty "GOMAXPROCS" (procs (GOMAXPROCS c));
     unlessEmpty "ETCD_ENABLE_V2" (EnableV2 f);
     unlessEmpty "ETCD_LOGGER" (Logger f);
     unlessEmpty "ETCD_LOG_OUTPUTS" (LogOutputs f);
     unlessEmpty "ETCD_LISTEN_METRICS_URLS" (URLListString (ListenMetricsURLs f))].

(** The same, line by line. *)
Definition lineEntries (c : EtcdAdmConfig) : list (option (string * string)) :=
  let f := adm_flags c in let p := adm_paths c in let u := adm_urls c in
  [always "ETCD_NAME" (Name c); None; None;
   always "ETCD_INITIAL_CLUSTER" (InitialCluster c);
   unlessEmpty "ETCD_INITIAL_CLUSTER_TOKEN" (InitialClusterToken c);
   always "ETCD_INITIAL_CLUSTER_STATE" (InitialClusterState c); None; None;
   always "ETCD_INITIAL_ADVERTISE_PEER_URLS" (URLListString (InitialAdvertisePeerURLs u));
   always "ETCD_LISTEN_PEER_URLS" (URLListString (ListenPeerURLs u)); None;
   always "ETCD_CLIENT_CERT_AUTH" "true";
   always "ETCD_PEER_CERT_FILE" (PeerCertFile p);
   always "ETCD_PEER_KEY_FILE" (PeerKeyFile p);
   always "ETCD_PEER_TRUSTED_CA_FILE" (PeerTrustedCAFile p); None; None;
   always "ETCD_ADVERTISE_CLIENT_URLS" (URLListString (AdvertiseClientURLs u));
   always "ETCD_LISTEN_CLIENT_URLS" (URLListString (ListenClientURLs u)); None;
   always "ETCD_PEER_CLIENT_CERT_AUTH" "true";
   always "ETCD_CERT_FILE" (CertFile p);
   always "ETCD_KEY_FILE" (KeyFile p);
   always "ETCD_TRUSTED_CA_FILE" (TrustedCAFile p); None; None;
   always "ETCD_DATA_DIR" (DataDir f);
   always "ETCD_STRICT_RECONFIG_CHECK" "true";
   unlessEmpty "GOMAXPROCS" (procs (GOMAXPROCS c));
   unlessEmpty "ETCD_ENABLE_V2" (EnableV2 f); None; None;
   unlessEmpty "ETCD_LOGGER" (Logger f);
   unlessEmpty "ETCD_LOG_OUTPUTS" (LogOutputs f); None; None;
   unlessEmpty "ETCD_LISTEN_METRICS_URLS" (URLListString (ListenMetricsURLs f))].

Definition escaped (e : string * string) : string * string := (fst e, htmlEscape (snd e)).

Lemma line_always k v :
  graphic k = true -> contains_byte k "=" = false -> k <> "" -> HasPrefix k "#" = false -> graphic v = true ->
  line_as (k +:+ "=" +:+ htmlEscape v) (escaped <$> always k v).
Proof. intros. apply line_var; auto using htmlEscape_graphic. Qed.

Lemma line_unless k v :
  graphic k = true -> contains_byte k "=" = false -> k <> "" -> HasPrefix k "#" = false -> graphic v = true ->
  line_as (optional (k +:+ "=") v) (escaped <$> unlessEmpty k v).
Proof.
  intros. unfold optional, unlessEmpty. destruct (String.eqb v "") eqn:E.
  - apply line_none; [done|done|by left|done].
  - rewrite <- string_app_assoc. apply line_var; auto using htmlEscape_graphic.
Qed.

(** A line of the template, by its form; [H] knows the values of the entries. *)
Ltac line_step H :=
  lazymatch goal with
  | |- line_as _ (_ <$> always ?k ?v) =>
      apply (line_always k v); [reflexivity|reflexivity|discriminate|reflexivity|];
      apply (H (always k v) k v); [repeat first [left; reflexivity|right]|by left]
  | |- line_as _ (_ <$> unlessEmpty ?k ?v) =>
      apply (line_unless k v); [reflexivity|reflexivity|discriminate|reflexivity|];
      apply (H (unlessEmpty k v) k v); [repeat first [left; reflexivity|right]|by right]
  | |- line_as _ _ => apply line_none; [reflexivity|reflexivity|first [by left|by right]|reflexivity]
  end.

Lemma entries_graphic c :
  Forall (fun e => graphic (snd e) = true) (settingsOf c) ->
  forall e k v, In e (lineEntries c) -> e = always k v \/ e = unlessEmpty k v -> graphic v = true.
Proof.
  intros Hg e k v Hin He. rewrite Forall_forall in Hg.
  assert (forall v', Some (k, v') = e -> graphic v' = true) as H.
  { intros v' <-. apply (Hg (k, v')). change (settingsOf c) with (omap id (lineEntries c)).
    apply list_elem_of_omap. exists (Some (k, v')). by rewrite list_elem_of_In. }
  destruct He as [->| ->]; [by apply H|]. unfold unlessEmpty in *.
  destruct (String.eqb v "") eqn:E; [apply String.eqb_eq in E; by rewrite E|by apply H].
Qed.

Lemma lines_parse c :
  Forall (fun e => graphic (snd e) = true) (settingsOf c) ->
  Forall2 line_as (envLines c) ((fun e : option (string * string) => escaped <$> e) <$> lineEntries c).
Proof.
  intros Hg. pose proof (entries_graphic c Hg) as H. clear Hg. unfold envLines, lineEntries in *. cbn [fmap list_fmap].
  repeat (apply Forall2_cons_2; [line_step H|]). apply Forall2_nil_2.
Qed.

(** ** Reading the file *)

Lemma unlines_Join l : unlines l = Join (l ++ [""]) nl.
Proof.
  induction l as [|x l IH]; [done|]. simpl unlines. rewrite IH. destruct l as [|y l]; [done|].
  change ((x :: y :: l) ++ [""]) with (x :: y :: l ++ [""]). by rewrite Join_cons.
Qed.

Lemma Split_unlines l :
  Forall (fun x => contains_byte x (ascii_of_nat 10) = false) l -> Split (unlines l) (ascii_of_nat 10) = l ++ [""].
Proof.
  intros H. rewrite unlines_Join. apply Split_Join; [by destruct l|]. apply Forall_app. split; [done|].
  by repeat constructor.
Qed.

Definition short (l : string) : Prop := Z.of_nat (String.length l) < 65536.

Lemma takeLines_lines l : Forall short l -> takeLines (l ++ [""]) = (dropCR <$> l, None).
Proof.
  induction l as [|x l IH]; intros H; [done|]. apply Forall_cons_1 in H as [Hx H].
  assert (takeLines ((x :: l) ++ [""]) =
    if Z.of_nat (String.length x) <? 65536 then
      let '(rest, e) := takeLines (l ++ [""]) in (dropCR x :: rest, e)
    else ([], Some "bufio.Scanner: token too long")) as ->.
  { destruct x; [|done]. by destruct l. }
  unfold short in Hx. rewrite (proj2 (Z.ltb_lt _ _) Hx), IH by done. done.
Qed.

(** Assignments to a map, one after the other. *)
Fixpoint putAll (m : gmap string string) (es : list (string * string)) : gmap string string :=
  match es with [] => m | (k, v) :: es' => putAll (<[k := v]> m) es' end.

Lemma foldl_addEntry ls es m :
  Forall2 line_as ls es -> foldl addEntry m ls = putAll m (omap id es).
Proof.
  intros H. revert m. induction H as [|l e ls es (_ & _ & He & _) _ IH]; intros m; [done|].
  cbn [foldl]. assert (addEntry m l = match e with Some (k, v) => <[k := v]> m | None => m end) as ->
    by (unfold addEntry; by rewrite He).
  destruct e as [[k v]|]; simpl; apply IH.
Qed.

Lemma podEnv_lines ls es m :
  Forall2 line_as ls es -> podEnv (ls ++ [""]) m = Ok (putAll m (omap id es)).
Proof.
  intros H. revert m. induction H as [|l e ls es (_ & _ & _ & He) _ IH]; intros m; [done|].
  cbn [app podEnv]. destruct e as [[k v]|].
  - destruct He as (-> & Hne & -> & ->). apply String.eqb_neq in Hne. rewrite Hne. apply IH.
  - destruct He as [-> | ->]; [apply IH|]. rewrite orb_true_r. apply IH.
Qed.

Lemma foldl_insert_lookup (es : list (string * string)) m k v :
  NoDup es.*1 -> (k, v) ∈ es -> putAll m es !! k = Some v.
Proof.
  revert m. induction es as [|[k' v'] es IH]; intros m Hnd Hin; [by apply not_elem_of_nil in Hin|].
  simpl in *. apply NoDup_cons in Hnd as [Hk Hnd]. apply elem_of_cons in Hin as [[= -> ->]|Hin]; [|by apply IH].
  assert (forall m : gmap string string, m !! k' = Some v' ->
    putAll m es !! k' = Some v') as H.
  { clear IH Hnd. induction es as [|[k2 v2] es IH]; intros m' Hm; [done|]. simpl in *.
    apply not_elem_of_cons in Hk as [Hne Hk]. apply IH; [done|]. by rewrite lookup_insert_ne. }
  apply H. by rewrite lookup_insert_eq.
Qed.

Lemma foldl_insert_dom (es : list (string * string)) m k :
  is_Some (putAll m es !! k) -> is_Some (m !! k) \/ k ∈ es.*1.
Proof.
  revert m. induction es as [|[k' v'] es IH]; intros m H; [by left|]. simpl in *.
  destruct (IH _ H) as [Hm|Hm]; [|right; by right].
  destruct (decide (k = k')) as [->|Hne]; [right; by left|]. left. by rewrite lookup_insert_ne in Hm.
Qed.

Lemma envSettings_NoDup c : NoDup (settingsOf c).*1.
Proof.
  unfold settingsOf, always, unlessEmpty.
  repeat match goal with |- context [String.eqb ?v ""] => destruct (String.eqb v "") end;
    apply (bool_decide_unpack _); vm_compute; exact I.
Qed.

(** C37: what etcd is told.  For values without blanks and control characters (and
    lines that fit the reader's buffer) the comparison of configurations and the
    kubelet read from the environment file exactly the variables of the
    configuration.  The value of each is the configured one as HTML text, since
    the file is made by html/template: it is the configured value exactly if that
    has none of the characters that HTML escapes. *)
Theorem environment_roundtrip c
  (Hg : Forall (fun e => graphic (snd e) = true) (settingsOf c)) (Hs : Forall short (envLines c)) :
  exists env, desiredEnvironment c = (env, None) /\
    podEnv (Split (BuildEnvironment c) (ascii_of_nat 10)) ∅ = Ok env /\
    (forall k v, (k, v) ∈ settingsOf c -> env !! k = Some (htmlEscape v)) /\
    (forall k, is_Some (env !! k) -> k ∈ (settingsOf c).*1) /\
    (forall k v, (k, v) ∈ settingsOf c -> (env !! k = Some v <-> unspecial v = true)).
Proof.
  pose proof (lines_parse c Hg) as Hl. assert (Forall (fun x => contains_byte x (ascii_of_nat 10) = false) (envLines c)) as Hn.
  { apply Forall_forall. intros x Hx. apply list_elem_of_lookup in Hx as [i Hi].
    destruct (Forall2_lookup_l _ _ _ _ _ Hl Hi) as (e & _ & H & _). exact H. }
  assert (dropCR <$> envLines c = envLines c) as Hcr.
  { clear -Hl. induction Hl as [|l e ls es (_ & Hd & _) _ IH]; [done|]. rewrite fmap_cons. by rewrite Hd, IH. }
  assert (omap id ((fun e : option (string * string) => escaped <$> e) <$> lineEntries c) = escaped <$> settingsOf c) as He.
  { change (settingsOf c) with (omap id (lineEntries c)). generalize (lineEntries c). clear.
    induction l as [|[e|] l IH]; simpl; [done|by f_equal|done]. }
  set (env := putAll ∅ (escaped <$> settingsOf c)).
  assert ((escaped <$> settingsOf c).*1 = (settingsOf c).*1) as Hk by (rewrite <- list_fmap_compose; done).
  assert (forall k v, (k, v) ∈ settingsOf c -> env !! k = Some (htmlEscape v)) as Hv.
  { intros k v Hin. apply foldl_insert_lookup; [rewrite Hk; apply envSettings_NoDup|].
    apply list_elem_of_fmap. by exists (k, v). }
  exists env. split; [|split; [|split; [done|split]]].
  - unfold desiredEnvironment, makeEnvironment, scanLines, BuildEnvironment. cbn [fst snd].
    rewrite Split_unlines, takeLines_lines, Hcr, (foldl_addEntry _ _ _ Hl), He; done.
  - unfold BuildEnvironment. by rewrite Split_unlines, (podEnv_lines _ _ _ Hl), He.
  - intros k H. destruct (foldl_insert_dom _ _ _ H) as [[? Hm]|Hm]; [by rewrite lookup_empty in Hm|by rewrite Hk in Hm].
  - intros k v Hin. rewrite (Hv k v Hin), <- htmlEscape_id. split; [by intros [=]|by intros ->].
Qed.

Module EnvDemo.
Definition config : EtcdAdmConfig :=
  mkAdm (mkAdmFlags "3.5.7" "" "" "/etc/etcd/pki" "/var/lib/etcd+1" "/opt/bin/" "" "" [] "" false true "systemd" "" "" "" [])
    (mkAdmStatic "/etc/systemd/system/etcd.service" "/etc/etcd/etcd.env" "/etc/etcd/etcdctl.env")
    (mkAdmPaths "" "/opt/bin/etcd" "" "" "/etc/etcd/pki/peer.crt" "" "" "" "" "" "" "")
    (mkAdmUrls [mkUrl "https" "10.0.0.1:2380"] [] [] [] (mkUrl "https" "127.0.0.1:2379"))
    [] [] "m1" "m1=https://10.0.0.1:2380" "abcdefgh" "new" 4 "".
End EnvDemo.

Lemma environment_roundtrip_witness :
  exists env, desiredEnvironment EnvDemo.config = (env, None) /\
    env !! "ETCD_INITIAL_CLUSTER" = Some "m1=https://10.0.0.1:2380" /\
    env !! "ETCD_DATA_DIR" = Some "/var/lib/etcd&#43;1".
Proof.
  assert (Forall (fun e => graphic (snd e) = true) (settingsOf EnvDemo.config)) as Hg
    by (apply (bool_decide_unpack _); vm_compute; exact I).
  assert (Forall short (envLines EnvDemo.config)) as Hs
    by (unfold short; apply (bool_decide_unpack _); vm_compute; exact I).
  destruct (environment_roundtrip EnvDemo.config Hg Hs) as (env & He & _ & Hv & _).
  exists env. split; [exact He|]. split.
  - rewrite (Hv "ETCD_INITIAL_CLUSTER" "m1=https://10.0.0.1:2380"); [reflexivity|].
    apply (bool_decide_unpack _); vm_compute; exact I.
  - rewrite (Hv "ETCD_DATA_DIR" "/var/lib/etcd+1"); [reflexivity|].
    apply (bool_decide_unpack _); vm_compute; exact I.
Defined.
