(* ===== verification/AdmCerts.v ===== *)
(** * etcdadm: certificates

    certs/certs.go and certs/pkiutil/pki_helpers.go: the certificate authority of
    etcd and the certificates that it signs, each a pair of files of the
    certificates directory that is made if it is not there.  RSA, X.509 and the
    encodings are libraries: operations of the environment, or parameters. *)

From stdpp Require Import base gmap sets list strings.
From S2P Require Import Prelude Effects GoLib AdmConfig.

Local Open Scope Z_scope.

Inductive KeyUsage := UsageServerAuth | UsageClientAuth.
#[export] Instance KeyUsage_eq_dec : EqDecision KeyUsage.
Proof. solve_decision. Defined.

(** The fields of an [x509.Certificate] that are used. *)
Record X509 := mkX509 {
  x_IsCA : bool;
  x_NotBefore : time;
  x_NotAfter : time;
  x_Raw : string;
}.

(** [certutil.Config], and the certificate to be signed. *)
Record certConfig := mkCertConf {
  cf_CommonName : string;
  cf_Organization : list string;
  cf_DNSNames : list string;
  cf_IPs : list string;
  cf_Usages : list KeyUsage;
}.
Record certTemplate := mkCertTmpl {
  ct_Config : certConfig;
  ct_SerialNumber : Z;
  ct_NotBefore : time;
  ct_NotAfter : time;
}.

Section Certs.
(** Private keys, their public keys, and the encodings as PEM. *)
Context {K PK : Type} (publicKey : K -> PK) (EncodePrivateKeyPEM : K -> string) (EncodeCertPEM : X509 -> string).
(** [CheckSignatureFrom], [net.ParseIP] (as text) and [IsDNS1123Subdomain]. *)
Context (CheckSignatureFrom : X509 -> X509 -> bool).
Context (ParseIP : string -> option string) (IsDNS1123Subdomain : string -> bool).

Inductive cert_op : Type :=
| CStat (p : string)
| CCertsFromFile (p : string)
| CPrivateKeyFromFile (p : string)           (* a key that may not be RSA *)
| CWriteCert (p data : string)
| CWriteKey (p data : string)
| CNow
| CNewPrivateKey
| CSerial
| CCreateCertificate (t : certTemplate) (parent : X509) (pub : PK) (priv : K)
| CNewSelfSignedCACert (cfg : certConfig) (key : K).
Definition cert_res (e : cert_op) : Type :=
  match e with
  | CStat _ => exists_result
  | CCertsFromFile _ => result (list X509)
  | CPrivateKeyFromFile _ => result (option K)
  | CWriteCert _ _ | CWriteKey _ _ => option error
  | CNow => time
  | CNewPrivateKey => result K
  | CSerial => result Z
  | CCreateCertificate _ _ _ _ | CNewSelfSignedCACert _ _ => result X509
  end.
Definition CertSig : sig := Sig cert_op cert_res.
Abbreviation CM := (M CertSig EtcdAdmConfig).
Abbreviation ccall e := (@call CertSig _ e).

(** ** pki_helpers.go *)

Definition pathForCert (pkiPath name : string) : string := PathJoin [pkiPath; name +:+ ".crt"].
Definition pathForKey (pkiPath name : string) : string := PathJoin [pkiPath; name +:+ ".key"].

Definition NewCertificateAuthority : CM (result (X509 * K)) :=
  k ← ccall CNewPrivateKey;
  match k with
  | Err _ => mret (Err "unable to create private key")
  | Ok key =>
      c ← ccall (CNewSelfSignedCACert (mkCertConf "etcd" [] [] [] []) key);
      mret (match c with Err _ => Err "unable to create self-signed certificate" | Ok cert => Ok (cert, key) end)
  end.

Definition certificateValidity : duration := Hour * 24 * 365.

Definition NewSignedCert (cfg : certConfig) (key : K) (caCert : X509) (caKey : K) : CM (result X509) :=
  n ← ccall CSerial;
  match n with
  | Err e => mret (Err e)
  | Ok serial =>
      if String.eqb (cf_CommonName cfg) "" then mret (Err "must specify a CommonName")
      else if bool_decide (cf_Usages cfg = []) then mret (Err "must specify at least one ExtKeyUsage")
      else
        t ← ccall CNow;
        ccall (CCreateCertificate (mkCertTmpl cfg serial (x_NotBefore caCert) (t + certificateValidity))
                 caCert (publicKey key) caKey)
  end.

Definition NewCertAndKey (caCert : X509) (caKey : K) (config : certConfig) : CM (result (X509 * K)) :=
  k ← ccall CNewPrivateKey;
  match k with
  | Err _ => mret (Err "unable to create private key")
  | Ok key =>
      c ← NewSignedCert config key caCert caKey;
      mret (match c with Err _ => Err "unable to sign certificate" | Ok cert => Ok (cert, key) end)
  end.

Definition WriteKey (pkiPath name : string) (key : K) : CM (option error) :=
  e ← ccall (CWriteKey (pathForKey pkiPath name) (EncodePrivateKeyPEM key));
  mret (match e with Some _ => Some "unable to write private key to file" | None => None end).
Definition WriteCert (pkiPath name : string) (cert : X509) : CM (option error) :=
  e ← ccall (CWriteCert (pathForCert pkiPath name) (EncodeCertPEM cert));
  mret (match e with Some _ => Some "unable to write certificate to file" | None => None end).
Definition WriteCertAndKey (pkiPath name : string) (cert : X509) (key : K) : CM (option error) :=
  e ← WriteKey pkiPath name key;
  match e with
  | Some e => mret (Some e)
  | None => WriteCert pkiPath name cert
  end.

(** Only two missing files count as missing. *)
Definition CertOrKeyExist (pkiPath name : string) : CM bool :=
  c ← ccall (CStat (pathForCert pkiPath name));
  k ← ccall (CStat (pathForKey pkiPath name));
  mret (match c, k with IsMissing, IsMissing => false | _, _ => true end).

Definition TryLoadCertFromDisk (pkiPath name : string) : CM (result X509) :=
  r ← ccall (CCertsFromFile (pathForCert pkiPath name));
  match r with
  | Err _ => mret (Err "couldn't load the certificate file")
  | Ok certs =>
      cert ← deref "certs[0]" (head certs);
      t ← ccall CNow;
      mret (if t <? x_NotBefore cert then Err "the certificate is not valid yet"
            else if x_NotAfter cert <? t then Err "the certificate has expired"
            else Ok cert)
  end.

Definition TryLoadKeyFromDisk (pkiPath name : string) : CM (result K) :=
  r ← ccall (CPrivateKeyFromFile (pathForKey pkiPath name));
  mret (match r with
        | Err _ => Err "couldn't load the private key file"
        | Ok None => Err "the private key file isn't in RSA format"
        | Ok (Some key) => Ok key
        end).

Definition TryLoadCertAndKeyFromDisk (pkiPath name : string) : CM (result (X509 * K)) :=
  c ← TryLoadCertFromDisk pkiPath name;
  match c with
  | Err e => mret (Err e)
  | Ok cert =>
      k ← TryLoadKeyFromDisk pkiPath name;
      mret (match k with Err e => Err e | Ok key => Ok (cert, key) end)
  end.

(** [appendSANsToAltNames] on empty [AltNames]: DNS names and addresses. *)
Definition altNamesOf (SANs : list string) : list string * list string :=
  foldl (fun '(dns, ips) altname =>
    match ParseIP altname with
    | Some ip => (dns, ips ++ [ip])
    | None => if IsDNS1123Subdomain altname then (dns ++ [altname], ips) else (dns, ips)
    end) ([], []) SANs.

(** ** certs.go *)

Definition nodeConfig (cfg : EtcdAdmConfig) (SANs : list string) : certConfig :=
  mkCertConf (Name cfg) [] (fst (altNamesOf SANs)) (snd (altNamesOf SANs)) [UsageServerAuth; UsageClientAuth].
Definition clientConfig (commonName organization : string) : certConfig :=
  mkCertConf commonName [organization] [] [] [UsageClientAuth].

Definition loadCertificateAuthority (pkiDir baseName : string) : CM (result (X509 * K)) :=
  x ← CertOrKeyExist pkiDir baseName;
  if negb x then mret (Err "couldn't load certificate authority") else
  r ← TryLoadCertAndKeyFromDisk pkiDir baseName;
  mret (match r with
        | Err _ => Err "failure loading certificate authority"
        | Ok (caCert, caKey) =>
            if x_IsCA caCert then Ok (caCert, caKey) else Err "certificate is not a certificate authority"
        end).

Definition writeCertificateAuthorithyFilesIfNotExist (pkiDir baseName : string) (caCert : X509) (caKey : K)
    : CM (option error) :=
  x ← CertOrKeyExist pkiDir baseName;
  if (x : bool) then
    r ← TryLoadCertAndKeyFromDisk pkiDir baseName;
    mret (match r with
          | Err _ => Some "failure loading certificate"
          | Ok (c, _) => if x_IsCA c then None else Some "certificate is not a CA"
          end)
  else
    e ← WriteCertAndKey pkiDir baseName caCert caKey;
    mret (match e with Some _ => Some "failure while saving certificate and key" | None => None end).

Definition writeCertificateFilesIfNotExist (pkiDir baseName : string) (signingCert cert : X509) (key : K)
    : CM (option error) :=
  x ← CertOrKeyExist pkiDir baseName;
  if (x : bool) then
    r ← TryLoadCertAndKeyFromDisk pkiDir baseName;
    mret (match r with
          | Err _ => Some "failure loading certificate"
          | Ok (signedCert, _) =>
              if CheckSignatureFrom signedCert signingCert then None
              else Some "certificate is not signed by corresponding CA"
          end)
  else
    e ← WriteCertAndKey pkiDir baseName cert key;
    mret (match e with Some _ => Some "failure while saving certificate and key" | None => None end).

Definition CreateEtcdCACertAndKeyFiles : CM (option error) :=
  cfg ← get;
  r ← NewCertificateAuthority;
  match r with
  | Err _ => mret (Some "failure while generating etcd CA certificate and key")
  | Ok (cert, key) =>
      writeCertificateAuthorithyFilesIfNotExist (CertificatesDir (adm_flags cfg)) EtcdCACertAndKeyBaseName cert key
  end.

(** The four certificates that are signed differ in the name of their files and
    in what is signed. *)
Definition createSigned (baseName : string) (config : EtcdAdmConfig -> certConfig) : CM (option error) :=
  cfg ← get;
  let dir := CertificatesDir (adm_flags cfg) in
  ca ← loadCertificateAuthority dir EtcdCACertAndKeyBaseName;
  match ca with
  | Err e => mret (Some e)
  | Ok (caCert, caKey) =>
      r ← NewCertAndKey caCert caKey (config cfg);
      match r with
      | Err _ => mret (Some "failure while creating key and certificate")
      | Ok (cert, key) => writeCertificateFilesIfNotExist dir baseName caCert cert key
      end
  end.

Definition serverCert (cfg : EtcdAdmConfig) : certConfig := nodeConfig cfg (ServerCertSANs cfg).
Definition peerCert (cfg : EtcdAdmConfig) : certConfig := nodeConfig cfg (PeerCertSANs cfg).
Definition etcdctlCert (cfg : EtcdAdmConfig) : certConfig := clientConfig (Name cfg +:+ "-etcdctl") MastersGroup.
Definition apiserverCert (cfg : EtcdAdmConfig) : certConfig :=
  clientConfig (Name cfg +:+ "-kube-apiserver-etcd-client") MastersGroup.

Definition CreateEtcdServerCertAndKeyFiles : CM (option error) :=
  createSigned EtcdServerCertAndKeyBaseName serverCert.
Definition CreateEtcdPeerCertAndKeyFiles : CM (option error) :=
  createSigned EtcdPeerCertAndKeyBaseName peerCert.
Definition CreateEtcdctlClientCertAndKeyFiles : CM (option error) :=
  createSigned EtcdctlClientCertAndKeyBaseName etcdctlCert.
Definition CreateAPIServerEtcdClientCertAndKeyFiles : CM (option error) :=
  createSigned APIServerEtcdClientCertAndKeyBaseName apiserverCert.

Definition CreatePKIAssets : CM (option error) :=
  r ← for_each [CreateEtcdCACertAndKeyFiles; CreateEtcdServerCertAndKeyFiles; CreateEtcdPeerCertAndKeyFiles;
                CreateEtcdctlClientCertAndKeyFiles; CreateAPIServerEtcdClientCertAndKeyFiles] tt
        (fun action _ =>
           e ← action;
           mret (match e with Some e => inr e | None => inl tt end));
  mret (match r with inl _ => None | inr e => Some e end).

(** ** What the certificates are, in every environment *)

Abbreviation CT := (trace CertSig).
Abbreviation cx e r := (@existT (op CertSig) (@res CertSig) e r).

(** A pair of files that was loaded, or written. *)
Definition loaded_pair (dir base : string) (cert : X509) (key : K) (t : CT) : Prop :=
  (exists rest, cx (CCertsFromFile (pathForCert dir base)) (Ok (cert :: rest)) ∈ t) /\
  cx (CPrivateKeyFromFile (pathForKey dir base)) (Ok (Some key)) ∈ t.
Definition written_pair (dir base : string) (cert : X509) (key : K) (t : CT) : Prop :=
  cx (CWriteKey (pathForKey dir base) (EncodePrivateKeyPEM key)) None ∈ t /\
  cx (CWriteCert (pathForCert dir base) (EncodeCertPEM cert)) None ∈ t.
(** Both files of the pair were found missing. *)
Definition missing_pair (dir base : string) (t : CT) : Prop :=
  cx (CStat (pathForCert dir base)) IsMissing ∈ t /\ cx (CStat (pathForKey dir base)) IsMissing ∈ t.

Definition writes (p : string) (x : exchange CertSig) : Prop :=
  match asked x with CWriteCert p' _ | CWriteKey p' _ => p' = p | _ => False end.
(** A file is written only if it and its sibling were missing. *)
Definition only_missing (dir : string) (t : CT) : Prop :=
  forall p, guarded (writes p) (fun t1 => exists base,
    (p = pathForCert dir base \/ p = pathForKey dir base) /\ missing_pair dir base t1) t.

(** The authority: the pair that is there, or a new one. *)
Definition authority_ok (dir : string) (t : CT) : Prop :=
  exists cert key, (loaded_pair dir EtcdCACertAndKeyBaseName cert key t /\ x_IsCA cert = true) \/
    (written_pair dir EtcdCACertAndKeyBaseName cert key t /\
     cx (CNewSelfSignedCACert (mkCertConf "etcd" [] [] [] []) key) (Ok cert) ∈ t).
(** A certificate of the member: signed by the authority that is on disk. *)
Definition asset_ok (dir base : string) (config : certConfig) (t : CT) : Prop :=
  exists ca caKey, loaded_pair dir EtcdCACertAndKeyBaseName ca caKey t /\ x_IsCA ca = true /\
    exists cert key,
      (loaded_pair dir base cert key t /\ CheckSignatureFrom cert ca = true) \/
      (written_pair dir base cert key t /\ exists serial now,
         cx (CCreateCertificate (mkCertTmpl config serial (x_NotBefore ca) (now + certificateValidity))
               ca (publicKey key) caKey) (Ok cert) ∈ t).

Lemma missing_pair_app dir base t t' : missing_pair dir base t' -> missing_pair dir base (t ++ t').
Proof. unfold missing_pair. set_solver. Qed.
Lemma loaded_pair_l dir base c k t t' : loaded_pair dir base c k t -> loaded_pair dir base c k (t ++ t').
Proof. unfold loaded_pair. set_solver. Qed.
Lemma loaded_pair_r dir base c k t t' : loaded_pair dir base c k t' -> loaded_pair dir base c k (t ++ t').
Proof. unfold loaded_pair. set_solver. Qed.
Lemma authority_l dir t t' : authority_ok dir t -> authority_ok dir (t ++ t').
Proof.
  intros (c & k & H). exists c, k. destruct H as [[H ?]|[[H1 H2] H3]]; [left; eauto using loaded_pair_l|].
  right. unfold written_pair. set_solver.
Qed.
Lemma asset_l dir base config t t' : asset_ok dir base config t -> asset_ok dir base config (t ++ t').
Proof.
  intros (ca & cak & Hca & His & c & k & H). exists ca, cak. split; [by apply loaded_pair_l|]. split; [done|].
  exists c, k. destruct H as [[H ?]|[[H1 H2] (n & now & H3)]]; [left; eauto using loaded_pair_l|].
  right. split; [unfold written_pair; set_solver|]. exists n, now. set_solver.
Qed.
Lemma asset_r dir base config t t' : asset_ok dir base config t' -> asset_ok dir base config (t ++ t').
Proof.
  intros (ca & cak & Hca & His & c & k & H). exists ca, cak. split; [by apply loaded_pair_r|]. split; [done|].
  exists c, k. destruct H as [[H ?]|[[H1 H2] (n & now & H3)]]; [left; eauto using loaded_pair_r|].
  right. split; [unfold written_pair; set_solver|]. exists n, now. set_solver.
Qed.

Lemma only_missing_app dir t t' : only_missing dir t -> only_missing dir t' -> only_missing dir (t ++ t').
Proof.
  intros H H' p. apply guarded_app; [apply H|]. eapply guarded_mono; [apply H'|].
  intros t1 (base & Hp & Hm). exists base. eauto using missing_pair_app.
Qed.
Definition silent (x : exchange CertSig) : Prop := forall p, ~ writes p x.
Lemma only_missing_silent dir t : Forall silent t -> only_missing dir t.
Proof. intros H p. apply guarded_Forall. eapply Forall_impl; [exact H|]. intros x Hx. apply Hx. Qed.

(** A program that writes what is missing only, and leaves the configuration. *)
Definition tidy {A} (dir : string) (cfg : EtcdAdmConfig) (m : CM A) (R : A -> CT -> Prop) : Prop :=
  wpm m cfg (fun r cfg' t => cfg' = cfg /\ only_missing dir t /\ R r t)
    (fun c t => only_missing dir t /\ c = NilDeref "certs[0]").

Lemma tidy_bind {A B} dir cfg (m : CM A) (f : A -> CM B) (R1 : A -> CT -> Prop) (R : B -> CT -> Prop) :
  tidy dir cfg m R1 -> (forall a t, R1 a t -> tidy dir cfg (f a) (fun b t' => R b (t ++ t'))) ->
  tidy dir cfg (m ≫= f) R.
Proof.
  intros Hm Hf. apply wpm_bind. eapply wpm_mono; [exact Hm| |done].
  intros a s' t (-> & Ht & Ha). eapply wpm_mono; [by apply Hf| |]; simpl.
  - intros b s'' t' (-> & Ht' & Hb). eauto using only_missing_app.
  - intros c t' (Ht' & ->). eauto using only_missing_app.
Qed.
Lemma tidy_ret {A} dir cfg (a : A) (R : A -> CT -> Prop) : R a [] -> tidy dir cfg (mret a) R.
Proof. intros H. apply wpm_ret. split; [done|]. split; [|done]. by apply only_missing_silent. Qed.
Lemma tidy_mono {A} dir cfg (m : CM A) (R R' : A -> CT -> Prop) :
  tidy dir cfg m R -> (forall a t, R a t -> R' a t) -> tidy dir cfg m R'.
Proof. intros H HR. eapply wpm_mono; [exact H| |done]. naive_solver. Qed.
Lemma tidy_call dir cfg (e : op CertSig) (R : res e -> CT -> Prop) :
  (forall r, silent (cx e r)) -> (forall r, R r [cx e r]) -> tidy dir cfg (call e) R.
Proof.
  intros Hs HR. apply wpm_call. intros r. split; [done|]. split; [|done].
  apply only_missing_silent. constructor; [apply Hs|constructor].
Qed.
Lemma tidy_get dir cfg (R : EtcdAdmConfig -> CT -> Prop) : R cfg [] -> tidy dir cfg get R.
Proof. intros H. apply wpm_get. split; [done|]. split; [|done]. by apply only_missing_silent. Qed.

Lemma tidy_load dir cfg base :
  tidy dir cfg (TryLoadCertAndKeyFromDisk dir base) (fun r t =>
    forall c k, r = Ok (c, k) -> loaded_pair dir base c k t).
Proof.
  unfold TryLoadCertAndKeyFromDisk. eapply (tidy_bind _ _ _ _ (fun r t => forall c, r = Ok c ->
    exists rest, cx (CCertsFromFile (pathForCert dir base)) (Ok (c :: rest)) ∈ t)).
  - unfold TryLoadCertFromDisk. eapply tidy_bind; [apply (tidy_call _ _ _ (fun r t =>
      t = [cx (CCertsFromFile (pathForCert dir base)) r])); [intros ? ? []|done]|].
    intros [certs|e] t ->; [|by apply tidy_ret].
    destruct certs as [|cert rest]; simpl.
    { apply wpm_bind, wpm_die. split; [by apply only_missing_silent|done]. }
    eapply tidy_bind; [by apply (tidy_ret _ _ _ (fun a t => a = cert /\ t = []))|]. intros a t [-> ->].
    eapply tidy_bind; [apply (tidy_call _ _ _ (fun _ _ => True)); [intros ? ? []|done]|].
    intros now t _. apply tidy_ret. intros c Hc. exists rest.
    destruct (now <? _); [done|]. destruct (_ <? now); [done|]. simplify_eq. by left.
  - intros [cert|e] t Hc; [|by apply tidy_ret]. destruct (Hc cert eq_refl) as [rest Hin].
    unfold TryLoadKeyFromDisk. eapply (tidy_bind _ _ _ _ (fun r t => forall k, r = Ok k ->
      cx (CPrivateKeyFromFile (pathForKey dir base)) (Ok (Some k)) ∈ t)).
    + eapply tidy_bind; [apply (tidy_call _ _ _ (fun r t =>
        t = [cx (CPrivateKeyFromFile (pathForKey dir base)) r])); [intros ? ? []|done]|].
      intros r t' ->. apply tidy_ret. intros k Hk. destruct r as [[k'|]|]; simplify_eq. by left.
    + intros r t' Hk. apply tidy_ret. intros c k Hck. destruct r as [k'|]; simplify_eq.
      specialize (Hk k eq_refl). unfold loaded_pair. set_solver.
Qed.

Lemma exist_spec dir cfg base :
  wpm (CertOrKeyExist dir base) cfg
    (fun x cfg' t => cfg' = cfg /\ Forall silent t /\ (x = false -> missing_pair dir base t)) (fun _ _ => False).
Proof.
  unfold CertOrKeyExist. wpm_steps. split; [done|]. split; [repeat constructor; intros ? []|].
  destruct r, r0; try done. intros _. unfold missing_pair. set_solver.
Qed.

Lemma write_spec dir cfg base cert key :
  wpm (WriteCertAndKey dir base cert key) cfg
    (fun e cfg' t => cfg' = cfg /\ (e = None -> written_pair dir base cert key t) /\
       Forall (fun x => forall p, writes p x -> p = pathForCert dir base \/ p = pathForKey dir base) t)
    (fun _ _ => False).
Proof.
  unfold WriteCertAndKey, WriteKey, WriteCert.
  wpm_steps; (split; [done|]);
    (split; [intros Hn; repeat case_match; simplify_eq; unfold written_pair; set_solver|]);
    repeat (apply Forall_cons_2; [intros p Hp; unfold writes in Hp; simpl in Hp; auto|]); apply Forall_nil_2.
Qed.

(** The pair is written if it is missing; otherwise [existing] looks at it. *)
Lemma tidy_pair dir cfg base cert key (existing : CM (option error)) (Q : CT -> Prop) :
  (forall t t', Q t' -> Q (t ++ t')) ->
  tidy dir cfg existing (fun e t => e = None -> Q t) ->
  tidy dir cfg (x ← CertOrKeyExist dir base;
                if (x : bool) then existing
                else e ← WriteCertAndKey dir base cert key;
                     mret (match e with Some _ => Some "failure while saving certificate and key" | None => None end))
    (fun e t => e = None -> Q t \/ written_pair dir base cert key t).
Proof.
  intros HQ He. apply wpm_bind. eapply wpm_mono; [apply exist_spec| |done].
  intros x s' t0 (-> & Hs & Hm). apply (only_missing_silent dir) in Hs as Ho. destruct x.
  - eapply wpm_mono; [exact He| |].
    + intros e s' t (-> & Ht & HQt). auto 6 using only_missing_app.
    + intros c t (Ht & ->). auto using only_missing_app.
  - apply wpm_bind. eapply wpm_mono; [apply write_spec| |done]. intros e s' t (-> & Hw & Ht). apply wpm_ret.
    rewrite app_nil_r. split; [done|]. split.
    + intros p. apply guarded_app; [apply Ho|]. intros t1 x t2 Heq Hx. exists base.
      rewrite Heq, Forall_app, Forall_cons in Ht. split; [naive_solver|].
      destruct (Hm eq_refl). unfold missing_pair. set_solver.
    + intros Hn. right. destruct e; [done|]. destruct (Hw eq_refl). unfold written_pair. set_solver.
Qed.

Lemma tidy_CA dir cfg :
  CertificatesDir (adm_flags cfg) = dir ->
  tidy dir cfg CreateEtcdCACertAndKeyFiles (fun e t => e = None -> authority_ok dir t).
Proof.
  intros Hd. unfold CreateEtcdCACertAndKeyFiles. eapply tidy_bind; [by apply (tidy_get _ _ (fun c t => c = cfg /\ t = []))|].
  intros c t [-> ->]. eapply (tidy_bind _ _ _ _ (fun r t => forall cert key, r = Ok (cert, key) ->
    cx (CNewSelfSignedCACert (mkCertConf "etcd" [] [] [] []) key) (Ok cert) ∈ t)).
  { unfold NewCertificateAuthority. eapply tidy_bind; [apply (tidy_call _ _ _ (fun _ _ => True)); [intros ? ? []|done]|].
    intros [key|e] t _; [|by apply tidy_ret].
    eapply tidy_bind; [apply (tidy_call _ _ _ (fun r t => t = [cx (CNewSelfSignedCACert _ key) r])); [intros ? ? []|done]|].
    intros r t' ->. apply tidy_ret. intros cert k Hr. destruct r as [c|]; simplify_eq. set_solver. }
  intros [[cert key]|e] t Hnew; [|by apply tidy_ret]. specialize (Hnew cert key eq_refl). rewrite Hd.
  eapply tidy_mono; [apply (tidy_pair _ _ _ _ _ _ (fun t => exists c k,
    loaded_pair dir EtcdCACertAndKeyBaseName c k t /\ x_IsCA c = true))|].
  - intros t1 t2 (c & k & H & ?). exists c, k. eauto using loaded_pair_r.
  - eapply tidy_bind; [apply tidy_load|]. intros [[c k]|e] t' Hl; [|by apply tidy_ret].
    apply tidy_ret. intros Hn. exists c, k. rewrite app_nil_r. destruct (x_IsCA c); [|done]. auto.
  - intros e t' H Hn. destruct (H Hn) as [(c & k & Hl & Hc)|Hw].
    + exists c, k. left. eauto using loaded_pair_r.
    + exists cert, key. right. destruct Hw. unfold written_pair. set_solver.
Qed.

Lemma tidy_signed dir cfg base config :
  CertificatesDir (adm_flags cfg) = dir ->
  tidy dir cfg (createSigned base config) (fun e t => e = None -> asset_ok dir base (config cfg) t).
Proof.
  intros Hd. unfold createSigned. eapply tidy_bind; [by apply (tidy_get _ _ (fun c t => c = cfg /\ t = []))|].
  intros c t [-> ->]. rewrite Hd.
  eapply (tidy_bind _ _ _ _ (fun r t => forall ca cak, r = Ok (ca, cak) ->
    loaded_pair dir EtcdCACertAndKeyBaseName ca cak t /\ x_IsCA ca = true)).
  { unfold loadCertificateAuthority. eapply (tidy_bind _ _ _ _ (fun _ _ => True)).
    { eapply wpm_mono; [apply exist_spec| |done]. intros x s' t (-> & Hs & _). auto using only_missing_silent. }
    intros x t _. destruct (negb x); [by apply tidy_ret|]. eapply tidy_bind; [apply tidy_load|].
    intros r t' Hl. apply tidy_ret. intros ca cak Hr. destruct r as [[c k]|]; [|done].
    destruct (x_IsCA c) eqn:Hc; simplify_eq. rewrite app_nil_r. split; [|done]. by apply loaded_pair_r, Hl. }
  intros [[ca cak]|e] t Hca; [|by apply tidy_ret]. destruct (Hca ca cak eq_refl) as [Hload His].
  eapply (tidy_bind _ _ _ _ (fun r t => forall cert key, r = Ok (cert, key) -> exists serial now,
    cx (CCreateCertificate (mkCertTmpl (config cfg) serial (x_NotBefore ca) (now + certificateValidity))
          ca (publicKey key) cak) (Ok cert) ∈ t)).
  { unfold NewCertAndKey, NewSignedCert. eapply tidy_bind; [apply (tidy_call _ _ _ (fun _ _ => True)); [intros ? ? []|done]|].
    intros [key|e] t1 _; [|by apply tidy_ret]. eapply (tidy_bind _ _ _ _ (fun r t => forall cert, r = Ok cert -> exists serial now,
      cx (CCreateCertificate (mkCertTmpl (config cfg) serial (x_NotBefore ca) (now + certificateValidity))
          ca (publicKey key) cak) (Ok cert) ∈ t)).
    - eapply tidy_bind; [apply (tidy_call _ _ _ (fun _ _ => True)); [intros ? ? []|done]|].
      intros [serial|e] t2 _; [|by apply tidy_ret]. destruct (String.eqb _ _); [by apply tidy_ret|].
      case_bool_decide; [by apply tidy_ret|].
      eapply tidy_bind; [apply (tidy_call _ _ _ (fun _ _ => True)); [intros ? ? []|done]|]. intros now t3 _.
      eapply tidy_mono; [apply (tidy_call _ _ _ (fun r t => t = [cx (CCreateCertificate _ ca (publicKey key) cak) r]));
        [intros ? ? []|done]|]. intros r t4 -> cert ->. exists serial, now. set_solver.
    - intros r t2 Hr. apply tidy_ret. intros cert k Hck. destruct r as [c|]; simplify_eq.
      destruct (Hr cert eq_refl) as (serial & now & H). exists serial, now. set_solver. }
  intros [[cert key]|e] t1 Hnew; [|by apply tidy_ret]. destruct (Hnew cert key eq_refl) as (serial & now & Hin).
  eapply tidy_mono; [apply (tidy_pair _ _ _ _ _ _ (fun t => exists c k,
    loaded_pair dir base c k t /\ CheckSignatureFrom c ca = true))|].
  - intros t2 t3 (c & k & H & ?). exists c, k. eauto using loaded_pair_r.
  - eapply tidy_bind; [apply tidy_load|]. intros [[c k]|e] t' Hl; [|by apply tidy_ret].
    apply tidy_ret. intros Hn. exists c, k. rewrite app_nil_r. destruct (CheckSignatureFrom c ca); [|done]. auto.
  - intros e t' H Hn. exists ca, cak. split; [by apply (loaded_pair_l _ _ _ _ t)|]. split; [done|].
    destruct (H Hn) as [(c & k & Hl & Hc)|Hw].
    + exists c, k. left. eauto using loaded_pair_r.
    + exists cert, key. right. destruct Hw. split; [unfold written_pair; set_solver|]. exists serial, now. set_solver.
Qed.

(** One action of the list, and the rest. *)
Lemma tidy_actions dir cfg (action : CM (option error)) rest (Q Q' : CT -> Prop) :
  (forall t t', Q t -> Q (t ++ t')) -> (forall t t', Q' t' -> Q' (t ++ t')) ->
  let body := fun (a : CM (option error)) (_ : unit) =>
    e ← a; mret (match e with Some e => inr e | None => inl tt end) in
  tidy dir cfg action (fun e t => e = None -> Q t) ->
  tidy dir cfg (for_each rest tt body) (fun (r : unit + error) t => r = inl tt -> Q' t) ->
  tidy dir cfg (for_each (action :: rest) tt body) (fun (r : unit + error) t => r = inl tt -> Q t /\ Q' t).
Proof.
  intros HQ HQ' body Ha Hr. simpl. eapply (tidy_bind _ _ _ _ (fun r t => r = inl tt -> Q t)).
  { eapply tidy_bind; [exact Ha|]. intros [e|] t H; apply tidy_ret; [done|]. intros _. rewrite app_nil_r. auto. }
  intros [[]|e] t H; [|by apply tidy_ret]. eapply tidy_mono; [exact Hr|]. intros r t' H' ->. auto.
Qed.

Definition assets_ok (dir : string) (cfg : EtcdAdmConfig) (t : CT) : Prop :=
  authority_ok dir t /\
  asset_ok dir EtcdServerCertAndKeyBaseName (serverCert cfg) t /\
  asset_ok dir EtcdPeerCertAndKeyBaseName (peerCert cfg) t /\
  asset_ok dir EtcdctlClientCertAndKeyBaseName (etcdctlCert cfg) t /\
  asset_ok dir APIServerEtcdClientCertAndKeyBaseName (apiserverCert cfg) t.

Lemma tidy_CreatePKIAssets dir cfg :
  CertificatesDir (adm_flags cfg) = dir ->
  tidy dir cfg CreatePKIAssets (fun e t => e = None -> assets_ok dir cfg t).
Proof.
  intros Hd. unfold CreatePKIAssets. eapply (tidy_bind _ _ _ _ (fun r t => r = inl tt -> assets_ok dir cfg t)).
  - unfold assets_ok. apply tidy_actions; [apply authority_l| |by apply tidy_CA|].
    { intros t t' (? & ? & ? & ?). auto using asset_r. }
    apply tidy_actions; [apply asset_l| |by apply tidy_signed|].
    { intros t t' (? & ? & ?). auto using asset_r. }
    apply tidy_actions; [apply asset_l| |by apply tidy_signed|].
    { intros t t' (? & ?). auto using asset_r. }
    apply tidy_actions; [apply asset_l|apply asset_r|by apply tidy_signed|].
    eapply tidy_mono; [apply (tidy_actions _ _ _ _ (asset_ok dir APIServerEtcdClientCertAndKeyBaseName (apiserverCert cfg))
      (fun _ => True)); [apply asset_l|done|by apply tidy_signed|by apply tidy_ret]|]. naive_solver.
  - intros [[]|e] t H; apply tidy_ret; [|done]. intros _. rewrite app_nil_r. auto.
Qed.

(** C34: the certificates of a member.  In every environment [CreatePKIAssets]
    writes a key or a certificate only if both files of the pair were missing, so
    nothing that is there is ever replaced.  If it reports success, the directory
    has an authority (a loaded certificate that is a CA, or a new one), and for
    the server, the peers, etcdctl and the API server a pair that either was there
    and is signed by the loaded authority, or was signed by it with the names of
    the configuration and written.  The only crash is a certificate file that
    parses to no certificate. *)
Theorem pki_assets cfg t o (Hrun : runs (CreatePKIAssets cfg) t o) :
  only_missing (CertificatesDir (adm_flags cfg)) t /\
  match o with
  | Done (r, cfg') => cfg' = cfg /\ (r = None -> assets_ok (CertificatesDir (adm_flags cfg)) cfg t)
  | Crashed c => c = NilDeref "certs[0]"
  end.
Proof.
  pose proof (wp_runs _ _ _ _ Hrun (tidy_CreatePKIAssets _ cfg eq_refl)) as H.
  destruct o as [[r cfg']|c]; naive_solver.
Qed.
End Certs.

Module CertsDemo.
(** A directory without files; keys are numbers, and certificates carry the name
    of the file they come from. *)
Definition disk : handler (CertSig (K := Z) (PK := Z)) (gset string) := fun e w =>
  match e return @res (CertSig (K := Z) (PK := Z)) e * gset string with
  | CStat p => (if bool_decide (p ∈ w) then IsThere else IsMissing, w)
  | CCertsFromFile p => (Ok [mkX509 (HasSuffix p "ca.crt") 0 100 p], w)
  | CPrivateKeyFromFile p => (Ok (Some 7), w)
  | CWriteCert p _ => (None, {[p]} ∪ w)
  | CWriteKey p _ => (None, {[p]} ∪ w)
  | CNow => (50, w)
  | CNewPrivateKey => (Ok 7, w)
  | CSerial => (Ok 1, w)
  | CCreateCertificate _ _ _ _ => (Ok (mkX509 false 0 100 "new"), w)
  | CNewSelfSignedCACert _ _ => (Ok (mkX509 true 0 100 "ca"), w)
  end.
Definition config : EtcdAdmConfig :=
  mkAdm (mkAdmFlags "3.5.7" "" "" "/etc/etcd/pki" "/var/lib/etcd" "/opt/bin/" "" "" [] "" false true "systemd" "" "" "" [])
    (mkAdmStatic "" "" "") (mkAdmPaths "" "" "" "" "" "" "" "" "" "" "" "")
    (mkAdmUrls [] [] [] [] (mkUrl "" "")) ["m1"; "10.0.0.1"] ["m1"; "10.0.0.1"] "m1" "" "" "" 0 "".
Definition create : prog (CertSig (K := Z) (PK := Z)) _ :=
  CreatePKIAssets (fun k => k) (fun _ => "key") x_Raw (fun _ _ => true)
    (fun s => if HasPrefix s "10." then Some s else None) (fun _ => true) config.
End CertsDemo.

Lemma pki_assets_witness :
  outcome_of CertsDemo.disk CertsDemo.create ∅ = Done (None, CertsDemo.config) /\
  assets_ok (fun k : Z => k) (fun _ => "key") x_Raw (fun _ _ => true)
    (fun s => if HasPrefix s "10." then Some s else None) (fun _ => true) "/etc/etcd/pki" CertsDemo.config
    (trace_of CertsDemo.disk CertsDemo.create ∅).
Proof.
  assert (outcome_of CertsDemo.disk CertsDemo.create ∅ = Done (None, CertsDemo.config)) as Ho by (vm_compute; reflexivity).
  split; [exact Ho|].
  exact (proj2 (proj2 (pki_assets (fun k : Z => k) (fun _ => "key") x_Raw (fun _ _ => true)
    (fun s => if HasPrefix s "10." then Some s else None) (fun _ => true) CertsDemo.config _ _
    (exec_runs_eq CertsDemo.disk CertsDemo.create ∅ _ Ho))) eq_refl).
Defined.
