(* ===== verification/AdmCommands.v ===== *)
(** * etcdadm: the commands

    cmd/phases.go, init.go, join.go, reset.go, info.go and download.go: what the
    commands do, phase by phase.  The configuration (a global variable of the
    program) is the state; the machine and etcd ([AdmSig]) and the certificates
    ([CertSig]) are the environment. *)

From stdpp Require Import base gmap sets list strings.
From S2P Require Import Prelude Effects EffectsSum GoLib Vfs AdmConfig AdmService AdmInit AdmCerts.

Local Open Scope Z_scope.

(** [wait.ExponentialBackoff]: at most [steps] checks, with a pause in between. *)
Fixpoint ExponentialBackoff {Σ St R} (sleep : nat -> M Σ St unit) (condition : M Σ St (option R))
    (done steps : nat) : M Σ St (option R) :=
  match steps with
  | O => mret None
  | S n =>
      r ← condition;
      match r with
      | Some r => mret (Some r)
      | None =>
          match n with
          | O => mret None
          | S _ => sleep done ≫= fun _ => ExponentialBackoff sleep condition (S done) n
          end
      end
  end.

(** ** Clients: etcd/etcd.go *)

Definition ClientForEndpoint (endpoint : string) : AdmM (option error) :=
  c ← get;
  let p := adm_paths c in
  e ← acall (AClientTLS (EtcdctlCertFile p) (EtcdctlKeyFile p) (TrustedCAFile p));
  match e with
  | Some _ => mret (Some "unable to create TLS client")
  | None => acall (ANewClient endpoint)
  end.

(** [defer client.Close()] *)
Definition withClient {A} (m : AdmM A) : AdmM A := r ← m; acall ACloseClient ≫= fun _ => mret r.

Definition RestoreSnapshot : AdmM (option error) :=
  c ← get;
  acall (ARestoreSnapshot (Snapshot (adm_flags c)) (Name c) (DataDir (adm_flags c))
    (StringSlice (InitialAdvertisePeerURLs (adm_urls c))) (InitialCluster c) (InitialClusterToken c)
    (SkipHashCheck (adm_flags c))).

(** ** The phases that only talk to the machine and to etcd *)

Section Phases.
Context (sys : InitSystemOps).

Definition wrapped (m : AdmM (option error)) (msg : error) : AdmM (option error) :=
  e ← m; mret (match e with Some _ => Some msg | None => None end).

Definition initInstall : AdmM (option error) :=
  e ← is_DisableAndStopService sys;
  match e with
  | Some _ => mret (Some "error disabling and stopping etcd service")
  | None =>
      c ← get;
      x ← Exists_ (DataDir (adm_flags c));
      match x with
      | Err _ => mret (Some "unable to verify whether data dir exists")
      | Ok b =>
          (if (b : bool) then acall (ARemoveAll (DataDir (adm_flags c))) ≫= fun _ => mret tt else mret tt) ≫= fun _ =>
          wrapped (is_Install sys) "failed installing init system components"
      end
  end.

Definition snapshot : AdmM (option error) :=
  c ← get;
  if String.eqb (Snapshot (adm_flags c)) "" then mret None
  else wrapped RestoreSnapshot "error restoring snapshot".

Definition configure : AdmM (option error) := wrapped (is_Configure sys) "error configuring init system".
Definition start : AdmM (option error) := wrapped (is_EnableAndStartService sys) "error starting etcd".
Definition stop : AdmM (option error) := wrapped (is_DisableAndStopService sys) "error disabling and stopping etcd service".
Definition joinInstall : AdmM (option error) := wrapped (is_Install sys) "failed installing init system components".

(** Only warnings are logged. *)
Definition etcdctl : AdmM (option error) :=
  WriteEtcdctlEnvFile ≫= fun _ => WriteEtcdctlShellWrapper ≫= fun _ => mret None.

Definition healthcheck : AdmM (option error) :=
  c ← get;
  e ← ClientForEndpoint (URLString (LoopbackClientURL (adm_urls c)));
  match e with
  | Some _ => mret (Some "error creating health endpoint client")
  | None =>
      withClient (
        r ← acall (AGet EtcdHealthCheckKey);
        mret (match r with
              | GetOk | PermissionDenied => None
              | GetErr _ => Some "local etcd endpoint is unhealthy"
              end))
  end.

Definition postInitInstructions : AdmM (option error) :=
  c ← get;
  deref "AdvertiseClientURLs[0]" (head (AdvertiseClientURLs (adm_urls c))) ≫= fun _ => mret None.

(** ** Membership *)

Definition tryAdd (peerURLs : list string) : AdmM (option (Member * list Member)) :=
  r ← acall (AMemberAdd peerURLs);
  mret (match r with Ok x => Some x | Err _ => None end).

(** The member as it is, or added to the cluster. *)
Definition findOrAdd (members : list Member) : AdmM (result (Member * list Member)) :=
  c ← get;
  let peerURLs := StringSlice (InitialAdvertisePeerURLs (adm_urls c)) in
  match MemberForPeerURLs members peerURLs with
  | Some m => mret (Ok (m, members))
  | None =>
      acall (ARemoveAll (DataDir (adm_flags c))) ≫= fun _ =>
      r ← ExponentialBackoff (fun n => acall (ASleep n)) (tryAdd peerURLs) 0
            (if Retry (adm_flags c) then DefaultBackOffSteps else 1%nat);
      mret (match r with Some x => Ok x | None => Err "error adding member" end)
  end.

(** The members the new etcd is told about. *)
Definition desiredMembers (c : EtcdAdmConfig) (local : Member) (members : list Member) : list Member :=
  filter (fun m => mem_ID m <> mem_ID local) members ++
  [mkMember (mem_ID local) (Name c) (StringSlice (InitialAdvertisePeerURLs (adm_urls c))) (mem_ClientURLs local)].

Definition membership : AdmM (option error) :=
  c ← get;
  if negb (String.eqb (InitialCluster c) "") then mret None else
  e ← ClientForEndpoint (Endpoint c);
  match e with
  | Some _ => mret (Some "error checking membership")
  | None =>
      withClient (
        l ← acall AMemberList;
        match l with
        | Err _ => mret (Some "error listing members")
        | Ok (members, _) =>
            r ← findOrAdd members;
            match r with
            | Err e => mret (Some e)
            | Ok (localMember, members) =>
                if negb (Started localMember) then
                  acall (ARemoveAll (DataDir (adm_flags c))) ≫= fun _ =>
                  modify (set_InitialCluster (InitialClusterFromMembers (desiredMembers c localMember members))) ≫= fun _ =>
                  mret None
                else
                  modify (set_InitialCluster (InitialClusterFromMembers members)) ≫= fun _ => mret None
            end
        end)
  end.
End Phases.

(** ** cmd/phases.go *)

Section Commands.
Context {K PK : Type} (publicKey : K -> PK) (EncodePrivateKeyPEM : K -> string) (EncodeCertPEM : X509 -> string).
Context (CheckSignatureFrom : X509 -> X509 -> bool).
Context (ParseIP : string -> option string) (IsDNS1123Subdomain : string -> bool).
(** [runtime.GOARCH], [yaml.Marshal], and whether [url.Parse] succeeds. *)
Context (GOARCH : string) (Marshal : pod -> result string) (validURL : string -> bool).

Abbreviation ToolSig := (AdmSig ⊕ CertSig (K := K) (PK := PK)).
Abbreviation TM := (M ToolSig EtcdAdmConfig).

Inductive phase :=
  singlePhase (phaseName : string) (runFunc : InitSystemOps -> TM (option error)) (prerequisites : list phase).
Definition phase_name (p : phase) : string := match p with singlePhase n _ _ => n end.
Definition phase_run (p : phase) : InitSystemOps -> TM (option error) := match p with singlePhase _ r _ => r end.
Definition prerequisites_of (p : phase) : list phase := match p with singlePhase _ _ ps => ps end.

Definition initFunc : Type := list string -> TM (result InitSystemOps).
Record runner := mkRunner { rn_phases : list phase; rn_init : initFunc }.

Definition runPhases (r : runner) (args : list string) (phases : list phase) : TM (option error) :=
  i ← rn_init r args;
  match i with
  | Err e => mret (Some e)
  | Ok sys =>
      x ← for_each phases tt (fun p _ =>
            e ← phase_run p sys;
            mret (match e with
                  | Some e => inr ("[" +:+ phase_name p +:+ "] " +:+ e)
                  | None => inl tt
                  end));
      mret (match x with inl _ => None | inr e => Some e end)
  end.

(** The command, and one of its phases as a command of its own; an error is
    fatal. *)
Definition fatal (m : TM (option error)) : TM unit :=
  e ← m; match e with Some e => die (Fatal e) | None => mret tt end.
Definition runCommand (r : runner) (args : list string) : TM unit := fatal (runPhases r args (rn_phases r)).
Definition runSubcommand (r : runner) (p : phase) (args : list string) : TM unit :=
  fatal (runPhases r args (prerequisites_of p ++ [p])).

Definition machine (name : string) (m : InitSystemOps -> AdmM (option error)) (ps : list phase) : phase :=
  singlePhase name (fun sys => viaL (m sys)) ps.
Definition certificates : phase :=
  singlePhase "certificates" (fun _ =>
    e ← viaR (CreatePKIAssets publicKey EncodePrivateKeyPEM EncodeCertPEM CheckSignatureFrom ParseIP IsDNS1123Subdomain);
    mret (match e with Some _ => Some "failed creating PKI assets" | None => None end)) [].

(** ** cmd/init.go *)

Definition phasesSetup (defaults : AdmM (option error)) : AdmM (result InitSystemOps) :=
  SetDefaults ≫= fun _ =>
  e ← defaults;
  match e with
  | Some _ => mret (Err "[defaults] error setting dynamic defaults")
  | None =>
      i ← GetInitSystem GOARCH Marshal;
      mret (match i with Err _ => Err "[initsystem] error detecting the init system" | Ok sys => Ok sys end)
  end.
Definition initPhasesSetup : initFunc := fun _ => viaL (phasesSetup (SetInitDynamicDefaults ParseIP)).

Definition initPhases : list phase :=
  [machine "install" initInstall []; certificates; machine "snapshot" (fun _ => snapshot) [];
   machine "configure" configure []; machine "start" start []; machine "etcdctl" (fun _ => etcdctl) [];
   machine "health" (fun _ => healthcheck) []; machine "post-init-instructions" (fun _ => postInitInstructions) []].
Definition newInitRunner : runner := mkRunner initPhases initPhasesSetup.

(** ** cmd/join.go *)

(** [args[0]] panics without arguments. *)
Definition joinPhasesSetup : initFunc := fun args =>
  viaL (
    endpoint ← deref "args[0]" (head args);
    if negb (validURL endpoint) then mret (Err "endpoint must be a valid URL") else
    modify (set_Endpoint endpoint) ≫= fun _ =>
    phasesSetup (SetJoinDynamicDefaults ParseIP)).

Definition membershipPhase : phase := machine "membership" (fun _ => membership) [].
Definition joinPhases : list phase :=
  [machine "stop" stop []; certificates; membershipPhase; machine "install" joinInstall [];
   machine "configure" configure [membershipPhase]; machine "start" start [membershipPhase];
   machine "etcdctl" (fun _ => etcdctl) []; machine "health" (fun _ => healthcheck) []].
Definition newJoinRunner : runner := mkRunner joinPhases joinPhasesSetup.

(** ** cmd/download.go and cmd/info.go *)

Definition downloadCmd : AdmM unit :=
  e ← SetDownloadDynamicDefaults ParseIP;
  match e with
  | Some e => die (Fatal "[defaults] Error")
  | None =>
      c ← get;
      e ← Download GOARCH (ReleaseURL (adm_flags c)) (Version (adm_flags c)) (CacheDir (adm_paths c));
      match e with Some _ => die (Fatal "[download] Error") | None => mret tt end
  end.

(** The member whose JSON text is printed. *)
Definition infoCmd : AdmM Member :=
  e ← SetJoinDynamicDefaults ParseIP;
  match e with
  | Some _ => die (Fatal "[defaults] Error")
  | None =>
      c ← get;
      e ← ClientForEndpoint (URLString (LoopbackClientURL (adm_urls c)));
      match e with
      | Some _ => die (Fatal "[membership] Error requesting member information")
      | None =>
          withClient (
            l ← acall AMemberList;
            match l with
            | Err _ => die (Fatal "[membership] Error listing members")
            | Ok (members, id) =>
                match MemberForID members id with
                | None => die (Fatal "[membership] Failed to identify local member in member list")
                | Some m => mret m
                end
            end)
      end
  end.
End Commands.

(** ** cmd/reset.go *)

Section Reset.
Context (ParseIP : string -> option string) (GOARCH : string) (Marshal : pod -> result string).
Context (skipRemoveMember : bool).

(** Leave the cluster, unless this is its last member. *)
Definition leaveCluster : AdmM unit :=
  c ← get;
  e ← ClientForEndpoint (URLString (LoopbackClientURL (adm_urls c)));
  match e with
  | Some _ => die (Fatal "[membership] Error checking membership")
  | None =>
      l ← acall AMemberList;
      match l with
      | Err _ => die (Fatal "[membership] Error listing members")
      | Ok (members, _) =>
          match MemberForPeerURLs members (StringSlice (InitialAdvertisePeerURLs (adm_urls c))) with
          | None => mret tt
          | Some localMember =>
              if (1 <? length members)%nat then
                e ← acall (AMemberRemove (mem_ID localMember));
                match e with
                | Some _ => die (Fatal "[membership] Error removing member")
                | None => mret tt
                end
              else mret tt
          end
      end
  end.

(** Errors are logged only. *)
Definition removeFiles : AdmM unit :=
  c ← get;
  let f := adm_flags c in
  acall (ARemoveAll (DataDir f)) ≫= fun _ =>
  acall (ARemoveAll (CertificatesDir f)) ≫= fun _ =>
  acall (ARemove (UnitFile (adm_static c))) ≫= fun _ =>
  acall (ARemove (EnvironmentFile (adm_static c))) ≫= fun _ =>
  acall (ARemove (EtcdctlEnvFile (adm_static c))) ≫= fun _ =>
  Uninstall (InstallDir f) ≫= fun _ =>
  acall (ARemove (EtcdctlShellWrapper (adm_paths c))) ≫= fun _ => mret tt.

Definition resetWith (sys : InitSystemOps) : AdmM unit :=
  active ← is_IsActive sys;
  match active with
  | Err _ => die (Fatal "[reset] Error checking if etcd service is active")
  | Ok b =>
      let leaves := b && negb skipRemoveMember in
      (if leaves then leaveCluster else mret tt) ≫= fun _ =>
      e ← is_DisableAndStopService sys;
      match e with
      | Some _ => die (Fatal "[reset] Error stopping etcd")
      | None =>
          removeFiles ≫= fun _ =>
          (* deferred: the client, if there is one *)
          (if leaves then acall ACloseClient ≫= fun _ => mret tt else mret tt)
      end
  end.

Definition resetCmd : AdmM unit :=
  SetDefaults ≫= fun _ =>
  e ← SetResetDynamicDefaults ParseIP;
  match e with
  | Some _ => die (Fatal "[defaults] Error")
  | None =>
      i ← GetInitSystem GOARCH Marshal;
      match i with
      | Err _ => die (Fatal "[initsystem] Error detecting the init system")
      | Ok sys => resetWith sys
      end
  end.
End Reset.
