(* ===== verification/AdmProofs.v ===== *)
(** * etcdadm: what the commands do

    Joining a cluster, in every environment, and what the theorems about the other
    commands share. *)

From stdpp Require Import base gmap sets list strings.
From S2P Require Import Prelude Effects EffectsSum GoLib Vfs AdmConfig AdmService AdmInit AdmCerts AdmCommands.

Local Open Scope Z_scope.

Abbreviation AT := (trace AdmSig).

(** ** Joining *)

(** The URLs by which a member is recognised. *)
Definition ourURLs (c : EtcdAdmConfig) : list string := StringSlice (InitialAdvertisePeerURLs (adm_urls c)).
(** etcd listed its members, and this is who we are among them. *)
Definition listed (c : EtcdAdmConfig) (who : option Member) (t : AT) : Prop :=
  exists ms id, axch AMemberList (Ok (ms, id)) ∈ t /\ MemberForPeerURLs ms (ourURLs c) = who.

Definition is_add (x : exchange AdmSig) : bool := match asked x with AMemberAdd _ => true | _ => false end.
Definition adds (t : AT) : nat := length (List.filter is_add t).
Definition attempts (c : EtcdAdmConfig) : nat := if Retry (adm_flags c) then 5%nat else 1%nat.

(** An exchange of the backoff loop. *)
Definition adding (c : EtcdAdmConfig) (x : exchange AdmSig) : Prop :=
  match asked x with AMemberAdd urls => urls = ourURLs c | ASleep _ => True | _ => False end.

Lemma adds_app t t' : adds (t ++ t') = (adds t + adds t')%nat.
Proof. unfold adds. by rewrite List.filter_app, length_app. Qed.

Lemma wpm_tryAdd urls (c : EtcdAdmConfig) (Q : option (Member * list Member) -> EtcdAdmConfig -> AT -> Prop) C :
  (forall r, Q (match r with Ok x => Some x | Err _ => None end) c [axch (AMemberAdd urls) r]) ->
  wpm (tryAdd urls) c Q C.
Proof. intros H. unfold tryAdd. by wpm_steps. Qed.

Lemma backoff_spec c n steps :
  wpm (ExponentialBackoff (fun n => acall (ASleep n)) (tryAdd (ourURLs c)) n steps) c
    (fun r c' t => c' = c /\ Forall (adding c) t /\ (adds t <= steps)%nat /\
       forall x, r = Some x -> axch (AMemberAdd (ourURLs c)) (Ok x) ∈ t) (fun _ _ => False).
Proof.
  revert n. induction steps as [|steps IH]; intros n; cbn [ExponentialBackoff]; [by apply wpm_ret|].
  wpm_step. apply wpm_tryAdd. intros [x|e]; cbn beta iota.
  - wpm_step. split; [done|]. split; [by repeat constructor|]. split; [unfold adds in *; simpl in *; lia|].
    intros y [= <-]. set_solver.
  - destruct steps as [|steps]; [wpm_step; split; [done|]; split; [by repeat constructor|]; split; [unfold adds in *; simpl in *; lia|done]|].
    wpm_step. wpm_step. eapply wpm_mono; [apply IH| |done].
    intros r' c' t (-> & Ht & Ha & Hr). split; [done|]. split; [repeat (constructor; [done|]); done|].
    change (?a :: ?b :: t) with ([a; b] ++ t). rewrite adds_app. split; [unfold adds in *; simpl in *; lia|].
    intros x Hx. specialize (Hr x Hx). set_solver.
Qed.

Lemma findOrAdd_spec c members :
  wpm (findOrAdd members) c
    (fun r c' t => c' = c /\ (adds t <= attempts c)%nat /\
       match MemberForPeerURLs members (ourURLs c) with
       | Some m => r = Ok (m, members) /\ t = []
       | None => exists e t', t = axch (ARemoveAll (DataDir (adm_flags c))) e :: t' /\ Forall (adding c) t' /\
                   forall x, r = Ok x -> axch (AMemberAdd (ourURLs c)) (Ok x) ∈ t'
       end) (fun _ _ => False).
Proof.
  unfold findOrAdd. wpm_step. wpm_step. fold (ourURLs c).
  destruct (MemberForPeerURLs members (ourURLs c)) as [m|]; [wpm_step; split; [done|]; split; [unfold adds in *; simpl in *; lia|done]|].
  wpm_step. wpm_step. wpm_step. eapply wpm_mono; [apply backoff_spec| |done].
  intros r' c' t (-> & Ht & Ha & Hr). wpm_step. split; [done|]. rewrite app_nil_r. split.
  - change (?a :: t) with ([a] ++ t). rewrite adds_app. unfold attempts, DefaultBackOffSteps, adds in *. simpl. destruct (Retry _); cbn in *; lia.
  - eexists _, t. split; [done|]. split; [done|]. intros x Hx. destruct r' as [y|]; [|done]. simplify_eq. auto.
Qed.

(** A member is added; data is removed. *)
Definition adds_as (urls : list string) (x : exchange AdmSig) : Prop := asked x = AMemberAdd urls.
Definition removes_all (p : string) (x : exchange AdmSig) : Prop := asked x = ARemoveAll p.

(** What a successful join knows: the member it is, and the members it tells
    etcd about. *)
Definition joined (c c' : EtcdAdmConfig) (t : AT) : Prop :=
  exists local members,
    ((exists id, axch AMemberList (Ok (members, id)) ∈ t /\ MemberForPeerURLs members (ourURLs c) = Some local) \/
     (listed c None t /\ axch (AMemberAdd (ourURLs c)) (Ok (local, members)) ∈ t)) /\
    c' = set_InitialCluster (InitialClusterFromMembers
           (if Started local then members else desiredMembers c local members)) c.

Definition membership_post (c : EtcdAdmConfig) (r : option error) (c' : EtcdAdmConfig) (t : AT) : Prop :=
  (adds t <= attempts c)%nat /\
  (forall urls, guarded (adds_as urls) (fun t1 => urls = ourURLs c /\ listed c None t1) t) /\
  (forall p, guarded (removes_all p) (fun t1 => p = DataDir (adm_flags c) /\
     (listed c None t1 \/ exists m, listed c (Some m) t1 /\ Started m = false)) t) /\
  match r with
  | None => joined c c' t /\ axch ACloseClient tt ∈ t
  | Some _ => c' = c
  end.

(** Before the members are known. *)
Definition asking (x : exchange AdmSig) : Prop :=
  match asked x with AMemberAdd _ | ARemoveAll _ => False | _ => True end.

Lemma asking_adds t : Forall asking t -> adds t = 0%nat.
Proof.
  induction 1 as [|x t Hx _ IH]; [done|]. unfold adds in *. simpl. unfold is_add, asking in *.
  destruct (asked x); done.
Qed.
Lemma asking_guarded P G t : (forall x, asking x -> ~ P x) -> Forall asking t -> guarded P G t.
Proof. intros HP H. apply guarded_Forall. eapply Forall_impl; [exact H|]. auto. Qed.

(** A failure before anything was changed. *)
Lemma membership_quiet c e t : Forall asking t -> membership_post c (Some e) c t.
Proof.
  intros H. split; [rewrite asking_adds by done; lia|]. split; [|split; [|done]].
  - intros urls. apply asking_guarded; [|done]. intros x Hx E. unfold asking, adds_as in *. by rewrite E in Hx.
  - intros p. apply asking_guarded; [|done]. intros x Hx E. unfold asking, removes_all in *. by rewrite E in Hx.
Qed.

(** After the list, with what [findOrAdd] and the removal of old data add. *)
Lemma membership_changes c c' r ms id t0 t1 t2 :
  Forall asking t0 -> axch AMemberList (Ok (ms, id)) ∈ t0 ->
  (adds t1 <= attempts c)%nat -> adds t2 = 0%nat ->
  match MemberForPeerURLs ms (ourURLs c) with
  | Some m => t1 = [] /\ (Started m = false \/ Forall asking t2)
  | None => Forall (fun x => adding c x \/ removes_all (DataDir (adm_flags c)) x) t1
  end ->
  Forall (fun x => asking x \/ removes_all (DataDir (adm_flags c)) x) t2 ->
  match r with None => joined c c' (t0 ++ t1 ++ t2) /\ axch ACloseClient tt ∈ t2 | Some _ => c' = c end ->
  membership_post c r c' (t0 ++ t1 ++ t2).
Proof.
  intros H0 Hl H1 H2 Hm Ht2 Hr. split; [rewrite !adds_app, (asking_adds t0), H2 by done; lia|].
  split; [|split].
  - intros urls. apply guarded_app.
    { apply asking_guarded; [|done]. intros x Hx E. unfold asking, adds_as in *. by rewrite E in Hx. }
    intros u1 x u2 Heq Hx. unfold adds_as in Hx.
    assert (x ∈ t1) as Hin.
    { assert (x ∈ t1 ++ t2) as [?|Hx2]%elem_of_app by (rewrite Heq; set_solver); [done|].
      rewrite Forall_forall in Ht2. destruct (Ht2 x Hx2) as [Ha|Ha]; unfold asking, removes_all in Ha; by rewrite Hx in Ha. }
    destruct (MemberForPeerURLs ms (ourURLs c)) as [m|] eqn:Em.
    { destruct Hm as [-> _]. by apply not_elem_of_nil in Hin. }
    split.
    + rewrite Forall_forall in Hm. destruct (Hm x Hin) as [Ha|Ha]; unfold adding, removes_all in Ha; rewrite Hx in Ha; done.
    + exists ms, id. set_solver.
  - intros p. apply guarded_app.
    { apply asking_guarded; [|done]. intros x Hx E. unfold asking, removes_all in *. by rewrite E in Hx. }
    intros u1 x u2 Heq Hx. unfold removes_all in Hx.
    assert (x ∈ t1 ++ t2) as Hin by (rewrite Heq; set_solver).
    destruct (MemberForPeerURLs ms (ourURLs c)) as [m|] eqn:Em.
    + destruct Hm as [-> Hm]. simpl in Hin. rewrite Forall_forall in Ht2.
      destruct (Ht2 x Hin) as [Ha|Ha]; [unfold asking in Ha; by rewrite Hx in Ha|].
      unfold removes_all in Ha. split; [congruence|]. right. exists m. split; [exists ms, id; set_solver|].
      destruct Hm as [Hs|Hq]; [done|]. rewrite Forall_forall in Hq. specialize (Hq x Hin).
      unfold asking in Hq. by rewrite Hx in Hq.
    + split.
      * rewrite Forall_forall in Hm, Ht2. apply elem_of_app in Hin as [Hin|Hin].
        -- destruct (Hm x Hin) as [Ha|Ha]; [unfold adding in Ha; by rewrite Hx in Ha|]. unfold removes_all in Ha. congruence.
        -- destruct (Ht2 x Hin) as [Ha|Ha]; [unfold asking in Ha; by rewrite Hx in Ha|]. unfold removes_all in Ha. congruence.
      * left. exists ms, id. set_solver.
  - destruct r; [done|]. destruct Hr as [Hj Hc]. split; [done|]. set_solver.
Qed.

(** Who we are, once [findOrAdd] has found or added us. *)
Lemma joined_after c ms id l ms' t0 t1 t2 :
  axch AMemberList (Ok (ms, id)) ∈ t0 ->
  match MemberForPeerURLs ms (ourURLs c) with
  | Some m => Ok (l, ms') = Ok (m, ms) /\ t1 = []
  | None => exists e t', t1 = axch (ARemoveAll (DataDir (adm_flags c))) e :: t' /\ Forall (adding c) t' /\
              forall x, Ok (l, ms') = Ok x -> axch (AMemberAdd (ourURLs c)) (Ok x) ∈ t'
  end ->
  joined c (set_InitialCluster (InitialClusterFromMembers
              (if Started l then ms' else desiredMembers c l ms')) c) (t0 ++ t1 ++ t2).
Proof.
  intros Hin Hm. exists l, ms'. split; [|done]. destruct (MemberForPeerURLs ms (ourURLs c)) as [m|] eqn:Em.
  - destruct Hm as [[= -> ->] _]. left. exists id. split; [set_solver|done].
  - destruct Hm as (e & t' & -> & _ & Hx). specialize (Hx _ eq_refl). right. split; [exists ms, id|]; set_solver.
Qed.

Lemma membership_spec c :
  InitialCluster c = "" -> wpm membership c (membership_post c) (fun _ _ => False).
Proof.
  intros Hc. unfold membership. wpm_step. wpm_step. rewrite Hc. simpl.
  unfold ClientForEndpoint. do 4 wpm_step. wpm_step.
  destruct r as [e|]; cbn beta iota; [do 2 wpm_step; apply membership_quiet; by repeat constructor|].
  wpm_step. destruct r as [e|]; cbn beta iota; [wpm_step; apply membership_quiet; by repeat constructor|].
  unfold withClient. do 3 wpm_step. destruct r as [[ms id]|e]; cbn beta iota;
    [|do 4 wpm_step; apply membership_quiet; by repeat constructor].
  wpm_step. eapply wpm_mono; [apply findOrAdd_spec| |done]. intros r c' t1 (-> & Ha & Hm).
  set (t0 := [axch (AClientTLS (EtcdctlCertFile (adm_paths c)) (EtcdctlKeyFile (adm_paths c)) (TrustedCAFile (adm_paths c))) None;
              axch (ANewClient (Endpoint c)) None; axch AMemberList (Ok (ms, id))] : AT).
  assert (Forall asking t0) as H0 by (by repeat constructor).
  assert (axch AMemberList (Ok (ms, id)) ∈ t0) as Hin by set_solver.
  assert (forall r' c' t2, adds t2 = 0%nat ->
    (forall m, MemberForPeerURLs ms (ourURLs c) = Some m -> Started m = false \/ Forall asking t2) ->
    Forall (fun x => asking x \/ removes_all (DataDir (adm_flags c)) x) t2 ->
    match r' with None => joined c c' (t0 ++ t1 ++ t2) /\ axch ACloseClient tt ∈ t2 | Some _ => c' = c end ->
    membership_post c r' c' (t0 ++ t1 ++ t2)) as Hpost.
  { intros r' c' t2 H2 Hs Ht2 Hr. eapply membership_changes; try done.
    destruct (MemberForPeerURLs ms (ourURLs c)) as [m|]; [destruct Hm; eauto|].
    destruct Hm as (e & t' & -> & Ht & _). constructor; [by right|]. eapply Forall_impl; [exact Ht|]. auto. }
  destruct r as [[l ms']|e]; cbn beta iota.
  - pose proof (fun t2 => joined_after c ms id l ms' t0 t1 t2 Hin Hm) as Hj.
    destruct (Started l) eqn:Hl; simpl negb; cbn iota.
    + do 6 wpm_step. rewrite <- !app_assoc. destruct r. apply (Hpost None _ [axch ACloseClient tt]).
      * done.
      * right. by repeat constructor.
      * constructor; [by left|constructor].
      * split; [apply Hj|set_solver].
    + do 8 wpm_step. rewrite <- !app_assoc. destruct r0.
      apply (Hpost None _ [axch (ARemoveAll (DataDir (adm_flags c))) r; axch ACloseClient tt]).
      * done.
      * intros m Hm'. left. rewrite Hm' in Hm. destruct Hm as [[= -> ->] _]. done.
      * constructor; [by right|]. constructor; [by left|constructor].
      * split; [apply Hj|set_solver].
  - do 4 wpm_step. rewrite <- !app_assoc. destruct r. apply (Hpost (Some e) _ [axch ACloseClient tt]).
    + done.
    + right. by repeat constructor.
    + constructor; [by left|constructor].
    + done.
Qed.

(** C35: joining a cluster, in every environment.  The phase adds this machine as a member only with its own peer URLs and only when etcd did not list them, at most once per permitted attempt; it removes data, only that of the data directory, only when etcd did not list the machine or listed it as a member that never started; when it succeeds, etcd knew the machine or added it, and the initial cluster it writes down is the cluster's member list, in which a member that has not started yet has the name and peer URLs of this machine; when it fails, the configuration is unchanged; and it never crashes. *)
Theorem join_membership c t o :
  InitialCluster c = "" -> runs (membership c) t o ->
  exists r c', o = Done (r, c') /\ membership_post c r c' t.
Proof.
  intros Hc H. pose proof (wp_runs _ _ _ _ H (membership_spec c Hc)) as Hq.
  destruct o as [[r c']|k]; [by exists r, c'|done].
Qed.

(** ** A machine and a cluster *)

Module AdmDemo.

Definition flags : AdmFlags :=
  mkAdmFlags "3.5.1" "https://example.com" "gcr.io/etcd" "/etc/etcd/pki" "/var/lib/etcd" "/opt/bin" "/etc/kubernetes/manifests"
    "" [] "" false true "systemd" "zap" "default" "" [].
Definition urls : AdmUrls :=
  let peer := [mkUrl "https" "10.0.0.2:2380"] in
  mkAdmUrls peer peer [mkUrl "https" "10.0.0.2:2379"] [] (mkUrl "https" "127.0.0.1:2379").
Definition config : EtcdAdmConfig :=
  mkAdm flags (mkAdmStatic "/etc/systemd/system/etcd.service" "/etc/etcd/etcd.env" "/etc/etcd/etcdctl.env")
    (defaultPaths flags) urls [] [] "m2" "" "token" "existing" 4 "https://10.0.0.1:2379".

Definition m1 : Member := mkMember 1 "m1" ["https://10.0.0.1:2380"] ["https://10.0.0.1:2379"].
Definition m2 : Member := mkMember 2 "m2" ["https://10.0.0.2:2380"] ["https://10.0.0.2:2379"].

(** The world is the member list; the machine does what it is told. *)
Definition handle : handler AdmSig (list Member) := fun e ms =>
  match e with
  | AHostname => (Ok "m2", ms)
  | AResolveBindAddress => (Ok "10.0.0.2", ms)
  | ATempDir => (Ok "/tmp/x", ms)
  | AInterfaceAddrs => (Ok ["10.0.0.2"], ms)
  | ANumCPU => (4, ms)
  | ANewV4 => ("0123456789ab", ms)
  | ARange => ([], ms)
  | AStat _ => (IsThere, ms)
  | ARemove _ => (Removed, ms)
  | ARead _ => (("", None), ms)
  | ARun _ => (RunOk, ms)
  | AOutput _ _ => (Ok "etcd Version: 3.5.1 etcdctl version: 3.5.1", ms)
  | AMemberList => (Ok (ms, 2), ms)
  | AMemberAdd peerURLs =>
      let m := mkMember (Z.of_nat (length ms) + 1) "" peerURLs [] in (Ok (m, ms ++ [m]), ms ++ [m])
  | AMemberRemove id => (None, filter (fun m => mem_ID m <> id) ms)
  | AGet _ => (GetOk, ms)
  | ACloseClient | ASleep _ => (tt, ms)
  | _ => (None, ms)
  end.
End AdmDemo.

Lemma join_membership_witness :
  outcome_of AdmDemo.handle (membership AdmDemo.config) [AdmDemo.m1] =
    Done (None, set_InitialCluster "m1=https://10.0.0.1:2380,m2=https://10.0.0.2:2380" AdmDemo.config) /\
  exists r c', outcome_of AdmDemo.handle (membership AdmDemo.config) [AdmDemo.m1] = Done (r, c') /\
    membership_post AdmDemo.config r c' (trace_of AdmDemo.handle (membership AdmDemo.config) [AdmDemo.m1]).
Proof.
  split; [vm_compute; reflexivity|].
  apply join_membership; [reflexivity|apply exec_runs].
Defined.
