(* ===== verification/AdmReset.v ===== *)
(** * etcdadm: leaving a cluster

    [etcdadm reset] destroys the data of a member.  If etcd runs it does so only
    when the member has left the cluster, or need not; if etcd does not run the
    command takes it that the member was removed, and asks nobody.  In both cases
    etcd has been stopped before.  What the init systems promise is an interface
    ([StopsService]) that both of them implement. *)

From stdpp Require Import base gmap sets list strings.
From S2P Require Import Prelude Effects GoLib Vfs AdmConfig AdmService AdmInit AdmCommands AdmProofs.

Local Open Scope Z_scope.

(** ** What an init system promises *)

(** Exchanges that neither destroy data nor change the cluster. *)
Definition harmless (x : exchange AdmSig) : Prop :=
  match asked x with ARemoveAll _ | AMemberRemove _ | AMemberAdd _ => False | _ => True end.
(** Exchanges that do not destroy data. *)
Definition keeps (x : exchange AdmSig) : Prop :=
  match asked x with ARemoveAll _ => False | _ => True end.

Lemma harmless_keeps t : Forall harmless t -> Forall keeps t.
Proof. intros H. eapply Forall_impl; [exact H|]. intros x. unfold harmless, keeps. by destruct (asked x). Qed.

(** [looks c b x]: by the answer [x] etcd runs if [b], and does not run if not;
    [halts c x]: it does not run or was stopped. *)
Class StopsService (sys : InitSystemOps) (looks : EtcdAdmConfig -> bool -> exchange AdmSig -> Prop)
    (halts : EtcdAdmConfig -> exchange AdmSig -> Prop) : Prop := {
  active_law c : wpm (is_IsActive sys) c
    (fun r c' t => c' = c /\ Forall harmless t /\ (forall b, r = Ok b -> exists x, t = [x] /\ looks c b x)) (fun _ _ => False);
  stop_law c : wpm (is_DisableAndStopService sys) c
    (fun r c' t => c' = c /\ Forall harmless t /\ (r = None -> Exists (halts c) t)) (fun _ _ => False);
}.

(** systemd's service, and the kubelet's manifest. *)
Definition service (c : EtcdAdmConfig) : string := Base (UnitFile (adm_static c)).
Definition looks_systemd (c : EtcdAdmConfig) (b : bool) (x : exchange AdmSig) : Prop :=
  x = axch (ARun ["systemctl"; "is-active"; service c]) (if b then RunOk else RunExit).
Definition halts_systemd (c : EtcdAdmConfig) (x : exchange AdmSig) : Prop :=
  looks_systemd c false x \/ x = axch (ARun ["systemctl"; "stop"; service c]) RunOk.
Definition looks_kubelet (c : EtcdAdmConfig) (b : bool) (x : exchange AdmSig) : Prop :=
  x = axch (AStat (podFile c)) (if b then IsThere else IsMissing).
Definition halts_kubelet (c : EtcdAdmConfig) (x : exchange AdmSig) : Prop :=
  x = axch (ARemove (podFile c)) Removed \/ x = axch (ARemove (podFile c)) RemoveMissing.

Lemma systemctl_harmless c verb :
  wpm (systemctl verb) c (fun r c' t => c' = c /\ Forall harmless t /\
    (r = None -> axch (ARun ["systemctl"; verb; service c]) RunOk ∈ t)) (fun _ _ => False).
Proof.
  unfold systemctl, unitName, reloadSystemd. do 7 wpm_step.
  destruct (ran r); [wpm_step; split; [done|]; split; [by repeat constructor|done]|].
  wpm_step. wpm_step. wpm_step. split; [done|]. split; [by repeat constructor|].
  destruct r0; simpl; [intros _; set_solver|done|done].
Qed.

Lemma systemctlIs_spec c verb :
  wpm (systemctlIs verb) c (fun r c' t => c' = c /\ Forall harmless t /\
    (forall b, r = Ok b -> t = [axch (ARun ["systemctl"; verb; service c]) (if b then RunOk else RunExit)])) (fun _ _ => False).
Proof.
  unfold systemctlIs, unitName. do 6 wpm_step. split; [done|]. split; [by repeat constructor|].
  intros b. by destruct r; intros [= <-].
Qed.

#[export] Instance systemd_stops GOARCH : StopsService (SystemdInitSystem GOARCH) looks_systemd halts_systemd.
Proof.
  split; intros c; simpl.
  - eapply wpm_mono; [apply systemctlIs_spec| |done]. intros r c' t (-> & Ht & Hr).
    split; [done|]. split; [done|]. intros b Hb. eexists. by split; [apply (Hr b Hb)|].
  - unfold DisableAndStopService_systemd. wpm_step. eapply wpm_mono; [apply systemctlIs_spec| |done].
    intros [b|e] c' t (-> & Ht & _); cbn beta iota; [|wpm_step; by rewrite app_nil_r].
    wpm_step. apply (wpm_mono _ _ (fun _ c' t => c' = c /\ Forall harmless t) _ (fun _ _ => False)); [| |done].
    { destruct b; [|by wpm_step]. eapply wpm_mono; [apply systemctl_harmless| |done]. naive_solver. }
    intros [e|] c' t' [-> Ht']; cbn beta iota; [wpm_step; rewrite !Forall_app; by repeat split|].
    wpm_step. eapply wpm_mono; [apply systemctlIs_spec| |done].
    intros [[]|e] c' t2 (-> & Ht2 & Hr); cbn beta iota.
    + eapply wpm_mono; [apply systemctl_harmless| |done]. intros r c' t3 (-> & Ht3 & Hs).
      rewrite !Forall_app. split; [done|]. split; [done|]. intros ->. apply Exists_exists.
      eexists. split; [|right; done]. specialize (Hs eq_refl). set_solver.
    + wpm_step. rewrite !Forall_app. split; [done|]. split; [done|]. intros _. apply Exists_exists.
      eexists. split; [|left; done]. rewrite (Hr false eq_refl). set_solver.
    + wpm_step. rewrite !Forall_app. by repeat split.
Qed.

#[export] Instance kubelet_stops Marshal : StopsService (KubeletInitSystem Marshal) looks_kubelet halts_kubelet.
Proof.
  split; intros c; simpl.
  - unfold IsActive_kubelet. do 5 wpm_step. split; [done|]. split; [by repeat constructor|].
    intros b. by destruct r; intros [= <-]; eexists.
  - unfold DisableAndStopService_kubelet. do 5 wpm_step. split; [done|]. split; [by repeat constructor|].
    destruct r; [| |done]; intros _; apply Exists_cons; left; [by left|by right].
Qed.

(** ** Reset *)

Definition removes_member (id : Z) (x : exchange AdmSig) : Prop := asked x = AMemberRemove id.

(** etcd said that we are this member of these. *)
Definition among (c : EtcdAdmConfig) (m : Member) (ms : list Member) (t : AT) : Prop :=
  exists id, axch AMemberList (Ok (ms, id)) ∈ t /\ MemberForPeerURLs ms (ourURLs c) = Some m.

(** The cluster does not count on us: etcd does not list us, we are the only
    member, or we were removed. *)
Definition hasLeft (c : EtcdAdmConfig) (t : AT) : Prop :=
  listed c None t \/
  exists m ms, among c m ms t /\ ((length ms <= 1)%nat \/ axch (AMemberRemove (mem_ID m)) None ∈ t).

(** The requests of the removal of the files, in order and whatever each of them
    answers; but a binary that cannot be removed keeps the other one. *)
Definition erased (c : EtcdAdmConfig) (t : AT) : Prop :=
  exists e1 e2 r1 r2 r3 r4 tb r6,
    t = [axch (ARemoveAll (DataDir (adm_flags c))) e1; axch (ARemoveAll (CertificatesDir (adm_flags c))) e2;
         axch (ARemove (UnitFile (adm_static c))) r1; axch (ARemove (EnvironmentFile (adm_static c))) r2;
         axch (ARemove (EtcdctlEnvFile (adm_static c))) r3;
         axch (ARemove (PathJoin [InstallDir (adm_flags c); "etcd"])) r4] ++ tb ++
        [axch (ARemove (EtcdctlShellWrapper (adm_paths c))) r6] /\
    match r4 with
    | Removed => exists r5, tb = [axch (ARemove (PathJoin [InstallDir (adm_flags c); "etcdctl"])) r5]
    | _ => tb = []
    end.

Lemma removeFiles_spec c :
  wpm removeFiles c (fun _ c' t => c' = c /\ erased c t) (fun _ _ => False).
Proof.
  unfold removeFiles, Uninstall. do 15 wpm_step.
  destruct (removed r4) eqn:Hr; repeat wpm_step; (split; [done|]);
    [eexists r, r0, r1, r2, r3, r4, [], _|eexists r, r0, r1, r2, r3, r4, [_], _]; (split; [simpl; reflexivity|]);
    destruct r4; first [discriminate Hr|done|by eexists].
Qed.

Section Reset.
Context (skipRemoveMember : bool).

Definition mayRemove (c : EtcdAdmConfig) (id : Z) (t : AT) : Prop :=
  skipRemoveMember = false /\ exists m ms, among c m ms t /\ mem_ID m = id /\ (1 < length ms)%nat.
Definition removes_self (c : EtcdAdmConfig) (t : AT) : Prop :=
  forall id, guarded (removes_member id) (mayRemove c id) t.

Lemma harmless_self c t : Forall harmless t -> removes_self c t.
Proof.
  intros H id. apply guarded_Forall. eapply Forall_impl; [exact H|].
  intros x Hx E. unfold harmless, removes_member in *. by rewrite E in Hx.
Qed.
Lemma erased_self c t : erased c t -> removes_self c t.
Proof.
  intros (e1 & e2 & r1 & r2 & r3 & r4 & tb & r6 & -> & Hb) id. apply guarded_Forall.
  assert (Forall (fun x => ~ removes_member id x) tb) as H by
    (destruct r4; [destruct Hb as [r5 ->]|subst..]; by repeat constructor).
  apply Forall_app. split; [by repeat constructor|]. apply Forall_app. split; [done|by repeat constructor].
Qed.
Lemma self_app c t t' : removes_self c t -> removes_self c t' -> removes_self c (t ++ t').
Proof.
  intros H H' id. apply guarded_app; [auto|]. intros t1 x t2 E Hx.
  destruct (H' id t1 x t2 E Hx) as (Hs & m & ms & (i & Ha & Hm) & He). split; [done|].
  exists m, ms. split; [|done]. exists i. set_solver.
Qed.

(** Leaving destroys nothing, and removes no other member. *)
Lemma leaveCluster_spec c :
  skipRemoveMember = false ->
  wpm leaveCluster c (fun _ c' t => c' = c /\ removes_self c t /\ Forall keeps t /\ hasLeft c t)
    (fun k t => (exists msg, k = Fatal msg) /\ removes_self c t /\ Forall keeps t).
Proof.
  intros Hskip. unfold leaveCluster, ClientForEndpoint. wpm_step. wpm_step. do 4 wpm_step. wpm_step.
  destruct r as [e|]; cbn beta iota; [do 2 wpm_step; split; [by eexists|]; split; [apply harmless_self|]; by repeat constructor|].
  wpm_step. destruct r as [e|]; cbn beta iota; [wpm_step; split; [by eexists|]; split; [apply harmless_self|]; by repeat constructor|].
  wpm_step. wpm_step. destruct r as [[ms id]|e]; cbn beta iota;
    [|wpm_step; split; [by eexists|]; split; [apply harmless_self|]; by repeat constructor].
  fold (ourURLs c). destruct (MemberForPeerURLs ms (ourURLs c)) as [m|] eqn:Hm;
    [|wpm_step; split; [done|]; split; [apply harmless_self; by repeat constructor|];
      split; [by repeat constructor|left; exists ms, id; set_solver]].
  destruct (1 <? length ms)%nat eqn:Hl; cbn iota.
  2: { wpm_step; split; [done|]; split; [apply harmless_self; by repeat constructor|]; split; [by repeat constructor|].
       right. exists m, ms. split; [exists id; set_solver|]. apply Nat.ltb_ge in Hl. by left. }
  apply Nat.ltb_lt in Hl. wpm_step. wpm_step.
  assert (forall t0 r, Forall harmless t0 -> axch AMemberList (Ok (ms, id)) ∈ t0 ->
    removes_self c (t0 ++ [axch (AMemberRemove (mem_ID m)) r])) as Hg.
  { intros t0 r' Ht Hin i. apply guarded_app; [by apply harmless_self|]. intros [|y t1] x t2 [= E E2].
    - subst x. intros Hy. injection Hy as <-. split; [done|]. exists m, ms.
      split; [exists id; set_solver|done].
    - by destruct t1. }
  destruct r as [e|]; cbn beta iota; wpm_step.
  - split; [by eexists|]. split; [|by repeat constructor].
    rewrite !(assoc_L app), app_nil_r. apply Hg; [by repeat constructor|set_solver].
  - split; [done|]. rewrite !(assoc_L app), app_nil_r. split; [apply Hg; [by repeat constructor|set_solver]|].
    split; [by repeat constructor|]. right. exists m, ms. split; [exists id; set_solver|]. right. set_solver.
Qed.

Context (looks : EtcdAdmConfig -> bool -> exchange AdmSig -> Prop) (halts : EtcdAdmConfig -> exchange AdmSig -> Prop).

(** A reset that ran to its end: the look at the service, the departure if there
    is one, the stop, the removal of the files. *)
Definition resetDone (c : EtcdAdmConfig) (t : AT) : Prop :=
  exists b x tl ts te, t = [x] ++ tl ++ ts ++ te ++ (if b && negb skipRemoveMember then [axch ACloseClient tt] else []) /\
    looks c b x /\ Forall keeps (x :: tl ++ ts) /\
    (if b && negb skipRemoveMember then hasLeft c tl else tl = []) /\
    Forall harmless ts /\ Exists (halts c) ts /\ erased c te.

Context (sys : InitSystemOps) `{!StopsService sys looks halts}.

Lemma resetWith_spec c :
  wpm (resetWith skipRemoveMember sys) c
    (fun _ c' t => c' = c /\ removes_self c t /\ resetDone c t)
    (fun k t => (exists msg, k = Fatal msg) /\ removes_self c t /\ Forall keeps t).
Proof.
  unfold resetWith. wpm_step. eapply wpm_mono; [apply active_law| |done].
  intros [b|e] c' t0 (-> & H0 & Hi); cbn beta iota;
    [|wpm_step; split; [by eexists|]; rewrite app_nil_r; split; [by apply harmless_self|by apply harmless_keeps]].
  destruct (Hi b eq_refl) as (x & -> & Hx). pose proof (harmless_keeps _ H0) as K0. apply (harmless_self c) in H0.
  wpm_step.
  apply (wpm_mono _ _ (fun _ c' t => c' = c /\ removes_self c t /\ Forall keeps t /\
             if b && negb skipRemoveMember then hasLeft c t else t = [])
           _ (fun k t => (exists msg, k = Fatal msg) /\ removes_self c t /\ Forall keeps t)).
  { destruct (b && negb skipRemoveMember) eqn:Hb; [|wpm_step; split_and!; try done; by apply harmless_self].
    apply andb_true_iff in Hb as [_ Hs%negb_true_iff]. eapply wpm_mono; [by apply leaveCluster_spec|naive_solver|done]. }
  2: { intros k t (Hk & Hg & Kt). split; [done|]. split; [by apply self_app|]. apply Forall_app. done. }
  intros _ c' tl (-> & H1 & K1 & Hl). wpm_step. eapply wpm_mono; [apply stop_law| |done].
  intros [e|] c' ts (-> & H2 & Hh); cbn beta iota.
  { wpm_step. split; [by eexists|]. rewrite app_nil_r. split; [apply self_app; [done|]; apply self_app; [done|by apply harmless_self]|].
    rewrite !Forall_app. split; [done|]. split; [done|by apply harmless_keeps]. }
  wpm_step. eapply wpm_mono; [apply removeFiles_spec| |done]. intros _ c' te (-> & He).
  apply (wpm_mono _ _ (fun _ c' t => c' = c /\
    t = if b && negb skipRemoveMember then [axch ACloseClient tt] else []) _ (fun _ _ => False)); [| |done].
  { destruct (b && negb skipRemoveMember); [do 3 wpm_step; split; [done|]; by destruct r|by wpm_step]. }
  intros _ c' tc [-> ->]. specialize (Hh eq_refl). split; [done|]. split.
  - do 4 (apply self_app; [first [done|by apply harmless_self|by apply erased_self]|]).
    apply harmless_self. destruct (b && _); by repeat constructor.
  - exists b, x, tl, ts, te. split; [done|]. split; [done|]. split; [|done].
    apply Forall_cons in K0 as [K0 _]. constructor; [done|]. apply Forall_app. split; [done|by apply harmless_keeps].
Qed.
End Reset.

(** ** The command *)

Section Command.
Context (ParseIP : string -> option string) (GOARCH : string) (Marshal : pod -> result string).

(** Filling in the configuration keeps the flags and harms nothing. *)
Lemma defaults_harmless f :
  hoare (fun c => adm_flags c = f) harmless (fun _ => False) (fun _ => True) (setDynamicDefaults ParseIP).
Proof.
  unfold setDynamicDefaults, DefaultPeerURLs, DefaultInitialAdvertisePeerURLs, DefaultListenPeerURLs, DefaultClientURLs,
    DefaultLoopbackClientURL, DefaultAdvertiseClientURLs, DefaultListenClientURLs, ensureValidExternalAddress,
    DefaultPeerCertSANs, DefaultServerCertSANs.
  hoare_solve.
Qed.

Lemma GetInitSystem_spec c :
  wpm (GetInitSystem GOARCH Marshal) c (fun r c' t => c' = c /\ Forall harmless t /\
    forall sys, r = Ok sys -> sys = SystemdInitSystem GOARCH \/ sys = KubeletInitSystem Marshal) (fun _ _ => False).
Proof.
  unfold GetInitSystem, systemd. wpm_step. wpm_step. destruct (String.eqb _ "systemd").
  - do 3 wpm_step. split; [done|]. split; [by repeat constructor|]. intros sys. destruct r; [done|]. intros [= <-]. by left.
  - destruct (String.eqb _ "kubelet"); wpm_step; (split; [done|]); (split; [constructor|]); intros sys [= <-]. by right.
Qed.

(** By either init system. *)
Definition looks_any (c : EtcdAdmConfig) (b : bool) (x : exchange AdmSig) : Prop := looks_systemd c b x \/ looks_kubelet c b x.
Definition halts_any (c : EtcdAdmConfig) (x : exchange AdmSig) : Prop := halts_systemd c x \/ halts_kubelet c x.

Lemma stops_weaken sys (looks looks' : EtcdAdmConfig -> bool -> exchange AdmSig -> Prop)
    (halts halts' : EtcdAdmConfig -> exchange AdmSig -> Prop) :
  (forall c b x, looks c b x -> looks' c b x) -> (forall c x, halts c x -> halts' c x) ->
  StopsService sys looks halts -> StopsService sys looks' halts'.
Proof.
  intros Hi Hh H. split; intros c.
  - eapply wpm_mono; [apply active_law| |done]. intros r c' t (-> & Ht & Hr). split; [done|]. split; [done|].
    intros b Hb. destruct (Hr b Hb) as (x & Hx & Hl). eauto.
  - eapply wpm_mono; [apply stop_law| |done]. intros r c' t (-> & Ht & Hr). split; [done|]. split; [done|].
    intros ->. eapply Exists_impl; [by apply Hr|]. auto.
Qed.
Lemma stops_any sys :
  sys = SystemdInitSystem GOARCH \/ sys = KubeletInitSystem Marshal -> StopsService sys looks_any halts_any.
Proof.
  intros [-> | ->]; (eapply stops_weaken; [| |apply _]); intros c ? **; first [by left|by right].
Qed.

(** The configuration [c'] a reset works with, found from [c] by [t]. *)
Definition configured (c c' : EtcdAdmConfig) (t : AT) : Prop :=
  runs ((SetDefaults ≫= fun _ => SetResetDynamicDefaults ParseIP) c) t (Done (None, c')).

Lemma setup_harmless c :
  wpm (SetDefaults ≫= fun _ => SetResetDynamicDefaults ParseIP) c
    (fun _ c' t => adm_flags c' = adm_flags c /\ Forall harmless t) (fun _ _ => False).
Proof.
  wpm_step. unfold SetDefaults. wpm_step. eapply wpm_mono; [by apply (defaults_harmless (adm_flags c))|naive_solver|naive_solver].
Qed.

(** After the configuration. *)
Definition resetFrom (skip : bool) : AdmM unit :=
  i ← GetInitSystem GOARCH Marshal;
  match i with
  | Err _ => die (Fatal "[initsystem] Error detecting the init system")
  | Ok sys => resetWith skip sys
  end.

Lemma resetFrom_spec skip c :
  wpm (resetFrom skip) c
    (fun _ c' t => c' = c /\ removes_self skip c t /\
       exists ti tr, t = ti ++ tr /\ Forall harmless ti /\ resetDone skip looks_any halts_any c tr)
    (fun k t => (exists msg, k = Fatal msg) /\ removes_self skip c t /\ Forall keeps t).
Proof.
  unfold resetFrom. wpm_step. eapply wpm_mono; [apply GetInitSystem_spec| |done].
  intros [sys|e] c' t (-> & Ht & Hsys); cbn beta iota.
  - specialize (Hsys sys eq_refl). apply stops_any in Hsys.
    eapply wpm_mono; [by apply (resetWith_spec skip looks_any halts_any sys)| |].
    + intros _ c' t' (-> & Hg & Hd). split; [done|]. split; [exact (self_app _ _ _ _ (harmless_self _ _ _ Ht) Hg)|].
      by exists t, t'.
    + intros k t' (Hk & Hg & Ks). split; [done|]. split; [exact (self_app _ _ _ _ (harmless_self _ _ _ Ht) Hg)|].
      apply Forall_app. split; [by apply harmless_keeps|done].
  - wpm_step. split; [by eexists|]. rewrite app_nil_r. split; [by apply harmless_self|by apply harmless_keeps].
Qed.

(** C36: [etcdadm reset], in every environment.  A reset that ends with a fatal error has destroyed no directory.
    One that ends normally has, in this order and after a harmless setup: looked whether etcd runs; if it runs
    and the user did not ask to skip this, got the cluster's word that it does not count on the member (etcd does
    not list it, has no other member, or confirmed its removal); if it does not run, or on request, asked
    the cluster nothing at all, the removal being assumed; stopped etcd or seen it stopped; and only then asked for
    the removal of the data directory, of the certificates and of the installed files, once each, going on whatever
    the answers are.  Normal or not, it asks for the removal of no member but the one with the machine's own peer
    URLs, and only from a cluster of several members. *)
Theorem reset_safe skip c t o :
  runs (resetCmd ParseIP GOARCH Marshal skip c) t o ->
  match o with
  | Crashed k => (exists msg, k = Fatal msg) /\ Forall keeps t /\
      (Forall harmless t \/ exists t0 c' t1, t = t0 ++ t1 /\ configured c c' t0 /\ removes_self skip c' t)
  | Done (_, c') => exists t0 ti tr,
      t = t0 ++ ti ++ tr /\ configured c c' t0 /\ adm_flags c' = adm_flags c /\ Forall harmless (t0 ++ ti) /\
      removes_self skip c' t /\ resetDone skip looks_any halts_any c' tr
  end.
Proof.
  pose proof (setup_harmless c) as Hset. intros H.
  change (resetCmd ParseIP GOARCH Marshal skip c) with
    (bind ((SetDefaults ≫= fun _ => SetResetDynamicDefaults ParseIP) c)
      (fun '(e, c') => (match e with Some _ => die (Fatal "[defaults] Error") | None => resetFrom skip end) c')) in H.
  apply runs_bind in H
    as [(t0 & [[e|] c'] & t1 & -> & H0 & H1)|(k & Hk & ->)].
  - pose proof (wp_runs _ _ _ _ H0 Hset) as [_ Ht]. apply runs_inv in H1 as [-> ->]. rewrite app_nil_r.
    split; [by eexists|]. split; [by apply harmless_keeps|by left].
  - pose proof (wp_runs _ _ _ _ H0 Hset) as [Hf Ht]. pose proof (wp_runs _ _ _ _ H1 (resetFrom_spec skip c')) as Hr.
    destruct o as [[u c'']|k].
    + destruct Hr as (-> & Hg & ti & tr & -> & Hti & Hd). exists t0, ti, tr. split; [done|]. split; [done|].
      split; [done|]. split; [by apply Forall_app|]. split; [exact (self_app _ _ _ _ (harmless_self _ _ _ Ht) Hg)|done].
    + destruct Hr as (Hm & Hg & Ks). split; [done|]. split; [apply Forall_app; split; [by apply harmless_keeps|done]|].
      right. exists t0, c', t1. split; [done|]. split; [done|]. exact (self_app _ _ _ _ (harmless_self _ _ _ Ht) Hg).
  - by destruct (wp_runs _ _ _ _ Hk Hset).
Qed.
End Command.

(** The second member of a cluster of two leaves it. *)
Module ResetDemo.
Definition config : EtcdAdmConfig := set_urls (mkAdmUrls [] [] [] [] (mkUrl "" "")) AdmDemo.config.
Definition reset : prog AdmSig (unit * EtcdAdmConfig) :=
  resetCmd (fun _ => None) "amd64" (fun _ => Err "no pods") false config.
Definition members : list Member := [AdmDemo.m1; AdmDemo.m2].
End ResetDemo.

Lemma reset_safe_witness :
  snd (exec AdmDemo.handle ResetDemo.reset ResetDemo.members) = [AdmDemo.m1] /\
  exists c' tr, outcome_of AdmDemo.handle ResetDemo.reset ResetDemo.members = Done (tt, c') /\
    resetDone false looks_any halts_any c' tr /\
    removes_self false c' (trace_of AdmDemo.handle ResetDemo.reset ResetDemo.members).
Proof.
  split; [vm_compute; reflexivity|].
  assert (exists c'', outcome_of AdmDemo.handle ResetDemo.reset ResetDemo.members = Done (tt, c'')) as [c'' E]
    by (eexists; vm_compute; reflexivity).
  destruct (reset_safe (fun _ => None) "amd64" (fun _ => Err "no pods") false ResetDemo.config _ _ (exec_runs_eq _ _ _ _ E))
    as (t0 & ti & tr & _ & _ & _ & _ & Hg & Hd).
  exists c'', tr. split; [exact E|]. split; [exact Hd|exact Hg].
Defined.
