(* ===== verification/AdmRun.v ===== *)
(** * etcdadm: running the phases

    What the runner of the commands does with a list of phases, and what a
    successful [etcdadm init] has done. *)

From Stdlib Require Import Ascii.
From stdpp Require Import base gmap sets list strings.
From S2P Require Import Prelude Effects EffectsSum GoLib Vfs AdmConfig AdmService AdmInit AdmCerts AdmCommands AdmProofs AdmReset.

Local Open Scope Z_scope.

Section Run.
Context {K PK : Type}.
Abbreviation ToolSig := (AdmSig ⊕ CertSig (K := K) (PK := PK)).
Abbreviation TM := (M ToolSig EtcdAdmConfig).
Abbreviation TT := (trace ToolSig).

(** ** The runner *)

(** The phases one after the other; the first that fails is the last. *)
Inductive phases_run (sys : InitSystemOps) : list (phase (K := K) (PK := PK)) -> EtcdAdmConfig -> TT ->
    outcome (option error * EtcdAdmConfig) -> Prop :=
| phases_end c : phases_run sys [] c [] (Done (None, c))
| phases_next p ps c t c1 t' o :
    runs (phase_run p sys c) t (Done (None, c1)) -> phases_run sys ps c1 t' o ->
    phases_run sys (p :: ps) c (t ++ t') o
| phases_fail p ps c t e c1 :
    runs (phase_run p sys c) t (Done (Some e, c1)) ->
    phases_run sys (p :: ps) c t (Done (Some ("[" +:+ phase_name p +:+ "] " +:+ e), c1))
| phases_crash p ps c t k :
    runs (phase_run p sys c) t (Crashed k) -> phases_run sys (p :: ps) c t (Crashed k).

(** With the setup before them. *)
Inductive runner_run (r : runner) (args : list string) (ps : list phase) (c : EtcdAdmConfig) : TT ->
    outcome (option error * EtcdAdmConfig) -> Prop :=
| setup_ok t sys c1 t' o :
    runs (rn_init r args c) t (Done (Ok sys, c1)) -> phases_run sys ps c1 t' o -> runner_run r args ps c (t ++ t') o
| setup_fail t e c1 :
    runs (rn_init r args c) t (Done (Err e, c1)) -> runner_run r args ps c t (Done (Some e, c1))
| setup_crash t k :
    runs (rn_init r args c) t (Crashed k) -> runner_run r args ps c t (Crashed k).

(** The loop of [runPhases]. *)
Definition runLoop (sys : InitSystemOps) (ps : list phase) : TM (option error) :=
  x ← for_each ps tt (fun p _ =>
        e ← phase_run p sys;
        mret (match e with
              | Some e => inr ("[" +:+ phase_name p +:+ "] " +:+ e)
              | None => inl tt
              end));
  mret (match x with inl _ => None | inr e => Some e end).

Lemma runLoop_cons sys p ps c t o :
  runs (runLoop sys (p :: ps) c) t o <->
  (exists t1 c1 t2, t = t1 ++ t2 /\ runs (phase_run p sys c) t1 (Done (None, c1)) /\ runs (runLoop sys ps c1) t2 o) \/
  (exists e c1, runs (phase_run p sys c) t (Done (Some e, c1)) /\ o = Done (Some ("[" +:+ phase_name p +:+ "] " +:+ e), c1)) \/
  (exists k, runs (phase_run p sys c) t (Crashed k) /\ o = Crashed k).
Proof.
  unfold runLoop. cbn [for_each]. unfold mbind, M_bind. rewrite !runs_assoc, runs_bind. cbn beta. split.
  - intros [(t1 & [[e|] c1] & t2 & -> & H1 & H2)|(k & H & ->)].
    + apply runs_inv in H2 as [-> ->]. rewrite app_nil_r. eauto 8.
    + left. eauto 8.
    + right. right. eauto.
  - intros [(t1 & c1 & t2 & -> & H1 & H2)|[(e & c1 & H & ->)|(k & H & ->)]].
    + left. exists t1, (None, c1), t2. auto.
    + left. exists t, (Some e, c1), []. rewrite app_nil_r. split; [done|]. split; [done|]. constructor.
    + right. eauto.
Qed.

Lemma runLoop_exact sys ps c t o : runs (runLoop sys ps c) t o <-> phases_run sys ps c t o.
Proof.
  revert c t. induction ps as [|p ps IH]; intros c t.
  - split; [|inversion 1; constructor]. intros [-> ->]%runs_inv. constructor.
  - rewrite runLoop_cons. split.
    + intros [(t1 & c1 & t2 & -> & H1 & H2)|[(e & c1 & H & ->)|(k & H & ->)]].
      * by eapply phases_next; [|apply IH].
      * by apply phases_fail.
      * by apply phases_crash.
    + inversion 1; subst; [left|right; left|right; right]; eauto.
      eexists _, _, _. split; [done|]. split; [done|]. by apply IH.
Qed.

Lemma runPhases_exact (r : runner) args ps c t o :
  runs (runPhases r args ps c) t o <-> runner_run r args ps c t o.
Proof.
  change (runPhases r args ps c) with
    (bind (rn_init r args c) (fun '(i, c1) => (match i with Err e => mret (Some e) | Ok sys => runLoop sys ps end) c1)).
  rewrite runs_bind. split.
  - intros [(t1 & [[sys|e] c1] & t2 & -> & H1 & H2)|(k & H & ->)].
    + eapply setup_ok; [done|]. by apply runLoop_exact.
    + apply runs_inv in H2 as [-> ->]. rewrite app_nil_r. by apply setup_fail.
    + by apply setup_crash.
  - inversion 1; subst.
    + left. eexists _, (Ok sys, c1), _. split; [done|]. split; [done|]. by apply runLoop_exact.
    + left. eexists t, (Err e, c1), []. rewrite app_nil_r. split; [done|]. split; [done|]. constructor.
    + right. eauto.
Qed.

(** The runner of the commands is exactly the sequence of its phases: an execution of [runPhases], in any environment, is the setup followed by the phases in their order, each from the configuration the one before left, up to the first that fails or crashes; a failure is reported with the name of its phase, nothing runs after it, and a failed setup runs no phase. *)
Theorem phases_in_order (r : runner) args ps c t o :
  runs (runPhases r args ps c) t o <-> runner_run r args ps c t o.
Proof. apply runPhases_exact. Qed.
End Run.

(** ** The phases of init *)

Section Init.
Context {K PK : Type} (publicKey : K -> PK) (EncodePrivateKeyPEM : K -> string) (EncodeCertPEM : X509 -> string).
Context (CheckSignatureFrom : X509 -> X509 -> bool).
Context (ParseIP : string -> option string) (IsDNS1123Subdomain : string -> bool).
Context (GOARCH : string) (Marshal : pod -> result string).

(** The archive of the release, unpacked to a new directory, and both binaries copied from there. *)
Definition unpacked (c : EtcdAdmConfig) (t : AT) : Prop :=
  let f := adm_flags c in
  let archive := PathJoin [CacheDir (adm_paths c); releaseFile GOARCH (Version f)] in
  exists s tmp m e, s <> IsMissing /\
    t = [axch (AStat archive) s; axch ATempDir (Ok tmp);
         axch (ARun ["tar"; "xzf"; archive; "--strip-components=1"; "-C"; tmp]) RunOk;
         axch (AMkdirAll (InstallDir f)) m;
         axch (ARun ["cp"; "-f"; PathJoin [tmp; "etcd"]; PathJoin [InstallDir f; "etcd"]]) RunOk;
         axch (ARun ["cp"; "-f"; PathJoin [tmp; "etcdctl"]; PathJoin [InstallDir f; "etcdctl"]]) RunOk;
         axch (ARemoveAll tmp) e].

(** Both binaries are there, and what they print about their version contains the
    version asked for.  The text may go on: see [longer_version_passes]. *)
Definition verified (c : EtcdAdmConfig) (t : AT) : Prop :=
  let f := adm_flags c in
  exists out out',
    t = [axch (AStat (PathJoin [InstallDir f; "etcd"])) IsThere;
         axch (AOutput [] [PathJoin [InstallDir f; "etcd"]; "--version"]) (Ok out);
         axch (AStat (PathJoin [InstallDir f; "etcdctl"])) IsThere;
         axch (AOutput ["ETCDCTL_API=3"] [PathJoin [InstallDir f; "etcdctl"]; "version"]) (Ok out')] /\
    Contains out ("etcd Version: " +:+ Version f) = true /\
    Contains out' ("etcdctl version: " +:+ Version f) = true.

(** Unpacked and then verified, after a download if the archive was not there. *)
Definition binaries (c : EtcdAdmConfig) (t : AT) : Prop :=
  exists td tu tv, t = td ++ tu ++ tv /\ unpacked c tu /\ verified c tv /\
    (td = [] \/ exists td', td = axch (AStat (PathJoin [CacheDir (adm_paths c); releaseFile GOARCH (Version (adm_flags c))])) IsMissing :: td' /\
                 Forall harmless td').

(** A program that leaves the configuration alone. *)
Definition quiet_spec {A} (m : AdmM A) (c : EtcdAdmConfig) (Q : A -> AT -> Prop) : Prop :=
  wpm m c (fun r c' t => c' = c /\ Q r t) (fun _ _ => True).

Lemma quiet_bind {A B} (m : AdmM A) (f : A -> AdmM B) c (Q : A -> AT -> Prop) (R : B -> AT -> Prop) :
  quiet_spec m c Q -> (forall a t, Q a t -> quiet_spec (f a) c (fun b t' => R b (t ++ t'))) -> quiet_spec (m ≫= f) c R.
Proof.
  intros Hm Hf. apply wpm_bind. eapply wpm_mono; [exact Hm| |done]. intros a c' t [-> Ha].
  eapply wpm_mono; [by apply (Hf a t Ha)| |]; done.
Qed.
Lemma quiet_ret {A} (a : A) c (Q : A -> AT -> Prop) : Q a [] -> quiet_spec (mret a) c Q.
Proof. by intros. Qed.
Lemma quiet_any {A} (m : AdmM A) c :
  hoare (fun c' => c' = c) (fun _ => True) (fun _ => True) (fun _ => True) m -> quiet_spec m c (fun _ _ => True).
Proof. intros H. eapply wpm_mono; [by apply H| |]; naive_solver. Qed.
Lemma quiet_harmless {A} (m : AdmM A) c :
  hoare (fun c' => c' = c) harmless (fun _ => True) (fun _ => True) m -> quiet_spec m c (fun _ t => Forall harmless t).
Proof. intros H. eapply wpm_mono; [by apply H| |]; naive_solver. Qed.
Lemma quiet_runs {A} (m : AdmM A) c (Q : A -> AT -> Prop) t a c' :
  quiet_spec m c Q -> runs (m c) t (Done (a, c')) -> c' = c /\ Q a t.
Proof. intros H Hr. exact (wp_runs _ _ _ _ Hr H). Qed.

(** Through a program, with a case for every answer it looks at. *)
Ltac wpm_cases :=
  repeat (cbn beta iota; first
    [ match goal with |- wpm ?m _ _ _ => match m with context [match ?r with _ => _ end] => is_var r; destruct r end end
    | wpm_step ]).

Lemma IsInstalled_spec c :
  quiet_spec (IsInstalled (Version (adm_flags c)) (InstallDir (adm_flags c))) c (fun r t => r = Ok true -> verified c t).
Proof.
  unfold IsInstalled, isEtcdInstalled, isEtcdctlInstalled, CmdOutputContains, Exists_, quiet_spec.
  do 5 wpm_step. destruct r; cbn beta iota; [|by repeat wpm_step..].
  do 3 wpm_step. destruct r as [out|e]; cbn beta iota; [|by repeat wpm_step].
  destruct (Contains out _) eqn:Ho; cbn beta iota; [|by repeat wpm_step].
  do 3 wpm_step. destruct r; cbn beta iota; [|by repeat wpm_step..].
  do 3 wpm_step. destruct r as [out'|e]; cbn beta iota; [|done].
  split; [done|]. intros [= Hc]. exists out, out'. done.
Qed.

(** The text of a longer version number contains a shorter one. *)
Example longer_version_passes : Contains "etcd Version: 3.5.10" ("etcd Version: " +:+ "3.5.1") = true.
Proof. reflexivity. Qed.

Lemma fromCache_spec c :
  quiet_spec (fromCache GOARCH) c (fun r t =>
    (r = (true, None) -> unpacked c t) /\
    (r = (false, None) -> t = [axch (AStat (PathJoin [CacheDir (adm_paths c); releaseFile GOARCH (Version (adm_flags c))])) IsMissing])).
Proof.
  unfold fromCache, InstallFromCache, Install, CopyFile, extract, ran, quiet_spec. wpm_cases.
  all: split; [done|]; split; intros; simplify_eq/=; first [done|eexists _, _, _, _; split; [|reflexivity]; done].
Qed.

Lemma Download_harmless c url version dir : quiet_spec (Download GOARCH url version dir) c (fun _ t => Forall harmless t).
Proof. apply quiet_harmless. unfold Download, getArchive, Exists_. hoare_solve. Qed.

Lemma Install_systemd_spec c : quiet_spec (Install_systemd GOARCH) c (fun r t => r = None -> binaries c t).
Proof.
  unfold Install_systemd. eapply (quiet_bind _ _ _ (fun r t => r = c /\ t = [])); [by apply wpm_get|]. intros ? t [-> ->].
  eapply quiet_bind; [apply fromCache_spec|]. intros [inCache [e|]] t1 [H1 H1']; [by apply quiet_ret|].
  eapply (quiet_bind _ _ _ (fun r t2 => r = None -> exists td tu, t1 ++ t2 = td ++ tu /\ unpacked c tu /\
    (td = [] \/ exists td', td = axch (AStat (PathJoin [CacheDir (adm_paths c); releaseFile GOARCH (Version (adm_flags c))])) IsMissing :: td' /\
                 Forall harmless td'))).
  { destruct inCache.
    - apply quiet_ret. intros _. exists [], t1. rewrite app_nil_r. auto.
    - rewrite (H1' eq_refl). clear H1 H1'. eapply quiet_bind; [apply Download_harmless|].
      intros [e|] t2 H2; [by apply quiet_ret|]. eapply quiet_bind; [apply fromCache_spec|].
      intros [[] [e|]] t3 [H3 _]; apply quiet_ret; try done. intros _. eexists (_ :: t2), t3.
      rewrite app_nil_r. split; [done|]. split; [auto|]. right. eauto. }
  intros [e|] t2 H2; [by apply quiet_ret|]. destruct (H2 eq_refl) as (td & tu & E & Hu & Hd).
  eapply quiet_bind; [apply IsInstalled_spec|]. intros [[]|e] t3 H; apply quiet_ret; [|done..].
  intros _. exists td, tu, t3. rewrite app_nil_r, (assoc_L app t1), E. simpl. rewrite (assoc_L app). auto.
Qed.

(** The files of the service; the pod of the kubelet. *)
Definition files_written (c : EtcdAdmConfig) (t : AT) : Prop :=
  t = [axch (AMkdirAll (Dir (EnvironmentFile (adm_static c)))) None; axch (AOpenFile (EnvironmentFile (adm_static c))) None;
       axch (AWrite (EnvironmentFile (adm_static c)) (BuildEnvironment c)) None;
       axch (AMkdirAll (Dir (UnitFile (adm_static c)))) None; axch (AOpenFile (UnitFile (adm_static c))) None;
       axch (AWrite (UnitFile (adm_static c)) (unitText c)) None].
Definition started (c : EtcdAdmConfig) (t : AT) : Prop :=
  t = [axch (ARun ["systemctl"; "daemon-reload"]) RunOk; axch (ARun ["systemctl"; "enable"; service c]) RunOk;
       axch (ARun ["systemctl"; "daemon-reload"]) RunOk; axch (ARun ["systemctl"; "start"; service c]) RunOk].
Definition pod_written (c : EtcdAdmConfig) (t : AT) : Prop :=
  exists p bytes env l,
    podEnv (Split (BuildEnvironment c) (ascii_of_nat 10)) ∅ = Ok env /\ l ≡ₚ map_to_list env /\
    (exists ct, pod_Containers p = [ct] /\ ct_Image ct = image c /\ ct_Env ct = stable_sort env_le l) /\
    Marshal p = Ok bytes /\ exists order, t = [axch (AMkdirAll (DataDir (adm_flags c))) None; axch ARange order; axch (AWriteFile (podFile c) bytes) None].

Lemma Configure_systemd_spec c : quiet_spec Configure_systemd c (fun r t => r = None -> files_written c t).
Proof.
  unfold Configure_systemd, WriteEnvironmentFile, writeUnitFile, quiet_spec. wpm_cases.
  all: split; [done|]; intros; simplify_eq/=; done.
Qed.

Lemma EnableAndStart_systemd_spec c :
  quiet_spec EnableAndStartService_systemd c (fun r t => r = None -> started c t).
Proof.
  unfold EnableAndStartService_systemd, systemctl, reloadSystemd, unitName, ran, quiet_spec. wpm_cases.
  all: split; [done|]; intros; simplify_eq/=; done.
Qed.

Lemma EnableAndStart_kubelet_spec c :
  quiet_spec (EnableAndStartService_kubelet Marshal) c (fun r t => r = None -> pod_written c t).
Proof.
  unfold EnableAndStartService_kubelet, buildPod, quiet_spec. do 4 wpm_step.
  destruct r; cbn beta iota; [by repeat wpm_step|]. wpm_step.
  destruct (podEnv _ _) as [env|e] eqn:He; [|by repeat wpm_step]. do 3 wpm_step.
  destruct (Marshal _) as [bytes|e] eqn:Hm; cbn beta iota; [|by repeat wpm_step].
  wpm_step. wpm_step. wpm_step. destruct r0; cbn beta iota; [done|]. split; [done|]. intros _.
  match goal with Hl : ?l ≡ₚ map_to_list env, Hp : Marshal ?q = _ |- _ =>
    exists q, bytes, env, l; split; [exact He|]; split; [exact Hl|]; split; [|split; [exact Hp|set_solver]] end.
  eexists. split; [reflexivity|]. by split.
Qed.

Definition provisioned (sys : InitSystemOps) (c : EtcdAdmConfig) (install configure start : AT) : Prop :=
  (sys = SystemdInitSystem GOARCH /\ binaries c install /\ files_written c configure /\ started c start) \/
  (sys = KubeletInitSystem Marshal /\ install = [] /\ configure = [] /\ pod_written c start).
(** The data directory was not there, or its removal was asked for; the answer is not looked at. *)
Definition cleared (c : EtcdAdmConfig) (t : AT) : Prop :=
  t = [axch (AStat (DataDir (adm_flags c))) IsMissing] \/
  exists e, t = [axch (AStat (DataDir (adm_flags c))) IsThere; axch (ARemoveAll (DataDir (adm_flags c))) e].
Definition healthy (t : AT) : Prop :=
  axch (AGet EtcdHealthCheckKey) GetOk ∈ t \/ axch (AGet EtcdHealthCheckKey) PermissionDenied ∈ t.
Definition restored (c : EtcdAdmConfig) (t : AT) : Prop :=
  t = if String.eqb (Snapshot (adm_flags c)) "" then [] else
      [axch (ARestoreSnapshot (Snapshot (adm_flags c)) (Name c) (DataDir (adm_flags c)) (ourURLs c)
         (InitialCluster c) (InitialClusterToken c) (SkipHashCheck (adm_flags c))) None].

Lemma healthcheck_spec c : quiet_spec healthcheck c (fun r t => r = None -> healthy t).
Proof.
  unfold healthcheck, ClientForEndpoint, withClient, quiet_spec. do 7 wpm_step.
  destruct r; cbn beta iota; [by repeat wpm_step|]. wpm_step. destruct r; cbn beta iota; [by repeat wpm_step|].
  repeat wpm_step. split; [done|]. unfold healthy. destruct r as [| |e]; [intros _; left|intros _; right|done]; set_solver.
Qed.
Lemma snapshot_spec c : quiet_spec snapshot c (fun r t => r = None -> restored c t).
Proof.
  unfold snapshot, wrapped, RestoreSnapshot, quiet_spec, restored. wpm_step. wpm_step.
  destruct (String.eqb (Snapshot (adm_flags c)) ""); [by wpm_step|].
  wpm_cases; (split; [done|]); intros; simplify_eq/=; done.
Qed.
Lemma wrapped_spec m msg c (Q : AT -> Prop) :
  quiet_spec m c (fun r t => r = None -> Q t) -> quiet_spec (wrapped m msg) c (fun r t => r = None -> Q t).
Proof.
  intros H. eapply quiet_bind; [exact H|]. intros [e|] t Ht; apply quiet_ret; [done|]. rewrite app_nil_r. auto.
Qed.

(** Stop, clear, install. *)
Definition installing (c : EtcdAdmConfig) (Q : AT -> Prop) (t : AT) : Prop :=
  exists th td tn, t = th ++ td ++ tn /\ Forall harmless th /\ Exists (halts_any c) th /\ cleared c td /\ Q tn.

Lemma initInstall_spec sys c (Q : AT -> Prop) :
  StopsService sys looks_any halts_any ->
  quiet_spec (is_Install sys) c (fun r t => r = None -> Q t) ->
  quiet_spec (initInstall sys) c (fun r t => r = None -> installing c Q t).
Proof.
  intros Hs Hi. unfold initInstall. eapply quiet_bind.
  { eapply wpm_mono; [apply stop_law| |done]. intros r c' t (-> & Ht & H). split; [done|exact (conj Ht H)]. }
  intros [e|] th [Hh Hst]; [by apply quiet_ret|]. specialize (Hst eq_refl).
  eapply (quiet_bind _ _ _ (fun r t => r = c /\ t = [])); [by apply wpm_get|]. intros ? t1 [-> ->].
  eapply (quiet_bind _ _ _ (fun (r : result bool) (t : AT) => forall b, r = Ok b -> t = [axch (AStat (DataDir (adm_flags c))) (if b then IsThere else IsMissing)])).
  { unfold Exists_, quiet_spec. wpm_cases; (split; [done|]); intros b [= <-]; done. }
  intros [b|e] t2 H2; [|by apply quiet_ret]. rewrite (H2 b eq_refl). clear H2 t2.
  eapply (quiet_bind _ _ _ (fun (_ : unit) (t : AT) => cleared c (axch (AStat (DataDir (adm_flags c))) (if b then IsThere else IsMissing) :: t))).
  { unfold quiet_spec, cleared. destruct b; wpm_cases; (split; [done|]); eauto. }
  intros [] t3 H3. eapply wpm_mono; [by apply wrapped_spec, Hi| |done]. intros r c' t4 [-> H4]. split; [done|]. intros Hr.
  eexists th, (_ :: t3), t4. split; [done|]. auto.
Qed.

(** ** A successful init *)

Abbreviation initRunner :=
  (newInitRunner publicKey EncodePrivateKeyPEM EncodeCertPEM CheckSignatureFrom ParseIP IsDNS1123Subdomain GOARCH Marshal).
Abbreviation TT := (trace (AdmSig ⊕ CertSig (K := K) (PK := PK))).

Lemma phases_cons sys (p : phase (K := K) (PK := PK)) ps c t c' :
  phases_run sys (p :: ps) c t (Done (None, c')) ->
  exists t1 c1 t2, t = t1 ++ t2 /\ runs (phase_run p sys c) t1 (Done (None, c1)) /\ phases_run sys ps c1 t2 (Done (None, c')).
Proof. inversion 1; subst. eauto 8. Qed.

(** A phase of the machine, with what is known of its program. *)
Lemma machine_cons sys name (m : InitSystemOps -> AdmM (option error)) pre ps c (t : TT) c' (Q : AT -> Prop) :
  quiet_spec (m sys) c (fun r t => r = None -> Q t) ->
  phases_run sys (machine name m pre :: ps) c t (Done (None, c')) ->
  exists t1 t2, t = (exL <$> t1) ++ t2 /\ Q t1 /\ phases_run sys ps c t2 (Done (None, c')).
Proof.
  intros Hm (t1 & c1 & t2 & -> & H1 & H2)%phases_cons. apply runs_onL in H1 as (t1' & -> & H1).
  apply (quiet_runs _ _ _ _ _ _ Hm) in H1 as [-> HQ]. exists t1', t2. auto.
Qed.

Lemma certificates_cons sys ps c (t : TT) c' :
  phases_run sys (certificates publicKey EncodePrivateKeyPEM EncodeCertPEM CheckSignatureFrom ParseIP IsDNS1123Subdomain :: ps)
    c t (Done (None, c')) ->
  exists t1 t2, t = (exR <$> t1) ++ t2 /\
    assets_ok publicKey EncodePrivateKeyPEM EncodeCertPEM CheckSignatureFrom ParseIP IsDNS1123Subdomain
      (CertificatesDir (adm_flags c)) c t1 /\
    phases_run sys ps c t2 (Done (None, c')).
Proof.
  intros (t1 & c1 & t2 & -> & H1 & H2)%phases_cons. apply runs_seq in H1 as (ta & e & c2 & tb & -> & Ha & Hb).
  apply runs_inv in Hb as [-> [= He ->]]. destruct e; [done|]. apply runs_onR in Ha as (ta' & -> & Ha).
  pose proof (wp_runs _ _ _ _ Ha (tidy_CreatePKIAssets publicKey EncodePrivateKeyPEM EncodeCertPEM CheckSignatureFrom
    ParseIP IsDNS1123Subdomain _ c eq_refl)) as Ht. simpl in Ht.
  exists ta', t2. rewrite app_nil_r. destruct Ht as (-> & _ & Ht). split; [done|]. split; [by apply Ht|done].
Qed.

Lemma post_spec c : quiet_spec postInitInstructions c (fun r _ => r = None -> AdvertiseClientURLs (adm_urls c) <> []).
Proof.
  unfold postInitInstructions, quiet_spec. wpm_step. wpm_step. wpm_step.
  destruct (AdvertiseClientURLs (adm_urls c)) eqn:E; simpl; by repeat wpm_step.
Qed.
Lemma etcdctl_spec c : quiet_spec etcdctl c (fun r t => r = None -> True).
Proof.
  eapply wpm_mono; [apply (quiet_any etcdctl c)|naive_solver|done].
  unfold etcdctl, WriteEtcdctlEnvFile, WriteEtcdctlShellWrapper. hoare_solve.
Qed.

(** What the three phases that differ between the init systems do. *)
Lemma provision sys c :
  sys = SystemdInitSystem GOARCH \/ sys = KubeletInitSystem Marshal ->
  exists (QI QF QB : AT -> Prop),
    quiet_spec (initInstall sys) c (fun r t => r = None -> installing c QI t) /\
    quiet_spec (configure sys) c (fun r t => r = None -> QF t) /\
    quiet_spec (start sys) c (fun r t => r = None -> QB t) /\
    forall ti tf tb, QI ti -> QF tf -> QB tb -> provisioned sys c ti tf tb.
Proof.
  intros Hs. pose proof (stops_any GOARCH Marshal _ Hs) as Hst. destruct Hs as [-> | ->].
  - exists (binaries c), (files_written c), (started c).
    split; [apply initInstall_spec; [done|apply Install_systemd_spec]|].
    split; [apply wrapped_spec, Configure_systemd_spec|]. split; [apply wrapped_spec, EnableAndStart_systemd_spec|].
    intros. left. auto.
  - exists (fun t => t = []), (fun t => t = []), (pod_written c).
    split; [apply initInstall_spec; [done|by apply quiet_ret]|].
    split; [by apply wrapped_spec, quiet_ret|]. split; [apply wrapped_spec, EnableAndStart_kubelet_spec|].
    intros. right. auto.
Qed.

Lemma init_setup c t i c' :
  runs (phasesSetup GOARCH Marshal (SetInitDynamicDefaults ParseIP) c) t (Done (i, c')) ->
  forall sys, i = Ok sys -> sys = SystemdInitSystem GOARCH \/ sys = KubeletInitSystem Marshal.
Proof.
  intros H sys ->. apply runs_seq in H as (t1 & [] & c1 & t2 & -> & _ & H).
  apply runs_seq in H as (t3 & e & c2 & t4 & -> & _ & H). destruct e; [by apply runs_inv in H as [_ [=]]|].
  apply runs_seq in H as (t5 & i & c3 & t6 & -> & H & H'). apply runs_inv in H' as [_ [= Hi _]].
  destruct i as [sys'|e]; [|done]. injection Hi as ->.
  pose proof (wp_runs _ _ _ _ H (GetInitSystem_spec GOARCH Marshal c2)) as (_ & _ & Hs). by apply Hs.
Qed.

(** C39: what a successful [etcdadm init] has done, in every environment.  It fixed the configuration first and kept it; then, in this order, it stopped etcd or saw it stopped, found no data directory or asked for its removal, installed, set up the certificates, restored the snapshot if one was given, configured, started etcd and got an answer from it.  With systemd, installing is unpacking the release (downloaded if it was not in the cache), copying both binaries and then checking that each prints the version asked for (as part of its text); configuring is writing the environment and the unit file; and starting is enabling the unit and a [systemctl start] that succeeded.  With the kubelet nothing is installed and no file is written before the start, which writes the pod with the image of that version and the configured environment.  The configuration advertises a client URL: an address that could not be found, whose error [DefaultClientURLs] drops, never leads to success. *)
Theorem init_success args c t u c' :
  runs (runCommand initRunner args c) t (Done (u, c')) ->
  exists sys t0 th td tn tc ts tf tb te tk tp,
    t = (exL <$> t0) ++ (exL <$> th ++ td ++ tn) ++ (exR <$> tc) ++ (exL <$> ts) ++ (exL <$> tf) ++ (exL <$> tb) ++
        (exL <$> te) ++ (exL <$> tk) ++ (exL <$> tp) /\
    runs (phasesSetup GOARCH Marshal (SetInitDynamicDefaults ParseIP) c) t0 (Done (Ok sys, c')) /\
    Forall harmless th /\ Exists (halts_any c') th /\ cleared c' td /\ provisioned sys c' tn tf tb /\
    assets_ok publicKey EncodePrivateKeyPEM EncodeCertPEM CheckSignatureFrom ParseIP IsDNS1123Subdomain
      (CertificatesDir (adm_flags c')) c' tc /\
    restored c' ts /\ healthy tk /\ AdvertiseClientURLs (adm_urls c') <> [].
Proof.
  intros (t1 & e & c1 & t2 & -> & H & H2)%runs_seq. destruct e; [by apply runs_inv in H2 as [_ [=]]|].
  apply runs_inv in H2 as [-> [= _ ->]]. rewrite app_nil_r. apply runPhases_exact in H.
  inversion H as [t0' sys c0 t' o H0 Hp| |]; subst. apply runs_onL in H0 as (t0 & -> & H0).
  destruct (provision sys c0 (init_setup _ _ _ _ H0 sys eq_refl)) as (QI & QF & QB & HI & HF & HB & Hprov).
  cbn [newInitRunner rn_phases initPhases] in Hp.
  eapply (machine_cons _ _ _ _ _ _ _ _ _ HI) in Hp as (ti & ta & -> & (th & td & tn & -> & Hst1 & Hst2 & Hcl & Hi2) & Hp).
  apply certificates_cons in Hp as (tc & tb' & -> & Hc & Hp).
  eapply (machine_cons _ _ (fun _ => snapshot) _ _ _ _ _ _ (snapshot_spec c0)) in Hp as (ts & tb2 & -> & Hs & Hp).
  eapply (machine_cons _ _ _ _ _ _ _ _ _ HF) in Hp as (tf & tb3 & -> & Hf & Hp).
  eapply (machine_cons _ _ _ _ _ _ _ _ _ HB) in Hp as (tb & tb4 & -> & Hb & Hp).
  eapply (machine_cons _ _ (fun _ => etcdctl) _ _ _ _ _ _ (etcdctl_spec c0)) in Hp as (te & tb5 & -> & _ & Hp).
  eapply (machine_cons _ _ (fun _ => healthcheck) _ _ _ _ _ _ (healthcheck_spec c0)) in Hp as (tk & tb6 & -> & Hh & Hp).
  eapply (machine_cons _ _ (fun _ => postInitInstructions) _ _ _ _ _ (fun _ => _) (post_spec c0)) in Hp as (tp & tb7 & -> & Hu & Hp).
  inversion Hp; subst. rewrite app_nil_r.
  exists sys, t0, th, td, tn, tc, ts, tf, tb, te, tk, tp. auto 16.
Qed.
End Init.

(** A first member on a fresh machine. *)
Module InitDemo.
Definition world : Type := list Member * gset string.
Definition handle : handler (AdmSig ⊕ CertSig (K := Z) (PK := Z)) world :=
  sum_handler fst (fun x w => (x, snd w)) snd (fun x w => (fst w, x)) AdmDemo.handle CertsDemo.disk.
Definition isIP (s : string) : option string := if HasPrefix s "10." then Some s else None.
Definition init : prog (AdmSig ⊕ CertSig (K := Z) (PK := Z)) (unit * EtcdAdmConfig) :=
  runCommand (newInitRunner (fun k => k) (fun _ => "key") x_Raw (fun _ _ => true) isIP (fun _ => true) "amd64" (fun _ => Err "no pods"))
    [] (set_urls (mkAdmUrls [] [] [] [] (mkUrl "" "")) AdmDemo.config).
Definition machine0 : world := ([], ∅).
End InitDemo.

Lemma init_success_witness :
  exists c', outcome_of InitDemo.handle InitDemo.init InitDemo.machine0 = Done (tt, c') /\
    InitialCluster c' = "m2=https://10.0.0.2:2380" /\ AdvertiseClientURLs (adm_urls c') <> [].
Proof.
  assert (exists c', outcome_of InitDemo.handle InitDemo.init InitDemo.machine0 = Done (tt, c') /\
    InitialCluster c' = "m2=https://10.0.0.2:2380") as (c' & E & Hc) by (eexists; split; vm_compute; reflexivity).
  destruct (init_success (fun k => k) (fun _ => "key") x_Raw (fun _ _ => true) InitDemo.isIP (fun _ => true) "amd64"
    (fun _ => Err "no pods") _ _ _ _ _ (exec_runs_eq _ _ _ _ E)) as (? & ? & ? & ? & ? & ? & ? & ? & ? & ? & ? & ? & _ & _ & _ & _ & _ & _ & _ & _ & _ & Hu).
  exists c'. split; [exact E|]. split; [exact Hc|exact Hu].
Defined.
