(* ===== verification/NodeProtocol.v ===== *)
(** * The node server as a state machine

    [node_serve] runs one input of a node server: a request of a leader (with
    the peer server that is asked about its token), or a tick of the run loop.
    [history] collects inputs, answers and exchanges from the creation of the
    server on; the theorems hold for every history, that is for every order of
    requests and every behaviour of the disk, the clock and the processes.
    [DoRestore], which works on the files of backups, is modelled in [Restore];
    it leaves the state of the server as it is ([RestoreProofs]), so a history
    of the state has no entry for it. *)

From stdpp Require Import base gmap list strings.
From S2P Require Import Prelude Effects ProtoEtcd GoLib Binaries PrivateApi EtcdServer.

Local Open Scope Z_scope.

Section NodeMachine.
Context (cfg : BinConfig).
Context (Marshal : EtcdState -> option string) (Unmarshal : string -> option EtcdState).
Context {P : Type} `{!LeaderService P}.

Inductive node_input :=
| NJoin (ps : P) (request : JoinClusterRequest)
| NReconfigure (ps : P) (request : ReconfigureRequest)
| NStopEtcd (ps : P) (header : option CommonRequestHeader)
| NDoBackup (ps : P) (request : DoBackupRequest)
| NEndpoints (memberMap : option MemberMap)
| NGetInfo
| NTick.

Definition node_serve (i : node_input) : M NodeSig EtcdServer (option error) :=
  match i with
  | NJoin ps request => JoinCluster cfg Marshal ps request
  | NReconfigure ps request => Reconfigure cfg Marshal ps request
  | NStopEtcd ps header => StopEtcd Marshal ps header
  | NDoBackup ps request =>
      r ← DoBackup ps request;
      mret (match r with Ok _ => None | Err e => Some e end)
  | NEndpoints mm => UpdateEndpoints mm
  | NGetInfo => s ← get; let _response := GetInfo s in mret None
  | NTick => runOnce cfg Unmarshal
  end.

(** Who decides on a request, and the header it came with; [None] for the
    inputs that need no authority. *)
Definition authority (i : node_input) : option (P * option CommonRequestHeader) :=
  match i with
  | NJoin ps request => Some (ps, Join_Header request)
  | NReconfigure ps request => Some (ps, Reconf_Header request)
  | NStopEtcd ps header => Some (ps, header)
  | NDoBackup ps request => Some (ps, DoBackup_Header request)
  | NEndpoints _ | NGetInfo | NTick => None
  end.

Record entry := mkEntry { en_input : node_input; en_answer : option error; en_trace : ntrace }.

(** [history s0 h s]: the inputs of [h] lead from [s0] to [s]. *)
Inductive history (s0 : EtcdServer) : list entry -> EtcdServer -> Prop :=
| history_nil : history s0 [] s0
| history_snoc h s i t a s' :
    history s0 h s ->
    runs (node_serve i s) t (Done (a, s')) ->
    history s0 (h ++ [mkEntry i a t]) s'.

(** A server that has just been created: nothing is reserved or running. *)
Definition fresh (s : EtcdServer) : Prop := es_prepared s = None /\ es_process s = None.

(** A PREPARE for [token] was accepted when the clock showed [until] minus
    the validity of a reservation. *)
Definition reserved (h : list entry) (token : string) (until : time) : Prop :=
  exists e ps request tm, e ∈ h /\ en_input e = NJoin ps request /\ en_answer e = None /\
    Join_Phase request = PHASE_PREPARE /\ Join_ClusterToken request = token /\
    clock_shows tm (en_trace e) /\ until = tm + PreparedValidity.

Definition history_inv (h : list entry) (s : EtcdServer) : Prop :=
  server_wf s /\
  forall p, es_prepared s = Some p -> reserved h (pr_clusterToken p) (pr_validUntil p).

Lemma reserved_app h h' token until : reserved h token until -> reserved (h ++ h') token until.
Proof.
  intros (e & ps & rq & tm & He & H). exists e, ps, rq, tm. split; [|done].
  apply elem_of_app. by left.
Qed.

Lemma history_inv_keep h h' s s' :
  history_inv h s -> server_wf s' ->
  (es_prepared s' = es_prepared s \/ es_prepared s' = None) -> history_inv (h ++ h') s'.
Proof.
  intros [Hwf Hp] Hwf' Hpr. split; [done|]. intros p Hsp.
  destruct Hpr as [E|E]; rewrite E in Hsp; [|done]. by apply reserved_app, Hp.
Qed.

Lemma server_wf_set_prepared x s : server_wf s -> server_wf (set_prepared x s).
Proof.
  intros H p Hp. destruct (H p Hp) as (st & Hst & Hr). exists st. split; [done|].
  by eapply runs_state_ext; [exact Hr|done..].
Qed.

Lemma join_failed_inv request sts s s' :
  join_failed request sts s s' -> server_wf s -> server_wf s' /\ es_prepared s' = es_prepared s.
Proof.
  intros [->|(Hp & st & _ & [->|(p & -> & Hr)])] Hwf; [done| |]; (split; [|done]).
  - apply checkPrepared_None in Hp as [Hp _]. intros p Hp'. simpl in Hp'. congruence.
  - intros p' [= <-]. exists st. split; [done|]. by eapply runs_state_ext; [exact Hr|done..].
Qed.

Lemma joined_inv request st s s' t :
  joined Marshal request st s s' t -> server_wf s' /\ es_prepared s' = None.
Proof.
  intros (p & b & -> & Hr & _). split; [|done]. intros ? [= <-]. exists st.
  split; [done|]. by eapply runs_state_ext; [exact Hr|done..].
Qed.

Lemma join_step_inv h ps request s a s' t :
  history_inv h s -> runs (node_serve (NJoin ps request) s) t (Done (a, s')) ->
  history_inv (h ++ [mkEntry (NJoin ps request) a t]) s'.
Proof.
  intros Hinv Hrun. pose proof Hinv as [Hwf Hp].
  destruct (wp_runs _ _ _ _ Hrun (JoinCluster_wp cfg Marshal ps request s))
    as (hd & _ & [(_ & _ & -> & _)|[_ Hpost]]); [apply (history_inv_keep h _ s); auto|].
  unfold join_post in Hpost. destruct a as [e|].
  - destruct Hpost as (s1 & Hs1 & Hf).
    destruct (join_failed_inv _ _ _ _ Hf) as [Hwf' Hpr].
    { destruct Hs1 as [->|[-> _]]; [done|by apply server_wf_set_prepared]. }
    apply (history_inv_keep h _ s); [done|done|].
    rewrite Hpr. destruct Hs1 as [->|[-> _]]; auto.
  - destruct (Join_Phase request) eqn:Hph; try done.
    + destruct Hpost as (Hproc & _ & tm & Htm & ->). split; [by apply server_wf_set_prepared|].
      intros p [= <-]. simpl.
      exists (mkEntry (NJoin ps request) None t), ps, request, tm.
      split; [apply elem_of_app; right; by left|done].
    + destruct Hpost as [_ Hj]. apply joined_inv in Hj as [Hwf' Hn].
      apply (history_inv_keep h _ s); auto.
    + destruct Hpost as [_ Hj]. apply joined_inv in Hj as [Hwf' Hn].
      apply (history_inv_keep h _ s); auto.
    + destruct Hpost as [[-> _]|[-> _]]; apply (history_inv_keep h _ s);
        auto using server_wf_set_prepared.
Qed.

Lemma other_step_inv h i s a s' t :
  (forall ps request, i <> NJoin ps request) -> history_inv h s ->
  runs (node_serve i s) t (Done (a, s')) ->
  server_wf s' /\ es_prepared s' = es_prepared s.
Proof.
  intros Hi [Hwf _] Hrun. destruct i as [ps rq|ps rq|ps hd|ps rq|mm| |]; [naive_solver| | | | | |].
  - destruct (wp_runs _ _ _ _ Hrun (Reconfigure_wp cfg Marshal ps rq s))
      as (hd & _ & [(_ & _ & -> & _)|[_ Hpost]]); [done|].
    unfold reconfigure_post in Hpost. destruct a as [e|].
    + destruct Hpost as [->|[st ->]]; [done|]. split; [|done]. by intros p.
    + destruct Hpost as (st & c & k & p & b & _ & _ & _ & -> & Hr & _). split; [|done].
      intros ? [= <-]. eexists. split; [done|]. by eapply runs_state_ext; [exact Hr|done..].
  - destruct (wp_runs _ _ _ _ Hrun (StopEtcd_wp Marshal ps hd s))
      as (hd' & _ & [(_ & _ & -> & _)|[_ Hpost]]); [done|].
    unfold stop_post in Hpost. destruct a as [e|]; [destruct Hpost as [->| ->]|destruct Hpost as [-> _]];
      try done; (split; [|done]); by intros p.
  - assert (wpm (node_serve (NDoBackup ps rq)) s (fun _ s1 _ => s1 = s) (fun _ _ => True)) as H.
    { apply wpm_bind. eapply wpm_mono; [apply DoBackup_wp| |done].
      intros r s1 t1 (-> & _). by apply wpm_ret. }
    pose proof (wp_runs _ _ _ _ Hrun H) as ->. done.
  - assert (wpm (node_serve (NEndpoints mm)) s (fun _ s1 _ => s1 = s) (fun _ _ => True)) as H.
    { simpl. unfold UpdateEndpoints. by wpm_steps. }
    pose proof (wp_runs _ _ _ _ Hrun H) as ->. done.
  - apply runs_inv in Hrun as [_ [= _ ->]]. done.
  - destruct (wp_runs _ _ _ _ Hrun (runOnce_spec cfg Unmarshal s Hwf)) as (_ & ? & ?). done.
Qed.

Lemma history_invariant s0 h s : fresh s0 -> history s0 h s -> history_inv h s.
Proof.
  intros [Hpr Hproc]. induction 1 as [|h s i t a s' _ IH Hrun].
  - split; intros p Hp; congruence.
  - destruct i as [ps rq| | | | | |]; [by apply (join_step_inv h ps rq s)|..];
      (eapply other_step_inv in Hrun as [? ?]; [|done|done]; apply (history_inv_keep h _ s); auto).
Qed.

(** ** Restart *)

(** A server that starts on a disk whose state file holds [b]. *)
Lemma initState_reads {W} (disk : handler NodeSig W) (w : W) s b st :
  es_state s = None -> Unmarshal b = Some st ->
  fst (disk (NReadFile (stateFile s) : op NodeSig) w) = ReadOk b ->
  outcome_of disk (initState Unmarshal s) w = Done (None, set_state (Some st) s).
Proof.
  destruct s as [dir node name st0 pr proc la lm cc pc]. simpl. intros -> Hu Hd.
  unfold outcome_of. simpl.
  destruct (disk (NReadFile _ : op NodeSig) w) as [r w']. simpl in *. subst r. simpl.
  by rewrite Hu.
Qed.

(** The write of a successful change of configuration. *)
Lemma change_is_written i s t s' :
  runs (node_serve i s) t (Done (None, s')) ->
  (exists ps rq, i = NJoin ps rq /\
     (Join_Phase rq = PHASE_INITIAL_CLUSTER \/ Join_Phase rq = PHASE_JOIN_EXISTING)) \/
  (exists ps rq, i = NReconfigure ps rq) \/ (exists ps hd, i = NStopEtcd ps hd) ->
  exists st b, es_state s' = Some st /\ Marshal st = Some b /\ last_write (stateFile s) b t.
Proof.
  intros Hrun [(ps & rq & -> & Hph)|[(ps & rq & ->)|(ps & hd & ->)]].
  - destruct (wp_runs _ _ _ _ Hrun (JoinCluster_wp cfg Marshal ps rq s))
      as (hd & _ & [(_ & ? & _)|[_ Hpost]]); [done|]. unfold join_post in Hpost.
    destruct Hph as [E|E]; rewrite E in Hpost;
      destruct Hpost as [_ (p & b & -> & _ & Hb & Hw)]; simpl; eauto.
  - destruct (wp_runs _ _ _ _ Hrun (Reconfigure_wp cfg Marshal ps rq s))
      as (hd & _ & [(_ & ? & _)|[_ Hpost]]); [done|].
    destruct Hpost as (st & c & k & p & b & _ & _ & _ & -> & _ & Hb & Hw). simpl. eauto.
  - destruct (wp_runs _ _ _ _ Hrun (StopEtcd_wp Marshal ps hd s))
      as (hd' & _ & [(_ & ? & _)|[_ Hpost]]); [done|].
    destruct Hpost as (-> & _ & b & Hb & Hw). simpl. eauto.
Qed.

(** *** A tick of the run loop *)

Lemma runOnce_converges s :
  server_wf s ->
  wpm (runOnce cfg Unmarshal) s
    (fun r s' _ => r = None -> forall st c, es_state s' = Some st ->
       State_Cluster st = Some c -> is_Some (es_process s')) (fun _ _ => True).
Proof.
  intros Hwf. unfold runOnce. apply wpm_bind.
  eapply wpm_mono; [apply initState_spec| |done]. intros e s1 t1 _; simpl.
  destruct e as [e|]; [by apply wpm_ret|].
  apply wpm_bind, wpm_get; simpl. apply wpm_bind, wpm_any; [|done].
  intros [] s2 t2. apply wpm_bind, wpm_get; simpl.
  destruct (es_state s2) as [st|] eqn:Hst; [|apply wpm_ret; congruence].
  destruct (es_process s2) eqn:Hp; [apply wpm_ret; intros _ ? ? _ _; by rewrite Hp|].
  destruct (State_Cluster st) eqn:Hc; [|apply wpm_ret; intros _ ? ? ? ?; congruence].
  eapply wpm_mono; [apply startEtcdProcess_spec| |done].
  intros [err|] s3 t3 [_ H]; [done|]. destruct H as (p & -> & _). done.
Qed.

(** *** Requests on a stopped server *)

Lemma stopped_StopEtcd (ps : P) hd s st :
  authorises ps s hd -> es_state s = Some st -> State_Cluster st = None ->
  StopEtcd Marshal ps (Some hd) s = Crash (NilDeref "s.state.Cluster").
Proof.
  intros [Hn Hg] Hst Hc.
  unfold StopEtcd, validateHeader, mbind, M_bind, mret, M_ret. simpl. unfold M_ret. simpl.
  rewrite Hn, String.eqb_refl, Hg. simpl. rewrite Hst. simpl. by rewrite Hc.
Qed.

Lemma stopped_Reconfigure (ps : P) hd rq s st :
  Reconf_Header rq = Some hd -> authorises ps s hd ->
  es_state s = Some st -> State_Cluster st = None ->
  Reconfigure cfg Marshal ps rq s = Crash (NilDeref "state.Cluster").
Proof.
  intros Hh [Hn Hg] Hst Hc.
  unfold Reconfigure, reconfigureAuthorised, validateHeader, mbind, M_bind, mret, M_ret.
  rewrite Hh. simpl. unfold M_ret. simpl.
  rewrite Hn, String.eqb_refl, Hg. simpl. rewrite Hst. simpl. by rewrite Hc.
Qed.
End NodeMachine.

(** ** Theorems *)

(** C4: the two-phase join.  In every history of a node server, a JoinCluster
    that configures etcd (initial cluster or join of an existing one) succeeds
    only with the token of a PREPARE that was accepted before and whose
    reservation had not expired, while no etcd was running; it then leaves the
    requested cluster running under that token, written to disk and no longer
    marked as new, quarantined exactly if it is an initial cluster, and the
    reservation used up. *)
Theorem two_phase_join cfg Marshal Unmarshal {P} `{!LeaderService P} s0 h s (ps : P) request t s'
  (Hfresh : fresh s0)
  (Hhist : history cfg Marshal Unmarshal s0 h s)
  (Hphase : Join_Phase request = PHASE_INITIAL_CLUSTER \/
            Join_Phase request = PHASE_JOIN_EXISTING)
  (Hrun : runs (JoinCluster cfg Marshal ps request s) t (Done (None, s'))) :
  (exists until tm, reserved h (Join_ClusterToken request) until /\
     clock_shows tm t /\ tm <= until) /\
  es_process s = None /\ es_prepared s' = None /\
  exists st p, es_state s' = Some st /\ es_process s' = Some p /\
    st = joinState request false (bool_decide (Join_Phase request = PHASE_INITIAL_CLUSTER)) /\
    runs_state s' st p /\
    exists b, Marshal st = Some b /\ last_write (stateFile s) b t.
Proof.
  destruct (history_invariant _ _ _ _ _ _ Hfresh Hhist) as [_ Hres].
  destruct (wp_runs _ _ _ _ Hrun (JoinCluster_wp cfg Marshal ps request s))
    as (hd & _ & [(_ & ? & _)|[_ Hpost]]); [done|].
  assert (uses_reservation request s t /\ joined Marshal request (joinState request false
    (bool_decide (Join_Phase request = PHASE_INITIAL_CLUSTER))) s s' t) as [[Hn Hu] Hj].
  { unfold join_post in Hpost. destruct Hphase as [E|E]; by rewrite E in Hpost |- *. }
  destruct Hu as (p & tm & Hp & Htok & Htm & Hle).
  destruct Hj as (q & b & -> & Hr & Hb & Hw).
  split; [exists (pr_validUntil p), tm; rewrite <- Htok; auto|].
  split; [done|]. split; [done|]. eexists _, q. split; [done|]. split; [done|]. split; [done|].
  split; [by eapply runs_state_ext; [exact Hr|done..]|]. eauto.
Qed.

(** C9: in every history of a node server, a running etcd process runs the
    configuration the server has in memory: the same cluster token (hence data
    directory), version and quarantine flag, under this node's name. *)
Theorem process_runs_state cfg Marshal Unmarshal {P} `{!LeaderService P} s0 h s p
  (Hfresh : fresh s0)
  (Hhist : history (P := P) cfg Marshal Unmarshal s0 h s)
  (Hproc : es_process s = Some p) :
  exists st, es_state s = Some st /\ runs_state s st p.
Proof. by apply (proj1 (history_invariant _ _ _ _ _ _ Hfresh Hhist)). Qed.

(** C10: a JoinCluster, Reconfigure, StopEtcd or DoBackup request whose header
    names another cluster, or whose token is not the one of the leader this node
    has accepted, is answered with an error at once: without any exchange with
    the disk, the clock, a store or a process, and with the state unchanged.  A
    request without a header is not answered (the handler dereferences nil),
    again before any exchange. *)
Theorem unauthorised_no_effect cfg Marshal Unmarshal {P} `{!LeaderService P}
    (ps : P) header i s
  (Hhd : authority i = Some (ps, header)) :
  match header with
  | Some hd => ~ authorises ps s hd ->
      exists e, node_serve cfg Marshal Unmarshal i s = Ret (Some e, s)
  | None => exists what, node_serve cfg Marshal Unmarshal i s = Crash (NilDeref what)
  end.
Proof.
  destruct header as [hd|].
  - intros (e & He)%(validateHeader_refuses ps (Σ := NodeSig)). exists e.
    destruct i; try discriminate Hhd; injection Hhd as -> Hhd; simpl;
      unfold JoinCluster, Reconfigure, StopEtcd, DoBackup, mbind, M_bind; by rewrite Hhd, He.
  - destruct (validateHeader_nil ps (Σ := NodeSig) s) as [what Hw]. exists what.
    destruct i; try discriminate Hhd; injection Hhd as -> Hhd; simpl;
      unfold JoinCluster, Reconfigure, StopEtcd, DoBackup, mbind, M_bind; by rewrite Hhd, Hw.
Qed.

(** C11: a change of configuration survives a restart.  After a JoinCluster that
    configures etcd, a Reconfigure or a StopEtcd that reported success, a server
    that starts on the same disk (its state file holds what was written last)
    has the configuration the old server had in memory.  The protobuf encoding
    is assumed to decode what it encodes. *)
Theorem configuration_survives_restart cfg Marshal Unmarshal {P} `{!LeaderService P}
    (i : node_input (P := P)) s t s' {W} (disk : handler NodeSig W) (w : W) s1 b
  (Hproto : forall st bs, Marshal st = Some bs -> Unmarshal bs = Some st)
  (Hchange : (exists ps rq, i = NJoin ps rq /\
               (Join_Phase rq = PHASE_INITIAL_CLUSTER \/ Join_Phase rq = PHASE_JOIN_EXISTING)) \/
             (exists ps rq, i = NReconfigure ps rq) \/ (exists ps hd, i = NStopEtcd ps hd))
  (Hrun : runs (node_serve cfg Marshal Unmarshal i s) t (Done (None, s')))
  (Hnew : es_state s1 = None /\ es_baseDir s1 = es_baseDir s)
  (Hdisk : last_write (stateFile s) b t /\
           fst (disk (NReadFile (stateFile s1) : op NodeSig) w) = ReadOk b) :
  exists s1', outcome_of disk (initState Unmarshal s1) w = Done (None, s1') /\
    es_state s1' = es_state s'.
Proof.
  destruct (change_is_written _ _ _ _ _ _ _ Hrun Hchange) as (st & b' & Hst & Hb & Hw).
  destruct Hnew as [Hn Hdir], Hdisk as [Hlw Hd].
  assert (b' = b) as ->.
  { by apply (last_write_inj (stateFile s) _ _ t). }
  eexists. split; [by apply (initState_reads _ _ _ s1 b st); auto|]. by rewrite Hst.
Qed.

(** Reservations exclude each other.  While a node holds a reservation for
    one cluster token that no reading of its clock shows to be over, a
    JoinCluster for any other token, whatever its phase (also a cancellation),
    is refused and leaves the node as it was. *)
Theorem reservation_exclusive cfg Marshal {P} `{!LeaderService P} (ps : P) request s p t a s'
  (Hres : es_prepared s = Some p)
  (Hother : pr_clusterToken p <> Join_ClusterToken request)
  (Hrun : runs (JoinCluster cfg Marshal ps request s) t (Done (a, s')))
  (Hvalid : forall tm, clock_shows tm t -> tm <= pr_validUntil p) :
  a <> None /\ s' = s.
Proof.
  assert (~ expired s t) as Hexp.
  { intros (q & tm & Hq & Htm & Hlt). assert (q = p) as -> by congruence.
    specialize (Hvalid tm Htm). lia. }
  destruct (wp_runs _ _ _ _ Hrun (JoinCluster_wp cfg Marshal ps request s))
    as (hd & _ & [(_ & ? & -> & _)|[_ Hpost]]); [done|].
  unfold join_post in Hpost. destruct a as [e|].
  - split; [done|]. destruct Hpost as (s1 & [->|[_ ?]] & [->|(Hc & _)]); [done| |done..].
    apply checkPrepared_None in Hc as (_ & q & Hq & ?). congruence.
  - exfalso. destruct (Join_Phase request); try done.
    + destruct Hpost as (_ & [?|?] & _); [congruence|done].
    + destruct Hpost as [[_ (q & tm & ? & ? & _)] _]. congruence.
    + destruct Hpost as [[_ (q & tm & ? & ? & _)] _]. congruence.
    + destruct Hpost as [[_ ?]|[_ (q & ? & ?)]]; congruence.
Qed.

(** What a successful Reconfigure changes.  The node restarts etcd in the
    same cluster (token, hence data directory) with the requested version (the
    old one if none is named) and quarantine flag; of the member list only this
    node's entry can change, and only to switch it to TLS when that was asked. *)
Theorem Reconfigure_changes cfg Marshal {P} `{!LeaderService P} (ps : P) request s t s'
  (Hrun : runs (Reconfigure cfg Marshal ps request s) t (Done (None, s'))) :
  exists st c st' c' p,
    es_state s = Some st /\ State_Cluster st = Some c /\
    es_state s' = Some st' /\ State_Cluster st' = Some c' /\
    es_process s' = Some p /\ runs_state s' st' p /\
    Cluster_ClusterToken c' = Cluster_ClusterToken c /\
    State_EtcdVersion st' = (if String.eqb (Reconf_SetEtcdVersion request) ""
                             then State_EtcdVersion st else Reconf_SetEtcdVersion request) /\
    State_Quarantined st' = Reconf_Quarantined request /\
    length (Cluster_Nodes c') = length (Cluster_Nodes c) /\
    forall j n, Cluster_Nodes c !! j = Some n ->
      Cluster_Nodes c' !! j =
        Some (if Reconf_EnableTls request && String.eqb (Node_Name n)
                   (Node_Name (es_etcdNodeConfiguration s)) then enableTls n else n).
Proof.
  destruct (wp_runs _ _ _ _ Hrun (Reconfigure_wp cfg Marshal ps request s))
    as (hd & _ & [(_ & ? & _)|[_ Hpost]]); [done|].
  destruct Hpost as (st & c & i & p & b & Hst & Hc & Hf & -> & Hr & _).
  apply findSelfNode_Some in Hf as [(me & Hme & Hname) Huniq].
  exists st, c. eexists _, _, p. do 3 (split; [done|]). split; [reflexivity|].
  split; [done|]. split; [by eapply runs_state_ext; [exact Hr|done..]|].
  destruct (Reconf_EnableTls request); simpl; [|naive_solver].
  do 3 (split; [done|]). split; [apply length_alter|]. intros j n Hj.
  destruct (decide (j = i)) as [->|Hne].
  - rewrite list_lookup_alter_eq, Hj. simpl. assert (n = me) as -> by congruence.
    by rewrite Hname, String.eqb_refl.
  - rewrite list_lookup_alter_ne by done. rewrite Hj.
    destruct (String.eqb_spec (Node_Name n) (Node_Name (es_etcdNodeConfiguration s))) as [E|E];
      [|done]. by destruct (Hne (Huniq _ _ Hj E)).
Qed.

(** A tick of the run loop that reports no error brings the node to its
    configuration, in every history: afterwards etcd is running if and only if
    the server has a cluster configured (in memory or, after a restart, on
    disk), and it runs that configuration. *)
Theorem tick_converges cfg Marshal Unmarshal {P} `{!LeaderService P} s0 h s t s'
  (Hfresh : fresh s0)
  (Hhist : history (P := P) cfg Marshal Unmarshal s0 h s)
  (Hrun : runs (runOnce cfg Unmarshal s) t (Done (None, s'))) :
  (is_Some (es_process s') <-> exists st c, es_state s' = Some st /\ State_Cluster st = Some c) /\
  forall p, es_process s' = Some p -> exists st, es_state s' = Some st /\ runs_state s' st p.
Proof.
  destruct (history_invariant _ _ _ _ _ _ Hfresh Hhist) as [Hwf _].
  destruct (wp_runs _ _ _ _ Hrun (runOnce_spec cfg Unmarshal s Hwf)) as (_ & Hwf' & _).
  pose proof (wp_runs _ _ _ _ Hrun (runOnce_converges cfg Unmarshal s Hwf) eq_refl) as Hc.
  split; [|done]. split; [|naive_solver].
  intros [p Hp]. destruct (Hwf' p Hp) as (st & Hst & Hr). destruct (rs_cluster _ _ _ Hr) as (c & ? & _).
  eauto.
Qed.

(** After a StopEtcd that reported success the node keeps an empty
    configuration, and the next authorised StopEtcd or Reconfigure does not
    return an error: it dereferences the missing cluster and the process
    panics. *)
Theorem stop_then_request_panics cfg Marshal {P} `{!LeaderService P} (ps : P) hd s t s' rq
  (Hrun : runs (StopEtcd Marshal ps (Some hd) s) t (Done (None, s')))
  (Hrq : Reconf_Header rq = Some hd) :
  StopEtcd Marshal ps (Some hd) s' = Crash (NilDeref "s.state.Cluster") /\
  Reconfigure cfg Marshal ps rq s' = Crash (NilDeref "state.Cluster").
Proof.
  destruct (wp_runs _ _ _ _ Hrun (StopEtcd_wp Marshal ps (Some hd) s))
    as (hd' & [= <-] & [(_ & ? & _)|[Ha Hpost]]); [done|].
  destruct Hpost as (-> & _).
  assert (authorises ps (set_state (Some emptyEtcdState) (set_process None s)) hd) as Ha' by done.
  split; [by eapply stopped_StopEtcd|by eapply stopped_Reconfigure].
Qed.

(** *** Witnesses *)

Module NodeDemo.
(** A node that is asked, by the leader the peer server of [PeerDemo] has
    accepted, to prepare and then to join a one-member cluster, and later to
    reconfigure and to stop it; disk and processes work, and the clock stands
    still. *)
Definition node : EtcdNode :=
  mkEtcdNode "n1" ["http://n1:2380"] ["http://0.0.0.0:4001"] ["http://127.0.0.1:3994"] false.
Definition hd : CommonRequestHeader := mkCommonRequestHeader "token" "main".
Definition request (ph : Phase) (token : string) : JoinClusterRequest :=
  mkJoinClusterRequest (Some hd) ph token [node] "3.4.13".
Definition reconf : ReconfigureRequest := mkReconfigureRequest (Some hd) "3.5.1" false true.
Definition prepare := request PHASE_PREPARE "T".
Definition initial := request PHASE_INITIAL_CLUSTER "T".

#[local] Instance etcd_node_eq_dec : EqDecision EtcdNode.
Proof. solve_decision. Defined.
#[local] Instance etcd_cluster_eq_dec : EqDecision EtcdCluster.
Proof. solve_decision. Defined.
#[local] Instance etcd_state_eq_dec : EqDecision EtcdState.
Proof. solve_decision. Defined.

(** An encoding of the states that occur. *)
Definition states : list (string * EtcdState) :=
  [("new", joinState initial true true); ("joined", joinState initial false true);
   ("reconfigured", mkEtcdState false (Some (mkEtcdCluster 0 "T" [enableTls node])) "3.5.1" false);
   ("stopped", emptyEtcdState)].
Definition Marshal (st : EtcdState) : option string :=
  fst <$> List.find (fun e => bool_decide (snd e = st)) states.
Definition Unmarshal (b : string) : option EtcdState :=
  snd <$> List.find (fun e => String.eqb (fst e) b) states.

Lemma Unmarshal_Marshal st b : Marshal st = Some b -> Unmarshal b = Some st.
Proof.
  unfold Marshal. destruct (List.find _ states) as [[k st']|] eqn:E; [|done].
  intros [= ->]. apply find_some in E as [Hin Heq]. simpl in Heq.
  apply bool_decide_eq_true in Heq as <-. simpl in Hin.
  repeat (destruct Hin as [[= <- <-]|Hin]; [reflexivity|]). done.
Qed.

(** The world is the content of the state file. *)
Definition answer (e : node_op) (w : option string) : node_res e :=
  match e with
  | NNow => Hour
  | NStat _ => StatOk
  | NReadFile _ => match w with Some b => ReadOk b | None => ReadNotExist end
  | NExited => false
  | NProcessBackup _ _ _ => Ok (mkDoBackupResponse "backup")
  | NImportExisting _ _ => Ok None
  | NWriteFile _ _ | NMkdirAll _ | NRename _ _ | NCreateKeypairs _ _ | NExec _ | NStop
  | NNewStore _ | NUpdateHosts _ => None
  end.
Definition env : handler NodeSig (option string) := fun e w =>
  (answer e w, match e with NWriteFile _ b => Some b | _ => w end).

(** The reading of the clock that an exchange shows. *)
Definition shown (x : exchange NodeSig) : option time :=
  match x with
  | existT e r => match e return res (s := NodeSig) e -> option time with
                  | NNow => fun r => Some r
                  | _ => fun _ => None
                  end r
  end.
Definition readings (t : ntrace) : list time := omap shown t.

Lemma clock_shows_readings tm t : clock_shows tm t -> tm ∈ readings t.
Proof. intros H. apply list_elem_of_omap. by eexists. Qed.

Definition ps : Server := PeerDemo.s1.
Definition serve (i : node_input (P := Server)) := node_serve defaultBinConfig Marshal Unmarshal i.
Definition after (i : node_input) (s : EtcdServer) : EtcdServer :=
  match outcome_of env (serve i s) None with Done (_, s') => s' | Crashed _ => s end.
Definition during (i : node_input) (s : EtcdServer) : ntrace :=
  trace_of env (serve i s) None.

Definition s0 : EtcdServer := initialServer "/rootfs/etcd" "main" "0.0.0.0" [] node true true.
Definition s1 : EtcdServer := after (NJoin ps prepare) s0.
Definition s2 : EtcdServer := after (NJoin ps initial) s1.
Definition s3 : EtcdServer := after (NStopEtcd ps (Some hd)) s2.

Lemma s0_fresh : fresh s0.
Proof. done. Qed.

Definition prepared : entry (P := Server) :=
  mkEntry (NJoin ps prepare) None (during (NJoin ps prepare) s0).
Definition started : entry (P := Server) :=
  mkEntry (NJoin ps initial) None (during (NJoin ps initial) s1).

Lemma run_prepare : runs (serve (NJoin ps prepare) s0) (during (NJoin ps prepare) s0) (Done (None, s1)).
Proof. apply exec_runs_eq. vm_compute. reflexivity. Qed.
Lemma run_initial : runs (serve (NJoin ps initial) s1) (during (NJoin ps initial) s1) (Done (None, s2)).
Proof. apply exec_runs_eq. vm_compute. reflexivity. Qed.
Lemma run_stop :
  runs (serve (NStopEtcd ps (Some hd)) s2) (during (NStopEtcd ps (Some hd)) s2) (Done (None, s3)).
Proof. apply exec_runs_eq. vm_compute. reflexivity. Qed.

Lemma h1 : history defaultBinConfig Marshal Unmarshal s0 [prepared] s1.
Proof. exact (history_snoc _ _ _ _ [] _ _ _ _ _ (history_nil _ _ _ _) run_prepare). Qed.
Lemma h2 : history defaultBinConfig Marshal Unmarshal s0 [prepared; started] s2.
Proof. exact (history_snoc _ _ _ _ [prepared] _ _ _ _ _ h1 run_initial). Qed.
End NodeDemo.

Lemma two_phase_join_witness :
  fresh NodeDemo.s0 /\ es_process NodeDemo.s1 = None /\ es_prepared NodeDemo.s2 = None.
Proof.
  split; [exact NodeDemo.s0_fresh|].
  destruct (two_phase_join _ _ _ _ _ _ _ NodeDemo.initial _ _ NodeDemo.s0_fresh NodeDemo.h1
    (or_introl eq_refl) NodeDemo.run_initial) as (_ & H1 & H2 & _).
  exact (conj H1 H2).
Defined.

Lemma process_runs_state_witness :
  exists p st, es_process NodeDemo.s2 = Some p /\ es_state NodeDemo.s2 = Some st /\
    runs_state NodeDemo.s2 st p.
Proof.
  destruct (es_process NodeDemo.s2) as [p|] eqn:Hp; [|vm_compute in Hp; discriminate].
  exists p. destruct (process_runs_state _ _ _ _ _ _ p NodeDemo.s0_fresh NodeDemo.h2 Hp)
    as (st & H1 & H2).
  exists st. exact (conj eq_refl (conj H1 H2)).
Defined.

Definition badHeader : CommonRequestHeader := mkCommonRequestHeader "other-token" "main".

Lemma unauthorised_no_effect_witness :
  authorises NodeDemo.ps NodeDemo.s2 NodeDemo.hd /\ not (authorises NodeDemo.ps NodeDemo.s2 badHeader) /\
  exists e, NodeDemo.serve (NDoBackup NodeDemo.ps (mkDoBackupRequest (Some badHeader) "store" false None)) NodeDemo.s2
    = Ret (Some e, NodeDemo.s2).
Proof.
  assert (not (authorises NodeDemo.ps NodeDemo.s2 badHeader)) as Hno
    by (intros [_ H]; vm_compute in H; discriminate).
  split; [split; vm_compute; reflexivity|]. split; [exact Hno|].
  exact (unauthorised_no_effect defaultBinConfig NodeDemo.Marshal NodeDemo.Unmarshal NodeDemo.ps
    (Some badHeader) (NDoBackup NodeDemo.ps (mkDoBackupRequest (Some badHeader) "store" false None)) NodeDemo.s2
    eq_refl Hno).
Defined.

Lemma configuration_survives_restart_witness :
  exists s', outcome_of NodeDemo.env (initState NodeDemo.Unmarshal NodeDemo.s0) (Some "joined")
    = Done (None, s') /\ es_state s' = es_state NodeDemo.s2.
Proof.
  assert (last_write (stateFile NodeDemo.s1) "joined" (NodeDemo.during (NJoin NodeDemo.ps NodeDemo.initial) NodeDemo.s1)) as Hw.
  { exists (take 6 (NodeDemo.during (NJoin NodeDemo.ps NodeDemo.initial) NodeDemo.s1)), [].
    split; [vm_compute; reflexivity|constructor]. }
  exact (configuration_survives_restart defaultBinConfig _ _ (NJoin NodeDemo.ps NodeDemo.initial) _ _ _
    NodeDemo.env (Some "joined") NodeDemo.s0 "joined" NodeDemo.Unmarshal_Marshal
    (or_introl (ex_intro _ NodeDemo.ps (ex_intro _ NodeDemo.initial (conj eq_refl (or_introl eq_refl)))))
    NodeDemo.run_initial (conj eq_refl eq_refl) (conj Hw eq_refl)).
Defined.

Lemma reservation_exclusive_witness :
  exists t a s', runs (JoinCluster defaultBinConfig NodeDemo.Marshal NodeDemo.ps
      (NodeDemo.request PHASE_PREPARE "U") NodeDemo.s1) t (Done (a, s')) /\
    a <> None /\ s' = NodeDemo.s1.
Proof.
  pose (rq := NodeDemo.request PHASE_PREPARE "U").
  pose (t := NodeDemo.during (NJoin NodeDemo.ps rq) NodeDemo.s1).
  assert (runs (JoinCluster defaultBinConfig NodeDemo.Marshal NodeDemo.ps rq NodeDemo.s1) t
            (Done (Some "concurrent prepare in progress", NodeDemo.s1))) as Hrun
    by (apply (exec_runs_eq NodeDemo.env _ None); vm_compute; reflexivity).
  exists t, (Some "concurrent prepare in progress"), NodeDemo.s1. split; [exact Hrun|].
  refine (reservation_exclusive _ _ _ _ _ (mkPrepared (Hour + Minute) "T") _ _ _ _ _ Hrun _).
  - vm_compute. reflexivity.
  - vm_compute. discriminate.
  - intros tm Htm%NodeDemo.clock_shows_readings. vm_compute in Htm.
    apply list_elem_of_singleton in Htm as ->. vm_compute. discriminate.
Defined.

Lemma Reconfigure_changes_witness :
  exists t s', runs (Reconfigure defaultBinConfig NodeDemo.Marshal NodeDemo.ps NodeDemo.reconf NodeDemo.s2)
                 t (Done (None, s')) /\
    exists st', es_state s' = Some st' /\ State_EtcdVersion st' = "3.5.1".
Proof.
  eexists _, _.
  assert (runs (Reconfigure defaultBinConfig NodeDemo.Marshal NodeDemo.ps NodeDemo.reconf NodeDemo.s2)
            _ (Done (None, _))) as Hrun
    by (apply (exec_runs_eq NodeDemo.env _ None); vm_compute; reflexivity).
  split; [exact Hrun|].
  destruct (Reconfigure_changes _ _ NodeDemo.ps _ _ _ _ Hrun)
    as (st & c & st' & c' & p & _ & _ & H1 & _ & _ & _ & _ & H2 & _).
  exists st'. exact (conj H1 H2).
Defined.

Lemma tick_converges_witness :
  exists t, runs (runOnce defaultBinConfig NodeDemo.Unmarshal NodeDemo.s2) t (Done (None, NodeDemo.s2))
    /\ is_Some (es_process NodeDemo.s2).
Proof.
  eexists.
  assert (runs (runOnce defaultBinConfig NodeDemo.Unmarshal NodeDemo.s2) _ (Done (None, NodeDemo.s2)))
    as Hrun by (apply (exec_runs_eq NodeDemo.env _ None); vm_compute; reflexivity).
  split; [exact Hrun|].
  apply (proj1 (tick_converges _ _ _ _ _ _ _ _ NodeDemo.s0_fresh NodeDemo.h2 Hrun)).
  eexists _, _. split; vm_compute; reflexivity.
Defined.

Lemma stop_then_request_panics_witness :
  es_state NodeDemo.s3 = Some emptyEtcdState /\
  StopEtcd NodeDemo.Marshal NodeDemo.ps (Some NodeDemo.hd) NodeDemo.s3
    = Crash (NilDeref "s.state.Cluster").
Proof.
  split; [vm_compute; reflexivity|].
  exact (proj1 (stop_then_request_panics defaultBinConfig _ _ _ _ _ _ NodeDemo.reconf
    NodeDemo.run_stop eq_refl)).
Defined.
