(* ===== verification/BackupCleanup.v ===== *)
(** * Backup names and retention: pkg/backupcontroller

    [parseBackupNameInfo] reads the time out of the name of a backup, and
    [MaybeDoBackupMaintenance] removes old backups: everything younger than an
    hour is kept, then the oldest backup of every hour, then the oldest of
    every day, then nothing.

    A [time.Time] used as a map key compares its instant and the pointer to its
    location.  A name in UTC gives the instant alone; which location value a
    name with a numeric zone gets (the local zone, a cached or a fresh one) is
    left to the parameter [zoneOf]. *)

From stdpp Require Import base gmap sets list strings.
From S2P Require Import Prelude Effects ProtoEtcd GoLib GoTime.

Local Open Scope Z_scope.

(** ** parse.go *)

Record backupNameInfo := mkBackupNameInfo {
  bn_Timestamp : time;
  bn_zone : option Z;
  bn_Suffix : string;
}.

Definition parseBackupNameInfo (name : string) : option backupNameInfo :=
  let '(timeString, suffix) :=
    match Index name "Z-" with
    | Some z => (take_str (z + 1) name, drop_str (z + 2) name)
    | None => (name, "")
    end in
  match ParseRFC3339 timeString with
  | None => None
  | Some (t, zone) => Some (mkBackupNameInfo t zone suffix)
  end.

(** ** cleanup.go *)

(** The package variables, which the environment can override. *)
Record Retention := mkRetention {
  HourlyBackupsRetention : duration;
  DailyBackupsRetention : duration;
}.

Definition defaultRetention : Retention :=
  mkRetention (24 * 7 * Hour) (24 * 2 * 365 * Hour).

(** [ParseHumanDuration], with [time.ParseDuration] for the other suffixes; the
    products are those of int64. *)
Definition ParseHumanDuration (ParseDuration : string -> result duration) (s : string)
    : result duration :=
  if HasSuffix s "y" then
    match Atoi (TrimSuffix s "y") with
    | Err e => Err e
    | Ok n => Ok (wrap64 (wrap64 (wrap64 (n * 365) * 24) * Hour))
    end
  else if HasSuffix s "d" then
    match Atoi (TrimSuffix s "d") with
    | Err e => Err e
    | Ok n => Ok (wrap64 (wrap64 (n * 24) * Hour))
    end
  else ParseDuration s.

Record BackupCleanup := mkBackupCleanup {
  lastBackupCleanup : time;
  backupCleanupInterval : duration;
}.

Definition NewBackupCleanup : BackupCleanup := mkBackupCleanup zeroTime Hour.

(** The operations of [backup.Store] that the cleanup uses. *)
Class HasBackupStore (Σ : sig) `{!HasNow Σ} := {
  list_backups_op : op Σ;
  list_backups_res : res list_backups_op -> result (list string);
  remove_backup_op : string -> op Σ;
  remove_backup_res : forall b, res (remove_backup_op b) -> option error;
  remove_backup_inj b b' : remove_backup_op b = remove_backup_op b' -> b = b';
  remove_backup_list b : remove_backup_op b <> list_backups_op;
  remove_backup_now b : remove_backup_op b <> now_op;
}.

(** A [time.Time] as a map key: instant and location ([None] for UTC). *)
Definition gotime : Type := time * option positive.

Record plan := mkPlan {
  pl_backups : gmap gotime string;
  pl_retain : gset string;
  pl_ignore : gset string;
  pl_buckets : gmap gotime gotime;
}.

Definition emptyPlan : plan := mkPlan ∅ ∅ ∅ ∅.

Section Cleanup.
Context (ret : Retention) (zoneOf : nat -> time -> Z -> positive).

(** The time of the [i]-th backup of the list. *)
Definition timeOf (i : nat) (info : backupNameInfo) : gotime :=
  (bn_Timestamp info, zoneOf i (bn_Timestamp info) <$> bn_zone info).

Definition addToBucket (bucketed t : gotime) (pl : plan) : plan :=
  let existing := default (zeroTime, None) (pl_buckets pl !! bucketed) in
  if (fst existing =? zeroTime) || (fst t <? fst existing)
  then mkPlan (pl_backups pl) (pl_retain pl) (pl_ignore pl) (<[bucketed := t]> (pl_buckets pl))
  else pl.

(** One iteration of the first loop. *)
Definition classify (now : time) (pl : plan) (e : nat * string) : plan :=
  let '(i, backup) := e in
  match parseBackupNameInfo backup with
  | None => mkPlan (pl_backups pl) (pl_retain pl) ({[backup]} ∪ pl_ignore pl) (pl_buckets pl)
  | Some info =>
      let t := timeOf i info in
      let pl := mkPlan (<[t := backup]> (pl_backups pl)) (pl_retain pl) (pl_ignore pl)
                  (pl_buckets pl) in
      let age := timeSub now (fst t) in
      if age <? Hour then
        mkPlan (pl_backups pl) ({[backup]} ∪ pl_retain pl) (pl_ignore pl) (pl_buckets pl)
      else if age <? HourlyBackupsRetention ret then
        addToBucket (timeTruncate (fst t) Hour, snd t) t pl
      else if age <? DailyBackupsRetention ret then
        addToBucket (timeTruncate (fst t) (24 * Hour), snd t) t pl
      else pl
  end.

Definition planFor (now : time) (names : list string) : plan :=
  foldl (classify now) emptyPlan (imap pair names).

(** The second loop: [retain[backups[t]] = true] for the times of the
    buckets, in any order. *)
Definition retained (pl : plan) : gset string :=
  pl_retain pl ∪
  list_to_set ((fun e => default "" (pl_backups pl !! snd e)) <$> map_to_list (pl_buckets pl)).

Context {Σ : sig} `{!HasNow Σ, !HasBackupStore Σ}.

Definition removeBackups (pl : plan) (names : list string) : M Σ BackupCleanup Z :=
  for_fold names 0 (fun backup removedCount =>
    if bool_decide (backup ∈ retained pl) then mret removedCount
    else if bool_decide (backup ∈ pl_ignore pl) then mret removedCount
    else
      r ← call (remove_backup_op backup);
      match remove_backup_res _ r with
      | Some _ => mret removedCount
      | None => mret (removedCount + 1)
      end).

Definition MaybeDoBackupMaintenance : M Σ BackupCleanup (option error) :=
  now ← now;
  m ← get;
  if timeSub now (lastBackupCleanup m) <? backupCleanupInterval m then mret None
  else
    r ← call list_backups_op;
    match list_backups_res r with
    | Err _ => mret (Some "error listing backups")
    | Ok backupNames =>
        removeBackups (planFor now backupNames) backupNames ≫= fun _ =>
        modify (fun m => mkBackupCleanup now (backupCleanupInterval m)) ≫= fun _ =>
        mret None
    end.
End Cleanup.

(** ** The plan *)

Section PlanInvariant.
Context (ret : Retention) (zoneOf : nat -> time -> Z -> positive) (now : time).

Definition keyOf (e : nat * string) : option gotime :=
  timeOf zoneOf (fst e) <$> parseBackupNameInfo (snd e).

Definition young (k : gotime) : bool := timeSub now (fst k) <? Hour.

(** The bucket of a backup that is not young: its hour, then its day. *)
Definition bucketOf (k : gotime) : option gotime :=
  let age := timeSub now (fst k) in
  if age <? Hour then None
  else if age <? HourlyBackupsRetention ret then Some (timeTruncate (fst k) Hour, snd k)
  else if age <? DailyBackupsRetention ret then Some (timeTruncate (fst k) (24 * Hour), snd k)
  else None.

Record plan_inv (seen : list (nat * string)) (pl : plan) : Prop := {
  pi_backups k b : pl_backups pl !! k = Some b -> exists i, (i, b) ∈ seen /\ keyOf (i, b) = Some k;
  pi_known e k : e ∈ seen -> keyOf e = Some k -> is_Some (pl_backups pl !! k);
  pi_ignore e : e ∈ seen -> (snd e ∈ pl_ignore pl <-> keyOf e = None);
  pi_ignored b : b ∈ pl_ignore pl -> parseBackupNameInfo b = None;
  pi_retain b : b ∈ pl_retain pl <-> exists i k, (i, b) ∈ seen /\ keyOf (i, b) = Some k /\ young k;
  pi_sound k v : pl_buckets pl !! k = Some v ->
    bucketOf v = Some k /\ exists e, e ∈ seen /\ keyOf e = Some v;
  pi_min e v k : e ∈ seen -> keyOf e = Some v -> bucketOf v = Some k ->
    exists v', pl_buckets pl !! k = Some v' /\ fst v' <= fst v;
}.

(** Retentions are durations, and the clock is past the year 293. *)
Definition clock_ok : Prop :=
  HourlyBackupsRetention ret <= int64_max /\ DailyBackupsRetention ret <= int64_max /\
  int64_max < now.

Lemma bucketOf_pos v k : clock_ok -> bucketOf v = Some k -> 0 < fst v.
Proof.
  intros (H1 & H2 & H3). unfold bucketOf, timeSub, int64_min, int64_max in *.
  intros H. repeat case_hyp H; try done; zify_bools; lia.
Qed.

Lemma plan_inv_nil : plan_inv [] emptyPlan.
Proof.
  split; simpl; intros *; rewrite ?lookup_empty; try done; try set_solver.
Qed.

(** What one iteration does, by the kind of backup it meets. *)
Lemma classify_cases pl e :
  classify ret zoneOf now pl e =
  match keyOf e with
  | None => mkPlan (pl_backups pl) (pl_retain pl) ({[snd e]} ∪ pl_ignore pl) (pl_buckets pl)
  | Some k =>
      let pl1 := mkPlan (<[k := snd e]> (pl_backups pl)) (pl_retain pl) (pl_ignore pl)
                   (pl_buckets pl) in
      match bucketOf k with
      | Some b => addToBucket b k pl1
      | None => if young k
                then mkPlan (pl_backups pl1) ({[snd e]} ∪ pl_retain pl) (pl_ignore pl) (pl_buckets pl)
                else pl1
      end
  end.
Proof.
  destruct e as [i b]. unfold classify, keyOf, bucketOf, young. simpl.
  destruct (parseBackupNameInfo b) as [info|]; [|done]. simpl.
  repeat case_match; done.
Qed.

Lemma addToBucket_spec b k pl (Hpos : forall v, pl_buckets pl !! b = Some v -> 0 < fst v) :
  exists v, addToBucket b k pl =
      mkPlan (pl_backups pl) (pl_retain pl) (pl_ignore pl) (<[b := v]> (pl_buckets pl)) /\
    fst v <= fst k /\ ((v = k) \/ pl_buckets pl !! b = Some v) /\
    forall v0, pl_buckets pl !! b = Some v0 -> fst v <= fst v0.
Proof.
  unfold addToBucket. destruct (pl_buckets pl !! b) as [v|] eqn:Hv; simpl.
  - specialize (Hpos v eq_refl).
    destruct (_ || _) eqn:E; zify_bools.
    + exists k. split; [done|]. split; [lia|]. split; [by left|]. intros ? [= <-].
      apply orb_true_iff in E as [E|E]; zify_bools; unfold zeroTime in *; lia.
    + exists v. split; [|unfold zeroTime in *; split; [lia|split; [by right|by intros ? [= <-]]]].
      destruct pl; simpl in *. f_equal. by rewrite insert_id.
  - exists k. split; [done|]. split; [lia|]. split; [by left|done].
Qed.

Lemma plan_inv_ignore seen e pl :
  keyOf e = None -> plan_inv seen pl ->
  plan_inv (seen ++ [e])
    (mkPlan (pl_backups pl) (pl_retain pl) ({[snd e]} ∪ pl_ignore pl) (pl_buckets pl)).
Proof.
  intros He []. assert (parseBackupNameInfo (snd e) = None) as Hp.
  { unfold keyOf in He. by destruct (parseBackupNameInfo (snd e)). }
  assert (forall i b, (i, b) ∈ seen ++ [e] -> (i, b) ∈ seen \/ keyOf (i, b) = None) as Hseen.
  { intros i b [?| ->%list_elem_of_singleton]%elem_of_app; auto. }
  split; simpl.
  - intros k b (i & ? & ?)%pi_backups0. exists i. split; [apply elem_of_app; by left|done].
  - intros [i b] k Hin ?. destruct (Hseen _ _ Hin); [eauto|congruence].
  - intros [i b] Hin. rewrite elem_of_union, elem_of_singleton.
    destruct (decide (parseBackupNameInfo b = None)) as [Hn|Hn].
    + assert (keyOf (i, b) = None) as Hkn by (unfold keyOf; simpl; by rewrite Hn).
      split; [done|]. intros _.
      apply elem_of_app in Hin as [Hin| <-%list_elem_of_singleton]; [|by left].
      right. exact (proj2 (pi_ignore0 (i, b) Hin) Hkn).
    + assert (keyOf (i, b) <> None) as Hkn.
      { unfold keyOf. simpl. by destruct (parseBackupNameInfo b). }
      split; [|done]. simpl. intros [Hb|?%pi_ignored0]; [|done]. by rewrite Hb in Hn.
  - intros b. rewrite elem_of_union, elem_of_singleton. intros [->|?]; auto.
  - intros b. rewrite pi_retain0. split; intros (i & k & Hin & ? & ?); exists i, k.
    + split; [apply elem_of_app; by left|done].
    + destruct (Hseen _ _ Hin); [done|congruence].
  - intros k v (? & e' & ? & ?)%pi_sound0. split; [done|]. exists e'.
    split; [apply elem_of_app; by left|done].
  - intros [i b] v k Hin ? ?. destruct (Hseen _ _ Hin); [eauto|congruence].
Qed.

(** The parts of the invariant that do not look at the buckets, after a
    backup with a time. *)
Lemma plan_inv_timed seen e k pl retain buckets :
  keyOf e = Some k -> plan_inv seen pl ->
  (forall b, b ∈ retain <-> b ∈ pl_retain pl \/ (b = snd e /\ young k)) ->
  (forall k v, buckets !! k = Some v ->
    bucketOf v = Some k /\ exists e', e' ∈ seen ++ [e] /\ keyOf e' = Some v) ->
  (forall e' v k, e' ∈ seen ++ [e] -> keyOf e' = Some v -> bucketOf v = Some k ->
    exists v', buckets !! k = Some v' /\ fst v' <= fst v) ->
  plan_inv (seen ++ [e]) (mkPlan (<[k := snd e]> (pl_backups pl)) retain (pl_ignore pl) buckets).
Proof.
  intros He [] Hret Hs Hm. destruct e as [j c]; simpl in *. split; simpl; try done.
  - intros k' b. rewrite lookup_insert. case_decide as Hd.
    + intros [= <-]. subst. exists j. split; [apply elem_of_app; right; by left|done].
    + intros (i & ? & ?)%pi_backups0. exists i. split; [apply elem_of_app; by left|done].
  - intros e' k' Hin Hk'. rewrite lookup_insert. case_decide; [done|].
    apply elem_of_app in Hin as [Hin| ->%list_elem_of_singleton]; [by eapply pi_known0|congruence].
  - intros e' [Hin| ->%list_elem_of_singleton]%elem_of_app; [by apply pi_ignore0|].
    rewrite He. split; [|done]. simpl. intros Hi%pi_ignored0. unfold keyOf in He. simpl in He.
    by rewrite Hi in He.
  - intros b. rewrite Hret, pi_retain0. split.
    + intros [(i & k' & ? & ? & ?)|[-> ?]]; [exists i, k'|exists j, k];
        (split; [apply elem_of_app; first [by left|right; by left]|done]).
    + intros (i & k' & [Hin|[= -> ->]%list_elem_of_singleton]%elem_of_app & ? & ?);
        [left; eauto|right]. split; [done|]. by simplify_eq.
Qed.

Lemma plan_inv_unbucketed seen e k pl :
  keyOf e = Some k -> bucketOf k = None -> plan_inv seen pl ->
  plan_inv (seen ++ [e])
    (mkPlan (<[k := snd e]> (pl_backups pl))
       (if young k then {[snd e]} ∪ pl_retain pl else pl_retain pl) (pl_ignore pl)
       (pl_buckets pl)).
Proof.
  intros He Hb Hinv. apply plan_inv_timed; [done|done|..].
  - intros b. destruct (young k); set_solver.
  - intros k' v (? & e' & ? & ?)%(pi_sound _ _ Hinv). split; [done|]. exists e'.
    split; [apply elem_of_app; by left|done].
  - intros e' v k' [Hin| ->%list_elem_of_singleton]%elem_of_app ? ?; [|congruence].
    by eapply (pi_min _ _ Hinv).
Qed.

Lemma plan_inv_bucket seen e k b v pl :
  keyOf e = Some k -> bucketOf k = Some b -> plan_inv seen pl ->
  fst v <= fst k -> (v = k \/ pl_buckets pl !! b = Some v) ->
  (forall v0, pl_buckets pl !! b = Some v0 -> fst v <= fst v0) ->
  plan_inv (seen ++ [e])
    (mkPlan (<[k := snd e]> (pl_backups pl)) (pl_retain pl) (pl_ignore pl)
       (<[b := v]> (pl_buckets pl))).
Proof.
  intros He Hb Hinv Hle Hv Hmin. apply plan_inv_timed; [done|done|..].
  - intros c. split; [by left|]. intros [?|[_ Hy]]; [done|].
    exfalso. unfold bucketOf, young in *. by destruct (_ <? Hour).
  - assert (forall v', pl_buckets pl !! b = Some v' -> bucketOf v' = Some b /\
      exists e', e' ∈ seen ++ [e] /\ keyOf e' = Some v') as Hold.
    { intros v' (? & e' & ? & ?)%(pi_sound _ _ Hinv). split; [done|]. exists e'.
      split; [apply elem_of_app; by left|done]. }
    intros k' v'. rewrite lookup_insert. case_decide as Hd.
    + intros [= <-]. subst. destruct Hv as [->|Hv]; [|auto]. split; [done|]. exists e.
      split; [apply elem_of_app; right; by left|done].
    + intros (? & e' & ? & ?)%(pi_sound _ _ Hinv). split; [done|]. exists e'.
      split; [apply elem_of_app; by left|done].
  - intros e' v' k' [Hin| ->%list_elem_of_singleton]%elem_of_app Hk' Hb'.
    + destruct (pi_min _ _ Hinv _ _ _ Hin Hk' Hb') as (v0 & Hv0 & ?). rewrite lookup_insert.
      case_decide; [|eauto]. subst. exists v. split; [done|]. specialize (Hmin _ Hv0). lia.
    + simplify_eq. exists v. by rewrite lookup_insert_eq.
Qed.

Lemma plan_inv_step (Hclock : clock_ok) seen e pl :
  plan_inv seen pl -> plan_inv (seen ++ [e]) (classify ret zoneOf now pl e).
Proof.
  intros Hinv. rewrite classify_cases. cbv zeta.
  destruct (keyOf e) as [k|] eqn:Hk; [|by apply plan_inv_ignore].
  destruct (bucketOf k) as [b|] eqn:Hb.
  - destruct (addToBucket_spec b k (mkPlan (<[k:=snd e]> (pl_backups pl)) (pl_retain pl)
      (pl_ignore pl) (pl_buckets pl))) as (v & -> & Hle & Hv & Hmin).
    { simpl. intros v Hv. apply (pi_sound _ _ Hinv) in Hv as [Hv _]. by eapply bucketOf_pos. }
    simpl. by apply plan_inv_bucket.
  - pose proof (plan_inv_unbucketed seen e k pl Hk Hb Hinv) as H.
    by destruct (young k); apply H.
Qed.

Lemma planFor_inv (Hclock : clock_ok) names :
  plan_inv (imap pair names) (planFor ret zoneOf now names).
Proof.
  unfold planFor. generalize (imap pair names) as l. intros l.
  induction l as [|e l IH] using rev_ind; [apply plan_inv_nil|].
  rewrite foldl_app. by apply plan_inv_step.
Qed.

Lemma listed_index (names : list string) b : b ∈ names -> exists i, (i, b) ∈ imap pair names.
Proof.
  intros (i & Hi)%list_elem_of_lookup. exists i. apply elem_of_lookup_imap. eauto.
Qed.
Lemma index_listed (names : list string) e : e ∈ imap pair names -> snd e ∈ names.
Proof.
  intros (i & b & -> & H)%elem_of_lookup_imap. simpl. by eapply list_elem_of_lookup_2.
Qed.

(** A backup that is not kept: it has a time, it is not young, and if its age
    has a bucket, a backup of that bucket that is no later is kept. *)
Lemma dropped_covered (Hclock : clock_ok) names b :
  b ∈ names ->
  b ∉ retained (planFor ret zoneOf now names) ->
  b ∉ pl_ignore (planFor ret zoneOf now names) ->
  exists e k, e ∈ imap pair names /\ snd e = b /\ keyOf e = Some k /\ young k = false /\
    forall h, bucketOf k = Some h ->
    exists e' k', e' ∈ imap pair names /\ keyOf e' = Some k' /\ bucketOf k' = Some h /\
      fst k' <= fst k /\ snd e' ∈ retained (planFor ret zoneOf now names).
Proof.
  intros Hin Hr Hi. pose proof (planFor_inv Hclock names) as Hinv.
  destruct (listed_index _ _ Hin) as [i He].
  destruct (keyOf (i, b)) as [k|] eqn:Hk;
    [|by apply (pi_ignore _ _ Hinv) in Hk].
  exists (i, b), k. repeat (split; [done|]). split.
  { apply not_true_iff_false. intros Hy. apply Hr, elem_of_union_l, (pi_retain _ _ Hinv).
    exists i, k. rewrite Hy. done. }
  intros h Hh. destruct (pi_min _ _ Hinv _ _ _ He Hk Hh) as (v & Hv & Hle).
  destruct (pi_sound _ _ Hinv _ _ Hv) as (Hbv & e' & He' & Hk').
  destruct (pi_known _ _ Hinv _ _ He' Hk') as [b' Hb'].
  destruct (pi_backups _ _ Hinv _ _ Hb') as (j & Hj & Hkj).
  exists (j, b'), v. repeat (split; [done|]). apply elem_of_union_r, elem_of_list_to_set.
  apply list_elem_of_fmap. exists (h, v). simpl. rewrite Hb'. split; [done|].
  by apply elem_of_map_to_list.
Qed.

(** A backup named in UTC whose age has a bucket is kept only as the backup
    of that bucket. *)
Lemma kept_in_bucket (Hclock : clock_ok) names b info h :
  parseBackupNameInfo b = Some info -> bn_zone info = None ->
  bucketOf (bn_Timestamp info, None) = Some h ->
  b ∈ retained (planFor ret zoneOf now names) ->
  pl_buckets (planFor ret zoneOf now names) !! h = Some (bn_Timestamp info, None) /\
  pl_backups (planFor ret zoneOf now names) !! (bn_Timestamp info, None) = Some b.
Proof.
  intros Hp Hz Hh Hr. pose proof (planFor_inv Hclock names) as Hinv.
  assert (forall i, keyOf (i, b) = Some (bn_Timestamp info, None)) as Hkey.
  { intros i. unfold keyOf, timeOf. simpl. rewrite Hp. simpl. by rewrite Hz. }
  apply elem_of_union in Hr as [Hr|Hr].
  - apply (pi_retain _ _ Hinv) in Hr as (i & k & _ & Hk & Hy). rewrite Hkey in Hk.
    injection Hk as <-. unfold young, bucketOf in *. by destruct (_ <? Hour).
  - apply elem_of_list_to_set, list_elem_of_fmap in Hr as ([k v] & Hb & Hkv%elem_of_map_to_list).
    simpl in Hb. destruct (pi_sound _ _ Hinv _ _ Hkv) as (Hbv & e & He & Hke).
    destruct (pi_known _ _ Hinv _ _ He Hke) as [b' Hb']. rewrite Hb' in Hb. simpl in Hb. subst b'.
    destruct (pi_backups _ _ Hinv _ _ Hb') as (j & _ & Hj). rewrite Hkey in Hj.
    injection Hj as <-. rewrite Hh in Hbv. by injection Hbv as <-.
Qed.
End PlanInvariant.

(** ** The maintenance run *)

Section Maintenance.
Context (ret : Retention) (zoneOf : nat -> time -> Z -> positive).
Context {Σ : sig} `{!HasNow Σ, !HasBackupStore Σ}.

(** The backups whose removal was asked for. *)
Definition removes (t : trace Σ) (b : string) : Prop :=
  exists x, x ∈ t /\ asked x = remove_backup_op b.

Lemma removes_app t t' b : removes (t ++ t') b <-> removes t b \/ removes t' b.
Proof. unfold removes. set_solver. Qed.

(** Exactly the listed backups that are neither retained nor ignored. *)
Lemma removeBackups_spec pl names m :
  wpm (removeBackups pl names) m
    (fun _ m' t => m' = m /\ forall b, removes t b <->
       b ∈ names /\ b ∉ retained pl /\ b ∉ pl_ignore pl) (fun _ _ => False).
Proof.
  unfold removeBackups.
  pose proof (wpm_for_fold (fun seen (_ : Z) m' t => m' = m /\ forall b, removes t b <->
       b ∈ seen /\ b ∉ retained pl /\ b ∉ pl_ignore pl) (fun _ _ => False) names) as H.
  eapply wpm_mono; [apply (H _ [] 0 m [])| |done]; [|..]; clear H.
  - split; [done|]. intros b. unfold removes. set_solver.
  - intros seen b acc m1 t [-> Ht] Hb.
    assert (forall (acc : Z) t', ~ (b ∉ retained pl /\ b ∉ pl_ignore pl) -> t' = [] ->
      m = m /\ forall b', removes (t ++ t') b' <->
        b' ∈ seen ++ [b] /\ b' ∉ retained pl /\ b' ∉ pl_ignore pl) as Hskip.
    { intros _ t' Hn ->. split; [done|]. intros b'. rewrite app_nil_r, Ht. set_solver. }
    assert (forall r, m = m /\ forall b', removes (t ++ [existT (remove_backup_op b) r]) b' <->
        b' ∈ seen ++ [b] /\ b' ∉ retained pl /\ b' ∉ pl_ignore pl
        \/ b' = b) as Hrem.
    { intros r. split; [done|]. intros b'. rewrite removes_app, Ht. split.
      - intros [?|(x & ->%list_elem_of_singleton & E)]; [set_solver|]. simpl in E.
        right. by apply remove_backup_inj in E.
      - intros [(Hin & ? & ?)| ->].
        + apply elem_of_app in Hin as [?| ->%list_elem_of_singleton]; [by left|right].
          eexists. split; [by left|done].
        + right. eexists. split; [by left|done]. }
    do 2 (case_bool_decide; [apply wpm_ret, Hskip; [exact 0|tauto|done]|]).
    apply wpm_bind. refine (@wpm_call Σ BackupCleanup (remove_backup_op b) m _ _ _). intros r.
    destruct (Hrem r) as [_ Hr].
    destruct (remove_backup_res b r); apply wpm_ret; rewrite app_nil_r; (split; [done|]);
      intros b'; rewrite Hr; set_solver.
  - intros _ m' t [-> Ht]. by split.
Qed.

(** The clock showed [now] and the store listed [names] during [t]. *)
Definition cleaned_at (t : trace Σ) (now : time) (names : list string) : Prop :=
  exists n l, existT now_op n ∈ t /\ existT list_backups_op l ∈ t /\
    now = now_time n /\ list_backups_res l = Ok names.

Definition maintenance_post (m : BackupCleanup) (r : option error) (m' : BackupCleanup)
    (t : trace Σ) : Prop :=
  (m' = m /\ forall b, ~ removes t b) \/
  exists now names, cleaned_at t now names /\ r = None /\
    backupCleanupInterval m <= timeSub now (lastBackupCleanup m) /\
    m' = mkBackupCleanup now (backupCleanupInterval m) /\
    forall b, removes t b <-> b ∈ names /\ b ∉ retained (planFor ret zoneOf now names) /\
                              b ∉ pl_ignore (planFor ret zoneOf now names).

Lemma MaybeDoBackupMaintenance_spec m :
  wpm (MaybeDoBackupMaintenance ret zoneOf) m (maintenance_post m) (fun _ _ => False).
Proof.
  unfold MaybeDoBackupMaintenance, now.
  assert (forall n b, ~ removes [existT now_op n] b) as Hnow.
  { intros n b (x & ->%list_elem_of_singleton & E). by apply (remove_backup_now b). }
  assert (forall l b, ~ removes [existT list_backups_op l] b) as Hlist.
  { intros l b (x & ->%list_elem_of_singleton & E). by apply (remove_backup_list b). }
  apply wpm_bind, wpm_bind. refine (@wpm_call Σ BackupCleanup now_op m _ _ _). intros n; simpl.
  apply wpm_ret, wpm_bind, wpm_get; simpl. case_match eqn:Hint; zify_bools.
  { apply wpm_ret. left. split; [done|]. apply Hnow. }
  apply wpm_bind. refine (@wpm_call Σ BackupCleanup list_backups_op m _ _ _). intros l; simpl.
  destruct (list_backups_res l) as [names|e] eqn:Hl; simpl.
  - apply wpm_bind. eapply wpm_mono; [apply removeBackups_spec| |done].
    intros _ m' t [-> Ht]. apply wpm_bind, wpm_modify, wpm_ret. right.
    exists (now_time n), names. split; [exists n, l; repeat split; set_solver|].
    repeat (split; [done|]). intros b. rewrite app_nil_r.
    change (existT now_op n :: existT list_backups_op l :: t) with
      ([existT now_op n] ++ [existT list_backups_op l] ++ t).
    rewrite !removes_app, Ht. naive_solver.
  - apply wpm_ret. left. split; [done|]. intros b.
    change (existT now_op n :: existT list_backups_op l :: []) with
      ([existT now_op n] ++ [existT list_backups_op l]).
    rewrite removes_app. naive_solver.
Qed.
End Maintenance.

(** ** Theorems *)

(** C15: the cleanup never loses the last backup of a period.  Every backup it
    removes was listed, has a readable time and is at least an hour old; and as
    long as its age is within the retention of hourly (else daily) backups, a
    backup of the same hour (else day) that is no later than it, or of the same
    hour when the two retentions meet, is listed and not removed.  In
    particular young and unreadable backups are never removed, and nothing is
    removed before the interval has passed. *)
Theorem cleanup_keeps_a_backup ret zoneOf {Σ} `{!HasNow Σ, !HasBackupStore Σ} m t r m' b
  (Hrun : runs (MaybeDoBackupMaintenance ret zoneOf (Σ := Σ) m) t (Done (r, m')))
  (Hrem : removes t b)
  (Hclock : forall now names, cleaned_at t now names -> clock_ok ret now) :
  exists now names i k, cleaned_at t now names /\
    backupCleanupInterval m <= timeSub now (lastBackupCleanup m) /\
    names !! i = Some b /\ keyOf zoneOf (i, b) = Some k /\
    Hour <= timeSub now (fst k) /\
    forall h, bucketOf ret now k = Some h ->
      exists j b' k', names !! j = Some b' /\ keyOf zoneOf (j, b') = Some k' /\
        bucketOf ret now k' = Some h /\ fst k' <= fst k /\ ~ removes t b'.
Proof.
  destruct (wp_runs _ _ _ _ Hrun (MaybeDoBackupMaintenance_spec ret zoneOf m))
    as [[_ H]|(now & names & Hat & _ & Hint & _ & Hr)]; [by destruct (H b)|].
  apply Hr in Hrem as (Hin & Hret & Hign).
  destruct (dropped_covered ret zoneOf now (Hclock _ _ Hat) names b Hin Hret Hign)
    as ([i b0] & k & He & Hb & Hk & Hy & Hcov). simpl in Hb. subst b0.
  apply elem_of_lookup_imap in He as (i' & b0 & [= <- <-] & Hi).
  exists now, names, i, k. repeat (split; [done|]).
  split; [unfold young in Hy; by apply Z.ltb_ge in Hy|].
  intros h Hh. destruct (Hcov h Hh) as ([j b'] & k' & He' & Hk' & Hh' & Hle & Hr').
  apply elem_of_lookup_imap in He' as (j' & b0 & [= <- <-] & Hj). exists j, b', k'.
  repeat (split; [done|]). rewrite Hr. naive_solver.
Qed.

(** The cleanup thins.  A run either does nothing (the interval has not
    passed, or the listing failed), or records its time, and then of the listed
    backups of one hour (within the retention of hourly backups), or of one day
    (within that of daily backups), it leaves at most one named in UTC. *)
Theorem cleanup_thins ret zoneOf {Σ} `{!HasNow Σ, !HasBackupStore Σ} m t r m'
  (Hrun : runs (MaybeDoBackupMaintenance ret zoneOf (Σ := Σ) m) t (Done (r, m')))
  (Hclock : forall now names, cleaned_at t now names -> clock_ok ret now) :
  (m' = m /\ forall b, ~ removes t b) \/
  exists now names, cleaned_at t now names /\
    m' = mkBackupCleanup now (backupCleanupInterval m) /\
    forall b1 b2 info1 info2 h,
      b1 ∈ names -> b2 ∈ names -> ~ removes t b1 -> ~ removes t b2 ->
      parseBackupNameInfo b1 = Some info1 -> parseBackupNameInfo b2 = Some info2 ->
      bn_zone info1 = None -> bn_zone info2 = None ->
      bucketOf ret now (bn_Timestamp info1, None) = Some h ->
      bucketOf ret now (bn_Timestamp info2, None) = Some h -> b1 = b2.
Proof.
  destruct (wp_runs _ _ _ _ Hrun (MaybeDoBackupMaintenance_spec ret zoneOf m))
    as [?|(now & names & Hc & _ & _ & -> & Hr)]; [by left|right].
  exists now, names. do 2 (split; [done|]). specialize (Hclock _ _ Hc).
  pose proof (planFor_inv ret zoneOf now Hclock names) as Hinv.
  assert (forall b info, b ∈ names -> ~ removes t b -> parseBackupNameInfo b = Some info ->
    b ∈ retained (planFor ret zoneOf now names)) as Hkeep.
  { intros b info Hin Hn Hp. destruct (decide (b ∈ retained (planFor ret zoneOf now names))); [done|].
    destruct (decide (b ∈ pl_ignore (planFor ret zoneOf now names))) as [Hi|Hi].
    - apply (pi_ignored _ _ _ _ _ Hinv) in Hi. congruence.
    - destruct Hn. by apply Hr. }
  intros b1 b2 info1 info2 h Hl1 Hl2 Hn1 Hn2 Hp1 Hp2 Hz1 Hz2 Hs1 Hs2.
  destruct (kept_in_bucket ret zoneOf now Hclock names b1 info1 h) as [H1 H1']; eauto.
  destruct (kept_in_bucket ret zoneOf now Hclock names b2 info2 h) as [H2 H2']; eauto.
  rewrite H1 in H2. injection H2 as E. rewrite E in H1'. congruence.
Qed.

(** *** Witnesses *)

Module CleanupDemo.
(** A store with three backups of one hour of a day ten days back, one of
    which is young enough to be of today. *)
Inductive demo_op := DNow | DList | DRemove (b : string).
Definition demo_res (e : demo_op) : Type :=
  match e with DNow => time | DList => result (list string) | DRemove _ => option error end.
Definition DemoSig : sig := Sig demo_op demo_res.

#[global] Instance demo_now : HasNow DemoSig :=
  {| now_op := DNow : op DemoSig; now_time := fun r => r |}.
#[global] Instance demo_store : HasBackupStore DemoSig.
Proof.
  refine {| list_backups_op := DList : op DemoSig; list_backups_res := fun r => r;
            remove_backup_op := DRemove : string -> op DemoSig;
            remove_backup_res := fun _ r => r |}; [|done..].
  by intros b b' [= ->].
Defined.

Definition noon : time := Date 2020 6 11 12 0 0 0.
Definition names : list string :=
  ["2020-06-01T10:00:00Z-000001"; "2020-06-01T10:30:00Z-000002"; "2020-06-11T11:59:00Z-000003";
   "not-a-backup"].
Definition env : handler DemoSig unit := fun e w =>
  (match e return demo_res e with DNow => noon | DList => Ok names | DRemove _ => None end, w).

Definition maintain : M DemoSig BackupCleanup (option error) :=
  MaybeDoBackupMaintenance defaultRetention (fun i _ _ => Pos.of_nat i).
Definition t := trace_of env (maintain NewBackupCleanup) tt.
Lemma ran : runs (maintain NewBackupCleanup) t (Done (None, mkBackupCleanup noon Hour)).
Proof. apply exec_runs_eq. vm_compute. reflexivity. Qed.

Lemma t_eq : t = [existT (DNow : op DemoSig) noon; existT (DList : op DemoSig) (Ok names);
                  existT (DRemove "2020-06-01T10:30:00Z-000002" : op DemoSig) None].
Proof. vm_compute. reflexivity. Qed.

Definition shown (x : exchange DemoSig) : option time :=
  match x with
  | existT e r => match e return res (s := DemoSig) e -> option time with
                  | DNow => fun r => Some r | _ => fun _ => None end r
  end.

Lemma clock now ns : cleaned_at t now ns -> clock_ok defaultRetention now.
Proof.
  intros (n & l & Hn & _ & -> & _). rewrite t_eq in Hn.
  assert (Some n ∈ shown <$> t) as H 
    by (rewrite t_eq; apply list_elem_of_fmap; exists (existT (DNow : op DemoSig) n); by split).
  assert (n = noon) as ->.
  { rewrite t_eq in H. cbn in H. apply elem_of_cons in H as [[= ->]|H]; [done|].
    repeat (apply elem_of_cons in H as [H|H]; [done|]). by apply elem_of_nil in H. }
  split_and!; vm_compute; congruence.
Qed.

Lemma removed : removes t "2020-06-01T10:30:00Z-000002".
Proof. rewrite t_eq. eexists. split; [do 2 right; by left|done]. Qed.
End CleanupDemo.

Lemma cleanup_keeps_a_backup_witness :
  removes CleanupDemo.t "2020-06-01T10:30:00Z-000002" /\
  exists now names i k, cleaned_at CleanupDemo.t now names /\
    names !! i = Some "2020-06-01T10:30:00Z-000002" /\
    keyOf (fun i _ _ => Pos.of_nat i) (i, "2020-06-01T10:30:00Z-000002") = Some k /\
    Hour <= timeSub now (fst k).
Proof.
  split; [exact CleanupDemo.removed|].
  destruct (cleanup_keeps_a_backup _ _ _ _ _ _ _ CleanupDemo.ran CleanupDemo.removed
    CleanupDemo.clock) as (now & names & i & k & H1 & _ & H2 & H3 & H4 & _).
  exists now, names, i, k. exact (conj H1 (conj H2 (conj H3 H4))).
Defined.

Lemma cleanup_thins_witness :
  (mkBackupCleanup CleanupDemo.noon Hour = NewBackupCleanup /\ forall b, ~ removes CleanupDemo.t b) \/
  exists now names, cleaned_at CleanupDemo.t now names /\
    mkBackupCleanup CleanupDemo.noon Hour = mkBackupCleanup now Hour.
Proof.
  destruct (cleanup_thins _ _ _ _ _ _ CleanupDemo.ran CleanupDemo.clock)
    as [H|(now & names & H1 & H2 & _)]; [left; exact H|right].
  exists now, names. exact (conj H1 H2).
Defined.
