(* ===== verification/ClusterState.v ===== *)
(** * The controller's view of the cluster

    The environment of the controller (one operation per method of the
    interfaces it holds, per request to a peer, and per call of etcd's client
    library), the client wrapper of [pkg/etcdclient], the requests of
    [pkg/controller/peer.go], and the snapshot of the cluster that every cycle
    of the controller works on ([etcdclusterstate.go]).

    A peer's client connection is identified with the peer's id and an etcd
    client with its endpoints.  Pointers that their only constructor sets
    ([etcdClusterPeerInfo.peer], [.info], [peer.info]) are values; pointers that
    a message can leave out are options. *)

From stdpp Require Import base gmap sets list strings.
From S2P Require Import Prelude Effects ProtoEtcd GoLib Binaries BackupCleanup.

Local Open Scope Z_scope.

(** ** The environment *)

(** A member as etcd's client library reports it. *)
Record RaftMember := mkRaftMember {
  Raft_ID : Z;
  Raft_Name : string;
  Raft_PeerURLs : list string;
  Raft_ClientURLs : list string;
}.

(** A command of the control store and where it is stored. *)
Record StoredCommand := mkStoredCommand { sc_path : string; sc_data : Command }.

Inductive ctl_op : Type :=
| CNow
| CRange                                              (* map iteration order *)
| CRandRead                                           (* crypto_rand.Reader *)
| CRandIntn (n : nat)
| CSleep (d : duration)
| CStat (path : string)
(* privateapi.Peers *)
| CPeers
| CBecomeLeader
| CAssertLeadership (token : string)
| CGetPeerClient (id : string)
(* locking.Lock and locking.LockGuard *)
| CAcquire (id : string)
| CRelease (guard : nat)
(* commands.Store *)
| CListCommands
| CGetExpectedClusterSpec
| CSetExpectedClusterSpec (spec : ClusterSpec)
| CIsNewCluster
| CMarkClusterCreated
| CAddCommand (cmd : Command)
| CRemoveCommand (cmd : StoredCommand)
(* backup.Store *)
| CLoadInfo (backup : string)
| CListBackups
| CRemoveBackup (backup : string)
(* requests to the node server of a peer *)
| CGetInfo (id : string)
| CUpdateEndpoints (id : string) (memberMap : MemberMap)
| CJoinCluster (id : string) (request : JoinClusterRequest)
| CReconfigure (id : string) (request : ReconfigureRequest)
| CStopEtcd (id : string) (request : StopEtcdRequest)
| CDoBackup (id : string) (request : DoBackupRequest)
| CDoRestore (id : string) (request : DoRestoreRequest)
(* go.etcd.io/etcd/client/v3 *)
| CEtcdNew (endpoints : list string)
| CEtcdClose (endpoints : list string)
| CMemberList (endpoints : list string)
| CMemberAdd (endpoints peerURLs : list string)
| CMemberUpdate (endpoints : list string) (id : Z) (peerURLs : list string)
| CMemberRemove (endpoints : list string) (id : Z).

Definition ctl_res (e : ctl_op) : Type :=
  match e with
  | CNow => time
  | CRange => list nat
  | CRandRead => result (list Z)
  | CRandIntn _ => nat
  | CSleep _ => unit
  | CStat _ => stat_result
  | CPeers => list PeerInfo
  | CBecomeLeader => result (list string * string)
  | CAcquire _ => result (option nat)
  | CListCommands => result (list StoredCommand)
  | CGetExpectedClusterSpec => result (option ClusterSpec)
  | CIsNewCluster => result bool
  | CLoadInfo _ => result (option BackupInfo)
  | CListBackups => result (list string)
  | CGetInfo _ => result GetInfoResponse
  | CDoBackup _ _ => result DoBackupResponse
  | CMemberList _ => result (list RaftMember)
  | CAssertLeadership _ | CGetPeerClient _ | CRelease _ | CSetExpectedClusterSpec _
  | CMarkClusterCreated | CAddCommand _ | CRemoveCommand _ | CRemoveBackup _
  | CUpdateEndpoints _ _ | CJoinCluster _ _ | CReconfigure _ _ | CStopEtcd _ _
  | CDoRestore _ _ | CEtcdNew _ | CEtcdClose _ | CMemberAdd _ _ | CMemberUpdate _ _ _
  | CMemberRemove _ _ => option error
  end.

Definition CtlSig : sig := Sig ctl_op ctl_res.

#[export] Instance CtlSig_now : HasNow CtlSig :=
  {| now_op := CNow : op CtlSig; now_time := fun r => r |}.
#[export] Instance CtlSig_range : HasRange CtlSig :=
  {| range_op := CRange : op CtlSig; range_code := fun r => r |}.
#[export] Instance CtlSig_stat : HasStat CtlSig :=
  {| stat_op := CStat : string -> op CtlSig; stat_of := fun _ r => r |}.
#[export] Instance CtlSig_backups : HasBackupStore CtlSig.
Proof.
  refine {| list_backups_op := CListBackups : op CtlSig; list_backups_res := fun r => r;
            remove_backup_op := CRemoveBackup : string -> op CtlSig;
            remove_backup_res := fun _ r => r |}; [|done..].
  by intros b b' [= ->].
Defined.

Abbreviation CM := (M CtlSig).
Abbreviation ctrace := (trace CtlSig).

(** ** pkg/etcdclient *)

Section EtcdClient.
Context {S : Type}.

Definition NewClient (endpoints : list string) : CM S (option error) :=
  match endpoints with
  | [] => mret (Some "no endpoints provided")
  | _ =>
      r ← call (CEtcdNew endpoints : op CtlSig);
      match r with
      | Some _ => mret (Some "error building etcd client")
      | None => mret None
      end
  end.

Definition LoggedClose (endpoints : list string) : CM S unit :=
  call (CEtcdClose endpoints : op CtlSig) ≫= fun _ => mret tt.

Definition toProcessMember (m : RaftMember) : EtcdProcessMember :=
  mkEtcdProcessMember (Raft_Name m) (Raft_PeerURLs m) (Raft_ClientURLs m)
    (FormatUint (Raft_ID m)) (Raft_ID m).

Definition ListMembers (endpoints : list string) : CM S (result (list EtcdProcessMember)) :=
  r ← call (CMemberList endpoints : op CtlSig);
  match r with
  | Err e => mret (Err e)
  | Ok members => mret (Ok (toProcessMember <$> members))
  end.

Definition AddMember (endpoints peerURLs : list string) : CM S (option error) :=
  call (CMemberAdd endpoints peerURLs : op CtlSig).

Definition SetPeerURLs (endpoints : list string) (member : EtcdProcessMember)
    (peerURLs : list string) : CM S (option error) :=
  call (CMemberUpdate endpoints (Member_idv3 member) peerURLs : op CtlSig).

Definition RemoveMember (endpoints : list string) (member : EtcdProcessMember)
    : CM S (option error) :=
  call (CMemberRemove endpoints (Member_idv3 member) : op CtlSig).
End EtcdClient.

(** ** pkg/controller/peer.go *)

(** The controller's [peer]; [newPeer] is its constructor. *)
Record cpeer := mkCPeer { cp_Id : string; cp_info : PeerInfo }.
Definition newPeer (info : PeerInfo) : cpeer := mkCPeer (Peer_Id info) info.

Section Rpc.
Context {S : Type}.

(** The connection of [p], then a request on it. *)
Definition withClient {T} (p : cpeer) (fail : error -> T) (request : CM S T) : CM S T :=
  c ← call (CGetPeerClient (cp_Id p) : op CtlSig);
  match c with
  | Some _ => mret (fail "error getting peer client")
  | None => request
  end.

Definition rpcDoBackup (p : cpeer) (request : DoBackupRequest) : CM S (result DoBackupResponse) :=
  withClient p Err (call (CDoBackup (cp_Id p) request : op CtlSig)).
Definition rpcDoRestore (p : cpeer) (request : DoRestoreRequest) : CM S (option error) :=
  withClient p Some (call (CDoRestore (cp_Id p) request : op CtlSig)).
Definition rpcJoinCluster (p : cpeer) (request : JoinClusterRequest) : CM S (option error) :=
  withClient p Some (call (CJoinCluster (cp_Id p) request : op CtlSig)).
Definition rpcGetInfo (p : cpeer) : CM S (result GetInfoResponse) :=
  withClient p Err (call (CGetInfo (cp_Id p) : op CtlSig)).
Definition rpcUpdateEndpoints (p : cpeer) (memberMap : MemberMap) : CM S (option error) :=
  withClient p Some (call (CUpdateEndpoints (cp_Id p) memberMap : op CtlSig)).
Definition rpcReconfigure (p : cpeer) (request : ReconfigureRequest) : CM S (option error) :=
  withClient p Some (call (CReconfigure (cp_Id p) request : op CtlSig)).
Definition rpcStopEtcd (p : cpeer) (request : StopEtcdRequest) : CM S (option error) :=
  withClient p Some (call (CStopEtcd (cp_Id p) request : op CtlSig)).
End Rpc.

(** ** pkg/controller/etcdclusterstate.go *)

Record etcdClusterPeerInfo := mkPeerEntry { pe_peer : cpeer; pe_info : GetInfoResponse }.

Record etcdClusterState := mkClusterState {
  cs_members : gmap string EtcdProcessMember;
  cs_peers : gmap string etcdClusterPeerInfo;
  cs_healthyMembers : gmap string EtcdProcessMember;
}.

(** [peer.info.EtcdState != nil && peer.info.EtcdState.Cluster != nil] *)
Definition configuredState (p : etcdClusterPeerInfo) : option (EtcdState * EtcdCluster) :=
  match Info_EtcdState (pe_info p) with
  | None => None
  | Some st => match State_Cluster st with Some c => Some (st, c) | None => None end
  end.

(** The client URLs of a node in its current state. *)
Definition nodeClientUrls (conf : EtcdNode) (quarantined : bool) : list string :=
  if quarantined then Node_QuarantinedClientUrls conf else Node_ClientUrls conf.

Section ClusterState.
Context {S : Type}.

Definition findByName (name : string) (members : gmap string EtcdProcessMember)
    : CM S (option EtcdProcessMember) :=
  l ← range members;
  mret (snd <$> List.find (fun e => String.eqb (Member_Name (snd e)) name) l).

Definition FindMember (s : etcdClusterState) (peerId : string) : CM S (option EtcdProcessMember) :=
  findByName peerId (cs_members s).

Definition FindHealthyMember (s : etcdClusterState) (peerId : string)
    : CM S (option EtcdProcessMember) :=
  findByName peerId (cs_healthyMembers s).

Definition FindPeer (s : etcdClusterState) (member : EtcdProcessMember)
    : CM S (option etcdClusterPeerInfo) :=
  l ← range (cs_peers s);
  mret (snd <$> List.find (fun e => String.eqb (Member_Name member) (fst e)) l).

(** [newEtcdClient]: the endpoints of the client it builds. *)
Definition newEtcdClient (s : etcdClusterState) (member : EtcdProcessMember)
    : CM S (result (list string)) :=
  l ← range (cs_peers s);
  let node := find_last (fun e => match Info_NodeConfiguration (pe_info (snd e)) with
                                  | None => false
                                  | Some conf => String.eqb (Node_Name conf) (Member_Name member)
                                  end) l in
  let clientURLs :=
    match node with
    | None => Member_ClientURLs member
    | Some (_, p) =>
        match Info_NodeConfiguration (pe_info p) with
        | None => Member_ClientURLs member
        | Some conf =>
            nodeClientUrls conf (match Info_EtcdState (pe_info p) with
                                 | Some st => State_Quarantined st
                                 | None => false
                                 end)
        end
    end in
  r ← NewClient clientURLs;
  match r with
  | Some e => mret (Err e)
  | None => mret (Ok clientURLs)
  end.

(** The loop of [etcdAddMember] and [etcdRemoveMember]: the first member on
    which the call succeeds. *)
Definition onAnyMember (s : etcdClusterState) (request : list string -> CM S (option error))
    : CM S (option EtcdProcessMember) :=
  l ← range (cs_members s);
  r ← for_each l tt (fun e _ =>
        c ← newEtcdClient s (snd e);
        match c with
        | Err _ => mret (inl tt)
        | Ok client =>
            err ← request client;
            LoggedClose client ≫= fun _ =>
            match err with
            | Some _ => mret (inl tt)
            | None => mret (inr (snd e))
            end
        end);
  mret (match r with inr m => Some m | inl _ => None end).

Definition etcdAddMember (s : etcdClusterState) (nodeInfo : EtcdNode)
    : CM S (result EtcdProcessMember) :=
  r ← onAnyMember s (fun client => AddMember client (Node_PeerUrls nodeInfo));
  match r with
  | Some m => mret (Ok m)
  | None => mret (Err "unable to reach any cluster member, when trying to add new member")
  end.

Definition etcdRemoveMember (s : etcdClusterState) (nodeInfo : EtcdProcessMember)
    : CM S (option error) :=
  r ← onAnyMember s (fun client => RemoveMember client nodeInfo);
  match r with
  | Some _ => mret None
  | None => mret (Some "unable to reach any cluster member, when trying to remove member")
  end.

(** [idlePeers], in the order of the iteration. *)
Definition idlePeers (s : etcdClusterState) : CM S (list etcdClusterPeerInfo) :=
  l ← range (cs_peers s);
  mret (filter (fun p => configuredState p = None) (snd <$> l)).
End ClusterState.
