(* ===== verification/CommandStore.v ===== *)
(** * The control store: pkg/commands/vfs.go

    The store behind the controller's [commands.Store]: each command is a file
    in a directory of its own, the wanted specification and the marker of a
    created cluster are two more files.  [Store] is what the controller relies
    on; the operations on a reliable path store refine it.

    The JSON encoding of the messages (jsonpb, encoding/json) is a parameter:
    it decodes what it encodes, and no document is empty. *)

From stdpp Require Import base gmap sets list strings sorting.
From Stdlib Require Import Ascii.
From S2P Require Import Prelude Effects ProtoEtcd GoLib GoTime Vfs Binaries BackupCleanup ClusterState.

Create HintDb besides_db.

Local Open Scope Z_scope.

(** ** Encodings *)

(** A JSON encoding of a message: the functions and their laws. *)
Class Codec (A : Type) := {
  ToJson : A -> option string;
  FromJson : string -> option A;
  FromJson_ToJson a s : ToJson a = Some s -> FromJson s = Some a;
  ToJson_nonempty a s : ToJson a = Some s -> s <> "";
}.

(** [etcdClusterCreated] *)
Record etcdClusterCreated := mkClusterCreated { Created_Timestamp : Z }.

Definition CommandFilename : string := "_command.json".
Definition EtcdClusterCreated : string := "etcd-cluster-created".
Definition EtcdClusterSpec : string := "etcd-cluster-spec".

Section CommandStore.
Context `{!Codec Command, !Codec ClusterSpec, !Codec etcdClusterCreated}.
Context {S : Type}.

(** [NewVFSStore]: the base directory of the store at [p]. *)
Definition commandsBase (p : string) : string := PathJoin [p; "control"].

Context (base : string).

(** The command with its time, and the name and path it is stored under. *)
Definition stamped (t : time) (cmd : Command) : Command :=
  mkCommand (UnixNano t) (Command_RestoreBackup cmd) (Command_CreateNewCluster cmd).
Definition commandName (t : time) : string := FormatRFC3339 t +:+ "-" +:+ "000000".
Definition commandPath (t : time) : string := PathJoin [base; commandName t; CommandFilename].

Definition AddCommand (cmd : Command) : VM S (option error) :=
  t ← now;
  match ToJson (stamped t cmd) with
  | None => mret (Some "error marshalling command")
  | Some data =>
      r ← vcall (VWriteFile (commandPath t) data);
      match r with
      | Some _ => mret (Some "error writing file")
      | None => mret None
      end
  end.

(** The order of [sort.Slice]; it is not stable, but neither is the order in
    which [ReadTree] lists the files. *)
Definition older (a b : StoredCommand) : Prop :=
  Command_Timestamp (sc_data a) <= Command_Timestamp (sc_data b).
#[export] Instance older_dec a b : Decision (older a b) := Z_le_dec _ _.

Definition ListCommands : VM S (result (list StoredCommand)) :=
  t ← vcall (VReadTree base);
  match t with
  | TreeNotExist => mret (Ok [])
  | TreeErr _ => mret (Err "error reading commands")
  | TreeOk files =>
      r ← for_each files [] (fun f commands =>
            if negb (String.eqb (Base f) CommandFilename) then mret (inl commands)
            else
              d ← vcall (VReadFile f);
              match d with
              | FileOk data =>
                  match FromJson data with
                  | None => mret (inr "error parsing command")
                  | Some c => mret (inl (commands ++ [mkStoredCommand f c]))
                  end
              | _ => mret (inr "error reading command")
              end);
      match r with
      | inr e => mret (Err e)
      | inl commands => mret (Ok (stable_sort older commands))
      end
  end.

Definition RemoveCommand (command : StoredCommand) : VM S (option error) :=
  r ← vcall (VRemove (sc_path command));
  match r with
  | Some _ => mret (Some "error removing command")
  | None => mret None
  end.

Definition GetExpectedClusterSpec : VM S (result (option ClusterSpec)) :=
  d ← vcall (VReadFile (PathJoin [base; EtcdClusterSpec]));
  match d with
  | FileNotExist => mret (Ok None)
  | FileErr _ => mret (Err "error reading cluster spec file")
  | FileOk data =>
      match FromJson data with
      | None => mret (Err "error parsing cluster spec")
      | Some spec => mret (Ok (Some spec))
      end
  end.

Definition SetExpectedClusterSpec (spec : ClusterSpec) : VM S (option error) :=
  match ToJson spec with
  | None => mret (Some "error serializing cluster spec")
  | Some data =>
      r ← vcall (VWriteFile (PathJoin [base; EtcdClusterSpec]) data);
      match r with
      | Some _ => mret (Some "error writing cluster spec file")
      | None => mret None
      end
  end.

Definition IsNewCluster : VM S (result bool) :=
  d ← vcall (VReadFile (PathJoin [base; EtcdClusterCreated]));
  match d with
  | FileNotExist => mret (Ok true)
  | FileErr _ => mret (Err "error reading cluster-creation marker file")
  | FileOk data =>
      if Nat.eqb (String.length data) 0 then mret (Err "marker file was unexpectedly empty")
      else mret (Ok false)
  end.

Definition MarkClusterCreated : VM S (option error) :=
  t ← now;
  match ToJson (mkClusterCreated (UnixNano t)) with
  | None => mret (Some "error serializing cluster-creation marker file")
  | Some data =>
      r ← vcall (VWriteFile (PathJoin [base; EtcdClusterCreated]) data);
      match r with
      | Some _ => mret (Some "error creating cluster-creation marker file")
      | None => mret None
      end
  end.
End CommandStore.

(** ** What the controller relies on *)

(** The commands by their paths, the specification, and whether a cluster was
    created. *)
Record Store := mkStore {
  st_commands : gmap string Command;
  st_spec : option ClusterSpec;
  st_created : bool;
}.

Inductive store_request :=
| RAdd (cmd : Command)
| RList
| RRemove (cmd : StoredCommand)
| RGetSpec
| RSetSpec (spec : ClusterSpec)
| RIsNew
| RMarkCreated.

Inductive store_answer :=
| AError (e : option error)
| ACommands (r : result (list StoredCommand))
| ASpec (r : result (option ClusterSpec))
| ANew (r : result bool).

Section Refinement.
Context `{!Codec Command, !Codec ClusterSpec, !Codec etcdClusterCreated}.
Context (base : string).

Definition answering {S A} (f : A -> store_answer) (m : VM S A) : VM S store_answer :=
  r ← m; mret (f r).

Definition store_serve {S} (q : store_request) : VM S store_answer :=
  match q with
  | RAdd cmd => answering AError (AddCommand base cmd)
  | RList => answering ACommands (ListCommands base)
  | RRemove cmd => answering AError (RemoveCommand cmd)
  | RGetSpec => answering ASpec (GetExpectedClusterSpec base)
  | RSetSpec spec => answering AError (SetExpectedClusterSpec base spec)
  | RIsNew => answering ANew (IsNewCluster base)
  | RMarkCreated => answering AError (MarkClusterCreated base)
  end.

(** What a request to the store at time [t] may answer, and the store after it. *)
Inductive store_step (t : time) (st : Store) : store_request -> store_answer -> Store -> Prop :=
| step_add cmd : is_Some (ToJson (stamped t cmd)) ->
    store_step t st (RAdd cmd) (AError None)
      (mkStore (<[commandPath base t := stamped t cmd]> (st_commands st)) (st_spec st) (st_created st))
| step_add_error cmd e : ToJson (stamped t cmd) = None ->
    store_step t st (RAdd cmd) (AError (Some e)) st
| step_list l :
    l ≡ₚ (fun e => mkStoredCommand (fst e) (snd e)) <$> map_to_list (st_commands st) ->
    Sorted older l ->
    store_step t st RList (ACommands (Ok l)) st
| step_remove cmd : is_Some (st_commands st !! sc_path cmd) ->
    store_step t st (RRemove cmd) (AError None)
      (mkStore (delete (sc_path cmd) (st_commands st)) (st_spec st) (st_created st))
| step_remove_error cmd e : st_commands st !! sc_path cmd = None ->
    store_step t st (RRemove cmd) (AError (Some e)) st
| step_get : store_step t st RGetSpec (ASpec (Ok (st_spec st))) st
| step_set spec : is_Some (ToJson spec) ->
    store_step t st (RSetSpec spec) (AError None)
      (mkStore (st_commands st) (Some spec) (st_created st))
| step_set_error spec e : ToJson spec = None ->
    store_step t st (RSetSpec spec) (AError (Some e)) st
| step_new : store_step t st RIsNew (ANew (Ok (negb (st_created st)))) st
| step_mark : is_Some (ToJson (mkClusterCreated (UnixNano t))) ->
    store_step t st RMarkCreated (AError None) (mkStore (st_commands st) (st_spec st) true)
| step_mark_error e : ToJson (mkClusterCreated (UnixNano t)) = None ->
    store_step t st RMarkCreated (AError (Some e)) st.

(** Whether the file at [p] is a command of the store. *)
Definition commandFile (p : string) : bool := below base p && String.eqb (Base p) CommandFilename.

(** The files that hold the store. *)
Record stored (d : disk) (st : Store) : Prop := {
  sd_commands p : commandFile p = true ->
    d_files d !! p = None /\ st_commands st !! p = None \/
    exists data c, d_files d !! p = Some data /\ FromJson data = Some c /\ st_commands st !! p = Some c;
  sd_others p : commandFile p = false -> st_commands st !! p = None;
  sd_spec : match st_spec st with
            | None => d_files d !! PathJoin [base; EtcdClusterSpec] = None
            | Some spec => exists data, d_files d !! PathJoin [base; EtcdClusterSpec] = Some data /\
                             FromJson data = Some spec
            end;
  sd_created : match st_created st with
               | false => d_files d !! PathJoin [base; EtcdClusterCreated] = None
               | true => exists data, d_files d !! PathJoin [base; EtcdClusterCreated] = Some data /\
                           data <> ""
               end;
}.

(** The files of the store, and what leaves all other files, the clock, the
    local files and the snapshot as they are. *)
Definition controlFile (p : string) : bool :=
  commandFile p || String.eqb p (PathJoin [base; EtcdClusterSpec]) ||
  String.eqb p (PathJoin [base; EtcdClusterCreated]).

Definition besides (d d' : disk) : Prop :=
  d_now d' = d_now d /\ d_local d' = d_local d /\ d_snapshot d' = d_snapshot d /\
  forall p, controlFile p = false -> d_files d' !! p = d_files d !! p.

Lemma besides_refl d : besides d d.
Proof. done. Qed.
Lemma besides_trans d1 d2 d3 : besides d1 d2 -> besides d2 d3 -> besides d1 d3.
Proof.
  intros (E1 & E2 & E3 & H) (E1' & E2' & E3' & H'). split_and!; [congruence..|].
  intros p Hp. by rewrite H', H.
Qed.
Lemma besides_write d p data : controlFile p = true -> besides d (set_files (<[p := data]> (d_files d)) d).
Proof. intros Hp. split_and!; [done..|]. intros q Hq. simpl. apply lookup_insert_ne. congruence. Qed.
Lemma besides_delete d p : controlFile p = true -> besides d (set_files (delete p (d_files d)) d).
Proof. intros Hp. split_and!; [done..|]. intros q Hq. simpl. apply lookup_delete_ne. congruence. Qed.
Lemma control_command p : commandFile p = true -> controlFile p = true.
Proof. intros H. unfold controlFile. by rewrite H. Qed.
Lemma control_spec : controlFile (PathJoin [base; EtcdClusterSpec]) = true.
Proof. unfold controlFile. rewrite String.eqb_refl. by rewrite orb_true_r. Qed.
Lemma control_created : controlFile (PathJoin [base; EtcdClusterCreated]) = true.
Proof. unfold controlFile. rewrite String.eqb_refl. by rewrite orb_true_r. Qed.
Hint Resolve besides_refl besides_write besides_delete control_command control_spec control_created : besides_db.

(** ** The refinement *)

Context (Hbase : cleanPath base).

Lemma fixed_paths :
  commandFile (PathJoin [base; EtcdClusterSpec]) = false /\
  commandFile (PathJoin [base; EtcdClusterCreated]) = false /\
  PathJoin [base; EtcdClusterSpec] <> PathJoin [base; EtcdClusterCreated].
Proof.
  assert (forall n, plain n = true -> Base (PathJoin [base; n]) = n) as HB.
  { intros n Hn. apply (Base_below base [] n Hbase). cbn [forallb app]. by rewrite Hn. }
  pose proof (HB EtcdClusterSpec eq_refl) as E1. pose proof (HB EtcdClusterCreated eq_refl) as E2.
  unfold commandFile. rewrite E1, E2. split_and!; [apply andb_false_r..|].
  intros E. rewrite E, E2 in E1. done.
Qed.

Lemma command_name_plain t : fourDigitYear t -> plain (commandName t) = true.
Proof.
  intros Ht. unfold plain, commandName. rewrite !andb_true_iff, !negb_true_iff.
  assert (exists c d e s, FormatRFC3339 t +:+ "-" +:+ "000000" = String c (String d (String e s)))
    as (c & d & e & s & E).
  { destruct (FormatRFC3339 t) as [|? [|? [|? ?]]]; simpl; eauto. }
  assert (contains_byte (FormatRFC3339 t +:+ "-" +:+ "000000") "/" = false) as Hs.
  { pose proof (Format_avoids "/" t Ht eq_refl eq_refl) as Hf. revert Hf. generalize (FormatRFC3339 t).
    intros f. induction f as [|x f IH]; [done|].
    change (Ascii.eqb "/" x || contains_byte f "/" = false ->
            Ascii.eqb "/" x || contains_byte (f +:+ "-" +:+ "000000") "/" = false).
    rewrite !orb_false_iff. naive_solver. }
  split_and!; [| | |done]; apply String.eqb_neq; rewrite E; congruence.
Qed.

Lemma commandPath_command t : fourDigitYear t -> commandFile (commandPath base t) = true.
Proof.
  intros Ht. pose proof (command_name_plain t Ht) as Hn.
  unfold commandFile, commandPath. apply andb_true_iff. split.
  - apply below_join; [done|done|]. cbn [forallb app]. by rewrite Hn.
  - apply String.eqb_eq.
    apply (Base_below base [commandName t] CommandFilename Hbase).
    cbn [forallb app]. by rewrite Hn.
Qed.

Lemma stored_write_command d st p data c :
  stored d st -> commandFile p = true -> FromJson data = Some c ->
  stored (set_files (<[p := data]> (d_files d)) d)
    (mkStore (<[p := c]> (st_commands st)) (st_spec st) (st_created st)).
Proof.
  intros [Hc Ho Hs Hn] Hp Hd. destruct fixed_paths as (F1 & F2 & _).
  assert (forall q, commandFile q = false -> p <> q) as Hne by (intros q Hq ->; congruence).
  split; simpl.
  - intros q Hq. destruct (decide (q = p)) as [->|Hqp]; [rewrite !lookup_insert_eq; eauto 8|].
    rewrite !lookup_insert_ne by done. by apply Hc.
  - intros q Hq. rewrite lookup_insert_ne by (by apply Hne). by apply Ho.
  - by rewrite lookup_insert_ne by (by apply Hne).
  - by rewrite lookup_insert_ne by (by apply Hne).
Qed.

Lemma stored_write_other d st p data st' :
  stored d st -> commandFile p = false ->
  st_commands st' = st_commands st ->
  (match st_spec st' with
   | None => <[p := data]> (d_files d) !! PathJoin [base; EtcdClusterSpec] = None
   | Some spec => exists b, <[p := data]> (d_files d) !! PathJoin [base; EtcdClusterSpec] = Some b /\
                    FromJson b = Some spec
   end) ->
  (match st_created st' with
   | false => <[p := data]> (d_files d) !! PathJoin [base; EtcdClusterCreated] = None
   | true => exists b, <[p := data]> (d_files d) !! PathJoin [base; EtcdClusterCreated] = Some b /\ b <> ""
   end) ->
  stored (set_files (<[p := data]> (d_files d)) d) st'.
Proof.
  intros [Hc Ho _ _] Hp E Hs Hn. split; simpl; rewrite ?E; [|done|done|done].
  intros q Hq. rewrite lookup_insert_ne by (intros ->; congruence). by apply Hc.
Qed.

Lemma stored_remove d st p :
  stored d st -> commandFile p = true ->
  stored (set_files (delete p (d_files d)) d)
    (mkStore (delete p (st_commands st)) (st_spec st) (st_created st)).
Proof.
  intros [Hc Ho Hs Hn] Hp. destruct fixed_paths as (F1 & F2 & _).
  assert (forall q, commandFile q = false -> p <> q) as Hne by (intros q Hq ->; congruence).
  split; simpl.
  - intros q Hq. destruct (decide (q = p)) as [->|Hqp]; [rewrite !lookup_delete_eq; auto|].
    rewrite !lookup_delete_ne by done. by apply Hc.
  - intros q Hq. rewrite lookup_delete_ne by (by apply Hne). by apply Ho.
  - by rewrite lookup_delete_ne by (by apply Hne).
  - by rewrite lookup_delete_ne by (by apply Hne).
Qed.

(** The command at a path of the store. *)
Definition commandAt (st : Store) (p : string) : StoredCommand :=
  mkStoredCommand p (default (mkCommand 0 None None) (st_commands st !! p)).

Definition commandsOf (st : Store) (l : list string) : list StoredCommand :=
  commandAt st <$> filter (fun p => is_Some (st_commands st !! p)) l.

Lemma commandsOf_tree d st l :
  stored d st -> l ≡ₚ tree base (d_files d) ->
  commandsOf st l ≡ₚ (fun e => mkStoredCommand (fst e) (snd e)) <$> map_to_list (st_commands st).
Proof.
  intros [Hc Ho _ _] Hl. apply NoDup_Permutation.
  - apply NoDup_fmap_2_strong; [by intros p q _ _ [= ->]|]. apply NoDup_filter. rewrite Hl.
    unfold tree. apply NoDup_ListNoDup, List.NoDup_filter, NoDup_ListNoDup, NoDup_fst_map_to_list.
  - apply NoDup_fmap_2_strong; [|apply NoDup_map_to_list]. by intros [a b] [a' b'] _ _ [= -> ->].
  - intros c. unfold commandsOf. rewrite !list_elem_of_fmap. split.
    + intros (p & -> & [[b Hb] _]%list_elem_of_filter). exists (p, b).
      unfold commandAt. rewrite Hb. split; [done|]. by apply elem_of_map_to_list.
    + intros ([p b] & -> & Hb%elem_of_map_to_list). exists p. unfold commandAt. rewrite Hb.
      split; [done|]. apply list_elem_of_filter. split; [by eexists|]. rewrite Hl.
      apply elem_of_tree. destruct (commandFile p) eqn:E; [|by rewrite Ho in Hb].
      destruct (Hc p E) as [[_ ?]|(data & c & Hd & _)]; [congruence|].
      apply andb_true_iff in E as [Eb _]. split; [done|by eexists].
Qed.

(** A request as the controller makes it: the year has four digits, and only
    paths of commands are removed. *)
Definition proper (d : disk) (q : store_request) : Prop :=
  match q with
  | RAdd _ => fourDigitYear (d_now d)
  | RRemove cmd => commandFile (sc_path cmd) = true
  | _ => True
  end.

Section Serve.
Context (order : list nat) (tmp : string -> string).

Lemma ListCommands_reliable d st :
  stored d st ->
  evm (reliable order tmp) (ListCommands base) tt d (fun r _ d' => d' = d /\ exists l, r = Ok l /\
    l ≡ₚ (fun e => mkStoredCommand (fst e) (snd e)) <$> map_to_list (st_commands st) /\
    Sorted older l).
Proof.
  intros Hst. unfold ListCommands. evm_step. evm_step.
  destruct (tree base (d_files d)) as [|f l] eqn:Ht; rewrite <- ?Ht.
  { evm_step. split; [done|]. exists []. split; [done|]. split; [|constructor].
    by rewrite <- (commandsOf_tree d st [] Hst) by (by rewrite Ht). }
  set (files := shuffle order (tree base (d_files d))).
  assert (files ≡ₚ tree base (d_files d)) as Hfiles by apply shuffle_perm.
  evm_step. eapply evm_mono.
  - apply (evm_for_each _ (fun seen acc (_ : unit) w => w = d /\ acc = commandsOf st seen)
      (fun _ _ _ => False)); [|done].
    intros seen p acc s w [-> ->] Hpre.
    assert (below base p = true /\ is_Some (d_files d !! p)) as [Hb [data Hdata]].
    { apply elem_of_tree. rewrite <- Hfiles. destruct Hpre as [k ->]. set_solver. }
    assert (commandsOf st (seen ++ [p]) = commandsOf st seen ++
      (if decide (is_Some (st_commands st !! p)) then [commandAt st p] else [])) as ->.
    { unfold commandsOf. rewrite filter_app, fmap_app. f_equal. rewrite filter_cons, filter_nil.
      by case_decide. }
    destruct Hst as [Hc Ho _ _]. destruct (String.eqb (Base p) CommandFilename) eqn:E; cbn.
    + assert (commandFile p = true) as Hp by (unfold commandFile; by rewrite Hb, E).
      destruct (Hc p Hp) as [[? _]|(data' & c & Hd' & Hj & Hs)]; [congruence|].
      assert (data' = data) as -> by congruence. evm_step. evm_step. rewrite Hdata, Hj. evm_step.
      split; [done|]. rewrite decide_True by (by eexists). unfold commandAt. by rewrite Hs.
    + evm_step. split; [done|].
      assert (commandFile p = false) as Hp by (unfold commandFile; by rewrite Hb, E).
      rewrite decide_False by (rewrite (Ho p Hp); by intros [? ?]). by rewrite app_nil_r.
  - intros [acc|e] s w H; [|done]. destruct H as [-> ->]. evm_step. split; [done|]. eexists.
    split; [done|]. split; [|apply stable_sort_sorted; intros a b; unfold older; lia].
    rewrite stable_sort_perm. by apply (commandsOf_tree d).
Qed.

Lemma serve_answering {A} (f : A -> store_answer) (m : VM unit A) d Q :
  evm (reliable order tmp) m tt d (fun a _ d' => Q (f a) tt d') ->
  evm (reliable order tmp) (answering f m) tt d Q.
Proof. intros H. apply evm_bind. eapply evm_mono; [exact H|]. by intros a [] d' ?. Qed.

Lemma store_serve_reliable d st q :
  stored d st -> proper d q ->
  evm (reliable order tmp) (store_serve q) tt d (fun a _ d' =>
    besides d d' /\ exists st', store_step (d_now d) st q a st' /\ stored d' st').
Proof.
  intros Hst Hq. destruct fixed_paths as (F1 & F2 & F3). destruct q; apply serve_answering.
  - unfold AddCommand. do 2 evm_step.
    destruct (ToJson (stamped (d_now d) cmd)) as [data|] eqn:E; repeat evm_step;
      (split; [by eauto using commandPath_command with besides_db|]); eexists; (split; [|]).
    + constructor. by eexists.
    + apply stored_write_command; [done|by apply commandPath_command|by apply FromJson_ToJson].
    + by constructor.
    + done.
  - eapply evm_mono; [by apply ListCommands_reliable|]. intros r s d' (-> & l & -> & Hl & Hs).
    split; [apply besides_refl|]. exists st. split; [by constructor|done].
  - unfold RemoveCommand. repeat evm_step. destruct (sd_commands _ _ Hst _ Hq) as [[E Ec]|(b & c & E & _ & Ec)];
      rewrite E; repeat evm_step; (split; [by eauto using commandPath_command with besides_db|]); eexists; (split; [|]).
    + by constructor.
    + replace st with (mkStore (delete (sc_path cmd) (st_commands st)) (st_spec st) (st_created st)).
      * by apply stored_remove.
      * destruct st; simpl in *. by rewrite delete_id.
    + constructor. by eexists.
    + by apply stored_remove.
  - unfold GetExpectedClusterSpec. repeat evm_step. pose proof (sd_spec _ _ Hst) as Hs.
    destruct (st_spec st) as [spec|] eqn:Es.
    + destruct Hs as (b & -> & Hb). cbn. rewrite Hb. evm_step. split; [apply besides_refl|]. exists st.
      split; [|done]. rewrite <- Es. constructor.
    + rewrite Hs. evm_step. split; [apply besides_refl|]. exists st. split; [|done]. rewrite <- Es. constructor.
  - unfold SetExpectedClusterSpec. destruct (ToJson spec) as [data|] eqn:E; repeat evm_step;
      (split; [by eauto using commandPath_command with besides_db|]); eexists; (split; [|]).
    + constructor. by eexists.
    + apply (stored_write_other d st); [done|done|done| |]; simpl.
      * exists data. rewrite lookup_insert_eq. split; [done|by apply FromJson_ToJson].
      * rewrite lookup_insert_ne by done. apply (sd_created _ _ Hst).
    + by constructor.
    + done.
  - unfold IsNewCluster. repeat evm_step. pose proof (sd_created _ _ Hst) as Hs.
    destruct (st_created st) eqn:Es.
    + destruct Hs as (b & -> & Hb). destruct b as [|ch b]; [done|]. cbn. evm_step. split; [apply besides_refl|].
      exists st. split; [|done]. replace false with (negb (st_created st)) by (by rewrite Es). constructor.
    + rewrite Hs. evm_step. split; [apply besides_refl|]. exists st. split; [|done].
      replace true with (negb (st_created st)) by (by rewrite Es). constructor.
  - unfold MarkClusterCreated. do 2 evm_step.
    destruct (ToJson (mkClusterCreated (UnixNano (d_now d)))) as [data|] eqn:E; repeat evm_step;
      (split; [by eauto using commandPath_command with besides_db|]); eexists; (split; [|]).
    + constructor. by eexists.
    + apply (stored_write_other d st); [done|done|done| |]; simpl.
      * rewrite lookup_insert_ne by done. apply (sd_spec _ _ Hst).
      * exists data. rewrite lookup_insert_eq. split; [done|]. by eapply ToJson_nonempty.
    + by constructor.
    + done.
Qed.
End Serve.

(** ** The queue *)

(** What the comments of [Store] promise: commands wait in a queue until they
    are removed.  Each has the path of the second in which it was added. *)
Record Queue := mkQueue {
  qu_commands : list StoredCommand;
  qu_spec : option ClusterSpec;
  qu_created : bool;
}.

(** The queue without the command at [p]. *)
Definition without (p : string) : list StoredCommand -> list StoredCommand :=
  List.filter (fun c => negb (String.eqb (sc_path c) p)).

(** What a request at time [t] answers, and the queue after it.  A command goes
    to the back; a waiting command that was added in the same second is lost. *)
Inductive queue_step (t : time) (Q : Queue) : store_request -> store_answer -> Queue -> Prop :=
| queue_add cmd : is_Some (ToJson (stamped t cmd)) ->
    queue_step t Q (RAdd cmd) (AError None)
      (mkQueue (without (commandPath base t) (qu_commands Q) ++
                [mkStoredCommand (commandPath base t) (stamped t cmd)]) (qu_spec Q) (qu_created Q))
| queue_add_error cmd e : ToJson (stamped t cmd) = None ->
    queue_step t Q (RAdd cmd) (AError (Some e)) Q
| queue_list : queue_step t Q RList (ACommands (Ok (qu_commands Q))) Q
| queue_remove cmd : sc_path cmd ∈ sc_path <$> qu_commands Q ->
    queue_step t Q (RRemove cmd) (AError None)
      (mkQueue (without (sc_path cmd) (qu_commands Q)) (qu_spec Q) (qu_created Q))
| queue_remove_error cmd e : sc_path cmd ∉ sc_path <$> qu_commands Q ->
    queue_step t Q (RRemove cmd) (AError (Some e)) Q
| queue_get : queue_step t Q RGetSpec (ASpec (Ok (qu_spec Q))) Q
| queue_set spec : is_Some (ToJson spec) ->
    queue_step t Q (RSetSpec spec) (AError None) (mkQueue (qu_commands Q) (Some spec) (qu_created Q))
| queue_set_error spec e : ToJson spec = None ->
    queue_step t Q (RSetSpec spec) (AError (Some e)) Q
| queue_new : queue_step t Q RIsNew (ANew (Ok (negb (qu_created Q)))) Q
| queue_mark : is_Some (ToJson (mkClusterCreated (UnixNano t))) ->
    queue_step t Q RMarkCreated (AError None) (mkQueue (qu_commands Q) (qu_spec Q) true)
| queue_mark_error e : ToJson (mkClusterCreated (UnixNano t)) = None ->
    queue_step t Q RMarkCreated (AError (Some e)) Q.

Definition earlier (a b : StoredCommand) : Prop :=
  Command_Timestamp (sc_data a) < Command_Timestamp (sc_data b).
Definition pathed (c : StoredCommand) : string * Command := (sc_path c, sc_data c).
Definition store_of (Q : Queue) : Store :=
  mkStore (list_to_map (pathed <$> qu_commands Q)) (qu_spec Q) (qu_created Q).

(** The files hold the queue: in the order of the times, each at its own path. *)
Record queued (d : disk) (Q : Queue) : Prop := {
  qd_stored : stored d (store_of Q);
  qd_order : StronglySorted earlier (qu_commands Q);
  qd_paths : NoDup (sc_path <$> qu_commands Q);
}.

(** A request as the controller makes it, on a clock that does not go back
    behind the commands that wait. *)
Definition timely (d : disk) (Q : Queue) (q : store_request) : Prop :=
  proper d q /\
  match q with
  | RAdd _ => Forall (fun c => Command_Timestamp (sc_data c) < UnixNano (d_now d)) (qu_commands Q)
  | _ => True
  end.

Lemma pathed_fst (l : list StoredCommand) : (pathed <$> l).*1 = sc_path <$> l.
Proof. by rewrite <- list_fmap_compose. Qed.

Lemma without_subset p l c : c ∈ without p l <-> c ∈ l /\ sc_path c <> p.
Proof.
  unfold without. rewrite !list_elem_of_In, List.filter_In.
  by rewrite negb_true_iff, String.eqb_neq.
Qed.

Lemma without_sorted p l : StronglySorted earlier l -> StronglySorted earlier (without p l).
Proof.
  induction 1 as [|c l _ IH Hc]; simpl; [constructor|]. destruct (negb _); [|done].
  constructor; [done|]. rewrite Forall_forall in Hc |- *. intros x [Hx _]%without_subset. auto.
Qed.

Lemma without_NoDup p l : NoDup (sc_path <$> l) -> NoDup (sc_path <$> without p l).
Proof.
  induction l as [|c l IH]; simpl; [done|]. intros [Hc Hl]%NoDup_cons. destruct (negb _); [|by apply IH].
  simpl. apply NoDup_cons. split; [|by apply IH]. rewrite list_elem_of_fmap in Hc |- *.
  intros (x & E & [Hx _]%without_subset). apply Hc. by exists x.
Qed.

Lemma without_path p l : p ∉ sc_path <$> without p l.
Proof. rewrite list_elem_of_fmap. intros (c & -> & [_ ?]%without_subset). done. Qed.

Lemma without_absent p l : p ∉ sc_path <$> l -> without p l = l.
Proof.
  induction l as [|c l IH]; simpl; [done|]. intros [Hc Hl]%not_elem_of_cons.
  destruct (String.eqb_spec (sc_path c) p); [congruence|]. simpl. by rewrite IH.
Qed.

Lemma without_cons p c l : without p (c :: l) = if String.eqb (sc_path c) p then without p l else c :: without p l.
Proof. unfold without. simpl. by destruct (String.eqb (sc_path c) p). Qed.

Lemma without_app p l1 l2 : without p (l1 ++ l2) = without p l1 ++ without p l2.
Proof. apply List.filter_app. Qed.

Lemma without_map p l :
  list_to_map (M := gmap string Command) (pathed <$> without p l) = delete p (list_to_map (pathed <$> l)).
Proof.
  induction l as [|c l IH]; [symmetry; apply delete_empty|]. rewrite without_cons, (fmap_cons pathed c l).
  rewrite (list_to_map_cons _ (sc_path c) (sc_data c)).
  destruct (String.eqb_spec (sc_path c) p) as [->|Hne].
  - rewrite delete_insert_eq. exact IH.
  - rewrite (fmap_cons pathed c), (list_to_map_cons _ (sc_path c) (sc_data c)), delete_insert_ne by done. by f_equal.
Qed.

(** There is one way to list distinct times in order. *)
Lemma sorted_earlier l1 l2 : StronglySorted earlier l1 -> Sorted older l2 -> l2 ≡ₚ l1 -> l2 = l1.
Proof.
  intros H1 H2. assert (Transitive older) by (intros a b c; unfold older; lia).
  apply Sorted_StronglySorted in H2; [|done].
  revert l2 H2. induction H1 as [|a l1 H1 IH Ha]; intros l2 H2 Hp; [by apply Permutation_nil_r in Hp|].
  destruct H2 as [|b l2 H2 Hb]; [by apply Permutation_nil_l in Hp|].
  assert (b = a) as ->.
  { assert (b ∈ a :: l1) as Hin by (rewrite <- Hp; by left).
    assert (a ∈ b :: l2) as Hin' by (rewrite Hp; by left).
    apply elem_of_cons in Hin as [->|Hin]; [done|]. apply elem_of_cons in Hin' as [->|Hin']; [done|].
    rewrite Forall_forall in Ha, Hb. specialize (Ha b Hin). specialize (Hb a Hin').
    unfold earlier, older in *. lia. }
  f_equal. apply IH; [done|]. by apply (Permutation_cons_inv (a := a)).
Qed.

Lemma list_to_map_pathed l :
  NoDup (sc_path <$> l) ->
  (fun e => mkStoredCommand (fst e) (snd e)) <$> map_to_list (list_to_map (M := gmap string Command) (pathed <$> l)) ≡ₚ l.
Proof.
  intros Hl. rewrite map_to_list_to_map by (by rewrite pathed_fst).
  rewrite <- list_fmap_compose. rewrite <- (list_fmap_id l) at 2.
  by rewrite (list_fmap_ext _ id l) by (by intros ? []).
Qed.

Lemma queue_path Q p : is_Some (st_commands (store_of Q) !! p) <-> p ∈ sc_path <$> qu_commands Q.
Proof.
  simpl. rewrite <- pathed_fst. split.
  - intros [c Hc%elem_of_list_to_map_2]. apply list_elem_of_fmap. by exists (p, c).
  - intros Hp. destruct (list_to_map _ !! p) eqn:E; [by eexists|].
    by apply not_elem_of_list_to_map in E.
Qed.

(** A step of the map of commands is a step of the queue. *)
Lemma queue_step_of t Q q a st' :
  StronglySorted earlier (qu_commands Q) -> NoDup (sc_path <$> qu_commands Q) ->
  match q with
  | RAdd _ => Forall (fun c => Command_Timestamp (sc_data c) < UnixNano t) (qu_commands Q)
  | _ => True
  end ->
  store_step t (store_of Q) q a st' ->
  exists Q', queue_step t Q q a Q' /\ st' = store_of Q' /\
    StronglySorted earlier (qu_commands Q') /\ NoDup (sc_path <$> qu_commands Q').
Proof.
  intros Hs Hn Ht. destruct 1.
  - eexists. split; [by constructor|]. simpl. split_and!.
    + unfold store_of. simpl. f_equal. rewrite fmap_app, list_to_map_app, without_map. simpl.
      apply map_eq. intros p. destruct (decide (p = commandPath base t)) as [->|Hne].
      * rewrite lookup_insert_eq, lookup_union_r by apply lookup_delete_eq. symmetry. apply lookup_insert_eq.
      * rewrite lookup_insert_ne by done. symmetry.
        rewrite lookup_union_l by (by rewrite lookup_insert_ne). by apply lookup_delete_ne.
    + apply StronglySorted_app_2; [|by apply without_sorted|by repeat constructor].
      intros c c' [Hc _]%without_subset ->%list_elem_of_singleton. rewrite Forall_forall in Ht. by apply Ht.
    + rewrite fmap_app. apply NoDup_app. split_and!; [by apply without_NoDup| |apply NoDup_singleton].
      intros p Hp ->%list_elem_of_singleton. by apply without_path in Hp.
  - exists Q. split; [by constructor|done].
  - exists Q. rewrite (sorted_earlier (qu_commands Q) l); [|done|done|by etrans; [eassumption|apply list_to_map_pathed]].
    split; [constructor|done].
  - eexists. split; [constructor; by apply queue_path|]. simpl. unfold store_of. simpl. rewrite without_map.
    auto using without_sorted, without_NoDup.
  - exists Q. split; [constructor|done]. rewrite <- queue_path. by apply eq_None_not_Some.
  - exists Q. split; [constructor|done].
  - eexists. split; [by constructor|done].
  - exists Q. split; [by constructor|done].
  - exists Q. split; [constructor|done].
  - eexists. split; [by constructor|done].
  - exists Q. split; [by constructor|done].
Qed.

Lemma queue_serve_reliable order tmp d Q q :
  queued d Q -> timely d Q q ->
  evm (reliable order tmp) (store_serve q) tt d (fun a _ d' =>
    besides d d' /\ exists Q', queue_step (d_now d) Q q a Q' /\ queued d' Q').
Proof.
  intros [Hst Hs Hn] [Hp Ht]. eapply evm_mono; [by apply store_serve_reliable|].
  intros a [] d' (Hb & st' & Hstep & Hst'). split; [done|].
  destruct (queue_step_of _ _ _ _ _ Hs Hn Ht Hstep) as (Q' & Hq & -> & Hs' & Hn'). by exists Q'.
Qed.
End Refinement.

(** ** Theorems *)

(** C16: the control store is a queue of commands, with a specification and a
    marker.  On a reliable path store each call that the controller makes
    returns, answers as the abstract queue does, leaves files that hold the
    queue after the call, and touches no other file: a command goes to the back
    of the queue, and the list of the commands is exactly the queue, oldest
    first; a command leaves the queue when it is removed, or when another one is
    added within the same second, whose file takes its place (the sequence
    number of the file's name is constant); the specification read is the one
    last written; a cluster is new until it is marked as created.  The clock is
    not behind a waiting command when a command is added. *)
Theorem control_store_refines `{!Codec Command, !Codec ClusterSpec, !Codec etcdClusterCreated}
    base order tmp d Q q
  (Hbase : cleanPath base) (HQ : queued base d Q) (Hq : timely base d Q q) :
  exists t a d', exec (reliable order tmp) (store_serve base q tt) d = (t, Done (a, tt), d') /\
    besides base d d' /\ exists Q', queue_step base (d_now d) Q q a Q' /\ queued base d' Q'.
Proof.
  destruct (proj1 (evm_exec _ _ _ _ _) (queue_serve_reliable base Hbase order tmp d Q q HQ Hq))
    as (t & a & [] & d' & He & Hs). eauto.
Qed.

(** Two commands that are added within one second are stored at the same
    path.  Both calls report success, but the second replaces the first: the
    store after them holds only the second. *)
Theorem second_command_overwrites `{!Codec Command, !Codec ClusterSpec, !Codec etcdClusterCreated}
    base order tmp d t2 st cmd1 cmd2
  (Hbase : cleanPath base) (Hst : stored base d st) (Hyear : fourDigitYear (d_now d))
  (Hsame : d_now d / 1000000000 = t2 / 1000000000)
  (Hj1 : is_Some (ToJson (stamped (d_now d) cmd1))) (Hj2 : is_Some (ToJson (stamped t2 cmd2))) :
  evm (reliable order tmp) (AddCommand base cmd1) tt d (fun r1 _ d1 => r1 = None /\
    evm (reliable order tmp) (AddCommand base cmd2) tt (mkDisk t2 (d_files d1) (d_local d1) (d_snapshot d1))
      (fun r2 _ d2 => r2 = None /\
         stored base d2 (mkStore (<[commandPath base (d_now d) := stamped t2 cmd2]> (st_commands st))
                           (st_spec st) (st_created st)))).
Proof.
  destruct Hj1 as [b1 E1], Hj2 as [b2 E2].
  assert (commandPath base t2 = commandPath base (d_now d)) as Hp.
  { unfold commandPath, commandName, FormatRFC3339. by rewrite Hsame. }
  pose proof (commandPath_command base Hbase (d_now d) Hyear) as Hcf.
  pose proof (stored_write_command base Hbase _ _ _ _ _
    (stored_write_command base Hbase d st _ _ _ Hst Hcf (FromJson_ToJson _ _ E1)) Hcf
    (FromJson_ToJson _ _ E2)) as H. simpl in H. rewrite (insert_insert_eq (st_commands st)) in H.
  unfold AddCommand. evm_step. evm_step. rewrite E1. repeat evm_step. split; [done|].
  evm_step. evm_step. rewrite E2. repeat evm_step. split; [done|]. rewrite Hp.
  destruct H as [Hc Ho Hs Hn]. split; [exact Hc|exact Ho|exact Hs|exact Hn].
Qed.

Module StoreDemo.
(** A store at "backups/control" with one command, and encodings of the messages
    that occur. *)
#[local] Instance restore_eq_dec : EqDecision RestoreBackupCommand.
Proof. solve_decision. Defined.
#[local] Instance command_eq_dec : EqDecision Command.
Proof. solve_decision. Defined.
#[local] Instance created_eq_dec : EqDecision etcdClusterCreated.
Proof. solve_decision. Defined.

Definition encode {A} `{EqDecision A} (l : list (A * string)) (a : A) : option string :=
  snd <$> List.find (fun e => bool_decide (fst e = a)) l.
Definition decode {A} (l : list (A * string)) (s : string) : option A :=
  fst <$> List.find (fun e => String.eqb (snd e) s) l.

Definition noon : time := Date 2020 6 11 12 0 0 0.
Definition spec : ClusterSpec := mkClusterSpec 3 "3.4.13".
Definition restore : Command := mkCommand 0 (Some (mkRestoreBackupCommand (Some spec) "b1")) None.
Definition create : Command := mkCommand 0 None (Some spec).
Definition commands : list (Command * string) :=
  [(stamped noon restore, "restore"); (stamped (noon + 1) create, "create")].

Lemma encode_in {A} `{EqDecision A} (l : list (A * string)) a s : encode l a = Some s -> (a, s) ∈ l.
Proof.
  unfold encode. destruct (List.find _ l) as [[k v]|] eqn:E; [|done]. intros [= <-].
  apply find_some in E as [Hin Heq]. simpl in Heq. apply bool_decide_eq_true in Heq as <-.
  by apply list_elem_of_In.
Qed.

Lemma decode_encode {A} `{EqDecision A} (l : list (A * string)) a s :
  bool_decide (NoDup l.*2) = true -> encode l a = Some s -> decode l s = Some a.
Proof.
  intros Hnd%bool_decide_eq_true Hin%encode_in. unfold decode.
  induction l as [|[k v] l IH]; [set_solver|]. apply NoDup_cons in Hnd as [Hv Hnd]. simpl.
  apply elem_of_cons in Hin as [[= -> ->]|Hin]; [by rewrite String.eqb_refl|].
  destruct (String.eqb_spec v s) as [->|]; [|by apply IH].
  destruct Hv. apply list_elem_of_fmap. by exists (a, s).
Qed.

Lemma encode_nonempty {A} `{EqDecision A} (l : list (A * string)) a s :
  bool_decide ("" ∈ l.*2) = false -> encode l a = Some s -> s <> "".
Proof.
  intros Hne%bool_decide_eq_false Hin%encode_in ->. destruct Hne. apply list_elem_of_fmap.
  by exists (a, "").
Qed.

Definition tableCodec {A} `{EqDecision A} (l : list (A * string))
    (Hnd : bool_decide (NoDup l.*2) = true) (Hne : bool_decide ("" ∈ l.*2) = false) : Codec A :=
  {| ToJson := encode l; FromJson := decode l;
     FromJson_ToJson := fun a s => decode_encode l a s Hnd;
     ToJson_nonempty := fun a s => encode_nonempty l a s Hne |}.

#[export] Instance command_codec : Codec Command := tableCodec commands eq_refl eq_refl.
#[export] Instance spec_codec : Codec ClusterSpec := tableCodec [(spec, "spec")] eq_refl eq_refl.
#[export] Instance created_codec : Codec etcdClusterCreated :=
  tableCodec [(mkClusterCreated (UnixNano noon), "{}")] eq_refl eq_refl.

Definition base : string := commandsBase "backups".
Definition empty : disk := mkDisk noon ∅ ∅ "".
Lemma base_clean : cleanPath base.
Proof. exists ["backups"; "control"]. split; [done|]. split; [reflexivity|]. by left. Qed.
Lemma empty_stored : stored base empty (mkStore ∅ None false).
Proof. by split; [left|..]. Qed.
Lemma noon_year : fourDigitYear noon.
Proof. unfold fourDigitYear. vm_compute. split; [discriminate|reflexivity]. Qed.

(** One nanosecond later, with a command that was added at [noon]. *)
Definition waiting : disk := mkDisk (noon + 1) (<[commandPath base noon := "restore"]> ∅) ∅ "".
Definition queue : Queue := mkQueue [mkStoredCommand (commandPath base noon) (stamped noon restore)] None false.
Lemma waiting_queued : queued base waiting queue.
Proof.
  split; [|by repeat constructor|by apply NoDup_singleton].
  pose proof (stored_write_command base base_clean empty _ _ _ _ empty_stored
    (commandPath_command base base_clean noon noon_year) (eq_refl : FromJson "restore" = Some (stamped noon restore)))
    as [Hc Ho Hs Hn]. by split.
Qed.
End StoreDemo.
Import StoreDemo.

(** The list of a store in which the command of [noon] waits. *)
Lemma control_store_refines_witness :
  let q := RAdd StoreDemo.create in
  timely StoreDemo.base StoreDemo.waiting StoreDemo.queue q /\
  exists t a d', exec (reliable [] (fun d => d)) (store_serve StoreDemo.base q tt) StoreDemo.waiting
      = (t, Done (a, tt), d') /\ besides StoreDemo.base StoreDemo.waiting d' /\
    exists Q', queue_step StoreDemo.base (d_now StoreDemo.waiting) StoreDemo.queue q a Q' /\
      queued StoreDemo.base d' Q'.
Proof.
  assert (timely StoreDemo.base StoreDemo.waiting StoreDemo.queue (RAdd StoreDemo.create)) as Ht.
  { split; [exact StoreDemo.noon_year|]. repeat constructor. }
  split; [exact Ht|].
  exact (control_store_refines StoreDemo.base [] (fun d => d) StoreDemo.waiting StoreDemo.queue
    (RAdd StoreDemo.create) StoreDemo.base_clean StoreDemo.waiting_queued Ht).
Defined.

Lemma second_command_overwrites_witness :
  evm (reliable [] (fun d => d)) (AddCommand StoreDemo.base StoreDemo.restore) tt StoreDemo.empty
    (fun r1 _ d1 => r1 = None /\
       evm (reliable [] (fun d => d)) (AddCommand StoreDemo.base StoreDemo.create) tt
         (mkDisk (StoreDemo.noon + 1) (d_files d1) (d_local d1) (d_snapshot d1))
         (fun r2 _ d2 => r2 = None /\
            stored StoreDemo.base d2
              (mkStore (<[commandPath StoreDemo.base StoreDemo.noon :=
                          stamped (StoreDemo.noon + 1) StoreDemo.create]> ∅) None false))).
Proof.
  exact (second_command_overwrites StoreDemo.base [] (fun d => d) StoreDemo.empty
    (StoreDemo.noon + 1) (mkStore ∅ None false) StoreDemo.restore StoreDemo.create
    StoreDemo.base_clean StoreDemo.empty_stored StoreDemo.noon_year
    ltac:(vm_compute; reflexivity)
    ltac:(exists "restore"; vm_compute; reflexivity)
    ltac:(exists "create"; vm_compute; reflexivity)).
Defined.
