(* ===== verification/BackupStore.v ===== *)
(** * The backup store: pkg/backup/vfs.go and pkg/etcd/backup.go

    A backup is a directory named by its time and a sequence number, with the
    data in one file and the metadata in another; a backup exists once its
    metadata does.  [DoBackup] takes a snapshot of etcd and stores it. *)

From stdpp Require Import base gmap sets list strings sorting.
From Stdlib Require Import Ascii.
From S2P Require Import Prelude Effects ProtoEtcd GoLib GoTime Vfs BackupCleanup Binaries ClusterState CommandStore.

Local Open Scope Z_scope.

Definition MetaFilename : string := "_etcd_backup.meta".
Definition DataFilename : string := "etcd.backup.gz".

(** ** backup/vfs.go *)

Section BackupStore.
Context `{!Codec BackupInfo}.
Context {S : Type} (base : string).

(** The name, and the two files of a backup. *)
Definition backupName (t : time) (sequence : string) : string :=
  FormatRFC3339 t +:+ "-" +:+ sequence.
Definition dataPath (name : string) : string := PathJoin [PathJoin [base; name]; DataFilename].
Definition metaPath (name : string) : string := PathJoin [base; name; MetaFilename].

(** The metadata, with the time of the backup if it has none. *)
Definition timedInfo (t : time) (info : BackupInfo) : BackupInfo :=
  if Backup_Timestamp info =? 0
  then mkBackupInfo (Backup_EtcdVersion info) (Unix t) (Backup_ClusterSpec info)
  else info.

(** Copy the backup file, if there is one. *)
Definition copyData (srcFile name : string) : VM S (option error) :=
  if String.eqb srcFile "" then mret None
  else
    f ← vcall (VOpen srcFile);
    match f with
    | Err _ => mret (Some "error opening file")
    | Ok content =>
        w ← vcall (VWriteFile (dataPath name) content);
        match w with
        | Some _ => mret (Some "error copying file")
        | None => mret None
        end
    end.

Definition AddBackup (srcFile sequence : string) (info : BackupInfo) : VM S (result string) :=
  t ← now;
  let info := timedInfo t info in
  let name := backupName t sequence in
  e ← copyData srcFile name;
  match e with
  | Some e => mret (Err e)
  | None =>
      match ToJson info with
      | None => mret (Err "error marshalling state")
      | Some data =>
          w ← vcall (VWriteFile (metaPath name) data);
          match w with
          | Some _ => mret (Err "error writing file")
          | None => mret (Ok name)
          end
      end
  end.

(** The name of the backup of a file, if it is one of metadata. *)
Definition backupOf (f : string) : option string :=
  if String.eqb (Base f) MetaFilename then
    let tokens := Split f "/" in
    if (length tokens <? 2)%nat then None else tokens !! (length tokens - 2)%nat
  else None.

Definition ListBackups : VM S (result (list string)) :=
  t ← vcall (VReadTree base);
  match t with
  | TreeNotExist => mret (Ok [])
  | TreeErr _ => mret (Err "error reading backups")
  | TreeOk files => mret (Ok (sort_strings (omap backupOf files)))
  end.

Definition RemoveBackup (backup : string) : VM S (option error) :=
  t ← vcall (VReadTree (PathJoin [base; backup]));
  match t with
  | TreeNotExist | TreeErr _ => mret (Some "error deleting - cannot read")
  | TreeOk files =>
      r ← for_each files tt (fun f _ =>
            e ← vcall (VRemoveAllVersions f);
            match e with
            | Some _ => mret (inr "error deleting backups")
            | None => mret (inl tt)
            end);
      mret (match r with inr e => Some e | inl _ => None end)
  end.

Definition LoadInfo (name : string) : VM S (result BackupInfo) :=
  d ← vcall (VReadFile (metaPath name));
  match d with
  | FileOk data =>
      match FromJson data with
      | None => mret (Err "error parsing file")
      | Some info => mret (Ok info)
      end
  | _ => mret (Err "error reading file")
  end.

(** The deferred clean-up closes the temporary file if it is still open, and
    removes it unless it was renamed. *)
Definition DownloadBackup (name destFile : string) : VM S (option error) :=
  let dir := Dir destFile in
  m ← vcall (VMkdirAll dir);
  match m with
  | Some _ => mret (Some "error creating directories")
  | None =>
      f ← vcall (VCreateTemp dir);
      match f with
      | Err _ => mret (Some "error creating temp file")
      | Ok tempfile =>
          w ← vcall (VWriteTo (dataPath name) tempfile);
          match w with
          | Some e =>
              vcall (VClose tempfile) ≫= fun _ =>
              vcall (VRemoveLocal tempfile) ≫= fun _ => mret (Some e)
          | None =>
              c ← vcall (VClose tempfile);
              match c with
              | Some e => vcall (VRemoveLocal tempfile) ≫= fun _ => mret (Some e)
              | None =>
                  r ← vcall (VRename tempfile destFile);
                  match r with
                  | Some _ =>
                      vcall (VRemoveLocal tempfile) ≫= fun _ =>
                      mret (Some "error during file write: rename failed")
                  | None => mret None
                  end
              end
          end
      end
  end.
End BackupStore.

(** ** etcd/backup.go *)

(** [fmt.Sprintf("%.6d", n)] for [0 <= n < 1000000]. *)
Definition pad6 (n : Z) : string := two (n / 10000) (two (n / 100 mod 100) (two (n mod 100) "")).

Section DoBackup.
Context `{!Codec BackupInfo} (base : string).

(** The state is the counter [sequence]. *)
Definition nextSequence (n : Z) : Z := if 999999 <? n + 1 then 0 else n + 1.

Definition uploadBackup (info : BackupInfo) (srcFile : string) : VM Z (result DoBackupResponse) :=
  modify nextSequence ≫= fun _ =>
  n ← get;
  r ← AddBackup base srcFile (pad6 n) info;
  match r with
  | Err _ => mret (Err "error copying backup to storage")
  | Ok name => mret (Ok (mkDoBackupResponse name))
  end.

Definition DoBackupV3 (info : BackupInfo) (clientUrls : list string)
    : VM Z (result DoBackupResponse) :=
  d ← vcall VMkdirTemp;
  match d with
  | Err _ => mret (Err "error creating etcd backup temp directory")
  | Ok tempDir =>
      r ← (match clientUrls with
           | [] => mret (Err "error building etcd client to etcd")
           | _ =>
               c ← vcall (VEtcdNew clientUrls);
               match c with
               | Some _ => mret (Err "error building etcd client to etcd")
               | None =>
                   let snapshotFile := PathJoin [tempDir; "snapshot.db.gz"] in
                   e ← vcall (VSnapshotSave clientUrls snapshotFile);
                   r ← (match e with
                        | Some _ => mret (Err "error performing snapshot save")
                        | None => uploadBackup info snapshotFile
                        end);
                   vcall (VEtcdClose clientUrls) ≫= fun _ => mret r
               end
           end);
      vcall (VRemoveAll tempDir) ≫= fun _ => mret r
  end.

(** [DoBackup] of [etcd/backup.go]. *)
Definition DoBackupTo (info : BackupInfo) (clientUrls : list string)
    : VM Z (result DoBackupResponse) :=
  if String.eqb (Backup_EtcdVersion info) "" then mret (Err "EtcdVersion not set")
  else DoBackupV3 info clientUrls.
End DoBackup.

(** ** Names and paths *)

Lemma Index_no_Z a s : no_Z a = true -> Index (a +:+ "Z-" +:+ s) "Z-" = Some (String.length a).
Proof.
  induction a as [|c a IH]; intros H.
  { pose proof (HasPrefix_app "Z-" s) as Hp. change ("" +:+ "Z-" +:+ s) with ("Z-" +:+ s).
    destruct ("Z-" +:+ s) as [|d r]; cbn [Index]; by rewrite Hp. }
  apply andb_true_iff in H as [Hc Ha]. apply negb_true_iff in Hc. rewrite Ascii.eqb_sym in Hc.
  change (String c a +:+ "Z-" +:+ s) with (String c (a +:+ "Z-" +:+ s)). cbn [Index].
  assert (HasPrefix (String c (a +:+ "Z-" +:+ s)) "Z-" = false) as ->.
  { cbn [HasPrefix]. by rewrite Hc. }
  by rewrite IH.
Qed.

(** The name of a backup gives its time back, to the second. *)
Lemma parse_backupName t seq :
  fourDigitYear t ->
  parseBackupNameInfo (backupName t seq) = Some (mkBackupNameInfo (timeTruncate t Second) None seq).
Proof.
  intros Ht. destruct (Format_split t Ht) as (a & E & Ha).
  assert (backupName t seq = a +:+ "Z-" +:+ seq) as En.
  { unfold backupName. rewrite E. by rewrite <- string_app_assoc. }
  unfold parseBackupNameInfo. rewrite En, Index_no_Z by done.
  assert (take_str (String.length a + 1) (a +:+ "Z-" +:+ seq) = FormatRFC3339 t) as ->.
  { rewrite E. rewrite <- (take_str_app (a +:+ "Z") ("-" +:+ seq)). rewrite string_app_length.
    by rewrite <- string_app_assoc. }
  assert (drop_str (String.length a + 2) (a +:+ "Z-" +:+ seq) = seq) as ->.
  { rewrite <- (drop_str_app (a +:+ "Z-") seq) at 2. rewrite string_app_length.
    by rewrite <- string_app_assoc. }
  by rewrite Parse_Format.
Qed.

Lemma backupName_plain t seq :
  fourDigitYear t -> contains_byte seq "/" = false -> plain (backupName t seq) = true.
Proof.
  intros Ht Hs. unfold plain. rewrite !andb_true_iff, !negb_true_iff.
  assert (contains_byte (backupName t seq) "/" = false) as Hno.
  { unfold backupName. rewrite !contains_byte_app. by rewrite (Format_avoids "/" t Ht), Hs. }
  pose proof (parse_backupName t seq Ht) as Hp.
  assert (parseBackupNameInfo "" = None /\ parseBackupNameInfo "." = None /\
          parseBackupNameInfo ".." = None) as (E1 & E2 & E3) by (vm_compute; done).
  split_and!; [| | |done]; apply String.eqb_neq; intros E; rewrite E in Hp; congruence.
Qed.

Section Paths.
Context (base : string) (Hbase : cleanPath base).

Lemma backup_paths name :
  plain name = true ->
  dataPath base name = PathJoin [base; name; DataFilename] /\
  Base (dataPath base name) = DataFilename /\ Base (metaPath base name) = MetaFilename /\
  below base (dataPath base name) = true /\ below base (metaPath base name) = true /\
  backupOf (metaPath base name) = Some name.
Proof.
  intros Hn.
  assert (forall f, plain f = true -> forallb plain [name; f] = true) as Hpl.
  { intros f Hf. cbn [forallb]. by rewrite Hn, Hf. }
  assert (forallb plain [name] = true) as Hpl1 by (cbn [forallb]; by rewrite Hn).
  destruct (PathJoin_clean base [name] Hbase ltac:(done) Hpl1) as [E1 Hc].
  assert (dataPath base name = PathJoin [base; name; DataFilename]) as Hd.
  { unfold dataPath. destruct (PathJoin_clean _ [DataFilename] Hc ltac:(done) eq_refl) as [-> _].
    destruct (PathJoin_clean base [name; DataFilename] Hbase ltac:(done) (Hpl DataFilename eq_refl)) as [-> _].
    rewrite E1. cbn [Join]. by rewrite !string_app_assoc. }
  assert (Base (metaPath base name) = MetaFilename) as Hm.
  { apply (Base_below base [name] MetaFilename Hbase), (Hpl MetaFilename eq_refl). }
  split_and!; [done| |done| | |].
  - rewrite Hd. apply (Base_below base [name] DataFilename Hbase), (Hpl DataFilename eq_refl).
  - rewrite Hd. apply below_join; [done|done|by apply Hpl].
  - apply below_join; [done|done|by apply Hpl].
  - unfold backupOf. rewrite Hm. cbn [String.eqb].
    change (String.eqb MetaFilename MetaFilename) with true. cbn iota.
    unfold metaPath. rewrite Split_below by (try done; by apply Hpl). rewrite length_app. cbn [length].
    rewrite (proj2 (Nat.ltb_ge _ 2)) by lia.
    rewrite lookup_app_r by lia.
    by replace (length (Split base "/") + 2 - 2 - length (Split base "/"))%nat with 0%nat by lia.
Qed.
End Paths.

(** ** On a reliable store *)

Section Reliable.
Context `{!Codec BackupInfo} (base : string) (Hbase : cleanPath base).
Context (order : list nat) (tmp : string -> string).

(** The backups that the files hold, in some order. *)
Definition listed (files : gmap string string) : list string := omap backupOf (tree base files).

Lemma ListBackups_reliable {S} (s : S) d :
  evm (reliable order tmp) (ListBackups base) s d
    (fun r s' d' => r = Ok (sort_strings (listed (d_files d))) /\ s' = s /\ d' = d).
Proof.
  unfold ListBackups, listed. evm_step. evm_step.
  destruct (tree base (d_files d)) as [|f l] eqn:Ht; [|rewrite <- Ht]; evm_step; [done|].
  split; [|done]. f_equal. apply sort_strings_unique. by rewrite shuffle_perm.
Qed.

Lemma elem_of_listed name files p :
  below base p = true -> is_Some (files !! p) -> backupOf p = Some name -> name ∈ listed files.
Proof. intros Hb Hp Ho. apply list_elem_of_omap. exists p. by rewrite elem_of_tree. Qed.

Lemma listed_mono files files' :
  (forall p, is_Some (files !! p) -> is_Some (files' !! p)) ->
  forall n, n ∈ listed files -> n ∈ listed files'.
Proof.
  intros Hsub n (p & [Hb Hp]%elem_of_tree & Ho)%list_elem_of_omap.
  by apply (elem_of_listed _ _ p); auto.
Qed.

(** Storing a file under a name that is plain. *)
Lemma AddBackup_reliable {S} (s : S) d src seq info content data :
  src <> "" -> d_local d !! src = Some content -> ToJson (timedInfo (d_now d) info) = Some data ->
  evm (reliable order tmp) (AddBackup base src seq info) s d (fun r s' d' =>
    let name := backupName (d_now d) seq in
    r = Ok name /\ s' = s /\
    d' = set_files (<[metaPath base name := data]> (<[dataPath base name := content]> (d_files d))) d).
Proof.
  intros Hsrc Hc Hj. unfold AddBackup, copyData. evm_step. evm_step. evm_step.
  rewrite (proj2 (String.eqb_neq src "")) by done. evm_step. evm_step. rewrite Hc.
  repeat evm_step. rewrite Hj. repeat evm_step. done.
Qed.

Lemma LoadInfo_reliable {S} (s : S) d name data info :
  d_files d !! metaPath base name = Some data -> FromJson data = Some info ->
  evm (reliable order tmp) (LoadInfo base name) s d (fun r s' d' => r = Ok info /\ s' = s /\ d' = d).
Proof. intros Hd Hj. unfold LoadInfo. evm_step. evm_step. rewrite Hd, Hj. by evm_step. Qed.

Lemma DownloadBackup_reliable {S} (s : S) d name dest content :
  d_files d !! dataPath base name = Some content ->
  evm (reliable order tmp) (DownloadBackup base name dest) s d (fun r s' d' =>
    r = None /\ s' = s /\ d_files d' = d_files d /\ d_local d' !! dest = Some content).
Proof.
  intros Hd. unfold DownloadBackup. do 5 evm_step. evm_step. rewrite Hd. cbn.
  repeat evm_step. rewrite lookup_insert_eq. cbn. repeat evm_step.
  by rewrite lookup_insert_eq.
Qed.
End Reliable.

Lemma pad6_no_slash n : 0 <= n < 1000000 -> contains_byte (pad6 n) "/" = false.
Proof.
  intros Hn. unfold pad6, two, digit.
  assert (forall d s, 0 <= d < 10 ->
    contains_byte (String (digit_char d) s) "/" = contains_byte s "/") as Hd.
  { intros d s Hd. destruct (digit_char_ok d Hd) as [Hi _].
    change (Ascii.eqb "/" (digit_char d) || contains_byte s "/" = contains_byte s "/").
    destruct (Ascii.eqb_spec "/" (digit_char d)) as [E|]; [|done]. by rewrite <- E in Hi. }
  repeat (rewrite Hd by dlia). done.
Qed.

Lemma nextSequence_range n : 0 <= n < 1000000 -> 0 <= nextSequence n < 1000000.
Proof. unfold nextSequence. case_match; zify_bools; lia. Qed.

(** Steps up to a call of [AddBackup]. *)
Ltac evm_to_AddBackup :=
  repeat lazymatch goal with
  | |- evm _ (AddBackup _ _ _ _) _ _ _ => fail
  | |- _ => evm_step
  end.

Section Backup.
Context `{!Codec BackupInfo} (base : string) (Hbase : cleanPath base).
Context (order : list nat) (tmp : string -> string).

Lemma DoBackupTo_reliable info urls n d data :
  Backup_EtcdVersion info <> "" -> urls <> [] -> cleanPath (tmp "") ->
  ToJson (timedInfo (d_now d) info) = Some data ->
  evm (reliable order tmp) (DoBackupTo base info urls) n d (fun r n' d' =>
    let name := backupName (d_now d) (pad6 n') in
    n' = nextSequence n /\ r = Ok (mkDoBackupResponse name) /\ d_now d' = d_now d /\
    d_files d' = <[metaPath base name := data]> (<[dataPath base name := d_snapshot d]> (d_files d))).
Proof.
  intros Hv Hu Htmp Hj. unfold DoBackupTo, DoBackupV3, uploadBackup.
  rewrite (proj2 (String.eqb_neq _ "")) by done. evm_step. evm_step. evm_step.
  destruct urls as [|u urls]; [done|]. do 5 evm_step.
  set (file := PathJoin [tmp ""; "snapshot.db.gz"]).
  assert (file <> "") as Hf.
  { subst file. destruct (PathJoin_clean (tmp "") ["snapshot.db.gz"] Htmp ltac:(done) eq_refl) as [-> _].
    by destruct (tmp ""). }
  evm_to_AddBackup. eapply evm_mono;
    [apply (AddBackup_reliable base order tmp _ _ file _ info (d_snapshot d) data Hf);
       [apply lookup_insert_eq|exact Hj]|].
  intros r n' d' (-> & -> & ->). repeat evm_step. done.
Qed.
End Backup.

(** Removing the files of a listing, one by one. *)
Lemma remove_listed order tmp (l : list string) (s : unit) d :
  NoDup l -> (forall f, f ∈ l -> is_Some (d_files d !! f)) ->
  evm (reliable order tmp) (for_each l tt (fun f _ =>
      e ← vcall (VRemoveAllVersions f);
      match e with
      | Some _ => mret (inr "error deleting backups" : unit + error)
      | None => mret (inl tt)
      end)) s d
    (fun r _ d' => r = inl tt /\
       forall p, d_files d' !! p = if bool_decide (p ∈ l) then None else d_files d !! p).
Proof.
  revert d. induction l as [|f l IH]; intros d Hnd Hl; simpl; evm_step.
  { split; [done|]. by intros p. }
  apply NoDup_cons in Hnd as [Hf Hnd]. destruct (Hl f) as [c Hc]; [set_solver|].
  evm_step. evm_step. rewrite Hc. evm_step. eapply evm_mono.
  { apply (IH _ Hnd). intros g Hg. cbn. rewrite lookup_delete_ne by (by intros ->).
    apply Hl. set_solver. }
  intros r s' d' [-> Hd']. split; [done|]. intros p. rewrite Hd'. cbn.
  destruct (decide (p = f)) as [->|Hne].
  - rewrite lookup_delete_eq. rewrite (bool_decide_true (f ∈ f :: l)) by set_solver.
    by case_bool_decide.
  - rewrite lookup_delete_ne by done. by rewrite (bool_decide_ext (p ∈ f :: l) (p ∈ l)) by set_solver.
Qed.

Lemma tree_NoDup b files : NoDup (tree b files).
Proof. unfold tree. apply NoDup_ListNoDup, List.NoDup_filter, NoDup_ListNoDup, NoDup_fst_map_to_list. Qed.

(** ** In every environment *)

(** The files that were written to the store, with the answers. *)
Definition writeOf (x : exchange VfsSig) : option (string * string * option error) :=
  match x with
  | existT e r =>
      match e return vfs_res e -> option (string * string * option error) with
      | VWriteFile p c => fun r => Some (p, c, r)
      | _ => fun _ => None
      end r
  end.
Definition writes (t : trace VfsSig) : list (string * string * option error) := omap writeOf t.

(** The temporary directory that was made or removed. *)
Definition tempMade (x : exchange VfsSig) : option string :=
  match x with
  | existT e r =>
      match e return vfs_res e -> option string with
      | VMkdirTemp => fun r => match r with Ok d => Some d | Err _ => None end
      | _ => fun _ => None
      end r
  end.
Definition tempRemoved (x : exchange VfsSig) : option string :=
  match asked x with VRemoveAll d => Some d | _ => None end.

Section AnyEnvironment.
Context `{!Codec BackupInfo} (base : string).

(** What an attempt under one name writes: the data, then the metadata, the
    latter only if the former was stored.  [res] is the name if both were. *)
Definition attempt (t : trace VfsSig) (src seq : string) (info : BackupInfo)
    (res : option string) : Prop :=
  exists now content json e1 e2, let name := backupName now seq in
    writes t `prefix_of` [(dataPath base name, content, e1); (metaPath base name, json, e2)] /\
    (length (writes t) = 2%nat -> e1 = None /\ ToJson (timedInfo now info) = Some json) /\
    (writes t <> [] -> existT (VOpen src : op VfsSig) (Ok content) ∈ t) /\
    (forall n, res = Some n -> n = name /\ length (writes t) = 2%nat /\ e2 = None).

Lemma attempt_app t1 t t2 src seq info res :
  writes t1 = [] -> writes t2 = [] -> attempt t src seq info res ->
  attempt (t1 ++ t ++ t2) src seq info res.
Proof.
  intros H1 H2 (now & content & json & e1 & e2 & Hw).
  assert (writes (t1 ++ t ++ t2) = writes t) as E.
  { unfold writes in *. by rewrite !omap_app, H1, H2, app_nil_r. }
  exists now, content, json, e1, e2. cbv zeta in *. rewrite E.
  destruct Hw as (? & ? & Ho & ?). split_and!; [done|done|set_solver|done].
Qed.

Lemma attempt_none src seq info : attempt [] src seq info None.
Proof.
  exists 0, "", "", None, None. cbn. split_and!; [apply prefix_nil|lia|done|done].
Qed.

Lemma AddBackup_any {S} src seq info (s : S) :
  src <> "" ->
  wpm (AddBackup base src seq info) s
    (fun r s' t => s' = s /\
       attempt t src seq info (match r with Ok name => Some name | Err _ => None end))
    (fun _ _ => False).
Proof.
  intros Hsrc. unfold AddBackup, copyData. rewrite (proj2 (String.eqb_neq src "")) by done.
  wpm_steps; (split; [done|]); cbn in *; subst.
  - exists r, t, "", (Some e), None. cbn. split_and!; [by eexists|done|set_solver|done].
  - exists r, t, s0, None, (Some e). cbn. split_and!; [done|done|set_solver|done].
  - exists r, t, s0, None, None. cbn. split_and!; [done|done|set_solver|by intros n [= <-]].
  - exists r, t, "", None, None. cbn. split_and!; [by eexists|done|set_solver|done].
  - exists r, "", "", None, None. cbn. split_and!; [apply prefix_nil|done|done|done].
Qed.

Definition nameOf (r : result DoBackupResponse) : option string :=
  match r with Ok resp => Some (DoBackup_Name resp) | Err _ => None end.

(** What a run of a backup leaves behind. *)
Definition backup_run (info : BackupInfo) (urls : list string) (n : Z)
    (r : result DoBackupResponse) (t : trace VfsSig) : Prop :=
  exists tempDir, let file := PathJoin [tempDir; "snapshot.db.gz"] in
    attempt t file (pad6 (nextSequence n)) info (nameOf r) /\
    (writes t <> [] -> existT (VSnapshotSave urls file : op VfsSig) None ∈ t) /\
    (forall x dir, head t = Some x -> tempMade x = Some dir ->
       exists y, last t = Some y /\ tempRemoved y = Some dir).

Lemma DoBackupTo_any info urls n :
  wpm (DoBackupTo base info urls) n (fun r n' t => backup_run info urls n r t) (fun _ _ => False).
Proof.
  unfold DoBackupTo, DoBackupV3, uploadBackup. wpm_steps; cbn in *; subst.
  1, 2, 3, 4, 6: exists ""; split_and!; [|done|].
  1, 3, 5, 7, 9: match goal with |- attempt ?t _ _ _ _ =>
    rewrite <- (app_nil_r t); apply (attempt_app t [] []), attempt_none; done end.
  1, 2, 3, 4, 5: intros x dir [= <-] [= <-]; eauto.
  eapply wpm_mono; [apply AddBackup_any, PathJoin_nonempty; done| |done].
  intros r n' t1 [_ Hr].
  assert (forall b e1 e2, nameOf b = match r with Ok name => Some name | Err _ => None end ->
    backup_run info (s :: l) n b
      ([existT (VMkdirTemp : op VfsSig) (Ok t); existT (VEtcdNew (s :: l) : op VfsSig) None;
        existT (VSnapshotSave (s :: l) (PathJoin [t; "snapshot.db.gz"]) : op VfsSig) None] ++ t1 ++
       [existT (VEtcdClose (s :: l) : op VfsSig) e1; existT (VRemoveAll t : op VfsSig) e2])) as Hend.
  { intros b e1 e2 Hb. exists t. cbv zeta. split_and!.
    - rewrite Hb. by apply attempt_app.
    - intros _. set_solver.
    - intros x dir [= <-] [= <-]. rewrite app_assoc, last_app. eauto. }
  destruct r; wpm_steps; rewrite <- ?app_assoc; cbn; by eapply Hend.
Qed.
End AnyEnvironment.

(** The files of another backup are not below the directory of this one. *)
Lemma HasPrefix_same_app a b c : HasPrefix (a +:+ b) (a +:+ c) = HasPrefix b c.
Proof. induction a as [|x a IH]; [done|]. cbn. by rewrite Ascii.eqb_refl. Qed.

Lemma HasPrefix_component a b m :
  contains_byte a "/" = false -> contains_byte b "/" = false ->
  HasPrefix (b +:+ "/" +:+ m) (a +:+ "/") = true -> a = b.
Proof.
  assert (forall x a, contains_byte (String x a) "/" = false ->
    Ascii.eqb "/" x = false /\ contains_byte a "/" = false) as Hc.
  { intros x r. change (Ascii.eqb "/" x || contains_byte r "/" = false ->
      Ascii.eqb "/" x = false /\ contains_byte r "/" = false). apply orb_false_iff. }
  assert (forall x r y q, HasPrefix (String x r) (String y q) = true ->
    Ascii.eqb y x = true /\ HasPrefix r q = true) as Hp.
  { intros x r y q H. by apply andb_true_iff in H. }
  revert b. induction a as [|x a IH]; intros [|y b] Ha Hb H; [done| | |].
  - apply Hp in H as [H _]. apply Hc in Hb as [Hb _]. congruence.
  - apply Hp in H as [H _]. apply Hc in Ha as [Ha _]. rewrite Ascii.eqb_sym in H. congruence.
  - apply Hp in H as [Hx H]. apply Hc in Ha as [_ Ha]. apply Hc in Hb as [_ Hb].
    apply Ascii.eqb_eq in Hx as ->. f_equal. by apply IH.
Qed.

Lemma other_backup base name b f :
  cleanPath base -> plain name = true -> plain b = true -> plain f = true -> b <> name ->
  below (PathJoin [base; name]) (PathJoin [base; b; f]) = false.
Proof.
  intros Hbase Hn Hb Hf Hne. unfold below.
  assert (forallb plain [name] = true) as H1 by (cbn; by rewrite Hn).
  assert (forallb plain [b; f] = true) as H2 by (cbn; by rewrite Hb, Hf).
  destruct (PathJoin_clean base [name] Hbase ltac:(done) H1) as [-> _].
  destruct (PathJoin_clean base [b; f] Hbase ltac:(done) H2) as [-> _].
  apply not_true_iff_false. intros H. apply Hne. symmetry.
  rewrite <- !string_app_assoc, HasPrefix_same_app in H.
  eapply (HasPrefix_component name b f); [by apply plain_no_slash..|].
  rewrite HasPrefix_same_app in H. exact H.
Qed.

(** Removing the directory of a backup. *)
Lemma RemoveBackup_reliable base order tmp name d
  (Hbase : cleanPath base) (Hname : plain name = true) :
  evm (reliable order tmp) (RemoveBackup base name) tt d (fun r _ d' =>
    (forall p, d_files d' !! p =
       if below (PathJoin [base; name]) p then None else d_files d !! p) /\
    (r = None <-> tree (PathJoin [base; name]) (d_files d) <> []) /\
    (forall b, plain b = true -> b <> name ->
       d_files d' !! metaPath base b = d_files d !! metaPath base b /\
       d_files d' !! dataPath base b = d_files d !! dataPath base b)).
Proof.
  unfold RemoveBackup. evm_step. evm_step. set (dir := PathJoin [base; name]).
  assert (forall d', (forall p, d_files d' !! p = if below dir p then None else d_files d !! p) ->
    forall b, plain b = true -> b <> name ->
       d_files d' !! metaPath base b = d_files d !! metaPath base b /\
       d_files d' !! dataPath base b = d_files d !! dataPath base b) as Hother.
  { intros d' Hd' b Hb Hne. rewrite !Hd'.
    destruct (backup_paths base Hbase b Hb) as [-> _].
    unfold metaPath, dir. by rewrite !other_backup. }
  assert (forall p, d_files d !! p = if bool_decide (p ∈ tree dir (d_files d)) then d_files d !! p
     else if below dir p then None else d_files d !! p) as Hin.
  { intros p. case_bool_decide as Hp; [done|]. destruct (below dir p) eqn:Hb; [|done].
    destruct (d_files d !! p) eqn:Ep; [|done]. destruct Hp. apply elem_of_tree. eauto. }
  destruct (tree dir (d_files d)) as [|f l] eqn:Ht.
  - evm_step. assert (forall p, d_files d !! p = if below dir p then None else d_files d !! p) as H by
      (intros p; specialize (Hin p); by rewrite bool_decide_false in Hin by apply not_elem_of_nil).
    by split_and!; [|split|apply Hother].
  - rewrite <- Ht in *. evm_step. eapply evm_mono.
    { apply remove_listed; [rewrite shuffle_perm; apply tree_NoDup|].
      intros g. rewrite shuffle_perm. intros Hg%elem_of_tree. tauto. }
    intros r s' d' [-> Hd']. evm_step.
    assert (forall p, d_files d' !! p = if below dir p then None else d_files d !! p) as H.
    { intros p. rewrite Hd'. rewrite (bool_decide_ext _ (p ∈ tree dir (d_files d)))
        by (by rewrite shuffle_perm). case_bool_decide as Hp; [by apply elem_of_tree in Hp as [-> _]|].
      specialize (Hin p). by rewrite bool_decide_false in Hin. }
    split_and!; [done|by rewrite Ht|by apply Hother].
Qed.

(** The two files of a backup that was made. *)
Lemma backup_files `{!Codec BackupInfo} base order tmp info urls n d data :
  cleanPath base -> cleanPath (tmp "") -> 0 <= n < 1000000 -> fourDigitYear (d_now d) -> urls <> [] ->
  Backup_EtcdVersion info <> "" -> ToJson (timedInfo (d_now d) info) = Some data ->
  evm (reliable order tmp) (DoBackupTo base info urls) n d (fun r n' d' =>
    let name := backupName (d_now d) (pad6 (nextSequence n)) in
    n' = nextSequence n /\ r = Ok (mkDoBackupResponse name) /\ d_now d' = d_now d /\
    d_files d' = <[metaPath base name := data]> (<[dataPath base name := d_snapshot d]> (d_files d)) /\
    d_files d' !! metaPath base name = Some data /\ d_files d' !! dataPath base name = Some (d_snapshot d)).
Proof.
  intros Hbase Htmp Hn Hyear Hurls Hv Hj.
  eapply evm_mono; [by apply (DoBackupTo_reliable base order tmp info urls n d data)|].
  intros r n' d' (-> & -> & Hnow & Hfiles). set (name := backupName (d_now d) (pad6 (nextSequence n))) in *.
  assert (plain name = true) as Hplain.
  { apply backupName_plain; [done|]. by apply pad6_no_slash, nextSequence_range. }
  destruct (backup_paths base Hbase name Hplain) as (_ & Hd & Hm & _).
  assert (dataPath base name <> metaPath base name) as Hne by (intros E; rewrite E, Hm in Hd; done).
  split_and!; [done|done|done|done|by rewrite Hfiles, lookup_insert_eq|].
  by rewrite Hfiles, lookup_insert_ne, lookup_insert_eq.
Qed.

(** ** Theorems *)

(** C20: a backup can be read back.  On a reliable path store, a backup of a
    running etcd succeeds under a name that tells its time (to the second) and
    its sequence number; its metadata is then what was asked for (with the time
    filled in), downloading it gives the contents of the snapshot, it is listed
    together with every backup that was listed before, and no other file of the
    store has changed. *)
Theorem backup_roundtrip `{!Codec BackupInfo} base order tmp info urls n d dest
  (Hbase : cleanPath base) (Htmp : cleanPath (tmp "")) (Hn : 0 <= n < 1000000)
  (Hyear : fourDigitYear (d_now d)) (Hurls : urls <> []) (Hversion : Backup_EtcdVersion info <> "")
  (Hjson : is_Some (ToJson (timedInfo (d_now d) info))) :
  evm (reliable order tmp) (DoBackupTo base info urls) n d (fun r n' d' => exists name,
    r = Ok (mkDoBackupResponse name) /\
    parseBackupNameInfo name =
      Some (mkBackupNameInfo (timeTruncate (d_now d) Second) None (pad6 (nextSequence n))) /\
    evm (reliable order tmp) (LoadInfo base name) n' d'
      (fun r _ d2 => r = Ok (timedInfo (d_now d) info) /\ d2 = d') /\
    evm (reliable order tmp) (DownloadBackup base name dest) n' d'
      (fun r _ d2 => r = None /\ d_local d2 !! dest = Some (d_snapshot d)) /\
    evm (reliable order tmp) (ListBackups base) n' d' (fun r _ _ => exists l, r = Ok l /\ name ∈ l /\
      evm (reliable order tmp) (ListBackups base) n d
        (fun r0 _ _ => exists l0, r0 = Ok l0 /\ forall b, b ∈ l0 -> b ∈ l)) /\
    (forall p, p <> dataPath base name -> p <> metaPath base name ->
       d_files d' !! p = d_files d !! p)).
Proof.
  destruct Hjson as [data Hj].
  eapply evm_mono; [by apply (backup_files base order tmp info urls n d data)|].
  intros r n' d' (-> & -> & _ & Hfiles & Em & Ed).
  set (name := backupName (d_now d) (pad6 (nextSequence n))) in *.
  assert (plain name = true) as Hplain.
  { apply backupName_plain; [done|]. by apply pad6_no_slash, nextSequence_range. }
  destruct (backup_paths base Hbase name Hplain) as (_ & _ & _ & _ & Hbm & Ho).
  exists name. split; [done|]. split; [by apply parse_backupName|].
  split; [|split; [|split]].
  - eapply evm_mono; [eapply LoadInfo_reliable; [exact Em|exact (FromJson_ToJson _ _ Hj)]|]. tauto.
  - eapply evm_mono; [by apply (DownloadBackup_reliable base order tmp)|]. tauto.
  - eapply evm_mono; [apply ListBackups_reliable|]. intros r n1 d1 (-> & _ & _). eexists.
    split; [done|]. split; [|eapply evm_mono; [apply ListBackups_reliable|]].
    + unfold sort_strings. rewrite stable_sort_perm.
      by apply (elem_of_listed base name _ (metaPath base name)).
    + intros r n2 d2 (-> & _ & _). eexists. split; [done|]. intros b.
      unfold sort_strings. rewrite !stable_sort_perm. apply listed_mono. intros p Hp.
      rewrite Hfiles. destruct (decide (p = metaPath base name)) as [->|H1];
        [rewrite lookup_insert_eq; by eexists|]. rewrite lookup_insert_ne by done.
      destruct (decide (p = dataPath base name)) as [->|H2];
        [rewrite lookup_insert_eq; by eexists|]. by rewrite lookup_insert_ne.
  - intros p H1 H2. by rewrite Hfiles, !lookup_insert_ne.
Qed.

(** In every environment, metadata follows data.  An attempt to make a backup
    writes at most two files to the store, under one name with the next sequence
    number: the data, which is what was read back from the file that etcd's
    snapshot was saved to, and then, only if the store accepted the data, the
    metadata.  It reports success, with that name, only if the store accepted
    both.  It always returns, and the temporary directory it made is removed
    last. *)
Theorem metadata_follows_data `{!Codec BackupInfo} base info urls n t o
  (Hrun : runs (DoBackupTo base info urls n) t o) :
  exists r n', o = Done (r, n') /\ backup_run base info urls n r t.
Proof.
  pose proof (wp_runs _ _ _ _ Hrun (DoBackupTo_any base info urls n)) as H.
  destruct o as [[r n']|c]; [by eauto|done].
Qed.

(** Removing a backup removes exactly its files.  On a reliable path store
    every file below the directory of the backup is removed and no other file
    changes; in particular the two files of every other backup stay.  An error
    is reported exactly if there was no such file. *)
Theorem RemoveBackup_exact base order tmp name d
  (Hbase : cleanPath base) (Hname : plain name = true) :
  evm (reliable order tmp) (RemoveBackup base name) tt d (fun r _ d' =>
    (forall p, d_files d' !! p =
       if below (PathJoin [base; name]) p then None else d_files d !! p) /\
    (r = None <-> tree (PathJoin [base; name]) (d_files d) <> []) /\
    (forall b, plain b = true -> b <> name ->
       d_files d' !! metaPath base b = d_files d !! metaPath base b /\
       d_files d' !! dataPath base b = d_files d !! dataPath base b)).
Proof. by apply RemoveBackup_reliable. Qed.

(** ** Instances *)

Module BackupDemo.
#[local] Instance info_eq_dec : EqDecision BackupInfo.
Proof. solve_decision. Defined.
Definition info : BackupInfo := mkBackupInfo "3.4.13" 0 (Some StoreDemo.spec).
#[export] Instance info_codec : Codec BackupInfo :=
  StoreDemo.tableCodec [(timedInfo StoreDemo.noon info, "info")] eq_refl eq_refl.
Definition base : string := "backups/main".
Lemma backups_clean : cleanPath base.
Proof. exists ["backups"; "main"]. split; [done|]. split; [reflexivity|]. by left. Qed.
Definition tmp (dir : string) : string := if String.eqb dir "" then "/tmp/x" else dir +:+ "/y".
Lemma tmp_clean : cleanPath (tmp "").
Proof. exists ["tmp"; "x"]. split; [done|]. split; [reflexivity|]. by right. Qed.
Definition before : disk := mkDisk StoreDemo.noon ∅ ∅ "snapshot".
(** The disk after a backup. *)
Definition after : disk :=
  snd (exec (reliable [] tmp) (DoBackupTo base info ["http://127.0.0.1:4001"] 0) before).
Definition name : string := backupName StoreDemo.noon "000001".
Example after_files : map_to_list (d_files after) =
  [("backups/main/2020-06-11T12:00:00Z-000001/_etcd_backup.meta", "info");
   ("backups/main/2020-06-11T12:00:00Z-000001/etcd.backup.gz", "snapshot")].
Proof. vm_compute. reflexivity. Qed.
End BackupDemo.
Import BackupDemo.

Lemma backup_roundtrip_witness :
  evm (reliable [] tmp) (DoBackupTo BackupDemo.base info ["http://127.0.0.1:4001"]) 0 before
    (fun r n' d' => exists name, r = Ok (mkDoBackupResponse name) /\
       evm (reliable [] tmp) (DownloadBackup BackupDemo.base name "/restore/snapshot.db.gz") n' d'
         (fun r _ d2 => r = None /\ d_local d2 !! "/restore/snapshot.db.gz" = Some "snapshot")).
Proof.
  eapply evm_mono; [apply (backup_roundtrip BackupDemo.base [] tmp info ["http://127.0.0.1:4001"] 0
    before "/restore/snapshot.db.gz" BackupDemo.backups_clean tmp_clean)|].
  - lia.
  - exact StoreDemo.noon_year.
  - discriminate.
  - discriminate.
  - exists "info". vm_compute. reflexivity.
  - intros r n' d' (nm & Hr & _ & _ & Hd & _). exists nm. split; [exact Hr|exact Hd].
Defined.

Lemma metadata_follows_data_witness :
  let p := DoBackupTo BackupDemo.base info ["http://127.0.0.1:4001"] 0 in
  outcome_of (reliable [] tmp) p before = Done (Ok (mkDoBackupResponse name), 1) /\
  length (writes (trace_of (reliable [] tmp) p before)) = 2%nat /\
  exists r n', outcome_of (reliable [] tmp) p before = Done (r, n') /\
    backup_run BackupDemo.base info ["http://127.0.0.1:4001"] 0 r (trace_of (reliable [] tmp) p before).
Proof.
  split; [vm_compute; reflexivity|]. split; [vm_compute; reflexivity|].
  apply metadata_follows_data. exact (exec_runs_eq _ _ _ _ eq_refl).
Defined.

Lemma RemoveBackup_exact_witness :
  plain name = true /\ tree (PathJoin [BackupDemo.base; name]) (d_files after) <> [] /\
  evm (reliable [] tmp) (RemoveBackup BackupDemo.base name) tt after (fun r _ d' =>
    (r = None <-> tree (PathJoin [BackupDemo.base; name]) (d_files after) <> [])).
Proof.
  split; [vm_compute; reflexivity|]. split; [vm_compute; discriminate|].
  eapply evm_mono; [apply (RemoveBackup_exact BackupDemo.base [] tmp name after BackupDemo.backups_clean)|].
  - vm_compute. reflexivity.
  - intros r s' d' (_ & Hr & _). exact Hr.
Defined.
