(* ===== verification/Ctl.v ===== *)
(** * The command line of the control store: cmd/etcd-manager-ctl, cmd/etcd-backup-ctl

    An operator tells the manager what to do through the stores: etcd-manager-ctl
    sets the specification of the cluster and queues (or withdraws) the restore
    of a backup, which the leader finds in its next cycle.  The commands work on
    the operations of [CommandStore.v] and [BackupStore.v]; opening a store and
    printing are the operations of [CliSig]. *)

From stdpp Require Import base gmap sets list strings sorting.
From S2P Require Import Prelude Effects EffectsSum ProtoEtcd GoLib GoTime Vfs BackupCleanup ClusterState CommandStore BackupStore.

Local Open Scope Z_scope.

(** ** Options and output *)

Definition DefaultEtcdVersion : string := "3.2.24".

Record Options := mkOptions {
  opt_MemberCount : Z;                       (* an int *)
  opt_EtcdVersion : string;
  opt_BackupStorePath : string;
}.

(** What a command prints, line by line.  The line of an added command also
    shows the time that the store gave it. *)
Inductive output :=
| OBackup (name : string)
| OCommand (c : Command)
| OSpec (s : ClusterSpec)
| OAdded (backup : string) (s : ClusterSpec)
| OSet (s : ClusterSpec).

Inductive cli_op : Type :=
| LBuildVfsPath (storage : string)           (* vfs.Context.BuildVfsPath *)
| LPrint (o : output).
Definition cli_res (e : cli_op) : Type :=
  match e with LBuildVfsPath _ => result string | LPrint _ => unit end.
Definition CliSig : sig := Sig cli_op cli_res.
Abbreviation CliM := (M (VfsSig ⊕ CliSig) unit).
Abbreviation clicall e := (@call (VfsSig ⊕ CliSig) unit (inr e)).
Abbreviation onStore m := (viaL m : CliM _).

Section Ctl.
Context `{!Codec Command, !Codec ClusterSpec, !Codec etcdClusterCreated}.

(** ** Opening the stores *)

(** The path of the backups, and the base of the commands. *)
Definition GetBackupStore (o : Options) : CliM (result string) :=
  if String.eqb (opt_BackupStorePath o) "" then mret (Err "backup-store is required")
  else
    p ← clicall (LBuildVfsPath (opt_BackupStorePath o));
    mret (match p with Err _ => Err "error initializing backup store" | Ok p => Ok p end).

Definition GetCommandStore (o : Options) : CliM (result string) :=
  if String.eqb (opt_BackupStorePath o) "" then mret (Err "backup-store is required")
  else
    p ← clicall (LBuildVfsPath (opt_BackupStorePath o));
    mret (match p with Err _ => Err "error initializing commands store" | Ok p => Ok (commandsBase p) end).

(** Work with an open store. *)
Definition withStore (open : CliM (result string)) (f : string -> CliM (option error)) : CliM (option error) :=
  b ← open;
  match b with
  | Err e => mret (Some e)
  | Ok base => f base
  end.

Definition printAll {A} (show : A -> output) (l : list A) : CliM unit :=
  for_fold l tt (fun a _ => clicall (LPrint (show a))).

(** ** The commands *)

Definition runListBackups (o : Options) : CliM (option error) :=
  withStore (GetBackupStore o) (fun base =>
    r ← onStore (ListBackups base);
    match r with
    | Err _ => mret (Some "error listing backups")
    | Ok backups => printAll OBackup backups ≫= fun _ => mret None
    end).

Definition runListCommands (o : Options) : CliM (option error) :=
  withStore (GetCommandStore o) (fun base =>
    r ← onStore (ListCommands base);
    match r with
    | Err _ => mret (Some "error listing commands")
    | Ok commands => printAll (fun c => OCommand (sc_data c)) commands ≫= fun _ => mret None
    end).

(** [data.RestoreBackup.Backup] of a command that restores nothing panics. *)
Definition deleteMatching (backupName : string) (c : StoredCommand) : CliM (option error) :=
  b ← deref "data.RestoreBackup" (Command_RestoreBackup (sc_data c));
  if String.eqb (Restore_Backup b) backupName then
    e ← onStore (RemoveCommand c);
    mret (match e with Some _ => Some "error deleting command" | None => None end)
  else mret None.

Definition runDeleteCommand (o : Options) (args : list string) : CliM (option error) :=
  match args with
  | [backupName] =>
      withStore (GetCommandStore o) (fun base =>
        r ← onStore (ListCommands base);
        match r with
        | Err _ => mret (Some "error listing commands")
        | Ok commands =>
            r ← for_each commands tt (fun c _ =>
                  e ← deleteMatching backupName c;
                  mret (match e with Some e => inr e | None => inl tt end));
            mret (match r with inr e => Some e | inl _ => None end)
        end)
  | _ => mret (Some "syntax: delete-command <backupname>")
  end.

Definition runRestoreBackup (o : Options) (args : list string) : CliM (option error) :=
  match args with
  | [backupName] =>
      withStore (GetCommandStore o) (fun base =>
        r ← onStore (GetExpectedClusterSpec base);
        match r with
        | Err _ => mret (Some "error reading etcd cluster spec")
        | Ok None => mret (Some "cluster spec was not found - is this a new cluster?")
        | Ok (Some clusterSpec) =>
            e ← onStore (AddCommand base (mkCommand 0 (Some (mkRestoreBackupCommand (Some clusterSpec) backupName)) None));
            match e with
            | Some _ => mret (Some "error writing command to store")
            | None => clicall (LPrint (OAdded backupName clusterSpec)) ≫= fun _ => mret None
            end
        end)
  | _ => mret (Some "syntax: restore-backup <backupname>")
  end.

(** The specification with the values of the user, and then with defaults. *)
Definition configured (o : Options) (current : option ClusterSpec) : ClusterSpec :=
  let spec := default (mkClusterSpec 0 "") current in
  let count := if opt_MemberCount o =? 0 then Spec_MemberCount spec else int32 (opt_MemberCount o) in
  let version := if String.eqb (opt_EtcdVersion o) "" then Spec_EtcdVersion spec else opt_EtcdVersion o in
  mkClusterSpec (if count =? 0 then 1 else count) (if String.eqb version "" then DefaultEtcdVersion else version).

Definition runInitCluster (o : Options) : CliM (option error) :=
  withStore (GetCommandStore o) (fun base =>
    r ← onStore (GetExpectedClusterSpec base);
    match r with
    | Err _ => mret (Some "error reading etcd cluster spec")
    | Ok current =>
        let clusterSpec := configured o current in
        e ← onStore (SetExpectedClusterSpec base clusterSpec);
        match e with
        | Some _ => mret (Some "error setting expected cluster spec")
        | None => clicall (LPrint (OSet clusterSpec)) ≫= fun _ => mret None
        end
    end).

Definition runGet (o : Options) : CliM (option error) :=
  withStore (GetCommandStore o) (fun base =>
    r ← onStore (GetExpectedClusterSpec base);
    match r with
    | Err _ => mret (Some "error reading etcd cluster spec")
    | Ok None => mret (Some "no spec found in store")
    | Ok (Some clusterSpec) => clicall (LPrint (OSpec clusterSpec)) ≫= fun _ => mret None
    end).

Definition ctlRun (o : Options) (command : string) (args : list string) : CliM (option error) :=
  if String.eqb command "get" then runGet o
  else if String.eqb command "configure-cluster" then runInitCluster o
  else if String.eqb command "list-backups" then runListBackups o
  else if String.eqb command "list-commands" then runListCommands o
  else if String.eqb command "delete-command" then runDeleteCommand o args
  else if String.eqb command "restore-backup" then runRestoreBackup o args
  else mret (Some "unknown command").

(** [main]: without arguments the command is "get". *)
Definition ctlMain (o : Options) (args : list string) : CliM (option error) :=
  match args with
  | [] => ctlRun o "get" []
  | command :: args => ctlRun o command args
  end.
End Ctl.

(** ** cmd/etcd-backup-ctl *)

Definition runBackupCtl (backupStorePath : string) : CliM (option error) :=
  if String.eqb backupStorePath "" then mret (Some "backup-store is required")
  else
    p ← clicall (LBuildVfsPath backupStorePath);
    match p with
    | Err e => mret (Some e)
    | Ok base =>
        r ← onStore (ListBackups base);
        match r with
        | Err e => mret (Some e)
        | Ok backups => printAll OBackup backups ≫= fun _ => mret None
        end
    end.

(** ** What the commands promise *)

Section Refinement.
Context `{!Codec Command, !Codec ClusterSpec, !Codec etcdClusterCreated}.

Definition restores (name : string) (c : Command) : bool :=
  match Command_RestoreBackup c with Some b => String.eqb (Restore_Backup b) name | None => false end.

(** The queued command. *)
Definition restoreCommand (t : time) (name : string) (spec : ClusterSpec) : Command :=
  stamped t (mkCommand 0 (Some (mkRestoreBackupCommand (Some spec) name)) None).

(** What delete-command leaves of the queue: the restores of [name] go, up to
    the first command that restores nothing, at which it panics. *)
Fixpoint withdraw (name : string) (l : list StoredCommand) : list StoredCommand * bool :=
  match l with
  | [] => ([], false)
  | c :: l' =>
      match Command_RestoreBackup (sc_data c) with
      | None => (c :: l', true)
      | Some b =>
          let '(rest, panics) := withdraw name l' in
          (if String.eqb (Restore_Backup b) name then rest else c :: rest, panics)
      end
  end.

(** A command line with a store at the time [t] on the queue [Q], the store with
    the path [p] and the backups [bs]: how it ends, its output and the queue
    after it. *)
Inductive ctl_step (p : string) (t : time) (bs : list string) (o : Options) (Q : Queue)
    : string -> list string -> outcome (option error) -> list output -> Queue -> Prop :=
| ctl_get args spec : qu_spec Q = Some spec -> ctl_step p t bs o Q "get" args (Done None) [OSpec spec] Q
| ctl_get_none args e : qu_spec Q = None -> ctl_step p t bs o Q "get" args (Done (Some e)) [] Q
| ctl_configure args spec : spec = configured o (qu_spec Q) -> is_Some (ToJson spec) ->
    ctl_step p t bs o Q "configure-cluster" args (Done None) [OSet spec]
      (mkQueue (qu_commands Q) (Some spec) (qu_created Q))
| ctl_configure_error args e : ToJson (configured o (qu_spec Q)) = None ->
    ctl_step p t bs o Q "configure-cluster" args (Done (Some e)) [] Q
| ctl_backups args : ctl_step p t bs o Q "list-backups" args (Done None) (OBackup <$> bs) Q
| ctl_commands args :
    ctl_step p t bs o Q "list-commands" args (Done None) ((fun c => OCommand (sc_data c)) <$> qu_commands Q) Q
| ctl_delete name l (panics : bool) : withdraw name (qu_commands Q) = (l, panics) ->
    ctl_step p t bs o Q "delete-command" [name]
      (if panics then Crashed (NilDeref "data.RestoreBackup") else Done None) []
      (mkQueue l (qu_spec Q) (qu_created Q))
| ctl_delete_syntax args e : length args <> 1%nat -> ctl_step p t bs o Q "delete-command" args (Done (Some e)) [] Q
| ctl_restore name spec : qu_spec Q = Some spec -> is_Some (ToJson (restoreCommand t name spec)) ->
    ctl_step p t bs o Q "restore-backup" [name] (Done None) [OAdded name spec]
      (mkQueue (without (commandPath (commandsBase p) t) (qu_commands Q) ++
                [mkStoredCommand (commandPath (commandsBase p) t) (restoreCommand t name spec)])
               (qu_spec Q) (qu_created Q))
| ctl_restore_none name e : qu_spec Q = None -> ctl_step p t bs o Q "restore-backup" [name] (Done (Some e)) [] Q
| ctl_restore_error name spec e : qu_spec Q = Some spec -> ToJson (restoreCommand t name spec) = None ->
    ctl_step p t bs o Q "restore-backup" [name] (Done (Some e)) [] Q
| ctl_restore_syntax args e : length args <> 1%nat -> ctl_step p t bs o Q "restore-backup" args (Done (Some e)) [] Q
| ctl_unknown command args e :
    command ∉ ["get"; "configure-cluster"; "list-backups"; "list-commands"; "delete-command"; "restore-backup"] ->
    ctl_step p t bs o Q command args (Done (Some e)) [] Q.

(** Without a store every command line is refused. *)
Definition ctl_effect (p : string) (t : time) (bs : list string) (o : Options) (Q : Queue) (command : string)
    (args : list string) (r : outcome (option error)) (out : list output) (Q' : Queue) : Prop :=
  if String.eqb (opt_BackupStorePath o) "" then (exists e, r = Done (Some e)) /\ out = [] /\ Q' = Q
  else ctl_step p t bs o Q command args r out Q'.

(** A reliable store whose path is [p], and what was printed. *)
Context (p : string) (order : list nat) (tmp : string -> string).

Definition terminal : handler CliSig (list output) := fun e w =>
  match e return cli_res e * list output with
  | LBuildVfsPath _ => (Ok p, w)
  | LPrint o => (tt, w ++ [o])
  end.
Definition station : handler (VfsSig ⊕ CliSig) (disk * list output) :=
  sum_handler fst (fun d w => (d, snd w)) snd (fun l w => (fst w, l)) (reliable order tmp) terminal.
#[local] Instance fst_lens : Lens (@fst disk (list output)) (fun d w => (d, snd w)).
Proof. split; try done. by intros []. Qed.

Context (Hbase : cleanPath (commandsBase p)).

(** What holds of the end of a command line, panics included. *)
Definition ends (m : CliM (option error)) (w : disk * list output)
    (P : outcome (option error) -> disk * list output -> Prop) : Prop :=
  match exec station (m tt) w with
  | (_, Done (r, _), w') => P (Done r) w'
  | (_, Crashed c, w') => P (Crashed c) w'
  end.

Lemma ends_evm m w P : evm station m tt w (fun r _ w' => P (Done r) w') -> ends m w P.
Proof. unfold evm, ends. by destruct (exec station (m tt) w) as [[t [[r []]|c]] w']. Qed.

Lemma ends_bind {A} (m : CliM A) f w P :
  evm station m tt w (fun a _ w' => ends (f a) w' P) -> ends (m ≫= f) w P.
Proof.
  unfold evm, ends, mbind, M_bind. rewrite exec_bind.
  destruct (exec station (m tt) w) as [[t [[a []]|c]] w']; [|done].
  by destruct (exec station (f a tt) w') as [[t' [[r []]|c]] w''].
Qed.

Lemma ends_assoc {A B} (m : CliM A) (f : A -> CliM B) g w P :
  ends (m ≫= (fun a => f a ≫= g)) w P -> ends ((m ≫= f) ≫= g) w P.
Proof.
  unfold ends, mbind, M_bind. rewrite !exec_bind. destruct (exec station (m tt) w) as [[t [[a []]|c]] w1]; [|done].
  rewrite exec_bind. destruct (exec station (f a tt) w1) as [[t' [[b []]|c]] w2]; [|done].
  by destruct (exec station (g b tt) w2) as [[t2 [[r []]|c]] w3].
Qed.

(** A request of the store, as a part of a command line. *)
Lemma onStore_serve {A} (f : A -> store_answer) (m : VM unit A) q d out Q P :
  store_serve (commandsBase p) q = answering f m -> queued (commandsBase p) d Q -> timely (commandsBase p) d Q q ->
  (forall a d' Q', besides (commandsBase p) d d' -> queue_step (commandsBase p) (d_now d) Q q (f a) Q' ->
     queued (commandsBase p) d' Q' -> P a tt (d', out)) ->
  evm station (onStore m) tt (d, out) P.
Proof.
  intros E Hst Hq HQ. apply evm_viaL; [apply fst_lens|].
  pose proof (queue_serve_reliable (commandsBase p) Hbase order tmp d Q q Hst Hq) as H.
  rewrite E in H. unfold evm, answering, mbind, M_bind in H. rewrite exec_bind in H. unfold evm. simpl.
  destruct (exec (reliable order tmp) (m tt) d) as [[t [[a []]|c]] d'] eqn:Em; [|done].
  simpl in H. destruct H as (Hb & Q' & Hs & Hst'). by apply (HQ a d' Q').
Qed.

Lemma printAll_spec {A} (show : A -> output) l d out Q :
  Q tt tt (d, out ++ (show <$> l)) -> evm station (printAll show l) tt (d, out) Q.
Proof.
  unfold printAll. revert out. induction l as [|a l IH]; intros out HQ; cbn [for_fold].
  - apply evm_ret. by rewrite app_nil_r in HQ.
  - do 2 evm_step. apply IH. by rewrite <- app_assoc.
Qed.

Lemma GetCommandStore_spec o w :
  opt_BackupStorePath o <> "" ->
  evm station (GetCommandStore o) tt w (fun r _ w' => r = Ok (commandsBase p) /\ w' = w).
Proof.
  intros Ho. unfold GetCommandStore. destruct (String.eqb_spec (opt_BackupStorePath o) ""); [done|].
  do 3 evm_step. by destruct w.
Qed.

Lemma withStore_ends o w f P :
  opt_BackupStorePath o <> "" -> ends (f (commandsBase p)) w P -> ends (withStore (GetCommandStore o) f) w P.
Proof.
  intros Ho H. unfold withStore. apply ends_bind. eapply evm_mono; [by apply GetCommandStore_spec|].
  by intros r [] w' [-> ->].
Qed.

Section Commands.
Context (o : Options) (Ho : opt_BackupStorePath o <> "") (d : disk) (Q : Queue) (bs : list string).
Context (Hst : queued (commandsBase p) d Q).

(** The command line ended as [ctl_step] says, on the files of the store. *)
Definition after (command : string) (args : list string) (r : outcome (option error)) (w : disk * list output) : Prop :=
  besides (commandsBase p) d (fst w) /\
  exists Q', ctl_step p (d_now d) bs o Q command args r (snd w) Q' /\ queued (commandsBase p) (fst w) Q'.

Lemma unchanged command args r :
  ctl_step p (d_now d) bs o Q command args r [] Q -> after command args r (d, []).
Proof. intros H. split; [apply besides_refl|eauto]. Qed.

Lemma runGet_spec args : ends (runGet o) (d, []) (after "get" args).
Proof.
  apply withStore_ends; [done|]. apply ends_bind. eapply (onStore_serve ASpec _ RGetSpec); [reflexivity|done|done|].
  intros a d' Q' Hb Hs Hd'. inversion Hs; subst. apply ends_evm. destruct (qu_spec Q) as [spec|] eqn:E.
  - do 3 evm_step. split; [done|]. exists Q. split; [by constructor|done].
  - apply evm_ret. split; [done|]. exists Q. split; [by constructor|done].
Qed.

Lemma runInitCluster_spec args : ends (runInitCluster o) (d, []) (after "configure-cluster" args).
Proof.
  apply withStore_ends; [done|]. apply ends_bind. eapply (onStore_serve ASpec _ RGetSpec); [reflexivity|done|done|].
  intros a d' Q' Hb Hs Hd'. inversion Hs; subst. apply ends_bind.
  eapply (onStore_serve AError _ (RSetSpec _)); [reflexivity|done|done|].
  intros a d2 Q2 Hb2 Hs2 Hd2. apply (besides_trans _ _ _ _ Hb) in Hb2. inversion Hs2; subst; apply ends_evm.
  - do 3 evm_step. split; [done|]. eexists. split; [by apply ctl_configure|done].
  - apply evm_ret. split; [done|]. eexists. split; [by apply ctl_configure_error|done].
Qed.

Lemma runListCommands_spec args : ends (runListCommands o) (d, []) (after "list-commands" args).
Proof.
  apply withStore_ends; [done|]. apply ends_bind. eapply (onStore_serve ACommands _ RList); [reflexivity|done|done|].
  intros a d' Q' Hb Hs Hd'. inversion Hs; subst. apply ends_evm, evm_bind, printAll_spec, evm_ret.
  split; [done|]. eexists. split; [by apply ctl_commands|done].
Qed.

Lemma runRestoreBackup_spec args :
  fourDigitYear (d_now d) -> Forall (fun c => Command_Timestamp (sc_data c) < UnixNano (d_now d)) (qu_commands Q) ->
  ends (runRestoreBackup o args) (d, []) (after "restore-backup" args).
Proof.
  intros Hy Ht. destruct args as [|name [|x args]].
  1, 3: apply ends_evm, evm_ret, unchanged; by constructor.
  apply withStore_ends; [done|]. apply ends_bind. eapply (onStore_serve ASpec _ RGetSpec); [reflexivity|done|done|].
  intros a d' Q' Hb Hs Hd'. inversion Hs; subst. pose proof (proj1 Hb) as Hnow. destruct (qu_spec Q) as [spec|] eqn:E.
  2:{ apply ends_evm, evm_ret. split; [done|]. exists Q. split; [by constructor|done]. }
  apply ends_bind.
  eapply (onStore_serve AError _ (RAdd _)); [reflexivity|done|split; simpl; by rewrite Hnow|].
  intros a d2 Q2 Hb2 Hs2 Hd2. apply (besides_trans _ _ _ _ Hb) in Hb2. rewrite Hnow in Hs2.
  inversion Hs2; subst; apply ends_evm.
  - do 3 evm_step. split; [done|]. eexists. split; [by apply ctl_restore|done].
  - apply evm_ret. split; [done|]. eexists. split; [by eapply ctl_restore_error|done].
Qed.

Lemma runListBackups_spec args :
  bs = sort_strings (listed p (d_files d)) -> ends (runListBackups o) (d, []) (after "list-backups" args).
Proof.
  intros Hbs. unfold runListBackups, withStore, GetBackupStore. apply ends_evm.
  destruct (String.eqb_spec (opt_BackupStorePath o) ""); [done|]. do 4 evm_step. apply evm_viaL; [apply fst_lens|].
  eapply evm_mono; [apply ListBackups_reliable|]. intros r s' d' (-> & -> & ->).
  apply evm_bind, printAll_spec, evm_ret. split; [apply besides_refl|]. exists Q. split; [|done].
  simpl. rewrite <- Hbs. constructor.
Qed.

(** A queued command that restores nothing makes delete-command panic. *)
Lemma deleteMatching_panics name c f w P :
  Command_RestoreBackup (sc_data c) = None ->
  P (Crashed (NilDeref "data.RestoreBackup")) w -> ends (deleteMatching name c ≫= f) w P.
Proof. intros H HP. unfold deleteMatching. by rewrite H. Qed.

(** The loop over the commands, the ones before [l] that were kept being [kept]. *)
Lemma deleteLoop_spec name l kept d' :
  queued (commandsBase p) d' (mkQueue (kept ++ l) (qu_spec Q) (qu_created Q)) ->
  ends (r ← for_each l tt (fun c _ =>
          e ← deleteMatching name c; mret (match e with Some e => inr e | None => inl tt end));
        mret (match r with inr e => Some e | inl _ => None end)) (d', [])
    (fun r w => besides (commandsBase p) d' (fst w) /\ snd w = [] /\
       r = (if snd (withdraw name l) then Crashed (NilDeref "data.RestoreBackup") else Done None) /\
       queued (commandsBase p) (fst w) (mkQueue (kept ++ fst (withdraw name l)) (qu_spec Q) (qu_created Q))).
Proof.
  revert kept d'. induction l as [|c l IH]; intros kept d' Hd'.
  { apply ends_evm. do 2 evm_step. split; [apply besides_refl|done]. }
  cbn [for_each withdraw]. apply ends_assoc, ends_assoc.
  destruct (Command_RestoreBackup (sc_data c)) as [b|] eqn:Eb.
  2:{ apply deleteMatching_panics; [done|]. split; [apply besides_refl|done]. }
  apply ends_bind. unfold deleteMatching at 1. rewrite Eb. evm_step. evm_step.
  destruct (withdraw name l) as [rest panics] eqn:Ew. destruct (String.eqb (Restore_Backup b) name) eqn:En; cbn [fst snd].
  - pose proof (qd_paths _ _ _ Hd') as Hn. simpl in Hn.
    rewrite fmap_app in Hn. apply NoDup_app in Hn as (Hn1 & Hn2 & [Hn3 _]%NoDup_cons). evm_step.
    eapply (onStore_serve AError _ (RRemove c)); [reflexivity|exact Hd'| |].
    { split; [|done]. destruct (commandFile (commandsBase p) (sc_path c)) eqn:E; [done|].
      assert (is_Some (st_commands (store_of (mkQueue (kept ++ c :: l) (qu_spec Q) (qu_created Q))) !! sc_path c)) as [x Hx].
      { apply queue_path. simpl. rewrite fmap_app. set_solver. }
      by rewrite (sd_others _ _ _ (qd_stored _ _ _ Hd') _ E) in Hx. }
    intros a d2 Q2 Hb2 Hs2 Hd2. inversion Hs2; subst.
    2:{ exfalso. match goal with H : _ ∉ _ |- _ => apply H end. simpl. rewrite fmap_app. set_solver. }
    simpl in Hd2. rewrite without_app, without_cons, String.eqb_refl, !without_absent in Hd2; [|done|set_solver].
    evm_step. apply ends_bind, evm_ret. specialize (IH kept d2 Hd2).
    revert IH. unfold ends. destruct (exec station _ _) as [[t [[r []]|x]] [d3 out]]; intros (Hb3 & H);
      (split; [exact (besides_trans _ _ _ _ Hb2 Hb3)|exact H]).
  - evm_step. apply ends_bind, evm_ret. specialize (IH (kept ++ [c]) d'). rewrite <- !app_assoc in IH. by apply IH.
Qed.

Lemma runDeleteCommand_spec args : ends (runDeleteCommand o args) (d, []) (after "delete-command" args).
Proof.
  destruct args as [|name [|x args]].
  1, 3: apply ends_evm, evm_ret, unchanged; by constructor.
  apply withStore_ends; [done|]. apply ends_bind. eapply (onStore_serve ACommands _ RList); [reflexivity|done|done|].
  intros a d' Q' Hb Hs Hd'. inversion Hs; subst.
  assert (queued (commandsBase p) d' (mkQueue ([] ++ qu_commands Q) (qu_spec Q) (qu_created Q))) as Hd2 by (by destruct Q).
  pose proof (deleteLoop_spec name (qu_commands Q) [] d' Hd2) as H. revert H. unfold ends.
  destruct (exec station _ _) as [[t [[r []]|c]] [d3 out]]; intros (Hb3 & Hout & Hr & Hq);
    (split; [exact (besides_trans _ _ _ _ Hb Hb3)|]); simpl in Hout; subst out;
    destruct (withdraw name (qu_commands Q)) as [l panics] eqn:Ew; eexists; (split; [rewrite Hr; by constructor|exact Hq]).
Qed.

Lemma ctlRun_spec command args :
  bs = sort_strings (listed p (d_files d)) ->
  (command = "restore-backup" -> fourDigitYear (d_now d) /\
     Forall (fun c => Command_Timestamp (sc_data c) < UnixNano (d_now d)) (qu_commands Q)) ->
  ends (ctlRun o command args) (d, []) (after command args).
Proof.
  intros Hbs Hr. unfold ctlRun.
  destruct (String.eqb_spec command "get") as [->|N1]; [by apply runGet_spec|].
  destruct (String.eqb_spec command "configure-cluster") as [->|N2]; [by apply runInitCluster_spec|].
  destruct (String.eqb_spec command "list-backups") as [->|N3]; [by apply runListBackups_spec|].
  destruct (String.eqb_spec command "list-commands") as [->|N4]; [by apply runListCommands_spec|].
  destruct (String.eqb_spec command "delete-command") as [->|N5]; [by apply runDeleteCommand_spec|].
  destruct (String.eqb_spec command "restore-backup") as [->|N6]; [by apply runRestoreBackup_spec; apply Hr|].
  apply ends_evm, evm_ret, unchanged. constructor. set_solver.
Qed.
End Commands.

(** Without a store. *)
Lemma ctlRun_refused o command args w :
  opt_BackupStorePath o = "" -> ends (ctlRun o command args) w (fun r w' => w' = w /\ exists e, r = Done (Some e)).
Proof.
  intros Ho. unfold ctlRun, runGet, runInitCluster, runListBackups, runListCommands, runDeleteCommand, runRestoreBackup,
    withStore, GetCommandStore, GetBackupStore. rewrite Ho. simpl.
  repeat (case_match; try (split; [done|by eexists])).
Qed.
End Refinement.

(** ** Theorems *)


Import StoreDemo.

Module CtlDemo.
Definition disk0 : disk := set_files (<[PathJoin [StoreDemo.base; EtcdClusterSpec] := "spec"]> ∅) StoreDemo.empty.
Definition queue0 : Queue := mkQueue [] (Some StoreDemo.spec) false.
Definition options : Options := mkOptions 0 "" "file:///backups".
Lemma queued0 : queued StoreDemo.base disk0 queue0.
Proof.
  split; [|constructor|constructor].
  apply (stored_write_other StoreDemo.base StoreDemo.empty (mkStore ∅ None false)); [apply StoreDemo.empty_stored|vm_compute; done..| |].
  - exists "spec". split; [by rewrite lookup_insert_eq|]. vm_compute. done.
  - simpl. rewrite lookup_insert_ne; [done|]. vm_compute. discriminate.
Qed.
(** The queue after "restore-backup b1". *)
Definition queue1 : Queue :=
  mkQueue [mkStoredCommand (commandPath StoreDemo.base StoreDemo.noon) (stamped StoreDemo.noon StoreDemo.restore)]
    (Some StoreDemo.spec) false.
End CtlDemo.

