(* ===== verification/BackupController.v ===== *)
(** * The stand-alone backup controller: pkg/backupcontroller/controller.go

    An iteration of [run] asks the local etcd whether it leads, and if so and if
    the interval has passed, makes a backup ([BackupStore.v]) and then cleans up
    ([BackupCleanup.v], whose store operations are carried out by those of
    [BackupStore.v]). *)

From stdpp Require Import base gmap sets list strings.
From Stdlib Require Import Ascii.
From S2P Require Import Prelude Effects EffectsSum ProtoEtcd GoLib GoTime Vfs EtcdClient BackupCleanup CommandStore BackupStore.

Local Open Scope Z_scope.

(** ** The cleanup on the files of the store *)

Inductive store_op : Type := SNow | SList | SRemove (backup : string).
Definition store_res (e : store_op) : Type :=
  match e with SNow => time | SList => result (list string) | SRemove _ => option error end.
Definition StoreSig : sig := Sig store_op store_res.

#[export] Instance StoreSig_now : HasNow StoreSig :=
  {| now_op := SNow : op StoreSig; now_time := fun r => r |}.
#[export] Instance StoreSig_store : HasBackupStore StoreSig.
Proof.
  refine {| list_backups_op := SList : op StoreSig; list_backups_res := fun r => r;
            remove_backup_op := fun b => SRemove b : op StoreSig; remove_backup_res := fun _ r => r |}.
  - by intros b b' [= ->].
  - done.
  - done.
Defined.

(** An operation of [backup.Store] is that of [vfsStore]. *)
Definition storeOp (base : string) (e : op StoreSig) : prog VfsSig (res e) :=
  match e return prog VfsSig (store_res e) with
  | SNow => Vis (VNow : op VfsSig) (fun t => Ret t)
  | SList => bind (ListBackups base tt) (fun '(r, _) => Ret r)
  | SRemove b => bind (RemoveBackup base b tt) (fun '(r, _) => Ret r)
  end.

Definition onStore {S A} (base : string) (m : M StoreSig S A) : VM S A :=
  fun s => interp (storeOp base) (m s).

(** ** The controller *)

(** [etcdClient.ListMembers], of which the number of members is used. *)
Inductive member_op : Type := MList (endpoints : list string).
Definition MemberSig : sig := Sig member_op (fun _ => result (list string)).

Definition BackupSig : sig := EtcdSig ⊕ VfsSig ⊕ MemberSig.

(** The state; [sequence] is the counter of the package etcd. *)
Record BackupController := mkBackupController {
  bc_clusterName : string;
  bc_backupStore : string;
  bc_clientUrls : list string;
  bc_lastBackup : time;
  bc_backupInterval : duration;
  bc_backupCleanup : BackupCleanup;
  bc_sequence : Z;
}.

Definition set_lastBackup (t : time) (m : BackupController) : BackupController :=
  mkBackupController (bc_clusterName m) (bc_backupStore m) (bc_clientUrls m) t (bc_backupInterval m)
    (bc_backupCleanup m) (bc_sequence m).
Definition set_cleanup (c : BackupCleanup) (m : BackupController) : BackupController :=
  mkBackupController (bc_clusterName m) (bc_backupStore m) (bc_clientUrls m) (bc_lastBackup m)
    (bc_backupInterval m) c (bc_sequence m).
Definition set_sequence (n : Z) (m : BackupController) : BackupController :=
  mkBackupController (bc_clusterName m) (bc_backupStore m) (bc_clientUrls m) (bc_lastBackup m)
    (bc_backupInterval m) (bc_backupCleanup m) n.

Definition NewBackupController (backupStore clusterName : string) (clientUrls : list string)
    (backupInterval : duration) (sequence : Z) : result BackupController :=
  if String.eqb clusterName "" then Err "ClusterName is required"
  else Ok (mkBackupController clusterName backupStore clientUrls zeroTime backupInterval NewBackupCleanup sequence).

Abbreviation BM := (M BackupSig BackupController).
Definition etcd {A} (m : EM BackupController A) : BM A := viaL (viaL m).
Definition files {A} (m : VM BackupController A) : BM A := viaL (viaR m).

Section Controller.
Context (ret : Retention) (zoneOf : nat -> time -> Z -> positive).
Context `{!Codec BackupInfo} (parseVersion : string -> option string).

Definition doClusterBackup (etcdVersion : string) (members : list string) : BM (result DoBackupResponse) :=
  m ← get;
  let info := mkBackupInfo etcdVersion 0
                (Some (mkClusterSpec (int32 (Z.of_nat (length members))) etcdVersion)) in
  files (zoom bc_sequence set_sequence (DoBackupTo (bc_backupStore m) info (bc_clientUrls m))).

Definition maybeBackup (etcdVersion : string) (members : list string) : BM (option error) :=
  t ← files (vcall VNow);
  m ← get;
  if negb (bc_backupInterval m <? timeSub t (bc_lastBackup m)) then mret None
  else
    b ← doClusterBackup etcdVersion members;
    match b with
    | Err e => mret (Some e)
    | Ok _ =>
        modify (set_lastBackup t) ≫= fun _ =>
        files (zoom bc_backupCleanup set_cleanup
                 (onStore (bc_backupStore m) (MaybeDoBackupMaintenance ret zoneOf))) ≫= fun _ =>
        mret None
    end.

Definition runBackup : BM (option error) :=
  m ← get;
  let urls := bc_clientUrls m in
  c ← etcd (newClient urls);
  match c with
  | Some _ => mret (Some "unable to reach etcd")
  | None =>
      v ← etcd (ServerVersion parseVersion urls);
      match v with
      | Err _ => mret (Some "unable to find server version of etcd")
      | Ok etcdVersion =>
          ms ← call (inr (MList urls) : op BackupSig);
          match ms with
          | Err _ =>
              etcd (ecall (EClose urls)) ≫= fun _ => mret (Some "unable to list members")
          | Ok members =>
              self ← etcd (LocalNodeInfo urls);
              etcd (ecall (EClose urls)) ≫= fun _ =>
              match self with
              | Err _ => mret (Some "unable to get node state")
              | Ok self =>
                  isLeader ← deref "self" self;
                  if (isLeader : bool) then maybeBackup etcdVersion members else mret None
              end
          end
      end
  end.

(** [Run]: so many iterations, whatever they answer, with the pauses between them. *)
Fixpoint RunBackups (iterations : nat) : BM unit :=
  match iterations with
  | O => mret tt
  | S n => runBackup ≫= fun _ => RunBackups n
  end.
End Controller.

(** ** On a reliable store *)

Section OnStore.
Context {S : Type} (base : string) (order : list nat) (tmp : string -> string).
Abbreviation h := (reliable order tmp).

Lemma evm_onStore_ret {A} (a : A) (s : S) d (Q : A -> S -> disk -> Prop) :
  Q a s d -> evm h (onStore base (mret a)) s d Q.
Proof. done. Qed.

Lemma evm_onStore_bind {A B} (m : M StoreSig S A) (f : A -> M StoreSig S B) s d Q :
  evm h (onStore base m) s d (fun a s' d' => evm h (onStore base (f a)) s' d' Q) ->
  evm h (onStore base (m ≫= f)) s d Q.
Proof.
  unfold evm, onStore, mbind, M_bind. generalize (m s). intros p. revert d.
  induction p as [[a s']|c|e k IH]; intros d; cbn [interp bind exec].
  - by destruct (exec h (interp (storeOp base) (f a s')) d) as [[? ?] ?].
  - done.
  - rewrite !exec_bind. destruct (exec h (storeOp base e) d) as [[t [r|c]] d1]; [|done].
    specialize (IH r d1).
    destruct (exec h (interp (storeOp base) (k r)) d1) as [[t1 o1] d2].
    destruct (exec h (interp (storeOp base) (bind (k r) (fun '(a, s') => f a s'))) d1) as [[t2 o2] d3].
    exact IH.
Qed.

Lemma evm_onStore_call (e : store_op) (s : S) d (Q : store_res e -> S -> disk -> Prop) :
  match exec h (storeOp base e) d with (_, Done r, d') => Q r s d' | (_, Crashed _, _) => False end ->
  evm h (onStore base (@call StoreSig S e)) s d Q.
Proof.
  unfold evm, onStore, call. cbn [interp]. rewrite exec_bind.
  by destruct (exec h (storeOp base e) d) as [[t [r|c]] d1].
Qed.

Lemma evm_onStore_now (s : S) d (Q : time -> S -> disk -> Prop) :
  Q (d_now d) s d -> evm h (onStore base now) s d Q.
Proof. intros H. apply evm_onStore_bind, (evm_onStore_call SNow), evm_onStore_ret. exact H. Qed.

Lemma evm_onStore_list (s : S) d (Q : result (list string) -> S -> disk -> Prop) :
  evm h (ListBackups base) tt d (fun r _ d' => Q r s d') ->
  evm h (onStore base (@call StoreSig S SList)) s d Q.
Proof.
  intros H. apply (evm_onStore_call SList). cbn [storeOp]. rewrite exec_bind. unfold evm in H.
  by destruct (exec h (ListBackups base tt) d) as [[t [[r []]|c]] d1].
Qed.

Lemma evm_onStore_remove b (s : S) d (Q : option error -> S -> disk -> Prop) :
  evm h (RemoveBackup base b) tt d (fun r _ d' => Q r s d') ->
  evm h (onStore base (@call StoreSig S (SRemove b))) s d Q.
Proof.
  intros H. apply (evm_onStore_call (SRemove b)). cbn [storeOp]. rewrite exec_bind. unfold evm in H.
  by destruct (exec h (RemoveBackup base b tt) d) as [[t [[r []]|c]] d1].
Qed.
End OnStore.

Lemma listed_no_slash base fs b : b ∈ listed base fs -> contains_byte b "/" = false.
Proof.
  intros (p & _ & Hb)%list_elem_of_omap. unfold backupOf in Hb. repeat case_match; try done.
  pose proof (Split_no_sep p "/") as Hs. rewrite Forall_forall in Hs. apply Hs.
  by eapply list_elem_of_lookup_2.
Qed.

Lemma parsed_plain b info :
  parseBackupNameInfo b = Some info -> contains_byte b "/" = false -> plain b = true.
Proof.
  intros Hp Hs. unfold plain. rewrite !andb_true_iff, !negb_true_iff.
  assert (parseBackupNameInfo "" = None /\ parseBackupNameInfo "." = None /\
          parseBackupNameInfo ".." = None) as (E1 & E2 & E3) by (vm_compute; done).
  split_and!; [| | |done]; apply String.eqb_neq; intros ->; congruence.
Qed.

Section Cleanup.
Context (ret : Retention) (zoneOf : nat -> time -> Z -> positive).
Context (base : string) (Hbase : cleanPath base) (order : list nat) (tmp : string -> string).
Abbreviation h := (reliable order tmp).

(** The two files of the backup [name] are those of [d]. *)
Definition intact (name : string) (d d' : disk) : Prop :=
  d_files d' !! metaPath base name = d_files d !! metaPath base name /\
  d_files d' !! dataPath base name = d_files d !! dataPath base name.

(** A backup that is retained survives the removals. *)
Lemma removeBackups_reliable pl (names all : list string) name (m : BackupCleanup) d :
  plain name = true -> (name ∈ all -> name ∈ retained pl) -> (forall b, b ∈ names -> b ∈ all) ->
  (forall b, b ∈ all -> b ∉ retained pl -> b ∉ pl_ignore pl -> plain b = true) ->
  evm h (onStore base (removeBackups pl names)) m d (fun _ m' d' => m' = m /\ intact name d d').
Proof.
  intros Hname Hret Hsub Hplain. unfold removeBackups. generalize 0.
  revert d. induction names as [|b names IH]; intros d n; cbn [for_fold].
  { apply evm_onStore_ret. done. }
  apply evm_onStore_bind.
  assert (forall b, b ∈ names -> b ∈ all) as Hsub' by (intros b' Hb'; apply Hsub; by right).
  case_bool_decide as Hb; [apply evm_onStore_ret; by apply IH|].
  case_bool_decide as Hi; [apply evm_onStore_ret; by apply IH|].
  assert (b <> name) as Hne by (intros ->; apply Hb, Hret, Hsub; by left).
  apply evm_onStore_bind. apply evm_onStore_remove.
  eapply evm_mono; [apply RemoveBackup_reliable; [done|apply Hplain; [apply Hsub; by left|done..]]|].
  intros r _ d1 (_ & _ & Hother). destruct (Hother name Hname (not_eq_sym Hne)) as [H1 H2].
  assert (evm h (onStore base (for_fold names (match r with Some _ => n | None => n + 1 end)
      (fun backup removedCount =>
        if bool_decide (backup ∈ retained pl) then mret removedCount
        else if bool_decide (backup ∈ pl_ignore pl) then mret removedCount
        else e ← call (remove_backup_op backup);
          match remove_backup_res backup e with
          | Some _ => mret removedCount
          | None => mret (removedCount + 1)
          end))) m d1 (fun _ m' d' => m' = m /\ intact name d d')) as H.
  { eapply evm_mono; [by apply IH|]. intros _ m' d' [-> [H3 H4]]. split; [done|]. split; congruence. }
  cbn [remove_backup_res StoreSig_store]. destruct r; exact H.
Qed.

(** The cleanup does not touch a backup that is less than an hour old. *)
Lemma cleanup_intact name info (m : BackupCleanup) d :
  plain name = true -> parseBackupNameInfo name = Some info ->
  timeSub (d_now d) (bn_Timestamp info) < Hour -> clock_ok ret (d_now d) ->
  evm h (onStore base (MaybeDoBackupMaintenance ret zoneOf)) m d (fun _ _ d' => intact name d d').
Proof.
  intros Hname Hp Hyoung Hclock. unfold MaybeDoBackupMaintenance.
  apply evm_onStore_bind, evm_onStore_now, evm_onStore_bind.
  change (evm h (onStore base get) m d ?Q) with (Q m m d). cbn beta.
  match goal with |- context [if ?c then _ else _] => destruct c end; [by apply evm_onStore_ret|].
  apply evm_onStore_bind, evm_onStore_list. eapply evm_mono; [apply ListBackups_reliable|].
  intros r s' d' (-> & _ & ->). set (names := sort_strings (listed base (d_files d))). cbn [list_backups_res].
  set (pl := planFor ret zoneOf (d_now d) names).
  pose proof (planFor_inv ret zoneOf (d_now d) Hclock names) as Hinv. fold pl in Hinv.
  assert (forall b, b ∈ names -> b ∉ retained pl -> b ∉ pl_ignore pl -> plain b = true) as Hplain.
  { intros b Hb Hr Hi. destruct (dropped_covered ret zoneOf (d_now d) Hclock names b Hb Hr Hi)
      as ([i b'] & k & _ & E & Hk & _). cbn in E. subst b'. unfold keyOf in Hk. cbn in Hk.
    destruct (parseBackupNameInfo b) as [bi|] eqn:Hbi; [|done]. eapply parsed_plain; [done|].
    apply (listed_no_slash base (d_files d)). unfold names, sort_strings in Hb. by rewrite stable_sort_perm in Hb. }
  apply evm_onStore_bind.
  apply (evm_mono _ _ _ _ (fun _ m' d' => m' = m /\ intact name d d')).
  2: { intros _ m' d' [-> Hd]. apply evm_onStore_bind.
       change (evm h (onStore base (modify ?f)) m d' ?Q) with (Q tt (f m) d'). cbn beta. by apply evm_onStore_ret. }
  apply (removeBackups_reliable pl names names); [done| |done|done]. intros Hin.
  apply elem_of_union_l, (pi_retain _ _ _ _ _ Hinv). destruct (listed_index names name Hin) as [i Hi].
  exists i, (timeOf zoneOf i info). split; [done|]. unfold keyOf, young, timeOf. cbn [fst snd]. rewrite Hp. cbn.
  split; [done|]. apply Is_true_true. by apply Z.ltb_lt.
Qed.
End Cleanup.

(** ** A node whose etcd leads *)

Section Leader.
Context (order : list nat) (tmp : string -> string).
(** The id of the member, the answer for its version, and the members. *)
Context (id : Z) (version : string) (members : list string).

Definition leadingEtcd : handler EtcdSig unit := fun e w =>
  match e return etcd_res e * unit with
  | ENew _ | EClose _ | EPut _ _ _ => (None, w)
  | EGet _ _ => (Ok [], w)
  | ETxnCreate _ _ _ => (Ok true, w)
  | ERange _ _ => (Ok [], w)
  | EStatus _ _ => (Ok (id, id), w)
  | EHttpGet _ => (Ok version, w)
  end.
Definition someMembers : handler MemberSig unit := fun e w => (Ok members, w).

Definition nothing (_ : disk) : unit := tt.
Definition unchanged (_ : unit) (d : disk) : disk := d.
Definition theDisk (d : disk) : disk := d.
Definition newDisk (d _ : disk) : disk := d.
#[local] Instance nothing_lens : Lens nothing unchanged.
Proof. split; [by intros []|done|done]. Qed.
#[local] Instance disk_id_lens : Lens theDisk newDisk.
Proof. by split. Qed.

Definition leaderWorld : handler BackupSig disk :=
  sum_handler theDisk newDisk nothing unchanged
    (sum_handler nothing unchanged theDisk newDisk leadingEtcd (reliable order tmp)) someMembers.

Lemma evm_etcd {A} (m : EM BackupController A) s d Q :
  evm leadingEtcd m s tt (fun a s' _ => Q a s' d) -> evm leaderWorld (etcd m) s d Q.
Proof. intros H. apply evm_viaL; [apply _|]. apply evm_viaL; [apply _|]. exact H. Qed.

Lemma evm_files {A} (m : VM BackupController A) s d Q :
  evm (reliable order tmp) m s d Q -> evm leaderWorld (files m) s d Q.
Proof. intros H. apply evm_viaL; [apply _|]. apply evm_viaR; [apply _|]. exact H. Qed.

Lemma evm_zoom {Σ S T W A} (h : handler Σ W) (g : S -> T) (u : T -> S -> S) (m : M Σ T A) s w Q :
  evm h m (g s) w (fun a t w' => Q a (u t s) w') -> evm h (zoom g u m) s w Q.
Proof.
  unfold evm, zoom. rewrite exec_bind. by destruct (exec h (m (g s)) w) as [[t [[a t']|c]] w'].
Qed.

Context (ret : Retention) (zoneOf : nat -> time -> Z -> positive).
Context `{!Codec BackupInfo} (parseVersion : string -> option string).

(** The metadata of a backup that this controller makes. *)
Definition backupInfo (etcdVersion : string) : BackupInfo :=
  mkBackupInfo etcdVersion 0 (Some (mkClusterSpec (int32 (Z.of_nat (length members))) etcdVersion)).

Lemma fresh_is_young t : timeSub t (timeTruncate t Second) < Hour.
Proof.
  pose proof (timeTruncate_le t Second) as H1. pose proof (timeTruncate_lt t Second ltac:(done)) as H2.
  generalize dependent (timeTruncate t Second). intros u H1 H2.
  change Second with 1000000000 in H2. change Hour with 3600000000000.
  rewrite timeSub_exact; [lia|]. unfold is_int64.
  change int64_min with (-9223372036854775808). change int64_max with 9223372036854775807. lia.
Qed.

Lemma maybeBackup_reliable etcdVersion json m d :
  cleanPath (bc_backupStore m) -> cleanPath (tmp "") -> 0 <= bc_sequence m < 1000000 ->
  fourDigitYear (d_now d) -> bc_clientUrls m <> [] -> etcdVersion <> "" ->
  ToJson (timedInfo (d_now d) (backupInfo etcdVersion)) = Some json ->
  clock_ok ret (d_now d) -> bc_backupInterval m < timeSub (d_now d) (bc_lastBackup m) ->
  evm leaderWorld (maybeBackup ret zoneOf etcdVersion members) m d (fun r m' d' =>
    let name := backupName (d_now d) (pad6 (nextSequence (bc_sequence m))) in
    r = None /\ bc_lastBackup m' = d_now d /\ bc_sequence m' = nextSequence (bc_sequence m) /\
    d_files d' !! metaPath (bc_backupStore m) name = Some json /\
    d_files d' !! dataPath (bc_backupStore m) name = Some (d_snapshot d)).
Proof.
  intros Hbase Htmp Hseq Hyear Hurls Hv Hj Hclock Hint. unfold maybeBackup.
  apply evm_bind, evm_files. refine (@evm_call VfsSig _ _ _ VNow m d _ _). cbn [reliable fst snd].
  apply evm_bind, evm_get. rewrite (proj2 (Z.ltb_lt _ _) Hint). cbn [negb].
  apply evm_bind. unfold doClusterBackup. apply evm_bind, evm_get. cbv zeta. fold (backupInfo etcdVersion).
  apply evm_files, evm_zoom.
  eapply evm_mono; [by apply (backup_files (bc_backupStore m) order tmp _ _ _ d json)|].
  intros r n d1 (-> & -> & Hnow & _ & Hm & Hd). cbn iota. apply evm_bind, evm_modify.
  apply evm_bind, evm_files, evm_zoom. eapply evm_mono; [eapply (cleanup_intact ret zoneOf _ Hbase order tmp)|].
  - apply backupName_plain; [exact Hyear|]. by apply pad6_no_slash, nextSequence_range.
  - by apply parse_backupName.
  - cbn [bn_Timestamp]. rewrite Hnow. apply fresh_is_young.
  - by rewrite Hnow.
  - intros _ c d2 [H1 H2]. apply evm_ret. cbn. split_and!; [done|done|done|by rewrite H1|by rewrite H2].
Qed.

Lemma newClient_leads u urls (s : BackupController) :
  evm leadingEtcd (newClient (u :: urls)) s tt (fun r s' _ => r = None /\ s' = s).
Proof. unfold newClient. by repeat evm_step. Qed.
Lemma close_leads urls (s : BackupController) :
  evm leadingEtcd (ecall (EClose urls)) s tt (fun _ s' _ => s' = s).
Proof. by evm_step. Qed.
Lemma ServerVersion_leads u urls v (s : BackupController) :
  parseVersion version = Some v ->
  evm leadingEtcd (ServerVersion parseVersion (u :: urls)) s tt (fun r s' _ => r = Ok v /\ s' = s).
Proof. intros Hp. unfold ServerVersion. cbn [for_each]. do 4 evm_step. rewrite Hp. by repeat evm_step. Qed.
Lemma LocalNodeInfo_leads u urls (s : BackupController) :
  evm leadingEtcd (LocalNodeInfo (u :: urls)) s tt (fun r s' _ => r = Ok (Some true) /\ s' = s).
Proof. unfold LocalNodeInfo. cbn [for_each]. do 4 evm_step. rewrite Z.eqb_refl. by repeat evm_step. Qed.

Lemma runBackup_leads etcdVersion m d Q :
  bc_clientUrls m <> [] -> parseVersion version = Some etcdVersion ->
  evm leaderWorld (maybeBackup ret zoneOf etcdVersion members) m d Q ->
  evm leaderWorld (runBackup ret zoneOf parseVersion) m d Q.
Proof.
  intros Hurls Hp H. unfold runBackup. apply evm_bind, evm_get. cbv zeta.
  destruct (bc_clientUrls m) as [|u urls] eqn:Eu; [done|].
  apply evm_bind, evm_etcd. eapply evm_mono; [apply newClient_leads|]. intros r s' _ [-> ->]. cbn iota.
  apply evm_bind, evm_etcd. eapply evm_mono; [by apply ServerVersion_leads|]. intros r s' _ [-> ->]. cbn iota.
  apply evm_bind. refine (@evm_call BackupSig _ _ leaderWorld (inr (MList (u :: urls))) m d _ _). cbn [fst snd leaderWorld sum_handler someMembers].
  apply evm_bind, evm_etcd. eapply evm_mono; [apply LocalNodeInfo_leads|]. intros r s' _ [-> ->].
  apply evm_bind, evm_etcd. eapply evm_mono; [apply close_leads|]. intros r s' _ ->. cbn iota.
  apply evm_bind. unfold deref. apply evm_ret. exact H.
Qed.
End Leader.

(** ** In every environment *)

Section AnyEnvironment.
Context (ret : Retention) (zoneOf : nat -> time -> Z -> positive).
Context `{!Codec BackupInfo} (parseVersion : string -> option string).
Abbreviation btrace := (trace BackupSig).

(** Removals from the store, and all changes of it. *)
Definition removal (x : exchange BackupSig) : Prop :=
  match asked x with inl (inr (VRemove _ | VRemoveAllVersions _)) => True | _ => False end.
Definition change (x : exchange BackupSig) : Prop :=
  removal x \/ exists p c, asked x = inl (inr (VWriteFile p c)).

(** The etcd of the node has said that it leads. *)
Definition leads (urls : list string) (t : btrace) : Prop :=
  exists ep id, existT (inl (inl (EStatus urls ep)) : op BackupSig) (Ok (id, id)) ∈ t.
(** More than the interval has passed since the last backup. *)
Definition due (m : BackupController) (t : btrace) : Prop :=
  exists now, existT (inl (inr VNow) : op BackupSig) now ∈ t /\ bc_backupInterval m < timeSub now (bc_lastBackup m).
(** The metadata of a backup was stored. *)
Definition stored_backup (base : string) (t : btrace) : Prop :=
  exists name json, existT (inl (inr (VWriteFile (metaPath base name) json)) : op BackupSig) None ∈ t.

Lemma stored_backup_mono base t t' : (forall x, x ∈ t -> x ∈ t') -> stored_backup base t -> stored_backup base t'.
Proof. intros Ht (name & json & H). exists name, json. auto. Qed.

Lemma wpm_zoom {Σ S T A} (g : S -> T) (u : T -> S -> S) (m : M Σ T A) s Q C :
  wpm m (g s) (fun a t tr => Q a (u t s) tr) C -> wpm (zoom g u m) s Q C.
Proof.
  intros H. unfold wpm, zoom. apply wp_bind. eapply wp_mono; [exact H|].
  intros tr [[a t']|c]; cbn; [by rewrite app_nil_r|done].
Qed.

Lemma DoBackupTo_no_removal base info urls :
  emits (fun x : exchange VfsSig => match asked x with VRemove _ | VRemoveAllVersions _ => False | _ => True end)
    (DoBackupTo base info urls).
Proof. unfold DoBackupTo, DoBackupV3, uploadBackup, AddBackup, copyData. emits_solve; done. Qed.

(** A backup removes nothing, and is reported only if its metadata was stored. *)
Lemma doClusterBackup_any etcdVersion members m :
  wpm (doClusterBackup etcdVersion members) m (fun r m' t =>
      (exists n, m' = set_sequence n m) /\ Forall (fun x => ~ removal x) t /\
      (forall b, r = Ok b -> stored_backup (bc_backupStore m) t)) (fun _ _ => False).
Proof.
  unfold doClusterBackup. apply wpm_bind, wpm_get. cbv zeta. apply wpm_viaL, wpm_viaR, wpm_zoom.
  eapply wpm_mono; [exact (wpm_conj _ _ _ _ _ _ (DoBackupTo_any _ _ _ _) (DoBackupTo_no_removal _ _ _ _))
    | |by intros ? ? []].
  intros r n t [Hrun Hrem]. cbn [app]. split; [by eexists|]. split.
  - rewrite !Forall_fmap. eapply Forall_impl; [exact Hrem|]. intros [e x]. unfold removal. destruct e; cbn; tauto.
  - intros b ->. destruct Hrun as (dir & (now & content & json & e1 & e2 & Hw & _ & _ & Hres) & _ & _).
    destruct (Hres _ eq_refl) as (_ & Hlen & ->).
    assert (writes t = [(dataPath (bc_backupStore m) (backupName now (pad6 (nextSequence (bc_sequence m)))), content, e1);
      (metaPath (bc_backupStore m) (backupName now (pad6 (nextSequence (bc_sequence m)))), json, None)]) as E.
    { destruct Hw as [rest E]. destruct (writes t) as [|? [|? [|? ?]]]; try (cbn in Hlen; lia). by destruct rest. }
    assert ((metaPath (bc_backupStore m) (backupName now (pad6 (nextSequence (bc_sequence m)))), json, None)
      ∈ writes t) as Hin by (rewrite E; right; by left).
    apply list_elem_of_omap in Hin as ([e x] & Hx & Hwr). destruct e; try done. cbn in Hwr.
    injection Hwr as -> -> ->. eexists _, json. rewrite <- list_fmap_compose. apply list_elem_of_fmap.
    eexists. split; [|exact Hx]. done.
Qed.

(** The operations of the store return. *)
Lemma storeOp_total base e : wp (storeOp base e) (fun _ o => exists r, o = Done r).
Proof.
  assert (forall A (m : VM unit A), wpm m tt (fun _ _ _ => True) (fun _ _ => False) ->
    wp (bind (m tt) (fun '(r, _) => Ret r)) (fun _ o => exists r, o = Done r)) as H.
  { intros A m Hm. apply wp_bind. eapply wp_mono; [exact Hm|]. intros t [[a []]|c]; cbn; [by eexists|done]. }
  destruct e as [| |b]; cbn [storeOp]; [intros r; by eexists|apply H..].
  - unfold ListBackups. wpm_steps; done.
  - unfold RemoveBackup. wpm_steps; try done.
    eapply wpm_mono; [apply (wpm_for_each (fun _ _ _ _ => True) (fun _ _ _ => True) (fun _ _ => False) _ _ [] tt tt [])| |done];
      [done| |].
    + intros. wpm_steps; done.
    + intros [?|?] ? ? _; wpm_steps; done.
Qed.

Lemma wpm_onStore {S A} base (m : M StoreSig S A) s Q :
  wpm m s Q (fun _ _ => False) -> wpm (onStore base m) s (fun _ _ _ => True) (fun _ _ => False).
Proof.
  unfold wpm, onStore. generalize (m s). intros p. revert Q. induction p as [[a s']|c|e k IH]; intros Q H; [done|done|].
  cbn [interp]. apply wp_bind. eapply wp_mono; [apply storeOp_total|]. intros t o [r ->].
  eapply wp_mono; [apply (IH r (fun a s' t => Q a s' (existT e r :: t))); apply (H r)|]. by intros ? [[? ?]|?].
Qed.

(** What an iteration may do to the store, after [t0]. *)
Definition careful (m : BackupController) (t : btrace) : Prop :=
  guarded change (fun t1 => leads (bc_clientUrls m) t1 /\ due m t1) t /\
  guarded removal (stored_backup (bc_backupStore m)) t.

(** The time of the last backup moves only when one was stored. *)
Definition recorded (m m' : BackupController) (t : btrace) : Prop :=
  bc_lastBackup m' = bc_lastBackup m \/ due m t /\ stored_backup (bc_backupStore m) t.

Lemma quiet_careful m t : Forall (fun x => ~ change x) t -> careful m t.
Proof.
  intros H. split; apply guarded_Forall; [done|]. eapply Forall_impl; [exact H|]. intros x Hx Hr. apply Hx. by left.
Qed.

Lemma maybeBackup_any etcdVersion members m t0 :
  Forall (fun x => ~ change x) t0 -> leads (bc_clientUrls m) t0 ->
  wpm (maybeBackup ret zoneOf etcdVersion members) m
    (fun _ m' t => careful m (t0 ++ t) /\ recorded m m' (t0 ++ t)) (fun _ _ => False).
Proof.
  intros Ht0 (ep & id & Hlead). unfold maybeBackup. apply wpm_bind.
  change (wpm (files (vcall VNow)) m ?Q ?C) with (forall r : time, Q r m [existT (inl (inr VNow) : op BackupSig) r]).
  intros tm. cbv beta. apply wpm_bind, wpm_get. cbn [app].
  set (x := existT (inl (inr VNow) : op BackupSig) tm : exchange BackupSig).
  assert (Forall (fun x => ~ change x) (t0 ++ [x])) as Hx.
  { apply Forall_app. split; [done|]. apply Forall_singleton. intros [[]|(? & ? & [=])]. }
  destruct (bc_backupInterval m <? timeSub tm (bc_lastBackup m)) eqn:Hint; cbn [negb].
  2: { apply wpm_ret. split; [by apply quiet_careful|by left]. }
  apply Z.ltb_lt in Hint.
  assert (forall t, leads (bc_clientUrls m) ((t0 ++ [x]) ++ t) /\ due m ((t0 ++ [x]) ++ t)) as Hmet.
  { intros t. split; [exists ep, id|exists tm; split; [|done]]; rewrite !elem_of_app; [by left; left|].
    left. right. by left. }
  assert (forall t t', Forall (fun x => ~ removal x) t -> (t' <> [] -> stored_backup (bc_backupStore m) t) ->
    careful m ((t0 ++ [x]) ++ t ++ t')) as Hcare.
  { intros t t' Ht Ht'. destruct (quiet_careful m _ Hx) as [H1 H2]. split.
    - apply guarded_app; [done|]. apply guarded_const. intros t1. apply Hmet.
    - apply guarded_app; [done|]. apply guarded_app; [by apply guarded_Forall|].
      destruct t' as [|y t']; [apply guarded_nil|]. apply guarded_const. intros t1.
      eapply stored_backup_mono; [|by apply Ht']. intros z Hz. rewrite !elem_of_app. auto. }
  apply wpm_bind. eapply wpm_mono; [apply doClusterBackup_any| |done].
  intros r m' t ([n ->] & Hrem & Hst). destruct r as [b|e].
  2: { apply wpm_ret. change (x :: t ++ []) with ([x] ++ t ++ []). rewrite app_assoc. split; [by apply Hcare|by left]. }
  specialize (Hst b eq_refl). apply wpm_bind, wpm_modify. cbn [app]. apply wpm_bind.
  apply wpm_viaL, wpm_viaR, wpm_zoom.
  eapply wpm_mono; [eapply wpm_onStore, MaybeDoBackupMaintenance_spec| |done].
  intros r c t' _. apply wpm_ret. rewrite app_nil_r.
  set (t2 := exL <$> (exR <$> t')). change (x :: t ++ t2) with ([x] ++ t ++ t2). rewrite app_assoc.
  split; [apply Hcare; auto|]. right. split; [apply Hmet|].
  eapply stored_backup_mono; [|exact Hst]. intros z Hz. rewrite !elem_of_app. auto.
Qed.

Lemma LocalNodeInfo_any c (s : BackupController) :
  wpm (LocalNodeInfo c) s (fun r s' t => s' = s /\ (c <> [] -> r <> Ok None) /\
      (r = Ok (Some true) -> exists ep id, existT (EStatus c ep : op EtcdSig) (Ok (id, id)) ∈ t))
    (fun _ _ => False).
Proof.
  unfold LocalNodeInfo. apply wpm_bind.
  eapply wpm_mono; [apply (wpm_for_each
    (fun seen (acc : result (option bool)) s' t => s' = s /\ (seen <> [] -> acc <> Ok None) /\ acc <> Ok (Some true))
    (fun (b : bool) s' t => s' = s /\ (b = true -> exists ep id, existT (EStatus c ep : op EtcdSig) (Ok (id, id)) ∈ t))
    (fun _ _ => False) c _ [] (Ok None) s [])| |done].
  - done.
  - intros seen ep acc s1 t (-> & _ & _) _. wpm_step. wpm_step. destruct r as [[mid leader]|e]; wpm_step; cbn.
    + split; [done|]. intros ->%Z.eqb_eq. exists ep, leader. apply elem_of_app. right. by left.
    + done.
  - intros [acc|b] s' t.
    + intros (-> & H1 & H2). apply wpm_ret. split; [done|]. by split.
    + intros (-> & H). apply wpm_ret. rewrite app_nil_r. split; [done|]. split; [done|]. intros [= ->]. by apply H.
Qed.

(** A program that only talks to etcd. *)
Lemma etcd_quiet {A} (R : A -> trace EtcdSig -> Prop) (p : EM BackupController A) s :
  wpm p s (fun a s' t => s' = s /\ R a t) (fun _ _ => False) ->
  wpm (etcd p) s (fun a s' t => s' = s /\ Forall (fun x => ~ change x) t /\ exists t', t = exL <$> (exL <$> t') /\ R a t')
    (fun _ _ => False).
Proof.
  intros H. apply wpm_viaL, wpm_viaL. eapply wpm_mono; [exact H| |done]. intros a s' t [-> HR].
  split; [done|]. split; [|by eexists]. rewrite !Forall_fmap. apply Forall_true. intros [e r] [[]|(? & ? & [=])].
Qed.

Lemma ServerVersion_any c (s : BackupController) :
  wpm (ServerVersion parseVersion c) s (fun _ s' t => s' = s /\ True) (fun _ _ => False).
Proof.
  unfold ServerVersion. apply wpm_bind.
  eapply wpm_mono; [apply (wpm_for_each (fun _ _ s' _ => s' = s) (fun _ s' _ => s' = s) (fun _ _ => False) c _ [] tt s [])
    | |done]; [done| |].
  - intros seen ep [] s1 t -> _. wpm_step. wpm_step. destruct r; wpm_step; [|done]. by destruct (parseVersion t0).
  - intros [?|?] s' t; intros ->; by apply wpm_ret.
Qed.

Lemma runBackup_any m :
  wpm (runBackup ret zoneOf parseVersion) m (fun _ m' t => careful m t /\ recorded m m' t) (fun _ _ => False).
Proof.
  unfold runBackup. apply wpm_bind, wpm_get. cbv zeta. cbn [app]. set (urls := bc_clientUrls m).
  assert (forall t, Forall (fun x => ~ change x) t -> careful m t /\ recorded m m t) as Hquiet
    by (intros t Ht; split; [by apply quiet_careful|by left]).
  apply wpm_bind. eapply wpm_mono; [apply (etcd_quiet (fun r _ => r = None -> urls <> []))| |done].
  { unfold newClient. destruct urls; wpm_steps; done. }
  intros c s' t1 (-> & Ht1 & t1' & _ & Hne). destruct c as [e|]; [apply wpm_ret; rewrite app_nil_r; by apply Hquiet|].
  specialize (Hne eq_refl). apply wpm_bind. eapply wpm_mono; [apply etcd_quiet, ServerVersion_any| |done].
  intros v s' t2 (-> & Ht2 & _). assert (Forall (fun x => ~ change x) (t1 ++ t2)) as H12 by (by apply Forall_app).
  destruct v as [v|e]; [|apply wpm_ret; rewrite app_nil_r; by apply Hquiet].
  wpm_step. wpm_step. set (x := existT (inr (MList urls) : op BackupSig) r).
  assert (Forall (fun x => ~ change x) ((t1 ++ t2) ++ [x])) as H3.
  { apply Forall_app. split; [done|]. apply Forall_singleton. intros [[]|(? & ? & [=])]. }
  destruct r as [members|e].
  2: { apply wpm_bind. eapply wpm_mono; [apply (etcd_quiet (fun _ _ => True)); by wpm_step| |done].
       intros c s' t4 (-> & Ht4 & _). apply wpm_ret. rewrite app_nil_r, !app_assoc. apply Hquiet. by apply Forall_app. }
  apply wpm_bind. eapply wpm_mono; [apply (etcd_quiet (fun r t' => (urls <> [] -> r <> Ok None) /\
      (r = Ok (Some true) -> exists ep id, existT (EStatus urls ep : op EtcdSig) (Ok (id, id)) ∈ t'))), LocalNodeInfo_any| |done].
  intros self s' t4 (-> & Ht4 & t4' & E4 & Hnil & Hlead). specialize (Hnil Hne).
  apply wpm_bind. eapply wpm_mono; [apply (etcd_quiet (fun _ _ => True)); by wpm_step| |done].
  intros c s' t5 (-> & Ht5 & _).
  set (t0 := ((t1 ++ t2) ++ [x]) ++ t4 ++ t5).
  assert (Forall (fun x => ~ change x) t0) as Ht0
    by (apply Forall_app; split; [done|by apply Forall_app]).
  assert (forall t, t1 ++ t2 ++ [x] ++ t4 ++ t5 ++ t = t0 ++ t) as E by (intros t; unfold t0; by rewrite <- !app_assoc).
  destruct self as [[b|]|e].
  - apply wpm_bind, wpm_ret. destruct b.
    + eapply wpm_mono; [apply (maybeBackup_any v members m t0 Ht0)| |done].
      * destruct (Hlead eq_refl) as (ep & id & Hin). exists ep, id. unfold t0. rewrite !elem_of_app. right. left.
        rewrite E4, <- list_fmap_compose. apply list_elem_of_fmap. eexists. split; [|exact Hin]. done.
      * intros r m' t H. cbn [app]. change (x :: t4 ++ t5 ++ t) with ([x] ++ t4 ++ t5 ++ t). by rewrite E.
    + apply wpm_ret. cbn [app]. change (x :: t4 ++ t5 ++ []) with ([x] ++ t4 ++ t5 ++ []). rewrite E, app_nil_r. by apply Hquiet.
  - done.
  - apply wpm_ret. cbn [app]. change (x :: t4 ++ t5 ++ []) with ([x] ++ t4 ++ t5 ++ []). rewrite E, app_nil_r. by apply Hquiet.
Qed.
End AnyEnvironment.

(** ** Theorems *)

(** C25: the controller is careful, in every environment.  It changes the store only
    after the etcd of the node has said, in the same iteration, that it leads, and
    after the clock showed that more than the interval has passed since the last
    backup; it removes backups only after it has stored the metadata of a new one;
    and the time of the last backup moves only with a backup that was stored.
    However many iterations there are, it does not crash. *)
Theorem backup_controller_careful `{!Codec BackupInfo} ret zoneOf parseVersion m n :
  wpm (runBackup ret zoneOf parseVersion) m (fun _ m' t => careful m t /\ recorded m m' t) (fun _ _ => False) /\
  wpm (RunBackups ret zoneOf parseVersion n) m (fun _ _ _ => True) (fun _ _ => False).
Proof.
  split; [apply runBackup_any|]. revert m. induction n as [|n IH]; intros m; [done|]. cbn [RunBackups].
  apply wpm_bind. eapply wpm_mono; [apply runBackup_any| |done]. intros r m' t _. apply IH.
Qed.

(** C26: backups are made.  When the etcd of the node leads and the interval has
    passed since the last backup, the next iteration of the controller makes a
    backup: it returns without error, records its time, and the store has the
    snapshot and its metadata under the next name; the cleanup that the same
    iteration may run, by any retention, does not remove them. *)
Theorem leader_makes_backup `{!Codec BackupInfo} ret zoneOf parseVersion order tmp id version members
    m d etcdVersion
  (Hbase : cleanPath (bc_backupStore m)) (Htmp : cleanPath (tmp "")) (Hseq : 0 <= bc_sequence m < 1000000)
  (Hyear : fourDigitYear (d_now d)) (Hurls : bc_clientUrls m <> [])
  (Hparse : parseVersion version = Some etcdVersion) (Hversion : etcdVersion <> "")
  (Hjson : is_Some (ToJson (timedInfo (d_now d) (backupInfo members etcdVersion))))
  (Hclock : clock_ok ret (d_now d)) (Hdue : bc_backupInterval m < timeSub (d_now d) (bc_lastBackup m)) :
  evm (leaderWorld order tmp id version members) (runBackup ret zoneOf parseVersion) m d (fun r m' d' =>
    let base := bc_backupStore m in
    let name := backupName (d_now d) (pad6 (nextSequence (bc_sequence m))) in
    r = None /\ bc_lastBackup m' = d_now d /\ bc_sequence m' = nextSequence (bc_sequence m) /\
    d_files d' !! metaPath base name = ToJson (timedInfo (d_now d) (backupInfo members etcdVersion)) /\
    d_files d' !! dataPath base name = Some (d_snapshot d)).
Proof.
  destruct Hjson as [json Hj]. eapply runBackup_leads; [done|done|].
  eapply evm_mono; [by apply (maybeBackup_reliable order tmp id version members ret zoneOf etcdVersion json)|].
  intros r m' d' (-> & H1 & H2 & H3 & H4). rewrite Hj. done.
Qed.

Module ControllerBackupDemo.
Definition parseVersion (body : string) : option string := if String.eqb body "v" then Some "3.4.13" else None.
#[local] Instance info_eq_dec' : EqDecision BackupInfo.
Proof. solve_decision. Defined.
Definition theInfo : BackupInfo := timedInfo StoreDemo.noon (backupInfo ["n1"] "3.4.13").
#[export] Instance info_codec' : Codec BackupInfo := StoreDemo.tableCodec [(theInfo, "info")] eq_refl eq_refl.
Definition controller : BackupController :=
  mkBackupController "main" BackupDemo.base ["http://127.0.0.1:4001"] zeroTime (15 * Minute) NewBackupCleanup 0.
Definition before : disk := mkDisk StoreDemo.noon ∅ ∅ "snapshot".
End ControllerBackupDemo.

Lemma leader_makes_backup_witness :
  let d := ControllerBackupDemo.before in
  evm (leaderWorld [] BackupDemo.tmp 7 "v" ["n1"])
    (runBackup (Codec0 := ControllerBackupDemo.info_codec') defaultRetention (fun _ _ _ => xH)
       ControllerBackupDemo.parseVersion) ControllerBackupDemo.controller d (fun r m' d' =>
    r = None /\ bc_lastBackup m' = StoreDemo.noon /\
    d_files d' !! dataPath BackupDemo.base (backupName StoreDemo.noon "000001") = Some "snapshot").
Proof.
  eapply evm_mono; [apply (leader_makes_backup (Codec0 := ControllerBackupDemo.info_codec') defaultRetention
    (fun _ _ _ => xH) ControllerBackupDemo.parseVersion [] BackupDemo.tmp 7 "v" ["n1"] ControllerBackupDemo.controller
    ControllerBackupDemo.before "3.4.13" BackupDemo.backups_clean BackupDemo.tmp_clean)|].
  - cbn. lia.
  - exact StoreDemo.noon_year.
  - discriminate.
  - vm_compute. reflexivity.
  - discriminate.
  - exists "info". vm_compute. reflexivity.
  - vm_compute. repeat split; discriminate.
  - vm_compute. reflexivity.
  - intros r m' d' (Hr & Hl & _ & _ & Hd). split; [exact Hr|]. split; [exact Hl|]. exact Hd.
Defined.
