(* ===== verification/Locking.v ===== *)
(** * The leader lock: pkg/locking

    Two locks on a file: [FSContentLock] (fs.go) writes a record of its holder
    into the file, with a checksum; [FSFlockLock] (flock.go) asks the kernel for
    an advisory lock.  Both implement the interface [Lock] of interfaces.go,
    here a class; clients that share a lock are a pool of processes that run its
    operations one system call at a time, in any interleaving.

    The environment is a relation: every system call can fail, and the clock
    shows anything.  A file descriptor is a number that is not used twice.  The
    JSON encoding of a [LockInfo] and the hexadecimal SHA-256 digest are
    parameters. *)

From stdpp Require Import base list strings relations.
From Stdlib Require Import Ascii.
From S2P Require Import Prelude Effects GoLib GoTime Vfs CommandStore.

Local Open Scope Z_scope.

(** ** System calls *)

Inductive lock_op : Type :=
| LContextErr                                 (* ctx.Err() *)
| LNow
| LOpen (create : bool)                       (* os.OpenFile, with or without O_CREATE *)
| LReadAll (fd : nat)
| LTruncate (fd : nat)                        (* f.Truncate(0) *)
| LWriteAt (fd : nat) (data : string)         (* f.WriteAt(data, 0) *)
| LSync (fd : nat)
| LClose (fd : nat)
| LFlock (fd : nat)                           (* LOCK_EX|LOCK_NB *)
| LFunlock (fd : nat).                        (* LOCK_UN *)

(** The answer of flock: done, held elsewhere, or another error. *)
Inductive flock_result := FlockOk | WouldBlock | FlockErr (e : error).

Definition lock_res (e : lock_op) : Type :=
  match e with
  | LNow => time
  | LOpen _ => result nat
  | LReadAll _ => result string
  | LFlock _ => flock_result
  | _ => option error
  end.

Definition LockSig : sig := Sig lock_op lock_res.
#[export] Instance LockSig_now : HasNow LockSig :=
  {| now_op := LNow : op LockSig; now_time := fun r => r |}.

Abbreviation LM := (M LockSig unit).
Abbreviation lcall e := (@call LockSig unit e).

(** ** interfaces.go *)

Class Lock (Guard : Type) := {
  Acquire : string -> LM (result (option Guard));
  Release : Guard -> LM (option error);
}.

(** ** info.go and fs.go *)

Record LockInfo := mkLockInfo { Lock_Holder : string; Lock_Timestamp : Z }.

(** The file of a guard is closed and its path is the one of the lock. *)
Record FSContentLockGuard := mkContentGuard { cg_data : string; cg_id : string }.

(** [klog.Fatalf] when the file cannot be closed. *)
Definition closeOrDie (fd : nat) : LM unit :=
  c ← lcall (LClose fd);
  match c with
  | Some _ => die (Fatal "error closing lock file")
  | None => mret tt
  end.

Section Content.
Context `{!Codec LockInfo} (hexSha256 : string -> string).

Definition LF : ascii := "010".

Definition lockBytes (b : string) : string := hexSha256 b +:+ String LF b.

(** Whether the contents of the file are a record of a holder. *)
Definition heldBy (fileBytes : string) : option LockInfo :=
  match cut LF fileBytes with
  | None => None
  | Some (sum, b) => if String.eqb sum (hexSha256 b) then FromJson b else None
  end.

(** Write the record and flush it; on failure try to clear the file. *)
Definition writeLock (fd : nat) (data : string) : LM (option error) :=
  w ← lcall (LWriteAt fd data);
  e ← match w with
      | Some e => mret (Some e)
      | None => lcall (LSync fd)
      end;
  match e with
  | Some _ => lcall (LTruncate fd) ≫= fun _ => mret tt
  | None => mret tt
  end ≫= fun _ =>
  closeOrDie fd ≫= fun _ => mret e.

(** What [Acquire] does with the open file. *)
Definition acquireFile (fd : nat) (data id : string) : LM (result (option FSContentLockGuard)) :=
  r ← lcall (LReadAll fd);
  match r with
  | Err _ => closeOrDie fd ≫= fun _ => mret (Err "error reading lock file")
  | Ok fileBytes =>
      let write :=
        e ← writeLock fd data;
        match e with
        | Some _ => mret (Err "error creating lock file")
        | None => mret (Ok (Some (mkContentGuard data id)))
        end in
      if String.eqb fileBytes "" then write
      else
        match heldBy fileBytes with
        | Some _ => closeOrDie fd ≫= fun _ => mret (Ok None)
        | None =>
            t ← lcall (LTruncate fd);
            match t with
            | Some _ =>
                closeOrDie fd ≫= fun _ => mret (Err "failed to truncate file after failed read")
            | None => write
            end
        end
  end.

Definition contentAcquire (id : string) : LM (result (option FSContentLockGuard)) :=
  c ← lcall LContextErr;
  match c with
  | Some e => mret (Err e)
  | None =>
      t ← now;
      match ToJson (mkLockInfo id (Unix t)) with
      | None => mret (Err "error serializing lock info")
      | Some b =>
          f ← lcall (LOpen true);
          match f with
          | Err _ => mret (Err "error creating lock file")
          | Ok fd => acquireFile fd (lockBytes b) id
          end
      end
  end.

Definition contentRelease (g : FSContentLockGuard) : LM (option error) :=
  f ← lcall (LOpen false);
  match f with
  | Err _ => mret (Some "error opening file")
  | Ok fd =>
      r ← lcall (LReadAll fd);
      match r with
      | Err _ => closeOrDie fd ≫= fun _ => mret (Some "error reading lock file")
      | Ok fileBytes =>
          if negb (String.eqb fileBytes (cg_data g)) then
            closeOrDie fd ≫= fun _ => mret (Some "lock file changed")
          else
            t ← lcall (LTruncate fd);
            match t with
            | Some _ =>
                closeOrDie fd ≫= fun _ => mret (Some "failed to truncate file after failed write")
            | None =>
                c ← lcall (LClose fd);
                match c with
                | Some _ => mret (Some "error closing file as part of unlock")
                | None => mret None
                end
            end
      end
  end.

#[export] Instance FSContentLock : Lock FSContentLockGuard :=
  {| Acquire := contentAcquire; Release := contentRelease |}.
End Content.

(** ** flock.go *)

Record FSFlockLockGuard := mkFlockGuard { fg_file : nat }.

Definition flockAcquire (id : string) : LM (result (option FSFlockLockGuard)) :=
  c ← lcall LContextErr;
  match c with
  | Some e => mret (Err e)
  | None =>
      f ← lcall (LOpen true);
      match f with
      | Err _ => mret (Err "error opening lock file")
      | Ok fd =>
          r ← lcall (LFlock fd);
          match r with
          | FlockOk => mret (Ok (Some (mkFlockGuard fd)))
          | WouldBlock => lcall (LClose fd) ≫= fun _ => mret (Ok None)
          | FlockErr _ =>
              lcall (LClose fd) ≫= fun _ => mret (Err "unexpected result from flock")
          end
      end
  end.

Definition flockRelease (g : FSFlockLockGuard) : LM (option error) :=
  r ← lcall (LFunlock (fg_file g));
  match r with
  | Some _ => lcall (LClose (fg_file g)) ≫= fun _ => mret (Some "unexpected result from flock")
  | None =>
      c ← lcall (LClose (fg_file g));
      match c with
      | Some _ => mret (Some "unexpected result from closing lock file")
      | None => mret None
      end
  end.

#[export] Instance FSFlockLock : Lock FSFlockLockGuard :=
  {| Acquire := flockAcquire; Release := flockRelease |}.

(** ** The lock file *)

Record lockfile := mkLockfile {
  lf_content : option string;                 (* [None]: there is no file *)
  lf_flock : option nat;                      (* the descriptor that has the lock *)
  lf_next : nat;                              (* descriptors from here on are unused *)
}.

Definition set_content (c : string) (w : lockfile) : lockfile :=
  mkLockfile (Some c) (lf_flock w) (lf_next w).

(** The contents after [data] is written at offset 0. *)
Definition overlay (data old : string) : string := data +:+ drop_str (String.length data) old.

(** Closing a descriptor drops its lock. *)
Definition unlock (fd : nat) (w : lockfile) : lockfile :=
  mkLockfile (lf_content w) (if decide (lf_flock w = Some fd) then None else lf_flock w) (lf_next w).

(** [serves e w r w']: the call [e] on [w] can answer [r] and leave [w'].  A call
    that fails leaves the file alone, except that a failed write may have
    written a part and a failed close may have closed. *)
Definition serves (e : lock_op) (w : lockfile) : lock_res e -> lockfile -> Prop :=
  match e with
  | LContextErr | LNow | LSync _ => fun _ w' => w' = w
  | LOpen create => fun r w' =>
      match r with
      | Ok fd =>
          (create = true \/ is_Some (lf_content w)) /\ fd = lf_next w /\
          w' = mkLockfile (Some (default "" (lf_content w))) (lf_flock w) (S fd)
      | Err _ => w' = w
      end
  | LReadAll _ => fun r w' =>
      w' = w /\ match r with Ok c => lf_content w = Some c | Err _ => True end
  | LTruncate _ => fun r w' =>
      match r with None => w' = set_content "" w | Some _ => w' = w end
  | LWriteAt _ data => fun r w' =>
      exists c, lf_content w = Some c /\
        match r with
        | None => w' = set_content (overlay data c) w
        | Some _ => exists n, w' = set_content (overlay (take_str n data) c) w
        end
  | LClose fd => fun r w' => w' = unlock fd w \/ (r <> None /\ w' = w)
  | LFlock fd => fun r w' =>
      match r with
      | FlockOk => (lf_flock w = None \/ lf_flock w = Some fd) /\
                   w' = mkLockfile (lf_content w) (Some fd) (lf_next w)
      | WouldBlock => w' = w /\ exists fd', lf_flock w = Some fd' /\ fd' <> fd
      | FlockErr _ => w' = w
      end
  | LFunlock fd => fun r w' => match r with None => w' = unlock fd w | Some _ => w' = w end
  end.

(** ** Clients of a lock *)

Section Clients.
Context {Guard : Type} `{!Lock Guard}.

(** What a client is doing.  A client that has called [Release] no longer
    counts as a holder, whatever the answer. *)
Inductive client :=
| Idle
| Acquiring (p : prog LockSig (result (option Guard) * unit))
| Holding (g : Guard)
| Releasing (p : prog LockSig (option error * unit)).

Definition pool : Type := list client * lockfile.

(** One client goes on by one system call, or takes or gives up the lock. *)
Inductive step : pool -> pool -> Prop :=
| step_acquire cs w i id :
    cs !! i = Some Idle -> step (cs, w) (<[i := Acquiring (Acquire id tt)]> cs, w)
| step_acquire_call cs w i e k r w' :
    cs !! i = Some (Acquiring (Vis e k)) -> serves e w r w' ->
    step (cs, w) (<[i := Acquiring (k r)]> cs, w')
| step_acquired cs w i g :
    cs !! i = Some (Acquiring (Ret (Ok (Some g), tt))) -> step (cs, w) (<[i := Holding g]> cs, w)
| step_refused cs w i a :
    cs !! i = Some (Acquiring (Ret (a, tt))) -> (forall g, a <> Ok (Some g)) ->
    step (cs, w) (<[i := Idle]> cs, w)
| step_release cs w i g :
    cs !! i = Some (Holding g) -> step (cs, w) (<[i := Releasing (Release g tt)]> cs, w)
| step_release_call cs w i e k r w' :
    cs !! i = Some (Releasing (Vis e k)) -> serves e w r w' ->
    step (cs, w) (<[i := Releasing (k r)]> cs, w')
| step_released cs w i a :
    cs !! i = Some (Releasing (Ret (a, tt))) -> step (cs, w) (<[i := Idle]> cs, w)
| step_died cs w i c :
    (cs !! i = Some (Acquiring (Crash c)) \/ cs !! i = Some (Releasing (Crash c))) ->
    step (cs, w) (<[i := Idle]> cs, w).

(** Clients that start with a file that nobody has locked. *)
Definition started (x : pool) : Prop :=
  Forall (fun c => c = Idle) (fst x) /\ lf_flock (snd x) = None.

Definition exclusive (x : pool) : Prop :=
  forall i j g g', fst x !! i = Some (Holding g) -> fst x !! j = Some (Holding g') -> i = j.

(** The same clients when calls of [Acquire] and [Release] are not interleaved:
    only one client at a time is in the middle of a call. *)
Definition busy (c : client) : Prop :=
  match c with Acquiring _ | Releasing _ => True | Idle | Holding _ => False end.

Definition calm (x : pool) : Prop :=
  forall i j c c', fst x !! i = Some c -> fst x !! j = Some c' -> busy c -> busy c' -> i = j.

Definition atomic_step (x y : pool) : Prop := step x y /\ calm y.
End Clients.
Arguments client : clear implicits.
Arguments pool : clear implicits.

(** ** flock: exclusive in every interleaving *)

(** What a client knows of its descriptor. *)
Inductive fdstate := NoFd | Opened (fd : nat) | Locked (fd : nat).

Definition fdOf (s : fdstate) : option nat :=
  match s with NoFd => None | Opened fd | Locked fd => Some fd end.

(** The calls a client may make in a state, and the state it is in afterwards. *)
Definition enabled (s : fdstate) (e : lock_op) : Prop :=
  match e with
  | LContextErr | LOpen _ => True
  | LFlock fd | LFunlock fd | LClose fd => fdOf s = Some fd
  | _ => False
  end.

Definition next (s : fdstate) (e : lock_op) : lock_res e -> fdstate :=
  match e with
  | LOpen _ => fun r => match r with Ok fd => Opened fd | Err _ => NoFd end
  | LFlock fd => fun r => match r with FlockOk => Locked fd | _ => Opened fd end
  | LFunlock fd | LClose fd => fun _ => Opened fd
  | _ => fun _ => s
  end.

(** The rest [p] of an operation keeps to this protocol and ends in [Q]. *)
Fixpoint follows {A} (p : prog LockSig A) (s : fdstate) (Q : A -> fdstate -> Prop) : Prop :=
  match p with
  | Ret a => Q a s
  | Crash _ => True
  | Vis e k => enabled s e /\ forall r : lock_res e, follows (k r) (next s e r) Q
  end.

Definition acquiredAs (a : result (option FSFlockLockGuard) * unit) (s : fdstate) : Prop :=
  forall g, fst a = Ok (Some g) -> s = Locked (fg_file g).

Lemma flockAcquire_follows id : follows (flockAcquire id tt) NoFd acquiredAs.
Proof.
  split; [done|]. intros [e|]; [by intros g|]. split; [done|].
  intros [fd|e]; [|by intros g]. split; [done|].
  intros [| |e]; [by intros g [= <-]|split; [done|]; by intros r g..].
Qed.

Lemma flockRelease_follows g : follows (flockRelease g tt) (Locked (fg_file g)) (fun _ _ => True).
Proof. split; [done|]. intros [e|]; (split; [done|]); by intros [e'|]. Qed.

Definition clientOk (c : client FSFlockLockGuard) (s : fdstate) : Prop :=
  match c with
  | Idle => s = NoFd
  | Acquiring p => follows p s acquiredAs
  | Holding g => s = Locked (fg_file g)
  | Releasing p => follows p s (fun _ _ => True)
  end.

(** Descriptors belong to one client each, and who believes to have the lock
    has it. *)
Record pool_inv (x : pool FSFlockLockGuard) (st : nat -> fdstate) : Prop := {
  inv_client : forall i c, fst x !! i = Some c -> clientOk c (st i);
  inv_distinct : forall i j fd, fdOf (st i) = Some fd -> fdOf (st j) = Some fd -> i = j;
  inv_used : forall i fd, fdOf (st i) = Some fd -> (fd < lf_next (snd x))%nat;
  inv_locked : forall i fd, st i = Locked fd -> lf_flock (snd x) = Some fd;
}.

Definition setAt (i : nat) (s : fdstate) (st : nat -> fdstate) (j : nat) : fdstate :=
  if decide (j = i) then s else st j.
Lemma setAt_eq i s st : setAt i s st i = s.
Proof. unfold setAt. by rewrite decide_True. Qed.
Lemma setAt_ne i j s st : j <> i -> setAt i s st j = st j.
Proof. intros. unfold setAt. by rewrite decide_False. Qed.

(** Client [i] moves to [c'] and the state [s']. *)
Lemma pool_inv_move cs w w' i c' s' st :
  pool_inv (cs, w) st -> clientOk c' s' ->
  (lf_next w <= lf_next w')%nat ->
  (forall fd, fdOf s' = Some fd ->
     (fd < lf_next w')%nat /\ (fdOf (st i) = Some fd \/ (lf_next w <= fd)%nat)) ->
  (forall fd, s' = Locked fd -> lf_flock w' = Some fd) ->
  (forall j fd, j <> i -> st j = Locked fd -> lf_flock w' = Some fd) ->
  pool_inv (<[i := c']> cs, w') (setAt i s' st).
Proof.
  intros [Hc Hd Hu Hl] Hc' Hn Hs Hs' Hoth. cbn in *.
  assert (forall a fd, a <> i -> fdOf (setAt i s' st a) = Some fd ->
    fdOf (setAt i s' st i) = Some fd -> False) as Hclash.
  { intros a fd Hai Ha Hb. rewrite setAt_eq in Hb. rewrite setAt_ne in Ha by done.
    destruct (Hs fd Hb) as [_ [Hb'|Hb']]; [by apply Hai, (Hd a i fd)|].
    specialize (Hu a fd Ha). lia. }
  split; cbn.
  - intros j c Hj. destruct (decide (j = i)) as [->|Hne].
    + rewrite setAt_eq. assert (i < length cs)%nat as Hi.
      { apply lookup_lt_Some in Hj. by rewrite length_insert in Hj. }
      rewrite list_lookup_insert_eq in Hj by done. by injection Hj as <-.
    + rewrite setAt_ne by done. rewrite list_lookup_insert_ne in Hj by done. by apply Hc.
  - intros a b fd Ha Hb. destruct (decide (a = i)) as [->|Hai], (decide (b = i)) as [->|Hbi]; [done|..].
    + destruct (Hclash b fd); auto.
    + destruct (Hclash a fd); auto.
    + rewrite !setAt_ne in Ha, Hb by done. eauto.
  - intros a fd Ha. destruct (decide (a = i)) as [->|Hai].
    + rewrite setAt_eq in Ha. by apply Hs.
    + rewrite setAt_ne in Ha by done. specialize (Hu a fd Ha). lia.
  - intros a fd Ha. destruct (decide (a = i)) as [->|Hai].
    + rewrite setAt_eq in Ha. auto.
    + rewrite setAt_ne in Ha by done. eauto.
Qed.

(** One system call of client [i]. *)
Lemma pool_inv_call cs w i e (r : lock_res e) w' c' st :
  pool_inv (cs, w) st -> enabled (st i) e -> serves e w r w' -> clientOk c' (next (st i) e r) ->
  pool_inv (<[i := c']> cs, w') (setAt i (next (st i) e r) st).
Proof.
  intros Hinv He Hw Hc'. pose proof Hinv as [_ Hd Hu Hl]. cbn in Hu, Hl.
  assert (forall fd, fdOf (st i) = Some fd -> forall j fd', j <> i -> st j = Locked fd' ->
    lf_flock w = Some fd' /\ fd' <> fd) as Hother.
  { intros fd Hfd j fd' Hj Hlj. split; [eauto|]. intros ->. apply Hj, (Hd j i fd); [by rewrite Hlj|done]. }
  assert (forall fd, fdOf (st i) = Some fd -> forall j fd', j <> i -> st j = Locked fd' ->
    lf_flock (unlock fd w) = Some fd') as Hunlock.
  { intros fd Hfd j fd' Hj Hlj. cbn. destruct (Hother fd Hfd j fd' Hj Hlj) as [-> Hne].
    rewrite decide_False; [done|]. congruence. }
  destruct e as [| |create|?|?|?|?|fd|fd|fd]; try done; cbn in *.
  - subst w'. apply (pool_inv_move cs w w); eauto.
  - destruct r as [fd|err]; [destruct Hw as (_ & -> & ->)|subst w'];
      apply (pool_inv_move cs w); cbn; try done; eauto with lia.
    intros fd [= <-]. auto with lia.
  - apply (pool_inv_move cs w); try done; destruct Hw as [->|[_ ->]]; cbn; try done;
      try (intros fd' [= <-]; by eauto); intros j fd' Hj Hlj;
      [by apply (Hunlock fd He j)|by apply (Hother fd He j)].
  - destruct r as [| |err]; [destruct Hw as [Hf ->]|destruct Hw as [-> _]|subst w'];
      apply (pool_inv_move cs w); cbn; try done; try (intros fd' [= <-]; by eauto);
      intros j fd' Hj Hlj; destruct (Hother fd He j fd' Hj Hlj) as [E Hne]; [|done..].
    rewrite E in Hf. destruct Hf as [|[= ?]]; congruence.
  - destruct r as [err|]; subst w'; apply (pool_inv_move cs w); cbn; try done;
      try (intros fd' [= <-]; by eauto); intros j fd' Hj Hlj;
      [by apply (Hother fd He j)|by apply (Hunlock fd He j)].
Qed.

(** A move of client [i] without a call. *)
Lemma pool_inv_local cs w i c' s' st :
  pool_inv (cs, w) st -> clientOk c' s' -> s' = NoFd \/ s' = st i ->
  exists st', pool_inv (<[i := c']> cs, w) st'.
Proof.
  intros Hinv Hc' Hs. exists (setAt i s' st). pose proof Hinv as [_ _ Hu Hl]. cbn in Hu, Hl.
  apply (pool_inv_move cs w w); try done; destruct Hs as [->| ->]; try done; eauto.
Qed.

Lemma pool_inv_step x y st : pool_inv x st -> step x y -> exists st', pool_inv y st'.
Proof.
  intros Hinv Hstep. destruct Hstep as
    [cs w i id Hi|cs w i e k r w' Hi Hw|cs w i g Hi|cs w i a Hi Ha|cs w i g Hi|cs w i e k r w' Hi Hw
    |cs w i a Hi|cs w i c Hi];
    try (pose proof (inv_client _ _ Hinv i _ Hi) as Hc; cbn in Hc).
  - eapply pool_inv_local; [done|apply flockAcquire_follows|by left].
  - destruct Hc as [He Hk]. eexists. apply (pool_inv_call cs w i e r w'); [done|done|done|apply Hk].
  - assert (st i = Locked (fg_file g)) as Hst by (by apply Hc).
    eapply pool_inv_local; [done|exact eq_refl|by right; rewrite Hst].
  - eapply pool_inv_local; [done|exact eq_refl|by left].
  - eapply pool_inv_local; [done|apply flockRelease_follows|by right].
  - destruct Hc as [He Hk]. eexists. apply (pool_inv_call cs w i e r w'); [done|done|done|apply Hk].
  - eapply pool_inv_local; [done|exact eq_refl|by left].
  - eapply pool_inv_local; [done|exact eq_refl|by left].
Qed.

Lemma pool_inv_exclusive x st : pool_inv x st -> exclusive x.
Proof.
  intros Hinv i j g g' Hi Hj.
  pose proof (inv_client _ _ Hinv i _ Hi) as Ei. pose proof (inv_client _ _ Hinv j _ Hj) as Ej.
  cbn in Ei, Ej. pose proof (inv_locked _ _ Hinv i _ Ei) as Li.
  pose proof (inv_locked _ _ Hinv j _ Ej) as Lj. rewrite Li in Lj. injection Lj as Lj.
  apply (inv_distinct _ _ Hinv i j (fg_file g)); [by rewrite Ei|by rewrite Ej, Lj].
Qed.

Lemma pool_inv_started x : started x -> pool_inv x (fun _ => NoFd).
Proof.
  intros [Hx _]. split; try done. intros i c Hi. by rewrite Forall_lookup in Hx; rewrite (Hx i c Hi).
Qed.

(** ** The content lock: exclusive when calls are not interleaved *)

(** [p], run from [w] without interruption, ends in [Q]. *)
Fixpoint solo {A} (p : prog LockSig A) (w : lockfile) (Q : outcome A -> lockfile -> Prop) : Prop :=
  match p with
  | Ret a => Q (Done a) w
  | Crash c => Q (Crashed c) w
  | Vis e k => forall (r : lock_res e) w', serves e w r w' -> solo (k r) w' Q
  end.

Lemma solo_mono {A} (p : prog LockSig A) w (Q Q' : outcome A -> lockfile -> Prop) :
  solo p w Q -> (forall o w', Q o w' -> Q' o w') -> solo p w Q'.
Proof. revert w. induction p; simpl; intros w Hp HQ; eauto. Qed.

Lemma solo_bind {A B} (m : LM A) (f : A -> LM B) w Q :
  solo (m tt) w (fun o w' => match o with
                             | Done (a, _) => solo (f a tt) w' Q
                             | Crashed c => Q (Crashed c) w'
                             end) -> solo ((m ≫= f) tt) w Q.
Proof.
  unfold mbind, M_bind. generalize (m tt). intros p. revert w.
  induction p as [[a []]|c|e k IH]; simpl; intros w Hp; auto.
Qed.

(** The calls that leave the contents alone. *)
Lemma serves_close_content fd w r w' :
  serves (LClose fd) w r w' -> lf_content w' = lf_content w.
Proof. by intros [->|[_ ->]]. Qed.

Lemma solo_close fd w (Q : outcome (unit * unit) -> lockfile -> Prop) :
  (forall w', lf_content w' = lf_content w ->
     Q (Done (tt, tt)) w' /\ Q (Crashed (Fatal "error closing lock file")) w') ->
  solo (closeOrDie fd tt) w Q.
Proof.
  intros HQ. cbn. intros [e|] w' Hw%serves_close_content; cbn; by apply HQ.
Qed.

Lemma solo_conj {A} (p : prog LockSig A) w (Q Q' : outcome A -> lockfile -> Prop) :
  solo p w Q -> solo p w Q' -> solo p w (fun o w' => Q o w' /\ Q' o w').
Proof. revert w. induction p as [a|c|e k IH]; simpl; intros w H H'; eauto. Qed.

Lemma solo_forall {A X} (p : prog LockSig A) w (Q : X -> outcome A -> lockfile -> Prop) :
  (forall x, solo p w (Q x)) -> solo p w (fun o w' => forall x, Q x o w').
Proof. revert w. induction p as [a|c|e k IH]; simpl; intros w H; eauto. Qed.

Lemma solo_call (e : lock_op) w (Q : outcome (lock_res e * unit) -> lockfile -> Prop) :
  (forall r w', serves e w r w' -> Q (Done (r, tt)) w') -> solo (lcall e tt) w Q.
Proof. done. Qed.

Lemma solo_ret {A} (a : A) w (Q : outcome (A * unit) -> lockfile -> Prop) :
  Q (Done (a, tt)) w -> solo ((mret a : LM A) tt) w Q.
Proof. done. Qed.

Ltac solo_step :=
  lazymatch goal with
  | |- solo (mbind _ _ _) _ _ => apply solo_bind
  | |- solo (closeOrDie _ _) _ _ => apply solo_close; intros ? ?; split
  | |- solo (@call _ _ ?e _) ?w ?Q => refine (solo_call e w Q _); intros ? ? ?
  | |- solo (mret _ _) _ _ => apply solo_ret
  | |- solo (now _) _ _ => unfold now
  end; cbn beta iota.

Lemma drop_str_nil n : drop_str n "" = "".
Proof. by destruct n. Qed.

Ltac case_json b :=
  match goal with |- context [@ToJson ?A ?C ?x] => destruct (@ToJson A C x) as [b|] eqn:Hb end.

Section ContentProofs.
Context `{!Codec LockInfo} (hexSha256 : string -> string).
Hypothesis hex_no_LF : forall b, contains_byte (hexSha256 b) LF = false.
Abbreviation acq := (contentAcquire hexSha256).
Abbreviation held := (heldBy hexSha256).

Lemma heldBy_lockBytes b info : ToJson info = Some b -> held (lockBytes hexSha256 b) = Some info.
Proof.
  intros Hb. unfold heldBy, lockBytes. rewrite cut_app by apply hex_no_LF.
  rewrite String.eqb_refl. by apply FromJson_ToJson.
Qed.

Lemma heldBy_nonempty c : is_Some (held c) -> c <> "".
Proof. by intros [? ?] ->. Qed.

Lemma overlay_empty data : overlay data "" = data.
Proof. unfold overlay. rewrite drop_str_nil. apply string_app_nil_r. Qed.

Lemma writeLock_solo fd data w :
  lf_content w = Some "" ->
  solo (writeLock fd data tt) w (fun o w' => o = Done (None, tt) -> lf_content w' = Some data).
Proof.
  intros Hw. unfold writeLock. do 3 solo_step. destruct r as [e|].
  - repeat solo_step; done.
  - destruct H as (c & Hc & ->). rewrite Hw in Hc. injection Hc as <-. solo_step. cbn in H. subst w'.
    destruct r as [e|]; repeat solo_step; try done. cbn in *. intros _. by rewrite H, overlay_empty.
Qed.

(** A file that names a holder is left alone, and the lock is refused. *)
Lemma acquire_held id c w :
  lf_content w = Some c -> is_Some (held c) ->
  solo (acq id tt) w (fun o w' =>
    lf_content w' = Some c /\ forall g u, o <> Done (Ok (Some g), u)).
Proof.
  intros Hw Hc. unfold contentAcquire. do 2 solo_step. cbn in H. subst w'.
  destruct r as [e|]; [by solo_step|]. do 5 solo_step. cbn in H. subst w'.
  case_json b; [|by solo_step]. do 2 solo_step.
  destruct r0 as [fd|e]; [|cbn in H; subst w'; by solo_step].
  destruct H as (_ & -> & ->). rewrite Hw. cbn [default]. unfold acquireFile. do 2 solo_step.
  destruct H as [-> Hr]. destruct r0 as [c'|e].
  - injection Hr as <-. rewrite (proj2 (String.eqb_neq c "")) by (by apply heldBy_nonempty).
    destruct Hc as [info Hi]. rewrite Hi. by repeat solo_step.
  - by repeat solo_step.
Qed.

(** A guard is returned only when the file names its holder. *)
Lemma acquire_free id w :
  solo (acq id tt) w (fun o w' => forall g u, o = Done (Ok (Some g), u) ->
    lf_content w' = Some (cg_data g) /\ is_Some (held (cg_data g))).
Proof.
  unfold contentAcquire. do 2 solo_step.
  destruct r as [e|]; [by solo_step|]. do 5 solo_step.
  case_json b; [|by solo_step]. do 2 solo_step.
  destruct r0 as [fd|e]; [|by solo_step]. unfold acquireFile. do 2 solo_step.
  destruct H2 as [-> Hr]. destruct r0 as [c|e]; [|by repeat solo_step].
  assert (forall w1, lf_content w1 = Some "" ->
    solo ((e ← writeLock fd (lockBytes hexSha256 b);
           match e with
           | Some _ => mret (Err "error creating lock file")
           | None => mret (Ok (Some (mkContentGuard (lockBytes hexSha256 b) id)))
           end) tt) w1 (fun o w' => forall g u, o = Done (Ok (Some g), u) ->
    lf_content w' = Some (cg_data g) /\ is_Some (held (cg_data g)))) as Hwrite.
  { intros w1 Hw1. solo_step. eapply solo_mono; [by apply writeLock_solo|].
    intros [[[e|] []]|c1] w2 Hw2; [by solo_step| |done]. solo_step. intros g u [= <- <-]. cbn.
    split; [by apply Hw2|]. eexists. by apply heldBy_lockBytes. }
  destruct (String.eqb_spec c "") as [->|Hne]; [by apply Hwrite|].
  destruct (heldBy _ c); [by repeat solo_step|]. do 2 solo_step.
  destruct r0 as [e|]; [by repeat solo_step|]. cbn in H2. subst. by apply Hwrite.
Qed.

Lemma acquire_solo id w :
  solo (acq id tt) w (fun o w' =>
    (forall c, lf_content w = Some c -> is_Some (held c) ->
       lf_content w' = Some c /\ forall g u, o <> Done (Ok (Some g), u)) /\
    (forall g u, o = Done (Ok (Some g), u) ->
       lf_content w' = Some (cg_data g) /\ is_Some (held (cg_data g)))).
Proof.
  apply solo_conj; [|apply acquire_free].
  apply solo_forall. intros c. apply solo_forall. intros Hc. apply solo_forall. intros Hv.
  by apply acquire_held.
Qed.

#[local] Instance contentLock : Lock FSContentLockGuard := FSContentLock hexSha256.
Abbreviation cclient := (client FSContentLockGuard).

(** *** The clients of the lock *)

Definition holders_ok (cs : list cclient) (w : lockfile) : Prop :=
  forall j g, cs !! j = Some (Holding g) ->
    lf_content w = Some (cg_data g) /\ is_Some (held (cg_data g)).
Definition no_holder (cs : list cclient) : Prop := forall j g, cs !! j <> Some (Holding g).
Definition quiet_but (i : nat) (cs : list cclient) : Prop :=
  forall j c, j <> i -> cs !! j = Some c -> ~ busy c.

(** What is true while the only client that may be in a call is at [c]. *)
Definition moment (cs : list cclient) (w : lockfile) (c : cclient) : Prop :=
  match c with
  | Acquiring p => solo p w (fun o w' => holders_ok cs w' /\
      forall g u, o = Done (Ok (Some g), u) ->
        no_holder cs /\ lf_content w' = Some (cg_data g) /\ is_Some (held (cg_data g)))
  | Releasing _ => no_holder cs
  | Idle | Holding _ => holders_ok cs w
  end.

Definition content_inv (x : pool FSContentLockGuard) : Prop :=
  exclusive x /\ forall i c, fst x !! i = Some c -> quiet_but i (fst x) -> moment (fst x) (snd x) c.

Definition holding (c : cclient) : bool := match c with Holding _ => true | _ => false end.

Lemma lookup_insert_cases (cs : list cclient) i c' j c :
  <[i := c']> cs !! j = Some c -> (j = i /\ c = c') \/ (j <> i /\ cs !! j = Some c).
Proof. intros [(-> & <- & _)|[]]%list_lookup_insert_Some; auto. Qed.

(** The holders do not change when a client that does not hold the lock moves. *)
Lemma same_holders (cs : list cclient) i c c' j g :
  cs !! i = Some c -> holding c = false -> holding c' = false ->
  <[i := c']> cs !! j = Some (Holding g) <-> cs !! j = Some (Holding g).
Proof.
  intros Hi Hc Hc'. split.
  - intros [[-> <-]|[_ H]]%lookup_insert_cases; [done|done].
  - intros H. rewrite list_lookup_insert_ne; [done|]. intros ->. rewrite Hi in H.
    by injection H as ->.
Qed.

Lemma content_inv_move (cs : list cclient) w' i c c' :
  cs !! i = Some c -> quiet_but i cs -> exclusive (<[i := c']> cs, w') ->
  moment (<[i := c']> cs) w' c' -> content_inv (<[i := c']> cs, w').
Proof.
  intros Hi Hq Hx Hm. split; [done|]. cbn. intros j d [[-> ->]|[Hne Hj]]%lookup_insert_cases Hqj; [done|].
  assert (~ busy d) as Hd by (by apply (Hq j)). assert (~ busy c') as Hc'.
  { apply (Hqj i); [done|]. apply list_lookup_insert_eq. by eapply lookup_lt_Some. }
  destruct c', d; try done; cbn in *; tauto.
Qed.

Lemma exclusive_same (cs : list cclient) w w' i c c' :
  cs !! i = Some c -> holding c = false -> holding c' = false -> exclusive (cs, w) ->
  exclusive (<[i := c']> cs, w').
Proof.
  intros Hi Hc Hc' Hx a b g g' Ha Hb. cbn in *. rewrite same_holders in Ha, Hb by done.
  by apply (Hx a b g g').
Qed.

Lemma moment_acquire (cs : list cclient) w i id :
  cs !! i = Some Idle -> holders_ok cs w ->
  moment (<[i := Acquiring (acq id tt)]> cs) w (Acquiring (acq id tt)).
Proof.
  intros Hi Hh. cbn. eapply solo_mono; [apply acquire_solo|].
  cbn. intros o w' [Hheld Hfree]. split.
  - intros j g Hj. rewrite (same_holders cs i Idle) in Hj by done.
    destruct (Hh j g Hj) as [Hc Hv]. destruct (Hheld _ Hc Hv) as [Hc' _]. by split.
  - intros g u ->. split; [|by apply (Hfree g u)]. intros j g' Hj.
    rewrite (same_holders cs i Idle) in Hj by done. destruct (Hh j g' Hj) as [Hc Hv].
    destruct (Hheld _ Hc Hv) as [_ Hno]. by apply (Hno g u).
Qed.

(** In a calm pool nobody else is in a call while one client is, before or after
    its move. *)
Lemma quiet_before (cs : list cclient) w i c : calm (cs, w) -> cs !! i = Some c -> busy c -> quiet_but i cs.
Proof. intros Hcalm Hi Hb j d Hne Hj Hd. by apply Hne, (Hcalm j i d c). Qed.
Lemma quiet_after (cs : list cclient) w i c c' :
  calm (<[i := c']> cs, w) -> cs !! i = Some c -> busy c' -> quiet_but i cs.
Proof.
  intros Hcalm Hi Hb j d Hne Hj Hd. apply Hne, (Hcalm j i d c'); cbn; [|by eapply list_lookup_insert_eq, lookup_lt_Some|done..].
  by rewrite list_lookup_insert_ne.
Qed.

Lemma content_inv_step (x y : pool FSContentLockGuard) : content_inv x -> calm x -> atomic_step x y -> content_inv y.
Proof.
  intros [Hx Hm] Hcx [Hstep Hcy]. destruct Hstep as
    [cs w i id Hi|cs w i e k r w' Hi Hw|cs w i g Hi|cs w i a Hi Ha|cs w i g Hi|cs w i e k r w' Hi Hw
    |cs w i a Hi|cs w i c Hi]; cbn in Hm.
  - pose proof (quiet_after _ _ _ _ _ Hcy Hi I) as Hq. specialize (Hm i _ Hi Hq).
    apply (content_inv_move cs w i Idle); [done|done|by eapply exclusive_same|].
    by apply moment_acquire.
  - pose proof (quiet_before _ _ _ _ Hcx Hi I) as Hq. specialize (Hm i _ Hi Hq).
    apply (content_inv_move cs w' i (Acquiring (Vis e k))); [done|done|by eapply exclusive_same|].
    cbn in *. eapply solo_mono; [by apply Hm|]. cbn. intros o w2 [H1 H2]. split.
    + intros j g Hj. rewrite same_holders in Hj by done. by apply (H1 j).
    + intros g u Ho. destruct (H2 g u Ho) as [H3 H4]. split; [|done].
      intros j g' Hj. rewrite same_holders in Hj by done. by apply (H3 j g').
  - pose proof (quiet_before _ _ _ _ Hcx Hi I) as Hq. specialize (Hm i _ Hi Hq). cbn in Hm.
    destruct Hm as [_ Hm]. destruct (Hm g tt eq_refl) as [Hno Hc].
    assert (forall j g', <[i := Holding g]> cs !! j = Some (Holding g') -> j = i /\ g' = g) as Honly.
    { intros j g' [[-> [= ->]]|[_ Hj]]%lookup_insert_cases; [done|by destruct (Hno j g')]. }
    eapply content_inv_move; [done|done| |].
    + intros a b g1 g2 [-> _]%Honly [-> _]%Honly. done.
    + by intros j g' [-> ->]%Honly.
  - pose proof (quiet_before _ _ _ _ Hcx Hi I) as Hq. specialize (Hm i _ Hi Hq). cbn in Hm.
    eapply content_inv_move; [done|done|by eapply exclusive_same|].
    intros j g Hj. rewrite same_holders in Hj by done. destruct Hm as [Hm _]. by apply (Hm j).
  - pose proof (quiet_after _ _ _ _ _ Hcy Hi I) as Hq.
    assert (no_holder (<[i := Releasing (Release g tt)]> cs)) as Hno.
    { intros j g' [[_ [=]]|[Hne Hj]]%lookup_insert_cases. by apply Hne, (Hx j i g' g). }
    eapply content_inv_move; [done|done| |done]. intros a b g1 g2 Ha. by destruct (Hno a g1).
  - pose proof (quiet_before _ _ _ _ Hcx Hi I) as Hq. specialize (Hm i _ Hi Hq). cbn in Hm.
    eapply content_inv_move; [done|done|by eapply exclusive_same|].
    intros j g Hj. rewrite same_holders in Hj by done. by apply (Hm j g).
  - pose proof (quiet_before _ _ _ _ Hcx Hi I) as Hq. specialize (Hm i _ Hi Hq). cbn in Hm.
    eapply content_inv_move; [done|done|by eapply exclusive_same|].
    intros j g Hj. rewrite same_holders in Hj by done. by destruct (Hm j g).
  - assert (exists d, cs !! i = Some d /\ busy d /\ holding d = false /\ (moment cs w d -> holders_ok cs w))
      as (d & Hd & Hb & Hnh & Hok).
    { destruct Hi as [Hi|Hi]; eexists; (split; [exact Hi|]); (split; [done|]); (split; [done|]);
        cbn; [tauto|]. intros Hno j g Hj. by destruct (Hno j g). }
    pose proof (quiet_before _ _ _ _ Hcx Hd Hb) as Hq. specialize (Hm i _ Hd Hq).
    eapply content_inv_move; [done|done|by eapply exclusive_same|].
    intros j g Hj. rewrite same_holders in Hj by done. by apply (Hok Hm j).
Qed.
End ContentProofs.

(** ** Theorems *)

Lemma pool_inv_steps x y st : pool_inv x st -> rtc step x y -> exists st', pool_inv y st'.
Proof.
  intros Hinv Hsteps. revert st Hinv. induction Hsteps as [x|x y z Hxy _ IH]; intros st Hinv; [eauto|].
  destruct (pool_inv_step _ _ _ Hinv Hxy) as [st' Hinv']. eauto.
Qed.

(** C29: the kernel's lock is exclusive.  Whatever system calls fail, and in
    whatever order the calls of any number of processes that use an
    [FSFlockLock] on one file interleave, at most one of them holds the lock at
    any time. *)
Theorem flock_exclusive (x y : pool FSFlockLockGuard)
  (Hstart : started x) (Hsteps : rtc step x y) : exclusive y.
Proof.
  destruct (pool_inv_steps x y _ (pool_inv_started x Hstart) Hsteps) as [st Hinv].
  by eapply pool_inv_exclusive.
Qed.

Lemma started_calm {G} (x : pool G) : started x -> calm x.
Proof.
  intros [Hx _] i j c c' Hi _ Hb. rewrite Forall_lookup in Hx. by rewrite (Hx i c Hi) in Hb.
Qed.

(** Client [i] makes the next call of its [Acquire], with the answer [a]. *)
Ltac answer i a :=
  eapply rtc_l;
  [ eapply (step_acquire_call _ _ i); [reflexivity|];
    lazymatch goal with |- serves ?e ?w _ ?w' => refine (_ : serves e w a w') end;
    cbn; eauto
  | cbn ].

Section ContentTheorems.
Context `{!Codec LockInfo} (hexSha256 : string -> string).
Hypothesis hex_no_LF : forall b, contains_byte (hexSha256 b) LF = false.
#[local] Instance contentLock' : Lock FSContentLockGuard := FSContentLock hexSha256.

(** The lock by contents is exclusive as long as calls do not overlap.
    Whatever system calls fail (a write may be cut short), if no two processes
    are within a call of [Acquire] or [Release] of an [FSContentLock] at the same
    time, at most one of them holds the lock, and the file then names it. *)
Theorem content_lock_exclusive (x y : pool FSContentLockGuard)
  (Hstart : started x) (Hsteps : rtc atomic_step x y) :
  exclusive y /\
  forall i g, fst y !! i = Some (Holding g) -> Forall (fun c => ~ busy c) (fst y) ->
    lf_content (snd y) = Some (cg_data g).
Proof.
  assert (content_inv hexSha256 y) as [Hx Hm].
  { assert (content_inv hexSha256 x /\ calm x) as [Hinv Hcalm].
    { split; [|by apply started_calm]. destruct Hstart as [Hx _]. rewrite Forall_lookup in Hx.
      split; [intros i j g g' Hi; by apply Hx in Hi|].
      intros i c Hi _. rewrite (Hx i c Hi). intros j g Hj. by apply Hx in Hj. }
    clear Hstart. induction Hsteps as [x|x y z [Hxy Hy] _ IH]; [done|].
    apply IH; [|done]. by eapply content_inv_step. }
  split; [done|]. intros i g Hi Hq. rewrite Forall_lookup in Hq.
  assert (quiet_but i (fst y)) as Hqi by (intros j c _ Hj; by apply (Hq j)).
  by destruct (Hm i _ Hi Hqi i g Hi).
Qed.
(** The lock by contents can be held twice.  Two processes that call [Acquire]
    of an [FSContentLock] at the same time can both read the empty file before
    either writes it; both then hold the lock, and no call has failed. *)
Theorem content_lock_race id1 id2 t b1 b2
  (Hb1 : ToJson (mkLockInfo id1 (Unix t)) = Some b1)
  (Hb2 : ToJson (mkLockInfo id2 (Unix t)) = Some b2) :
  exists y, rtc step ([Idle; Idle], mkLockfile None None 0) y /\
    fst y = [Holding (mkContentGuard (lockBytes hexSha256 b1) id1);
             Holding (mkContentGuard (lockBytes hexSha256 b2) id2)].
Proof.
  eexists. split.
  - eapply rtc_l; [by apply (step_acquire _ _ 0 id1)|]. eapply rtc_l; [by apply (step_acquire _ _ 1 id2)|]. cbn.
    answer 0%nat (@None error). answer 0%nat t. rewrite Hb1. cbn. answer 0%nat (@Ok nat 0%nat). answer 0%nat (@Ok string "").
    answer 1%nat (@None error). answer 1%nat t. rewrite Hb2. cbn. answer 1%nat (@Ok nat 1%nat). answer 1%nat (@Ok string "").
    do 3 (answer 0%nat (@None error)). do 3 (answer 1%nat (@None error)).
    eapply rtc_l; [by eapply (step_acquired _ _ 0)|]. eapply rtc_l; [by eapply (step_acquired _ _ 1)|].
    cbn. apply rtc_refl.
  - reflexivity.
Qed.
End ContentTheorems.

(** ** Instances *)

Module LockDemo.
#[local] Instance info_eq_dec : EqDecision LockInfo.
Proof. solve_decision. Defined.
Definition noon : time := Date 2020 6 11 12 0 0 0.
#[export] Instance info_codec : Codec LockInfo :=
  StoreDemo.tableCodec [(mkLockInfo "a" (Unix noon), "{a}"); (mkLockInfo "b" (Unix noon), "{b}")]
    eq_refl eq_refl.
Definition hex (b : string) : string := "00".
Definition none : lockfile := mkLockfile None None 0.

(** A process has taken the kernel's lock, a second one has been refused. *)
Definition flocked : pool FSFlockLockGuard :=
  ([Holding (mkFlockGuard 0); Idle], mkLockfile (Some "") (Some 0%nat) 2).

Lemma flock_run : rtc step ([Idle; Idle], none) flocked.
Proof.
  eapply rtc_l; [by apply (step_acquire _ _ 0 "a")|]. eapply rtc_l; [by apply (step_acquire _ _ 1 "b")|]. cbn.
  answer 0%nat (@None error). answer 1%nat (@None error). answer 0%nat (@Ok nat 0%nat). answer 1%nat (@Ok nat 1%nat).
  answer 0%nat FlockOk. answer 1%nat WouldBlock. answer 1%nat (@None error).
  eapply rtc_l; [by eapply (step_acquired _ _ 0)|]. eapply rtc_l; [by eapply (step_refused _ _ 1)|].
  apply rtc_refl.
Qed.

#[local] Instance lock : Lock FSContentLockGuard := FSContentLock hex.

(** A process has taken the lock by contents. *)
Definition taken : pool FSContentLockGuard :=
  ([Holding (mkContentGuard (lockBytes hex "{a}") "a"); Idle],
   mkLockfile (Some (lockBytes hex "{a}")) None 1).

Ltac calm_two :=
  intros [|[|?]] [|[|?]] ? ? Hi Hj Hb Hb'; cbn in *; simplify_eq; done.
Ltac answer_calm a :=
  eapply rtc_l;
  [ split;
    [ eapply (step_acquire_call _ _ 0); [reflexivity|];
      lazymatch goal with |- serves ?e ?w _ ?w' => refine (_ : serves e w a w') end; cbn; eauto
    | calm_two ]
  | cbn ].

Lemma content_run : rtc atomic_step ([Idle; Idle], none) taken.
Proof.
  eapply rtc_l; [split; [by apply (step_acquire _ _ 0 "a")|calm_two]|]. cbn.
  answer_calm (@None error). answer_calm noon.
  change (StoreDemo.encode _ _) with (Some "{a}"). cbn. answer_calm (@Ok nat 0%nat). answer_calm (@Ok string "").
  do 3 answer_calm (@None error).
  eapply rtc_l; [split; [by eapply (step_acquired _ _ 0)|calm_two]|]. apply rtc_refl.
Qed.
End LockDemo.
Import LockDemo.

Lemma flock_exclusive_witness :
  fst flocked !! 0%nat = Some (Holding (mkFlockGuard 0)) /\ exclusive flocked.
Proof.
  split; [reflexivity|]. apply (flock_exclusive ([Idle; Idle], none)); [|exact flock_run].
  split; [repeat constructor|reflexivity].
Defined.

Lemma content_lock_exclusive_witness :
  fst taken !! 0%nat = Some (Holding (mkContentGuard (lockBytes hex "{a}") "a")) /\ exclusive taken.
Proof.
  split; [reflexivity|].
  apply (content_lock_exclusive hex (fun b => eq_refl) ([Idle; Idle], none) taken);
    [|exact content_run].
  split; [repeat constructor|reflexivity].
Defined.

Lemma content_lock_race_witness :
  exists y, rtc (step (Lock0 := FSContentLock hex)) ([Idle; Idle], mkLockfile None None 0) y /\
    fst y = [Holding (mkContentGuard (lockBytes hex "{a}") "a");
             Holding (mkContentGuard (lockBytes hex "{b}") "b")].
Proof. apply (content_lock_race hex "a" "b" noon "{a}" "{b}"); vm_compute; reflexivity. Defined.
