(* ===== verification/Restore.v ===== *)
(** * Restoring a backup: pkg/etcd/restore.go

    [DoRestore] downloads a backup, has etcdctl restore the snapshot into a
    temporary directory, runs an etcd on it, copies all of its keys into the
    etcd of this node, and cleans up.

    It uses the backup store ([BackupStore.v], over [VfsSig]), etcd's client
    ([EtcdClient.v], over [EtcdSig]) and the operating system (processes, keys:
    [RunSig] below).  Decompression and the JSON encoding are parameters. *)

From stdpp Require Import base gmap sets list strings pretty.
From S2P Require Import Prelude Effects EffectsSum ProtoEtcd GoLib GoTime Vfs EtcdVersions EtcdClient PrivateApi Binaries EtcdServer EtcdProcess BackupCleanup ClusterState CommandStore BackupStore.

Local Open Scope Z_scope.

(** ** Operations *)

Inductive run_op : Type :=
| RStat (path : string)
| RTempDir                                    (* os.TempDir() *)
| RNewStore (storage : string)                (* backup.NewStore: the path of the store *)
| RNewCA
| RCreateKeypairs (pkiDir : string) (me : EtcdNode)
| RCreate (path : string)                     (* os.Create *)
| RWrite (path data : string)
| RCtlStart (args : list string)              (* start etcdctl *)
| RCtlWait                                    (* wait for it: whether it succeeded *)
| REnviron                                    (* os.Environ() *)
| RExec (p : etcdProcess) (c : command)       (* start etcd, with this command *)
| RStop (p : etcdProcess)                     (* etcdProcess.Stop *)
| RExited (p : etcdProcess)                   (* etcdProcess.ExitState: has it ended? *)
| RSleep.

Definition run_res (e : run_op) : Type :=
  match e with
  | RStat _ => stat_result
  | RTempDir => string
  | REnviron => list string
  | RNewStore _ => result string
  | RCtlWait => result bool
  | RExited _ => bool
  | RSleep => unit
  | _ => option error
  end.

Definition RunSig : sig := Sig run_op run_res.
Definition RestoreSig : sig := VfsSig ⊕ EtcdSig ⊕ RunSig.

#[export] Instance RestoreSig_stat : HasStat RestoreSig :=
  {| stat_op := fun p => inr (RStat p) : op RestoreSig; stat_of := fun _ r => r |}.

Abbreviation RM := (M RestoreSig EtcdServer).
Abbreviation rcall e := (@call RestoreSig EtcdServer (inr e)).

(** Programs over the backup store and over etcd. *)
Definition store {A} (m : VM EtcdServer A) : RM A := viaL (viaL m).
Definition kv {A} (m : EM EtcdServer A) : RM A := viaL (viaR m).

Section Restore.
Context {U : Type} `{!UrlLib U}.
Context (cfg : BinConfig) `{!Codec BackupInfo} (gunzip : string -> option (string * bool)).

(** [gzFile.expand] of tar.go.  [gunzip] fails on a bad header, and otherwise
    gives the data up to the end or to the first error in the stream. *)
Definition expand (file destFile : string) : RM (option error) :=
  src ← store (vcall (VOpen file));
  match src with
  | Err _ => mret (Some "error opening source")
  | Ok content =>
      d ← rcall (RCreate destFile);
      match d with
      | Some _ => mret (Some "error opening destination")
      | None =>
          match gunzip content with
          | None => mret (Some "error reading gzip")
          | Some (data, complete) =>
              w ← rcall (RWrite destFile data);
              match w with
              | Some _ => mret (Some "error expanding file")
              | None => mret (if (complete : bool) then None else Some "error expanding file")
              end
          end
      end
  end.

(** [etcdProcess.RestoreV3Snapshot] *)
Definition RestoreV3Snapshot (p : etcdProcess) (snapshotFile : string) : RM (option error) :=
  match findMyNode p with
  | None => mret (Some "unable to find self node")
  | Some me =>
      r ← rcall (RCtlStart (restoreArgs p me snapshotFile));
      match r with
      | Some _ => mret (Some "error running etcdctl snapshot restore")
      | None =>
          x ← rcall RCtlWait;
          match x with
          | Err _ => mret (Some "etcdctl snapshot restore returned an error")
          | Ok success =>
              mret (if (success : bool) then None
                    else Some "etcdctl snapshot restore returned a non-zero exit code")
          end
      end
  end.

(** [etcdProcess.Start]: the command is that of [startCommand], which panics on
    a malformed variable of the manager's own environment. *)
Definition startProcess (p : etcdProcess) : RM (option error) :=
  environ ← rcall REnviron;
  match startCommand environ p with
  | None => die (NilDeref "envPair[1]")
  | Some (Err e) => mret (Some e)
  | Some (Ok c) => rcall (RExec p c)
  end.

(** [etcdProcess.NewClient]: the endpoints of the client. *)
Definition processClient (p : etcdProcess) : RM (result (list string)) :=
  match clientEndpoints p with
  | Err e => mret (Err e)
  | Ok urls =>
      e ← kv (newClient urls);
      mret (match e with Some e => Err e | None => Ok urls end)
  end.

(** The version that is run on a backup of a version. *)
Definition restoreVersion (etcdVersion : string) : string :=
  let restoreWith := EtcdVersionForRestore etcdVersion in
  if String.eqb restoreWith "" then etcdVersion else restoreWith.

(** The node and the process that read the backup. *)
Definition restoreNode : EtcdNode :=
  mkEtcdNode "restore" ["unixs://127.0.0.1:8003"] ["unixs://127.0.0.1:8002"] [] false.

Definition restoreProcess (binDir version basedir : string) : etcdProcess :=
  let dataDir := PathJoin [basedir; "data"] in
  let pkiDir := PathJoin [basedir; "pki"] in
  mkEtcdProcess binDir dataDir version true (mkEtcdCluster 0 (Base dataDir) [restoreNode]) "restore"
    false false "127.0.0.1" [] (pkiSubdir true pkiDir "peers") (pkiSubdir true pkiDir "clients")
    basedir true true.

(** Expand and restore the snapshot, and start etcd on it. *)
Definition startOnSnapshot (p : etcdProcess) (basedir downloadFile : string) : RM (result etcdProcess) :=
  let snapshotFile := PathJoin [basedir; "download"; "snapshot.db"] in
  x ← expand downloadFile snapshotFile;
  match x with
  | Some _ => mret (Err "error expanding snapshot")
  | None =>
      x ← RestoreV3Snapshot p snapshotFile;
      match x with
      | Some e => mret (Err e)
      | None =>
          x ← startProcess p;
          match x with
          | Some _ => mret (Err "error starting etcd")
          | None => mret (Ok p)
          end
      end
  end.

Definition RunEtcdFromBackup (backupStore backupName basedir : string) : RM (result etcdProcess) :=
  i ← store (LoadInfo backupStore backupName);
  match i with
  | Err e => mret (Err e)
  | Ok backupInfo =>
      if HasPrefix (Backup_EtcdVersion backupInfo) "2." then
        mret (Err "this version of etcd-manager does not support etcd v2")
      else
        let downloadFile := PathJoin [basedir; "download"; "snapshot.db.gz"] in
        x ← store (DownloadBackup backupStore backupName downloadFile);
        match x with
        | Some _ => mret (Err "error restoring backup")
        | None =>
            let etcdVersion := restoreVersion (Backup_EtcdVersion backupInfo) in
            b ← BindirForEtcdVersion cfg etcdVersion "etcd";
            match b with
            | Err e => mret (Err e)
            | Ok binDir =>
                c1 ← rcall RNewCA;
                match c1 with
                | Some _ => mret (Err "error building CA")
                | None =>
                    c2 ← rcall RNewCA;
                    match c2 with
                    | Some _ => mret (Err "error building CA")
                    | None =>
                        k ← rcall (RCreateKeypairs (PathJoin [basedir; "pki"]) restoreNode);
                        match k with
                        | Some e => mret (Err e)
                        | None => startOnSnapshot (restoreProcess binDir etcdVersion basedir) basedir downloadFile
                        end
                    end
                end
            end
        end
  end.

(** Wait until the source answers, at most 60 times; an error if it has ended. *)
Definition awaitSource (source : etcdProcess) (c : list string) : RM (option error) :=
  r ← for_each (seq 0 60) tt (fun _ _ =>
        g ← kv (Get c "/");
        match g with
        | Ok _ => mret (inr None)
        | Err _ =>
            x ← rcall (RExited source);
            if (x : bool) then mret (inr (Some "source etcd process exited"))
            else rcall RSleep ≫= fun _ => mret (inl tt)
        end);
  mret (match r with inr e => e | inl _ => None end).

Definition copyEtcd (fuel : nat) (source : etcdProcess) (dest : list string) : RM (option error) :=
  c ← processClient source;
  match c with
  | Err _ => mret (Some "error building etcd client")
  | Ok sourceClient =>
      e ← awaitSource source sourceClient;
      r ← match e with
          | Some e => mret (Some e)
          | None =>
              n ← kv (CopyTo (NodeSink0 := clientSink dest) fuel sourceClient);
              mret (match snd n with Some _ => Some "error copying keys" | None => None end)
          end;
      kv (ecall (EClose sourceClient)) ≫= fun _ => mret r
  end.

(** What [DoRestore] does while the temporary directory exists. *)
Definition restoreInto (fuel : nat) (process : etcdProcess) (backupStore backupName tempDir : string)
    : RM (option error) :=
  r ← RunEtcdFromBackup backupStore backupName tempDir;
  match r with
  | Err e => mret (Some e)
  | Ok p =>
      d ← processClient process;
      r ← match d with
          | Err _ => mret (Some "error building etcd client for target")
          | Ok dest =>
              r ← copyEtcd fuel p dest;
              kv (ecall (EClose dest)) ≫= fun _ => mret r
          end;
      rcall (RStop p) ≫= fun _ => mret r
  end.

Definition DoRestore {P} `{!LeaderService P} (fuel : nat) (peerServer : P) (request : DoRestoreRequest)
    : RM (option error) :=
  e ← validateHeader peerServer (DoRestore_Header request);
  match e with
  | Some e => mret (Some e)
  | None =>
      s ← get;
      match es_process s with
      | None => mret (Some "etcd not running")
      | Some process =>
          if String.eqb (DoRestore_Storage request) "" then mret (Some "request Storage is required")
          else if String.eqb (DoRestore_BackupName request) "" then
            mret (Some "request BackupName is required")
          else
            b ← rcall (RNewStore (DoRestore_Storage request));
            match b with
            | Err e => mret (Some e)
            | Ok backupStore =>
                t ← store (vcall VNow);
                tmp ← rcall RTempDir;
                let tempDir := PathJoin [tmp; "restore-etcd-" +:+ pretty (UnixNano t)] in
                m ← store (vcall (VMkdirAll tempDir));
                match m with
                | Some _ => mret (Some "error creating tempdir")
                | None =>
                    r ← restoreInto fuel process backupStore (DoRestore_BackupName request) tempDir;
                    store (vcall (VRemoveAll tempDir)) ≫= fun _ => mret r
                end
            end
      end
  end.
End Restore.
