(* ===== verification/Dump.v ===== *)
(** * Dumping a backup: cmd/etcd-dump, pkg/etcd/dump

    [runDump] starts a temporary etcd on a backup ([Restore.v]) and copies its
    keys ([EtcdClient.v]) to a sink: lines on the standard output, or a tar
    archive, for which the directories above a key have to be made up. *)

From stdpp Require Import base gmap sets list strings pretty.
From Stdlib Require Import Ascii.
From S2P Require Import Prelude Effects EffectsSum ProtoEtcd GoLib GoTime Vfs EtcdVersions EtcdClient PrivateApi Binaries EtcdServer EtcdProcess BackupCleanup ClusterState CommandStore BackupStore Restore.

Local Open Scope Z_scope.

(** ** Operations *)

Inductive dump_op : Type :=
| DCreate (path : string)                                   (* os.Create *)
| DHeader (name : string) (isDir : bool) (size : nat)       (* tar.Writer.WriteHeader *)
| DData (data : string)                                     (* tar.Writer.Write *)
| DCloseTar | DCloseGzip | DCloseFile
| DStdout (text : string).
Definition dump_res (_ : dump_op) : Type := option error.
Definition DumpSig : sig := Sig dump_op dump_res.

(** The directories that are in the archive. *)
Record TarDumpSink := mkTarDumpSink { tar_doneDirs : gset string }.

Abbreviation DM := (M (RestoreSig ⊕ DumpSig) TarDumpSink).
Abbreviation dcall e := (@call (RestoreSig ⊕ DumpSig) TarDumpSink (inr e)).

(** ** dumpsink.go *)

(** The recursion of the code has no bound: running out of [fuel] stands for
    running out of stack. *)
Fixpoint ensureDirs (fuel : nat) (p : string) : DM (option error) :=
  match fuel with
  | O => die OutOfFuel
  | S fuel' =>
      if String.eqb p "" || String.eqb p "/" then mret None
      else
        s ← get;
        if bool_decide (p ∈ tar_doneDirs s) then mret None
        else
          e ← ensureDirs fuel' (Dir p);
          match e with
          | Some e => mret (Some e)
          | None =>
              let name := if HasSuffix p "/" then p else p +:+ "/" in
              e ← dcall (DHeader (TrimPrefix name "/") true 0);
              match e with
              | Some _ => mret (Some "error writing tar header")
              | None => modify (fun s => mkTarDumpSink ({[p]} ∪ tar_doneDirs s)) ≫= fun _ => mret None
              end
          end
  end.

Definition Put_tar (fuel : nat) (key value : string) : DM (option error) :=
  e ← ensureDirs fuel (Dir key);
  match e with
  | Some e => mret (Some e)
  | None =>
      e ← dcall (DHeader (TrimPrefix key "/") false (String.length value));
      match e with
      | Some _ => mret (Some "error writing tar header")
      | None =>
          if Nat.eqb (String.length value) 0 then mret None
          else
            e ← dcall (DData value);
            mret (match e with Some _ => Some "error writing tar data" | None => None end)
      end
  end.

Definition NewTarDumpSink (p : string) : DM (option error) :=
  e ← dcall (DCreate p);
  match e with
  | Some _ => mret (Some "unable to create file")
  | None => modify (fun _ => mkTarDumpSink ∅) ≫= fun _ => mret None
  end.

(** The last error is the one that is reported. *)
Definition Close_tar : DM (option error) :=
  e1 ← dcall DCloseTar;
  e2 ← dcall DCloseGzip;
  e3 ← dcall DCloseFile;
  mret (match e3, e2, e1 with
        | Some _, _, _ => Some "error closing file"
        | _, Some _, _ => Some "error closing gzip"
        | _, _, Some _ => Some "error closing tar"
        | _, _, _ => None
        end).

(** ** streamdumpsink.go *)

Definition newline : string := bytes [10%nat].

Definition Put_stream (key value : string) : DM (option error) :=
  if String.eqb key "/" then mret None
  else
    e ← dcall (DStdout (TrimPrefix key "/" +:+ " => " +:+ value +:+ newline));
    mret (match e with Some _ => Some "error writing to output" | None => None end).

(** A sink: how to open it, put a key and close it. *)
Record sink := mkSink {
  sink_open : DM (option error);
  sink_put : string -> string -> DM (option error);
  sink_close : DM (option error);
}.
Definition tarSink (fuel : nat) (out : string) : sink := mkSink (NewTarDumpSink out) (Put_tar fuel) Close_tar.
Definition streamSink : sink := mkSink (mret None) Put_stream (mret None).
Definition sinkFor (fuel : nat) (out : string) : sink :=
  if String.eqb out "" then streamSink else tarSink fuel out.

(** ** cmd/etcd-dump *)

Section Dump.
Context {U : Type} `{!UrlLib U}.
Context (cfg : BinConfig) `{!Codec BackupInfo} (gunzip : string -> option (string * bool)).
(** The operations of [Restore.v] are methods of a package that a node server
    uses, too; there is no server here, and they do not use one. *)
Context (srv : EtcdServer).

Definition restoring {A} (m : M RestoreSig EtcdServer A) : DM A :=
  fun s => bind (interp onL (m srv)) (fun '(a, _) => Ret (a, s)).
Definition dumpKv {A} (m : EM TarDumpSink A) : DM A := viaL (viaL (viaR m)).

(** While the temporary etcd runs. *)
Definition dumpProcess (fuel : nat) (process : etcdProcess) (out : string) : DM (option error) :=
  let k := sinkFor fuel out in
  e ← sink_open k;
  match e with
  | Some _ => mret (Some (if String.eqb out "" then "unable to create stream" else "unable to create file"))
  | None =>
      c ← restoring (processClient process);
      match c with
      | Err _ => mret (Some "error building etcd client")
      | Ok sourceClient =>
          e ← restoring (awaitSource process sourceClient);
          r ← (match e with
               | Some _ => mret (Some "etcd process exited")
               | None =>
                   n ← CopyToSink (NodeSink0 := (sink_put k : NodeSink (RestoreSig ⊕ DumpSig) TarDumpSink)) (@dumpKv) fuel sourceClient;
                   match snd n with
                   | Some _ => mret (Some "error copying keys to sink")
                   | None => sink_close k
                   end
               end);
          dumpKv (ecall (EClose sourceClient)) ≫= fun _ => mret r
      end
  end.

(** The store and the name of the backup in it. *)
Definition splitBackup (backupFile : string) : option (string * string) :=
  let f := TrimSuffix backupFile "/" in
  match last_index "/" f with
  | None => None
  | Some i => Some (String.substring 0 i f, drop_str (S i) f)
  end.

Definition runDump (fuel : nat) (backupFile out : string) : DM (option error) :=
  match splitBackup backupFile with
  | None => mret (Some "expected slash")
  | Some (backupStoreBase, backupName) =>
      b ← restoring (rcall (RNewStore backupStoreBase));
      match b with
      | Err e => mret (Some e)
      | Ok backupStore =>
          t ← restoring (store (vcall VNow));
          tmp ← restoring (rcall RTempDir);
          let tempDir := PathJoin [tmp; "restore-etcd-" +:+ pretty (UnixNano t)] in
          m ← restoring (store (vcall (VMkdirAll tempDir)));
          match m with
          | Some _ => mret (Some "error creating tempdir")
          | None =>
              p ← restoring (RunEtcdFromBackup cfg gunzip backupStore backupName tempDir);
              r ← (match p with
                   | Err e => mret (Some e)
                   | Ok process =>
                       r ← dumpProcess fuel process out;
                       restoring (rcall (RStop process)) ≫= fun _ => mret r
                   end);
              restoring (store (vcall (VRemoveAll tempDir))) ≫= fun _ => mret r
          end
      end
  end.
End Dump.

(** ** Paths from the root *)

Definition absPath (cs : list string) : string := "/" +:+ Join cs "/".

Lemma clean_components_rooted comps stack :
  Forall (fun c => contains_byte c "/" = false) comps -> forallb plain stack = true ->
  forallb plain (clean_components true comps stack) = true.
Proof.
  revert stack. induction comps as [|c comps IH]; intros stack Hc Hs.
  { cbn. rewrite forallb_forall in *. intros x Hx. apply Hs. apply list_elem_of_In in Hx. apply list_elem_of_In. set_solver. }
  apply Forall_cons in Hc as [Hc Hcs]. cbn [clean_components].
  destruct (String.eqb c "") eqn:E1; [by apply IH|]. destruct (String.eqb c ".") eqn:E2; [by apply IH|]. cbn [orb].
  destruct (String.eqb c "..") eqn:E3.
  - destruct stack as [|top stack]; [by apply IH|]. cbn in Hs. apply andb_true_iff in Hs as [Ht Hs].
    destruct (String.eqb_spec top "..") as [->|_]; [done|]. by apply IH.
  - apply IH; [done|]. cbn. rewrite Hs, andb_true_r. unfold plain. by rewrite E1, E2, E3, Hc.
Qed.

Lemma Clean_of_rooted s :
  HasPrefix s "/" = true -> exists cs, forallb plain cs = true /\ Clean s = absPath cs.
Proof.
  intros Hs. unfold Clean. destruct (String.eqb_spec s "") as [->|_]; [done|]. rewrite Hs.
  eexists. split; [|reflexivity]. by apply clean_components_rooted; [apply Split_no_sep|].
Qed.

Lemma upto_slash_prefix s : HasPrefix s "/" = true -> HasPrefix (upto_slash s) "/" = true.
Proof.
  destruct s as [|c s]; [done|]. change (Ascii.eqb "/" c && HasPrefix s "" = true -> HasPrefix (upto_slash (String c s)) "/" = true).
  intros [Hc _]%andb_true_iff. apply Ascii.eqb_eq in Hc as <-. apply (HasPrefix_app "/" (upto_slash s)).
Qed.

Lemma Dir_rooted k : HasPrefix k "/" = true -> exists cs, forallb plain cs = true /\ Dir k = absPath cs.
Proof. intros H. by apply Clean_of_rooted, upto_slash_prefix. Qed.

Lemma upto_slash_app a c : contains_byte c "/" = false -> upto_slash (a +:+ "/" +:+ c) = a +:+ "/".
Proof.
  intros Hc. assert (upto_slash c = "") as Hu by (destruct c; [done|]; cbn [upto_slash]; by rewrite Hc).
  induction a as [|x a IH].
  - cbn. by rewrite Hu.
  - change (String x a +:+ "/" +:+ c) with (String x (a +:+ "/" +:+ c)). cbn [upto_slash].
    assert (contains_byte (String x (a +:+ "/" +:+ c)) "/" = true) as ->.
    { clear. cbn. apply orb_true_iff. right. induction a as [|y a IH]; [done|]. cbn. rewrite IH. apply orb_true_r. }
    by rewrite IH.
Qed.

(** The directory above a directory. *)
Lemma Dir_abs cs c : forallb plain (cs ++ [c]) = true -> Dir (absPath (cs ++ [c])) = absPath cs.
Proof.
  rewrite forallb_app. cbn [forallb]. rewrite andb_true_r. intros [Hcs Hc]%andb_true_iff.
  pose proof (plain_no_slash _ Hc) as Hs. unfold Dir. destruct cs as [|x cs].
  - exact (f_equal Clean (upto_slash_app "" c Hs)).
  - transitivity (Clean (Join ("" :: (x :: cs) ++ [""]) "/")).
    { apply (f_equal Clean). transitivity (("/" +:+ Join (x :: cs) "/") +:+ "/").
      - rewrite <- (upto_slash_app ("/" +:+ Join (x :: cs) "/") c Hs). apply (f_equal upto_slash). unfold absPath.
        rewrite (Join_app (x :: cs) [c]) by done. reflexivity.
      - change ("" :: (x :: cs) ++ [""]) with ([""] ++ (x :: cs) ++ [""]). by rewrite (Join_app [""]), Join_app by done. }
    unfold Clean. rewrite Split_Join.
    2: done.
    2:{ constructor; [done|]. apply Forall_app. split; [by apply plain_Forall|by repeat constructor]. }
    assert (forall stack, clean_components true ((x :: cs) ++ [""]) stack = clean_components true (x :: cs) stack) as Hcc.
    { generalize (x :: cs). intros l. induction l as [|y l IH]; intros stack; [done|]. cbn.
      destruct (_ || _); [done|]. destruct (String.eqb y ".."); [|done]. destruct stack as [|top stack]; [done|].
      by destruct (String.eqb top ".."). }
    assert (HasPrefix (Join ("" :: (x :: cs) ++ [""]) "/") "/" = true) as -> by (exact (HasPrefix_app "/" _)).
    change (clean_components true ("" :: (x :: cs) ++ [""]) []) with (clean_components true ((x :: cs) ++ [""]) []).
    rewrite Hcc, clean_components_plain by done. done.
Qed.

Lemma absPath_inj cs cs' : forallb plain cs = true -> forallb plain cs' = true -> absPath cs = absPath cs' -> cs = cs'.
Proof.
  intros H1 H2 E. assert (Join cs "/" = Join cs' "/") as E' by (by injection E). clear E.
  destruct cs as [|c cs], cs' as [|c' cs']; [done|..].
  - destruct (Join_plain_nonempty (c' :: cs')) as (x & s & E & _); [done|done|]. by rewrite E in E'.
  - destruct (Join_plain_nonempty (c :: cs)) as (x & s & E & _); [done|done|]. by rewrite E in E'.
  - rewrite <- (Split_Join "/" (c :: cs)), <- (Split_Join "/" (c' :: cs')) by (try done; by apply plain_Forall). by rewrite E'.
Qed.

(** ** The directories of an archive *)

Abbreviation DumpT := (trace (RestoreSig ⊕ DumpSig)).
Abbreviation dx e r := (@existT (op (RestoreSig ⊕ DumpSig)) (@res (RestoreSig ⊕ DumpSig)) (inr e) r).

Definition dirEntry (p : string) : dump_op :=
  DHeader (TrimPrefix (if HasSuffix p "/" then p else p +:+ "/") "/") true 0.
Definition fileEntry (k v : string) : dump_op := DHeader (TrimPrefix k "/") false (String.length v).

(** The entries of directories that were written. *)
Definition dirOf (x : exchange (RestoreSig ⊕ DumpSig)) : option dump_op :=
  match x with
  | existT (inr (DHeader n true z)) None => Some (DHeader n true z)
  | _ => None
  end.
Definition dirs (t : DumpT) : list dump_op := omap dirOf t.

(** [q] is the directory [cs], or one above it. *)
Definition onPath (cs : list string) (q : string) : Prop := exists cs1 cs2, cs = cs1 ++ cs2 /\ cs1 <> [] /\ q = absPath cs1.

(** After [t]: a directory is marked as done exactly if its entry was written,
    which was once, and then those above it are done, too. *)
Record tarInv (s : TarDumpSink) (t : DumpT) : Prop := {
  ti_entries : exists l, NoDup l /\ (forall p, p ∈ tar_doneDirs s <-> p ∈ l) /\ dirs t = dirEntry <$> l;
  ti_paths p : p ∈ tar_doneDirs s -> exists cs, cs <> [] /\ forallb plain cs = true /\ p = absPath cs /\
    forall q, onPath cs q -> q ∈ tar_doneDirs s;
}.

Lemma tarInv_other s t t' : dirs t' = [] -> tarInv s t -> tarInv s (t ++ t').
Proof.
  intros Ht' [(l & Hl & Hd & Ht) Hp]. split; [|done]. exists l. split; [done|]. split; [done|].
  unfold dirs in *. by rewrite omap_app, Ht, Ht', app_nil_r.
Qed.

Lemma onPath_snoc cs c q : onPath (cs ++ [c]) q <-> onPath cs q \/ q = absPath (cs ++ [c]).
Proof.
  split.
  - intros (cs1 & cs2 & E & Hne & ->). destruct (decide (cs2 = [])) as [->|Hne2]; [right; by rewrite app_nil_r in E; subst|].
    destruct (exists_last Hne2) as (cs3 & x & ->). rewrite app_assoc in E. apply app_inj_tail in E as [-> ->].
    left. by exists cs1, cs3.
  - intros [(cs1 & cs2 & -> & Hne & ->)| ->]; [exists cs1, (cs2 ++ [c]); by rewrite app_assoc|].
    exists (cs ++ [c]), []. split; [by rewrite app_nil_r|]. split; [by destruct cs|done].
Qed.

(** A directory whose parents are done is added. *)
Lemma tarInv_add s t cs c :
  forallb plain (cs ++ [c]) = true -> absPath (cs ++ [c]) ∉ tar_doneDirs s ->
  (forall q, onPath cs q -> q ∈ tar_doneDirs s) -> tarInv s t ->
  tarInv (mkTarDumpSink ({[absPath (cs ++ [c])]} ∪ tar_doneDirs s)) (t ++ [dx (dirEntry (absPath (cs ++ [c]))) None]).
Proof.
  intros Hpl Hnew Hpar [(l & Hl & Hd & Ht) Hp]. split.
  - exists (l ++ [absPath (cs ++ [c])]). split; [|split].
    + apply NoDup_app. split; [done|]. split; [|apply NoDup_singleton]. intros x Hx ->%list_elem_of_singleton.
      by apply Hnew, Hd.
    + intros q. cbn. rewrite elem_of_app, list_elem_of_singleton, <- Hd. set_solver.
    + unfold dirs in *. by rewrite omap_app, Ht, fmap_app.
  - intros q [->%elem_of_singleton|Hq]%elem_of_union; cbn.
    + exists (cs ++ [c]). split; [by destruct cs|]. split; [done|]. split; [done|].
      intros q [Hq| ->]%onPath_snoc; [apply elem_of_union_r; auto|set_solver].
    + destruct (Hp q Hq) as (cs' & H1 & H2 & H3 & H4). exists cs'. do 3 (split; [done|]). intros q' Hq'.
      apply elem_of_union_r. auto.
Qed.

Lemma absPath_not_root cs : cs <> [] -> forallb plain cs = true -> String.eqb (absPath cs) "" || String.eqb (absPath cs) "/" = false.
Proof.
  intros Hne Hpl. destruct (Join_plain_nonempty cs Hne Hpl) as (x & s & E & _). unfold absPath. by rewrite E.
Qed.

(** In every environment: the directories on the path, without a crash. *)
Lemma ensureDirs_spec fuel cs s t0 :
  forallb plain cs = true -> (length cs < fuel)%nat -> tarInv s t0 ->
  wpm (ensureDirs fuel (absPath cs)) s
    (fun r s' t => tarInv s' (t0 ++ t) /\ Forall (fun x => exists p r, x = dx (dirEntry p) r) t /\
       (forall q, q ∈ tar_doneDirs s' -> q ∈ tar_doneDirs s \/ onPath cs q) /\
       (r = None -> forall q, onPath cs q -> q ∈ tar_doneDirs s'))
    (fun _ _ => False).
Proof.
  revert cs s t0. induction fuel as [|fuel IH]; intros cs s t0 Hpl Hf Hinv; [lia|]. cbn [ensureDirs].
  destruct (decide (cs = [])) as [->|Hne].
  { change (String.eqb (absPath []) "" || String.eqb (absPath []) "/") with true. cbn iota.
    wpm_step. rewrite app_nil_r. split; [done|]. split; [constructor|]. split; [auto|].
    intros _ q (cs1 & cs2 & E & Hne & _). by destruct cs1. }
  rewrite absPath_not_root by done. destruct (exists_last Hne) as (cs' & c & ->).
  do 2 wpm_step. case_bool_decide as Hdone.
  { wpm_step. rewrite app_nil_r. split; [done|]. split; [constructor|]. split; [auto|]. intros _ q Hq.
    destruct (ti_paths _ _ Hinv _ Hdone) as (cs2 & _ & Hpl2 & E & H). apply absPath_inj in E as <-; auto. }
  rewrite Dir_abs by done. pose proof Hpl as Hpl'. rewrite forallb_app in Hpl'. apply andb_true_iff in Hpl' as [Hpl' _].
  rewrite length_app in Hf. cbn in Hf. wpm_step. eapply wpm_mono; [apply (IH cs' s t0); [done|lia|done]| |done].
  intros r s1 t (Hi & Ht & Hsub & Hall). destruct r as [e|].
  { wpm_step. cbn [app]. rewrite app_nil_r. split; [done|]. split; [done|]. split; [|done]. intros q Hq.
    destruct (Hsub q Hq); [by left|]. right. apply onPath_snoc. by left. }
  specialize (Hall eq_refl). do 2 wpm_step. cbn [app].
  assert (Forall (fun x => exists p r, x = dx (dirEntry p) r) (t ++ [dx (dirEntry (absPath (cs' ++ [c]))) r])) as Ht'.
  { apply Forall_app. split; [done|]. apply Forall_singleton. by eexists _, _. }
  destruct r as [e|].
  - wpm_step. split; [rewrite app_assoc; by apply tarInv_other|]. split; [done|]. split; [|done].
    intros q Hq. destruct (Hsub q Hq); [by left|]. right. apply onPath_snoc. by left.
  - do 3 wpm_step. cbn [app]. split; [|split; [done|split]].
    + rewrite app_assoc. apply tarInv_add; [done| |done|done]. intros [Hq|Hq]%Hsub; [done|].
      destruct Hq as (cs1 & cs2 & -> & Hne1 & E). apply absPath_inj in E; [|done|rewrite forallb_app in Hpl'; by apply andb_true_iff in Hpl' as [? _]].
      apply (f_equal length) in E. rewrite !length_app in E. cbn in E. lia.
    + intros q [->%elem_of_singleton|Hq]%elem_of_union; [right; apply onPath_snoc; by right|].
      destruct (Hsub q Hq); [by left|]. right. apply onPath_snoc. by left.
    + intros _ q [Hq| ->]%onPath_snoc; cbn; [apply elem_of_union_r; auto|set_solver].
Qed.

Lemma done_written s t q : tarInv s t -> q ∈ tar_doneDirs s -> dx (dirEntry q) None ∈ t.
Proof.
  intros [(l & _ & Hd & Ht) _] Hq%Hd. assert (dirEntry q ∈ dirs t) as Hin by (rewrite Ht; by apply list_elem_of_fmap_2).
  apply list_elem_of_omap in Hin as (x & Hx & E). unfold dirOf, dirEntry in E.
  destruct x as [[e|[| n [] z| | | | |]] r]; try done. destruct r; [done|]. injection E as -> ->. done.
Qed.

Lemma HasSuffix_split s p : HasSuffix s p = true -> exists a, s = a +:+ p.
Proof.
  unfold HasSuffix. intros [_ E%String.eqb_eq]%andb_true_iff. eexists. rewrite <- (take_drop_str (String.length s - String.length p) s) at 1. by rewrite E.
Qed.

(** A path does not end with a slash. *)
Lemma absPath_suffix cs : cs <> [] -> forallb plain cs = true -> HasSuffix (absPath cs) "/" = false.
Proof.
  intros Hne Hpl. destruct (exists_last Hne) as (cs' & c & ->). rewrite forallb_app in Hpl. cbn [forallb] in Hpl.
  rewrite andb_true_r in Hpl. apply andb_true_iff in Hpl as [_ Hc]. pose proof (plain_no_slash _ Hc) as Hs.
  destruct (HasSuffix (absPath (cs' ++ [c])) "/") eqn:E; [|done]. exfalso. apply HasSuffix_split in E as [a Ea].
  assert (exists A, absPath (cs' ++ [c]) = A +:+ "/" +:+ c) as [A EA].
  { destruct cs' as [|x cs']; [by exists ""|]. exists ("/" +:+ Join (x :: cs') "/"). unfold absPath.
    by rewrite (Join_app (x :: cs') [c]) by done. }
  pose proof (upto_slash_app a "" eq_refl) as Ha. change ("/" +:+ "") with "/" in Ha. rewrite <- Ea, EA in Ha.
  rewrite (upto_slash_app A c Hs) in Ha. apply (f_equal String.length) in Ha.
  rewrite !string_app_length in Ha. destruct c; [done|]. cbn in Ha. lia.
Qed.

(** So different directories have different entries. *)
Lemma dirEntry_inj cs cs' :
  cs <> [] -> cs' <> [] -> forallb plain cs = true -> forallb plain cs' = true ->
  dirEntry (absPath cs) = dirEntry (absPath cs') -> absPath cs = absPath cs'.
Proof.
  intros H1 H2 H3 H4. unfold dirEntry. rewrite !absPath_suffix by done. unfold absPath.
  change (("/" +:+ Join cs "/") +:+ "/") with ("/" +:+ (Join cs "/" +:+ "/")).
  change (("/" +:+ Join cs' "/") +:+ "/") with ("/" +:+ (Join cs' "/" +:+ "/")).
  rewrite !TrimPrefix_app. intros [= E].
  apply (f_equal (fun x => TrimSuffix x "/")) in E. rewrite !TrimSuffix_app in E. by rewrite E.
Qed.

Lemma tarInv_once s t : tarInv s t -> NoDup (dirs t).
Proof.
  intros [(l & Hl & Hd & ->) Hp]. apply NoDup_fmap_2_strong; [|done]. intros p q Hpl Hql E.
  destruct (Hp p) as (cs & ? & ? & -> & _); [by apply Hd|]. destruct (Hp q) as (cs' & ? & ? & -> & _); [by apply Hd|].
  by apply dirEntry_inj.
Qed.

(** ** Files after their directories *)

(** [q] is a directory above the key [k]. *)
Definition above (k q : string) : Prop := exists cs, forallb plain cs = true /\ Dir k = absPath cs /\ onPath cs q.

(** The entry of a file of [kvs], after those of all directories above it. *)
Definition filesInPlace (kvs : list (string * string)) (t : DumpT) : Prop :=
  forall n z, guarded (fun x : exchange (RestoreSig ⊕ DumpSig) => asked x = inr (DHeader n false z))
    (fun t1 => exists k v, (k, v) ∈ kvs /\ DHeader n false z = fileEntry k v /\ forall q, above k q -> dx (dirEntry q) None ∈ t1) t.

Definition noFile (x : exchange (RestoreSig ⊕ DumpSig)) : Prop :=
  match asked x with inr (DHeader _ false _) => False | _ => True end.

Lemma filesInPlace_app kvs t t' : Forall noFile t' -> filesInPlace kvs t -> filesInPlace kvs (t ++ t').
Proof.
  intros Ht' Ht n z. apply guarded_app; [apply Ht|]. apply guarded_Forall. eapply Forall_impl; [exact Ht'|].
  unfold noFile. intros x Hx E. by rewrite E in Hx.
Qed.

Lemma filesInPlace_snoc kvs t k v r :
  filesInPlace kvs t -> (k, v) ∈ kvs -> (forall q, above k q -> dx (dirEntry q) None ∈ t) ->
  filesInPlace kvs (t ++ [dx (fileEntry k v) r]).
Proof.
  intros Ht Hk Hq n z. apply guarded_app; [apply Ht|]. intros [|y t1] x t2 E Hx; [|by destruct t1].
  injection E as <- _. rewrite app_nil_r. exists k, v. split; [done|]. split; [|done]. by injection Hx as <- <-.
Qed.

(** ** Unpacking *)

(** What was written to the archive. *)
Definition writtenOf (x : exchange (RestoreSig ⊕ DumpSig)) : option dump_op :=
  match x with
  | existT (inr (DHeader n d z)) None => Some (DHeader n d z)
  | existT (inr (DData v)) None => Some (DData v)
  | _ => None
  end.
Definition written (t : DumpT) : list dump_op := omap writtenOf t.

Inductive tarEntry := TDir (name : string) | TFile (name data : string).

(** A reader of archives: after the header of a file come as many bytes as it
    says, and nothing else has data. *)
Fixpoint unpack (ws : list dump_op) : option (list tarEntry) :=
  match ws with
  | [] => Some []
  | DHeader n true O :: ws => (cons (TDir n)) <$> unpack ws
  | DHeader n false O :: ws => (cons (TFile n "")) <$> unpack ws
  | DHeader n false (S z) :: DData v :: ws =>
      if Nat.eqb (String.length v) (S z) then (cons (TFile n v)) <$> unpack ws else None
  | _ => None
  end.
Definition files (es : list tarEntry) : list (string * string) :=
  omap (fun e => match e with TFile n v => Some (n, v) | TDir _ => None end) es.

(** An archive with the entries [es]. *)
Definition packed (e : tarEntry) : list dump_op :=
  match e with
  | TDir n => [DHeader n true 0]
  | TFile n v => DHeader n false (String.length v) :: if Nat.eqb (String.length v) 0 then [] else [DData v]
  end.
Definition holds (es : list tarEntry) (t : DumpT) : Prop := written t = concat (packed <$> es).

Lemma unpack_packed es : unpack (concat (packed <$> es)) = Some es.
Proof.
  induction es as [|[n|n v] es IH]; [done|..]; cbn [fmap list_fmap concat packed app].
  - cbn. by rewrite IH.
  - destruct v as [|x v]; cbn in *; [by rewrite IH|]. rewrite Nat.eqb_refl. by rewrite IH.
Qed.

Lemma holds_app es es' t t' : holds es t -> holds es' t' -> holds (es ++ es') (t ++ t').
Proof. unfold holds, written. intros H H'. by rewrite omap_app, H, H', fmap_app, concat_app. Qed.

(** Entries of directories. *)
Lemma holds_dirs t : Forall (fun x => exists p r, x = dx (dirEntry p) r) t -> exists ds, holds (TDir <$> ds) t.
Proof.
  induction 1 as [|x t (p & r & ->) _ [ds IH]]; [by exists []|]. unfold holds, written in *. destruct r.
  - by exists ds.
  - eexists (_ :: ds). cbn. rewrite IH. reflexivity.
Qed.

Lemma files_dirs ds es : files ((TDir <$> ds) ++ es) = files es.
Proof. unfold files. rewrite omap_app. by induction ds. Qed.
Lemma files_app es es' : files (es ++ es') = files es ++ files es'.
Proof. unfold files. by rewrite omap_app. Qed.

(** The keys as they are in the archive. *)
Definition asFiles (kvs : list (string * string)) : list (string * string) :=
  (fun kv => (TrimPrefix (fst kv) "/", snd kv)) <$> kvs.
(** The directories that were made up are those above keys. *)
Definition needed (kvs : list (string * string)) (s : TarDumpSink) : Prop :=
  forall q, q ∈ tar_doneDirs s -> exists k v, (k, v) ∈ kvs /\ above k q.

Lemma Put_tar_spec fuel kvs k v s t0 :
  HasPrefix k "/" = true -> (String.length (Dir k) < fuel)%nat -> (k, v) ∈ kvs ->
  tarInv s t0 -> filesInPlace kvs t0 -> needed kvs s ->
  wpm (Put_tar fuel k v) s
    (fun r s' t => tarInv s' (t0 ++ t) /\ filesInPlace kvs (t0 ++ t) /\ needed kvs s' /\
       (r = None -> exists es, holds es t /\ files es = asFiles [(k, v)]))
    (fun _ _ => False).
Proof.
  intros Hk Hf Hin Hinv Hfiles Hneed. unfold Put_tar. destruct (Dir_rooted k Hk) as (cs & Hpl & E). rewrite E in *.
  assert (length cs <= String.length (absPath cs))%nat as Hlen by (pose proof (Join_length cs "/"); unfold absPath; cbn in *; lia).
  wpm_step. eapply wpm_mono; [apply (ensureDirs_spec fuel cs s t0); [done|lia|done]| |done].
  intros r s' t (Hi & Ht & Hsub & Hall).
  assert (needed kvs s') as Hneed'.
  { intros q [Hq|Hq]%Hsub; [auto|]. exists k, v. split; [done|]. by exists cs. }
  assert (filesInPlace kvs (t0 ++ t)) as Hft.
  { apply filesInPlace_app; [|done]. eapply Forall_impl; [exact Ht|]. by intros x (p & r' & ->). }
  destruct r as [e|]; [wpm_step; by rewrite app_nil_r|]. specialize (Hall eq_refl).
  apply holds_dirs in Ht as [ds Hds].
  assert (forall t', holds [TFile (TrimPrefix k "/") v] t' -> exists es, holds es (t ++ t') /\ files es = asFiles [(k, v)]) as Hes.
  { intros t' Ht'. eexists. split; [by apply holds_app|]. by rewrite files_dirs. }
  assert (forall q, above k q -> dx (dirEntry q) None ∈ t0 ++ t) as Hq.
  { intros q (cs' & Hpl' & E' & Hon). rewrite E in E'. apply absPath_inj in E' as <-; [|done|done].
    eapply done_written; [exact Hi|]. auto. }
  do 2 wpm_step. fold (fileEntry k v).
  match goal with |- context [dx (fileEntry k v) ?r] => rename r into rh end.
  assert (tarInv s' (t0 ++ t ++ [dx (fileEntry k v) rh])) as Hi2 by (rewrite app_assoc; by apply tarInv_other).
  assert (filesInPlace kvs (t0 ++ t ++ [dx (fileEntry k v) rh])) as Hf2 by (rewrite app_assoc; by apply filesInPlace_snoc).
  destruct rh as [e|]; [by wpm_step|].
  destruct (Nat.eqb (String.length v) 0) eqn:Hv.
  { wpm_step. split; [done|]. split; [done|]. split; [done|]. intros _. apply Hes. unfold holds. cbn. by rewrite Hv. }
  do 3 wpm_step. match goal with |- context [dx (DData v) ?r] => rename r into rd end.
  assert (forall (l : DumpT), t0 ++ t ++ dx (fileEntry k v) None :: l = (t0 ++ t ++ [dx (fileEntry k v) None]) ++ l) as Ea
    by (intros l; by rewrite <- !app_assoc).
  cbn [app]. rewrite Ea. split; [by apply tarInv_other|]. split; [apply filesInPlace_app; [by repeat constructor|done]|].
  split; [done|]. intros Hr. destruct rd; [done|]. apply Hes. unfold holds. cbn. by rewrite Hv.
Qed.

(** ** Keys that do not start with a slash *)

Definition relative (p : string) : Prop := p <> "" /\ HasPrefix p "/" = false.

(** Cleaned components are not empty. *)
Lemma clean_components_nonempty rooted comps stack :
  Forall (fun c => contains_byte c "/" = false) comps ->
  Forall (fun c => c <> "" /\ contains_byte c "/" = false) stack ->
  Forall (fun c => c <> "" /\ contains_byte c "/" = false) (clean_components rooted comps stack).
Proof.
  revert stack. induction comps as [|c comps IH]; intros stack Hc Hs; cbn [clean_components].
  { by apply Forall_reverse. }
  apply Forall_cons in Hc as [Hc Hcs]. destruct (String.eqb_spec c "") as [->|Hne]; [by apply IH|].
  destruct (String.eqb c "."); [by apply IH|]. cbn [orb]. destruct (String.eqb c ".."); [|apply IH; auto].
  destruct stack as [|top stack]; [destruct rooted; apply IH; auto|].
  apply Forall_cons in Hs as [Ht Hs]. destruct (String.eqb top ".."); apply IH; auto.
Qed.

Lemma Join_relative cs : Forall (fun c => c <> "" /\ contains_byte c "/" = false) cs -> cs <> [] -> relative (Join cs "/").
Proof.
  destruct cs as [|c cs]; [done|]. intros [[Hne Hc] _]%Forall_cons _. destruct c as [|x c]; [done|].
  change (Ascii.eqb "/" x || contains_byte c "/" = false) in Hc. apply orb_false_iff in Hc as [Hx _].
  assert (exists s, Join (String x c :: cs) "/" = String x s) as [s ->] by (destruct cs; by eexists).
  split; [done|]. change (Ascii.eqb "/" x && HasPrefix s "" = false). by rewrite Hx.
Qed.

Lemma Dir_relative p : HasPrefix p "/" = false -> relative (Dir p).
Proof.
  intros Hp. unfold Dir, Clean. destruct (String.eqb_spec (upto_slash p) "") as [_|Hne]; [done|].
  assert (HasPrefix (upto_slash p) "/" = false) as ->.
  { destruct p as [|x p]; [done|]. cbn [upto_slash]. destruct (contains_byte (String x p) "/"); [|done].
    change (Ascii.eqb "/" x && HasPrefix p "" = false) in Hp. change (Ascii.eqb "/" x && HasPrefix (upto_slash p) "" = false).
    destruct (Ascii.eqb "/" x); [|done]. by destruct p. }
  set (cs := clean_components _ _ _). destruct (String.eqb_spec (Join cs "/") "") as [_|Hj]; [done|].
  apply Join_relative; [apply clean_components_nonempty; [apply Split_no_sep|constructor]|].
  by intros ->.
Qed.

Lemma ensureDirs_relative fuel p s :
  relative p -> (forall q, q ∈ tar_doneDirs s -> HasPrefix q "/" = true) -> ensureDirs fuel p s = Crash OutOfFuel.
Proof.
  intros Hp Hs. revert p Hp. induction fuel as [|fuel IH]; intros p [Hne Hr]; [done|]. cbn [ensureDirs].
  destruct (String.eqb_spec p "") as [|_]; [done|]. destruct (String.eqb_spec p "/") as [->|_]; [done|]. cbn [orb].
  unfold mbind, M_bind, get. cbn [bind]. case_bool_decide as Hd; [by rewrite (Hs p Hd) in Hr|].
  by rewrite IH by (by apply Dir_relative).
Qed.

(** The loop over the rest of a page. *)
Lemma copyRest_spec fuel kvs rest n lk gm s t0 :
  Forall (fun kv => HasPrefix (fst kv) "/" = true /\ (String.length (Dir (fst kv)) < fuel)%nat) rest -> rest ⊆ kvs ->
  NoDup (lk :: (fst <$> rest)) -> tarInv s t0 -> filesInPlace kvs t0 -> needed kvs s ->
  wpm (for_each rest (n, lk, gm) (fun kv '(count, lastKey, gotMore) =>
      if String.eqb (fst kv) lastKey then mret (inl (count, lastKey, gotMore))
      else
        e ← Put (NodeSink := Put_tar fuel) (fst kv) (snd kv);
        match e with
        | Some _ => mret (inr (count, "error writing key to destination"))
        | None => mret (inl (count + 1, fst kv, true))
        end)) s
    (fun r s' t => tarInv s' (t0 ++ t) /\ filesInPlace kvs (t0 ++ t) /\ needed kvs s' /\
       match r with
       | inl (n', _, _) => n' = n + Z.of_nat (length rest) /\ exists es, holds es t /\ files es = asFiles rest
       | inr _ => True
       end) (fun _ _ => False).
Proof.
  revert n lk gm s t0. induction rest as [|[k v] rest IH]; intros n lk gm s t0 Hk Hsub Hnd Hi Hf Hn; cbn [for_each].
  { wpm_step. rewrite app_nil_r. do 3 (split; [done|]). split; [cbn; lia|]. by exists []. }
  apply Forall_cons in Hk as [[Hk1 Hk2] Hk]. cbn [fst snd fmap list_fmap] in *. apply NoDup_cons in Hnd as [Hlk Hnd].
  wpm_step. destruct (String.eqb_spec k lk) as [->|_]; [set_solver|]. wpm_step.
  eapply wpm_mono; [apply (Put_tar_spec fuel kvs k v s t0 Hk1 Hk2); [apply Hsub; by left|done|done|done]| |done].
  intros e s1 t (Hi1 & Hf1 & Hn1 & Ha). destruct e as [e|]; wpm_step; [wpm_step; by rewrite !app_nil_r|].
  eapply wpm_mono; [apply (IH (n + 1) k true s1 (t0 ++ t)); [done|set_solver|done|done|done|done]| |done].
  intros r s2 t' (Hi2 & Hf2 & Hn2 & Hr). rewrite app_nil_r, app_assoc. do 3 (split; [done|]).
  destruct r as [[[n' lk'] gm']|]; [|done]. destruct Hr as (-> & es & He & Hes). split; [cbn [length]; lia|].
  destruct (Ha eq_refl) as (es0 & He0 & Hes0). exists (es0 ++ es). split; [by apply holds_app|].
  by rewrite files_app, Hes0, Hes.
Qed.

(** ** Theorems *)

(** C38: an archive can be unpacked as it is written, whatever the disk does.  When a page of keys that start with a slash is copied to a new archive, the copy does not crash (a bound on the depth of a key is enough); no two entries are for the same directory, and every directory is above a key; every file is entered under its own key, after all the directories above it.  When no error is reported, a reader of the archive finds exactly the keys of the page as files, in their order, each with its own value. *)
Theorem tar_archive fuel kvs count t o
  (Hkeys : Forall (fun kv => HasPrefix (fst kv) "/" = true /\ (String.length (Dir (fst kv)) < fuel)%nat) kvs)
  (Hnd : NoDup (fst <$> kvs)) :
  runs (copyPage (NodeSink0 := Put_tar fuel) kvs count "" (mkTarDumpSink ∅)) t o ->
  exists r s, o = Done (r, s) /\ NoDup (dirs t) /\
    (forall d, d ∈ dirs t -> exists k v q, (k, v) ∈ kvs /\ above k q /\ d = dirEntry q) /\ filesInPlace kvs t /\
    match r with
    | inl (n, _, _) => n = count + Z.of_nat (length kvs) /\
        exists es, unpack (written t) = Some es /\ files es = asFiles kvs
    | inr _ => True
    end.
Proof.
  intros Hrun. assert (wpm (copyPage (NodeSink0 := Put_tar fuel) kvs count "") (mkTarDumpSink ∅)
    (fun r s t => tarInv s t /\ filesInPlace kvs t /\ needed kvs s /\ match r with
       | inl (n, _, _) => n = count + Z.of_nat (length kvs) /\ exists es, holds es t /\ files es = asFiles kvs
       | inr _ => True end) (fun _ _ => False)) as Hw.
  2:{ pose proof (wp_runs _ _ _ _ Hrun Hw) as H. destruct o as [[r s]|c]; [|done]. destruct H as (Hi & Hf & Hn & Hr).
      exists r, s. split; [done|]. split; [by eapply tarInv_once|]. split; [|split; [done|]].
      - destruct Hi as [(l & _ & Hd & ->) _]. intros d (q & -> & Hq%Hd)%list_elem_of_fmap.
        destruct (Hn q Hq) as (k & v & ? & ?). by exists k, v, q.
      - destruct r as [[[n lk] gm]|]; [|done]. destruct Hr as (-> & es & He & Hes). split; [done|].
        exists es. by rewrite He, unpack_packed. }
  eapply wpm_mono; [apply (copyRest_spec fuel kvs kvs count "" false (mkTarDumpSink ∅) [])| |done].
  - done.
  - done.
  - apply NoDup_cons. split; [|done]. intros ([k v] & E & Hin)%list_elem_of_fmap. rewrite Forall_forall in Hkeys.
    destruct (Hkeys (k, v) Hin) as [Hp _]. cbn in E. by subst.
  - split; [|set_solver]. exists []. split; [constructor|]. split; [set_solver|done].
  - intros n z. apply guarded_nil.
  - by intros q Hq%not_elem_of_empty.
  - done.
Qed.

(** A key that does not start with a slash, which etcd allows, cannot be dumped to an archive: [path.Dir] of a relative path never becomes empty or the root, so the recursion that makes up the directories does not end, whatever bound it is given. *)
Theorem relative_key_overflows fuel key value s
  (Hkey : HasPrefix key "/" = false) (Hs : forall q, q ∈ tar_doneDirs s -> HasPrefix q "/" = true) :
  Put_tar fuel key value s = Crash OutOfFuel.
Proof.
  unfold Put_tar, mbind, M_bind. by rewrite ensureDirs_relative by (try done; by apply Dir_relative).
Qed.

Module DumpDemo.
Definition kvs : list (string * string) := [("/registry/pods/a", "x"); ("/registry/pods/b", "")].
(** A disk that fails nothing. *)
Definition machine : handler (RestoreSig ⊕ DumpSig) unit := fun e w =>
  match e with
  | inl (inl (inl VNow)) => (0, w)
  | inl (inl (inl (VReadFile _))) => (FileNotExist, w)
  | inl (inl (inl (VReadTree _))) => (TreeNotExist, w)
  | inl (inl (inl (VOpen _ | VCreateTemp _ | VMkdirTemp))) => (Err "none", w)
  | inl (inl (inl _)) => (None, w)
  | inl (inl (inr (EGet _ _ | ERange _ _))) => (Ok [], w)
  | inl (inl (inr (ETxnCreate _ _ _))) => (Ok true, w)
  | inl (inl (inr (EStatus _ _))) => (Ok (1, 1), w)
  | inl (inl (inr (EHttpGet _))) => (Err "none", w)
  | inl (inl (inr _)) => (None, w)
  | inl (inr (RStat _)) => (StatNotExist, w)
  | inl (inr RTempDir) => ("/tmp", w)
  | inl (inr REnviron) => ([], w)
  | inl (inr (RNewStore _)) => (Err "none", w)
  | inl (inr RCtlWait) => (Ok true, w)
  | inl (inr (RExited _)) => (false, w)
  | inl (inr RSleep) => (tt, w)
  | inl (inr _) => (None, w)
  | inr _ => (None, w)
  end.
Definition copy : prog (RestoreSig ⊕ DumpSig) _ := copyPage (NodeSink0 := Put_tar 40) kvs 0 "" (mkTarDumpSink ∅).
Definition entries : list dump_op :=
  [DHeader "registry/" true 0; DHeader "registry/pods/" true 0; DHeader "registry/pods/a" false 1; DData "x";
   DHeader "registry/pods/b" false 0].
End DumpDemo.

Lemma tar_archive_witness :
  (asked <$> trace_of DumpDemo.machine DumpDemo.copy tt) = ((inr : dump_op -> op (RestoreSig ⊕ DumpSig)) <$> DumpDemo.entries) /\
  NoDup (dirs (trace_of DumpDemo.machine DumpDemo.copy tt)) /\
  filesInPlace DumpDemo.kvs (trace_of DumpDemo.machine DumpDemo.copy tt).
Proof.
  split; [vm_compute; reflexivity|].
  destruct (tar_archive 40 DumpDemo.kvs 0 (trace_of DumpDemo.machine DumpDemo.copy tt) (outcome_of DumpDemo.machine DumpDemo.copy tt))
    as (r & s & _ & Hd & _ & H & _).
  - repeat (apply Forall_cons_2; [split; [reflexivity|vm_compute; lia]|]). apply Forall_nil_2.
  - apply NoDup_cons_2; [set_solver|apply NoDup_singleton].
  - apply exec_runs_eq. reflexivity.
  - split; [exact Hd|exact H].
Defined.

Lemma relative_key_overflows_witness : Put_tar 5 "foo" "bar" (mkTarDumpSink ∅) = Crash OutOfFuel.
Proof. apply relative_key_overflows; [reflexivity|set_solver]. Defined.
