(* ===== verification/RestoreProofs.v ===== *)
(** * What a restore does, in every environment

    Theorems about [DoRestore] ([Restore.v]): what it may write, and where the
    keys it writes come from, whatever the backup store, the processes and the
    two etcds answer. *)

From stdpp Require Import base gmap sets list strings pretty.
From S2P Require Import Prelude Effects EffectsSum ProtoEtcd GoLib GoTime Vfs EtcdVersions EtcdClient PrivateApi Binaries EtcdServer EtcdProcess BackupCleanup ClusterState CommandStore BackupStore Restore.

Local Open Scope Z_scope.

Abbreviation rtrace := (trace RestoreSig).

(** ** Classes of exchanges *)

(** The etcd that was started, and the one that was stopped. *)
Definition startedBy (x : exchange RestoreSig) : option etcdProcess :=
  match x with
  | existT e r =>
      match e return res (s := RestoreSig) e -> option etcdProcess with
      | inr (RExec p _) => fun r => match r with None => Some p | Some _ => None end
      | _ => fun _ => None
      end r
  end.
Definition stoppedBy (x : exchange RestoreSig) : option etcdProcess :=
  match asked x with inr (RStop p) => Some p | _ => None end.

(** Exchanges that leave the backups as they are. *)
Definition keepsBackups (x : exchange RestoreSig) : Prop :=
  match asked x with
  | inl (inl (VWriteFile _ _ | VRemove _ | VRemoveAllVersions _)) => False
  | _ => True
  end.

(** Exchanges that start and stop nothing. *)
Definition still (x : exchange RestoreSig) : Prop :=
  match asked x with inr (RExec _ _ | RStop _) => False | _ => True end.

(** Those that write no keys either. *)
Definition tame (x : exchange RestoreSig) : Prop :=
  still x /\ match asked x with inl (inr (EPut _ _ _ | ETxnCreate _ _ _)) => False | _ => True end.

Lemma still_started t : Forall still t -> omap startedBy t = [].
Proof.
  induction 1 as [|x t Hx _ IH]; [done|]. cbn. rewrite IH.
  destruct x as [[[e|e]|e] r]; [done..|]. by destruct e.
Qed.
Lemma still_stopped t : Forall still t -> omap stoppedBy t = [].
Proof.
  induction 1 as [|x t Hx _ IH]; [done|]. cbn. rewrite IH.
  destruct x as [[[e|e]|e] r]; [done..|]. by destruct e.
Qed.
Lemma tame_still t : Forall tame t -> Forall still t.
Proof. intros H. eapply Forall_impl; [exact H|]. by intros x []. Qed.

(** The guards of a trace that is embedded. *)
Lemma guarded_fmap {Σ Σ'} (f : exchange Σ -> exchange Σ') (P : exchange Σ' -> Prop) (G : trace Σ' -> Prop) t :
  guarded (fun x => P (f x)) (fun t1 => G (f <$> t1)) t -> guarded P G (f <$> t).
Proof.
  intros H t1 x t2 E Hx. apply fmap_app_inv in E as (t1' & t2' & -> & E & ->).
  destruct t2' as [|x' t2']; [done|]. injection E as -> ->. by eapply H.
Qed.

(** Composition is associative. *)
Lemma wpm_assoc {Σ S A B D} (m : M Σ S A) (f : A -> M Σ S B) (k : B -> M Σ S D) s Q C :
  wpm ((a ← m; f a) ≫= k) s Q C -> wpm (a ← m; b ← f a; k b) s Q C.
Proof.
  unfold wpm, mbind, M_bind. match goal with |- wp _ ?Q' -> _ => generalize Q' end.
  induction (m s) as [[a s']|c|e h IH]; cbn; auto.
Qed.

(** ** The backup that is read *)

Section Proofs.
Context {U : Type} `{!UrlLib U}.
Context (cfg : BinConfig) `{!Codec BackupInfo} (gunzip : string -> option (string * bool)).

(** The file of the expanded snapshot in a directory. *)
Definition snapshotIn (dir : string) : string := PathJoin [dir; "download"; "snapshot.db"].

Definition downloadIn (dir : string) : string := PathJoin [dir; "download"; "snapshot.db.gz"].

(** The process [p] runs on the snapshot of the backup [name]: its metadata and
    its data were read, the data was moved in place and expanded, and etcdctl
    restored the expanded snapshot for [p]. *)
Definition runs_backup (base name dir : string) (p : etcdProcess) (t : rtrace) : Prop :=
  exists data info tmp binDir content snapshot,
    existT (inl (inl (VReadFile (metaPath base name))) : op RestoreSig) (FileOk data) ∈ t /\
    FromJson data = Some info /\ HasPrefix (Backup_EtcdVersion info) "2." = false /\
    existT (inl (inl (VWriteTo (dataPath base name) tmp)) : op RestoreSig) None ∈ t /\
    existT (inl (inl (VRename tmp (downloadIn dir))) : op RestoreSig) None ∈ t /\
    existT (inl (inl (VOpen (downloadIn dir))) : op RestoreSig) (Ok content) ∈ t /\
    gunzip content = Some (snapshot, true) /\
    existT (inr (RWrite (snapshotIn dir) snapshot) : op RestoreSig) None ∈ t /\
    p = restoreProcess binDir (restoreVersion (Backup_EtcdVersion info)) dir /\
    existT (inr (RCtlStart (restoreArgs p restoreNode (snapshotIn dir))) : op RestoreSig) None ∈ t /\
    existT (inr RCtlWait : op RestoreSig) (Ok true) ∈ t.

Lemma runs_backup_mono base name dir p t t' :
  (forall x, x ∈ t -> x ∈ t') -> runs_backup base name dir p t -> runs_backup base name dir p t'.
Proof.
  intros Ht (data & info & tmp & b & content & snapshot & H). exists data, info, tmp, b, content, snapshot.
  destruct_and! H. split_and!; auto.
Qed.

Lemma LoadInfo_any base name s :
  wpm (store (LoadInfo base name)) s (fun r s' t => s' = s /\ Forall tame t /\
      forall info, r = Ok info -> exists data, FromJson data = Some info /\
        existT (inl (inl (VReadFile (metaPath base name))) : op RestoreSig) (FileOk data) ∈ t)
    (fun _ _ => False).
Proof.
  apply wpm_viaL, wpm_viaL. unfold LoadInfo. wpm_steps; (split; [done|]); (split; [by repeat constructor|]);
    try done. intros info [= <-]. eexists. split; [done|]. by left.
Qed.

Lemma DownloadBackup_any base name dest s :
  wpm (store (DownloadBackup base name dest)) s (fun r s' t => s' = s /\ Forall tame t /\
      (r = None -> exists tmp,
         existT (inl (inl (VWriteTo (dataPath base name) tmp)) : op RestoreSig) None ∈ t /\
         existT (inl (inl (VRename tmp dest)) : op RestoreSig) None ∈ t))
    (fun _ _ => False).
Proof.
  apply wpm_viaL, wpm_viaL. unfold DownloadBackup.
  wpm_steps; (split; [done|]); (split; [by repeat constructor|]); try done.
  intros _. eexists. subst. split; [do 2 right; by left|do 4 right; by left].
Qed.

Lemma wpm_store_call (e : vfs_op) (s : EtcdServer) (Q : vfs_res e -> EtcdServer -> rtrace -> Prop) C :
  (forall r, Q r s [existT (inl (inl e) : op RestoreSig) r]) -> wpm (store (vcall e)) s Q C.
Proof. done. Qed.

Lemma expand_any file dest (s : EtcdServer) :
  wpm (expand gunzip file dest) s (fun r s' t => s' = s /\ Forall tame t /\
      (r = None -> exists content snapshot, gunzip content = Some (snapshot, true) /\
         existT (inl (inl (VOpen file)) : op RestoreSig) (Ok content) ∈ t /\
         existT (inr (RWrite dest snapshot) : op RestoreSig) None ∈ t))
    (fun _ _ => False).
Proof.
  unfold expand. apply wpm_bind, wpm_store_call. intros r.
  wpm_steps; (split; [done|]); (split; [by repeat constructor|]); try done.
  match goal with b : bool |- _ => destruct b end; [|done].
  intros _. eexists _, _. subst. split; [done|]. split; [by left|do 2 right; by left].
Qed.

Lemma RestoreV3Snapshot_any binDir v dir file (s : EtcdServer) :
  let p := restoreProcess binDir v dir in
  wpm (RestoreV3Snapshot p file) s (fun r s' t => s' = s /\ Forall tame t /\
      (r = None ->
         existT (inr (RCtlStart (restoreArgs p restoreNode file)) : op RestoreSig) None ∈ t /\
         existT (inr RCtlWait : op RestoreSig) (Ok true) ∈ t))
    (fun _ _ => False).
Proof.
  intros p. unfold RestoreV3Snapshot. change (findMyNode p) with (Some restoreNode). cbn iota.
  wpm_steps; (split; [done|]); (split; [by repeat constructor|]); try done; subst.
  match goal with b : bool |- _ => destruct b end; [|done].
  intros _. split; [by left|]. right. by left.
Qed.

(** ** Starting etcd on the backup *)

(** Writes no keys and stops nothing. *)
Definition calm (x : exchange RestoreSig) : Prop :=
  tame x \/ exists p c, asked x = inr (RExec p c).

Lemma tame_calm t : Forall tame t -> Forall calm t.
Proof. intros H. eapply Forall_impl; [exact H|]. by left. Qed.

(** [r] is the process that was started, if any. *)
Definition started_is (t : rtrace) (r : result etcdProcess) : Prop :=
  omap startedBy t = match r with Ok p => [p] | Err _ => [] end.

Lemma started_tame t t' r : Forall tame t -> started_is t' r -> started_is (t ++ t') r.
Proof. intros Ht H. unfold started_is. by rewrite omap_app, (still_started t) by by apply tame_still. Qed.

(** What is known after the process that reads a backup was to be started, when
    [K] is what holds of a process that runs. *)
Definition launch (K : etcdProcess -> rtrace -> Prop) (s : EtcdServer) (r : result etcdProcess)
    (s' : EtcdServer) (t : rtrace) : Prop :=
  s' = s /\ Forall calm t /\ started_is t r /\ forall p, r = Ok p -> K p t.

(** The only crash: a malformed variable of the manager's own environment. *)
Definition launch_crash (c : crash) (t : rtrace) : Prop := c = NilDeref "envPair[1]" /\ Forall tame t.

Lemma launch_err K s e t : Forall tame t -> launch K s (Err e) s t.
Proof.
  intros Ht. split; [done|]. split; [by apply tame_calm|]. split; [|done].
  by apply still_started, tame_still.
Qed.

Lemma launch_prepend (K : etcdProcess -> rtrace -> Prop) s r s' t t' :
  Forall tame t -> launch (fun p t' => K p (t ++ t')) s r s' t' -> launch K s r s' (t ++ t').
Proof.
  intros Ht (-> & Hc & Hs & HK). split; [done|]. split; [apply Forall_app; by auto using tame_calm|].
  split; [by apply started_tame|auto].
Qed.

Lemma crash_prepend c t t' : Forall tame t -> launch_crash c t' -> launch_crash c (t ++ t').
Proof. intros Ht [-> Ht']. split; [done|]. by apply Forall_app. Qed.

(** A step that starts nothing and the rest, which may fail. *)
Lemma launch_bind {A} (K : etcdProcess -> rtrace -> Prop) (F : A -> rtrace -> Prop) (m : RM A)
    (f : A -> RM (result etcdProcess)) (s : EtcdServer) :
  wpm m s (fun a s' t => s' = s /\ Forall tame t /\ F a t) (fun _ _ => False) ->
  (forall a t, F a t -> wpm (f a) s (launch (fun p t' => K p (t ++ t')) s) launch_crash) ->
  wpm (m ≫= f) s (launch K s) launch_crash.
Proof.
  intros Hm Hf. apply wpm_bind. eapply wpm_mono; [exact Hm| |done].
  intros a s' t (-> & Ht & HF). eapply wpm_mono; [exact (Hf a t HF)| |]; cbn.
  - intros r s' t'. by apply launch_prepend.
  - intros c t'. by apply crash_prepend.
Qed.

(** A call that starts nothing. *)
Lemma launch_call (K : etcdProcess -> rtrace -> Prop) (e : run_op)
    (f : run_res e -> RM (result etcdProcess)) (s : EtcdServer) :
  (forall r, tame (existT (inr e : op RestoreSig) r)) ->
  (forall r t, wpm (f r) s (launch (fun p t' => K p (t ++ t')) s) launch_crash) ->
  wpm (rcall e ≫= f) s (launch K s) launch_crash.
Proof.
  intros He Hf. apply (launch_bind _ (fun _ _ => True)); [|auto].
  refine (@wpm_call RestoreSig EtcdServer (inr e) s _ _ _). intros r.
  split; [done|]. split; [|done]. by apply Forall_singleton.
Qed.

(** The step that starts etcd. *)
Lemma launch_start (K : etcdProcess -> rtrace -> Prop) p (s : EtcdServer) :
  (forall t, K p t) ->
  wpm (x ← startProcess p; match x with Some _ => mret (Err "error starting etcd") | None => mret (Ok p) end)
    s (launch K s) launch_crash.
Proof.
  intros HK. apply wpm_bind. unfold startProcess. wpm_step. wpm_step. cbn [mret].
  destruct (startCommand r p) as [[c|e]|]; cbn iota.
  - wpm_step. cbn. destruct r0 as [e|]; wpm_step; cbn; (split; [done|]);
      (split; [apply Forall_cons; split; [by left|apply Forall_singleton; right; by eexists _, _]|]); (split; [done|]); [done|]. by intros ? [= <-].
  - wpm_step. wpm_step. by apply launch_err; repeat constructor.
  - wpm_step. by repeat constructor.
Qed.

Lemma wpm_err (K : etcdProcess -> rtrace -> Prop) (s : EtcdServer) e :
  wpm (mret (Err e)) s (launch K s) launch_crash.
Proof. apply wpm_ret. by apply launch_err. Qed.

Lemma startOnSnapshot_any (K : etcdProcess -> rtrace -> Prop) binDir v dir file (s : EtcdServer) :
  let p := restoreProcess binDir v dir in
  (forall t content snapshot, gunzip content = Some (snapshot, true) ->
     existT (inl (inl (VOpen file)) : op RestoreSig) (Ok content) ∈ t ->
     existT (inr (RWrite (snapshotIn dir) snapshot) : op RestoreSig) None ∈ t ->
     existT (inr (RCtlStart (restoreArgs p restoreNode (snapshotIn dir))) : op RestoreSig) None ∈ t ->
     existT (inr RCtlWait : op RestoreSig) (Ok true) ∈ t -> K p t) ->
  wpm (startOnSnapshot gunzip p dir file) s (launch K s) launch_crash.
Proof.
  intros p HK. unfold startOnSnapshot.
  eapply launch_bind; [apply expand_any|]. intros [e|] t Ht; cbn beta iota; [apply wpm_err|].
  destruct (Ht eq_refl) as (content & snapshot & Hg & Ho & Hw). eapply launch_bind; [apply (RestoreV3Snapshot_any binDir v dir)|].
  intros [e|] t1 Ht1; cbn beta iota; [apply wpm_err|]. destruct (Ht1 eq_refl) as [H1 H2].
  apply launch_start. intros t2. apply (HK _ content snapshot); rewrite ?elem_of_app; auto.
Qed.

Lemma RunEtcdFromBackup_any base name dir (s : EtcdServer) :
  wpm (RunEtcdFromBackup cfg gunzip base name dir) s (launch (runs_backup base name dir) s) launch_crash.
Proof.
  unfold RunEtcdFromBackup. eapply launch_bind; [apply LoadInfo_any|].
  intros [info|e] t0 Hinfo; cbn beta iota; [|apply wpm_err].
  destruct (Hinfo info eq_refl) as (data & Hdata & Hread).
  destruct (HasPrefix (Backup_EtcdVersion info) "2.") eqn:Hv2; [apply wpm_err|].
  eapply launch_bind; [apply DownloadBackup_any|].
  intros [e|] t1 Hdown; cbn beta iota; [apply wpm_err|]. destruct (Hdown eq_refl) as (tmp & Htmp & Hmv).
  apply (launch_bind _ (fun _ _ => True)).
  { eapply wpm_mono; [apply BindirForEtcdVersion_spec| |done]. intros r s' t (-> & Ht & _).
    split; [done|]. split; [|done]. eapply Forall_impl; [exact Ht|].
    intros [e x] [q Hq]. cbn in Hq. by subst e. }
  intros [binDir|e] t2 _; [|apply wpm_err].
  apply launch_call; [done|]. intros [e|] t3; [apply wpm_err|].
  apply launch_call; [done|]. intros [e|] t4; [apply wpm_err|].
  apply launch_call; [done|]. intros [e|] t5; [apply wpm_err|].
  apply startOnSnapshot_any. intros t content snapshot Hg Ho Hw H1 H2.
  exists data, info, tmp, binDir, content, snapshot.
  split_and!; try done; rewrite !elem_of_app; tauto.
Qed.

(** ** Copying the keys *)

Definition putsKey (c : list string) (k v : string) (x : exchange RestoreSig) : Prop :=
  asked x = inl (inr (EPut c k v)).

(** The etcd behind [src] has reported this pair. *)
Definition reportedBy (src : list string) (k v : string) (t : rtrace) : Prop :=
  exists from kvs, existT (inl (inr (ERange src from)) : op RestoreSig) (Ok kvs) ∈ t /\ (k, v) ∈ kvs.

(** Starts and stops nothing, and writes only keys for which [G] holds before. *)
Definition phase (G : list string -> string -> string -> rtrace -> Prop) (t : rtrace) : Prop :=
  Forall still t /\ forall c k v, guarded (putsKey c k v) (G c k v) t.

Lemma tame_guarded c k v G t : Forall tame t -> guarded (putsKey c k v) G t.
Proof.
  intros H. apply guarded_Forall. eapply Forall_impl; [exact H|]. intros [e r] [_ Hp] Hput. unfold putsKey in Hput. cbn in *. by subst e.
Qed.

Lemma tame_phase G t : Forall tame t -> phase G t.
Proof. intros H. split; [by apply tame_still|]. intros c k v. by apply tame_guarded. Qed.

Definition closed (G : list string -> string -> string -> rtrace -> Prop) : Prop :=
  forall c k v t t', G c k v t' -> G c k v (t ++ t').

Lemma phase_app G t t' : closed G -> phase G t -> phase G t' -> phase G (t ++ t').
Proof.
  intros HG [H1 H2] [H3 H4]. split; [by apply Forall_app|]. intros c k v. apply guarded_app; [done|].
  eapply guarded_mono; [apply H4|]. auto.
Qed.

(** Programs that consist of such a phase, and crash only at the bound. *)
Definition phased {A} (G : list string -> string -> string -> rtrace -> Prop) (m : RM A) : Prop :=
  forall s, wpm m s (fun _ s' t => s' = s /\ phase G t) (fun c t => c = OutOfFuel /\ phase G t).

Lemma phased_bind_knows {A B} G (R : A -> Prop) (m : RM A) (f : A -> RM B) :
  closed G -> (forall s, wpm m s (fun a _ _ => R a) (fun _ _ => True)) ->
  phased G m -> (forall a, R a -> phased G (f a)) -> phased G (m ≫= f).
Proof.
  intros HG HR Hm Hf s. apply wpm_bind.
  eapply wpm_mono; [exact (wpm_conj _ _ _ _ _ _ (Hm s) (HR s))| |by intros ? ? []].
  intros a s' t [[-> Ht] Ha]. eapply wpm_mono; [by apply Hf| |]; cbn; intros; (split; [tauto|]);
    apply phase_app; tauto.
Qed.

Lemma phased_bind {A B} G (m : RM A) (f : A -> RM B) :
  closed G -> phased G m -> (forall a, phased G (f a)) -> phased G (m ≫= f).
Proof. intros HG Hm Hf. apply (phased_bind_knows G (fun _ => True)); try done. intros s. by apply wpm_any. Qed.

Lemma phased_ret {A} G (a : A) : phased G (mret a).
Proof. intros s. apply wpm_ret. split; [done|]. by apply tame_phase. Qed.

(** A program that neither starts, stops, writes nor crashes. *)
Lemma phased_hoare {A} G (m : RM A) :
  (forall s, hoare (fun s' => s' = s) tame (fun _ => False) (fun _ => True) m) -> phased G m.
Proof.
  intros H s. eapply wpm_mono; [by apply (H s s)| |]; cbn; [|tauto].
  intros a s' t (-> & Ht & _). split; [done|]. by apply tame_phase.
Qed.

Lemma hoare_kv {A} (I : EtcdServer -> Prop) (m : EM EtcdServer A) :
  hoare I (fun x => tame (exL (exR x))) (fun _ => False) (fun _ => True) m ->
  hoare I tame (fun _ => False) (fun _ => True) (kv m).
Proof.
  intros H s Hs. apply wpm_viaL, wpm_viaR. eapply wpm_mono; [by apply H| |]; cbn; [|tauto].
  intros a s' t (? & Ht & _). split; [done|]. split; [|done]. by rewrite !Forall_fmap.
Qed.

Lemma phased_processClient G p : phased G (processClient p).
Proof.
  apply phased_hoare. intros s. unfold processClient. destruct (clientEndpoints p); [|by apply hoare_ret].
  eapply hoare_bind; [apply hoare_kv; unfold newClient; hoare_solve|]. intros. by apply hoare_ret.
Qed.

Lemma phased_awaitSource G p c : phased G (awaitSource p c).
Proof.
  apply phased_hoare. intros s. unfold awaitSource. eapply hoare_bind; [|intros; by apply hoare_ret].
  apply hoare_for_each_any. intros i _ _.
  eapply hoare_bind; [apply hoare_kv; unfold Get; hoare_solve|]. intros [v|e] _; hoare_solve.
Qed.

Lemma phased_close G c : phased G (kv (ecall (EClose c))).
Proof. apply phased_hoare. intros s. apply hoare_kv. hoare_solve. Qed.

(** The pair is written to [dest] and was reported by the process [p]. *)
Definition fromProcess (p : etcdProcess) (dest c : list string) (k v : string) (t : rtrace) : Prop :=
  c = dest /\ exists src, clientEndpoints p = Ok src /\ reportedBy src k v t.

Lemma reportedBy_mono src k v t t' :
  (forall x, x ∈ t -> x ∈ t') -> reportedBy src k v t -> reportedBy src k v t'.
Proof. intros Ht (from & kvs & Hin & Hkv). exists from, kvs. auto. Qed.

Lemma fromProcess_closed p dest : closed (fromProcess p dest).
Proof.
  intros c k v t t' [-> (src & Hs & Hr)]. split; [done|]. exists src. split; [done|].
  eapply reportedBy_mono; [|exact Hr]. intros x Hx. apply elem_of_app. by right.
Qed.

Lemma copies_phase p src dest t :
  clientEndpoints p = Ok src -> copies src dest t -> phase (fromProcess p dest) (exL <$> (exR <$> t)).
Proof.
  intros Hsrc [Hall Hg]. split.
  - rewrite !Forall_fmap. eapply Forall_impl; [exact Hall|]. intros [e r]. cbn. intros [[? ->]|(? & ? & ->)]; done.
  - intros c k v. rewrite <- list_fmap_compose. apply guarded_fmap. intros t1 x t2 Ht Hx.
    assert (asked x = EPut c k v) as Hput.
    { destruct x as [e r]. unfold putsKey in Hx. cbn in Hx |- *. by injection Hx. }
    assert (c = dest) as ->.
    { subst t. rewrite Forall_app, Forall_cons in Hall. destruct Hall as (_ & Hx' & _).
      rewrite Hput in Hx'. destruct Hx' as [[? [=]]|(? & ? & [=])]. done. }
    split; [done|]. exists src. split; [done|]. destruct (Hg k v t1 x t2 Ht Hput) as (from & kvs & Hin & Hkv).
    exists from, kvs. split; [|done]. apply list_elem_of_fmap. eexists. split; [|exact Hin]. done.
Qed.

Lemma processClient_is p s :
  wpm (processClient p) s (fun r _ _ => forall c, r = Ok c -> clientEndpoints p = Ok c) (fun _ _ => True).
Proof.
  unfold processClient. destruct (clientEndpoints p) as [urls|e]; [|by apply wpm_ret].
  apply wpm_bind, wpm_any; [|done]. intros [e|] s' t; apply wpm_ret; [done|]. by intros c [= <-].
Qed.

Lemma phased_CopyTo fuel p src dest :
  clientEndpoints p = Ok src ->
  phased (fromProcess p dest) (kv (CopyTo (NodeSink0 := clientSink dest) fuel src)).
Proof.
  intros Hsrc s. apply wpm_viaL, wpm_viaR. eapply wpm_mono; [apply CopyTo_any| |]; cbn.
  - intros _ s' t [-> Hc]. split; [done|]. by apply (copies_phase p src).
  - intros c t [-> Hc]. split; [done|]. by apply (copies_phase p src).
Qed.

Lemma phased_copyEtcd fuel p dest : phased (fromProcess p dest) (copyEtcd fuel p dest).
Proof.
  pose proof (fromProcess_closed p dest) as HG. unfold copyEtcd.
  apply (phased_bind_knows _ (fun r => forall c, r = Ok c -> clientEndpoints p = Ok c));
    [done|apply processClient_is|apply phased_processClient|].
  intros [src|e] Hsrc; [|apply phased_ret].
  apply phased_bind; [done|apply phased_awaitSource|]. intros e. apply phased_bind; [done| |].
  - destruct e; [apply phased_ret|].
    apply phased_bind; [done|by apply phased_CopyTo; auto|intros; apply phased_ret].
  - intros r. apply phased_bind; [done|apply phased_close|intros; apply phased_ret].
Qed.

(** ** The whole restore *)

(** The pair is written to the etcd of this node, and comes from the process that
    runs on the backup. *)
Definition restored (process : etcdProcess) (base name dir : string) (c : list string) (k v : string)
    (t : rtrace) : Prop :=
  clientEndpoints process = Ok c /\ exists p src, runs_backup base name dir p t /\
    p ∈ omap startedBy t /\ clientEndpoints p = Ok src /\ reportedBy src k v t.

Definition restores process base name dir (t : rtrace) : Prop :=
  forall c k v, guarded (putsKey c k v) (restored process base name dir c k v) t.

Lemma calm_restores process base name dir t : Forall calm t -> restores process base name dir t.
Proof.
  intros H c k v. apply guarded_Forall. eapply Forall_impl; [exact H|].
  intros [e r] Hc Hput. unfold putsKey in Hput. cbn in Hput. subst e.
  destruct Hc as [[_ []]|(? & ? & [=])].
Qed.

Lemma calm_stopped t : Forall calm t -> omap stoppedBy t = [].
Proof.
  induction 1 as [|x t Hx _ IH]; [done|]. cbn. rewrite IH. destruct x as [[[e|e]|e] r]; [done..|].
  destruct e; try done. by destruct Hx as [[[] _]|(? & ? & [=])].
Qed.

(** The pair is written to [process] and was reported by [p]. *)
Definition betweenProcesses (p process : etcdProcess) (c : list string) (k v : string) (t : rtrace) : Prop :=
  clientEndpoints process = Ok c /\ fromProcess p c c k v t.

Lemma betweenProcesses_closed p process : closed (betweenProcesses p process).
Proof. intros c k v t t' [H1 H2]. split; [done|]. by apply fromProcess_closed. Qed.

Lemma phased_mono {A} (G G' : list string -> string -> string -> rtrace -> Prop) (m : RM A) :
  (forall c k v t, G c k v t -> G' c k v t) -> phased G m -> phased G' m.
Proof.
  intros HG Hm s. eapply wpm_mono; [apply Hm| |]; cbn.
  - intros _ s' t (-> & Hs & Hg). split; [done|]. split; [done|]. intros c k v. eapply guarded_mono; eauto.
  - intros c t (-> & Hs & Hg). split; [done|]. split; [done|]. intros c k v. eapply guarded_mono; eauto.
Qed.

Lemma phased_transfer fuel p process :
  phased (betweenProcesses p process)
    (d ← processClient process;
     match d with
     | Err _ => mret (Some "error building etcd client for target")
     | Ok dest => r ← copyEtcd fuel p dest; kv (ecall (EClose dest)) ≫= fun _ => mret r
     end).
Proof.
  pose proof (betweenProcesses_closed p process) as HG.
  apply (phased_bind_knows _ (fun r => forall c, r = Ok c -> clientEndpoints process = Ok c));
    [done|apply processClient_is|apply phased_processClient|].
  intros [dest|e] Hd; [|apply phased_ret]. apply phased_bind; [done| |].
  - eapply phased_mono; [|apply phased_copyEtcd]. intros c k v t [-> H]. split; [auto|by split].
  - intros r. apply phased_bind; [done|apply phased_close|intros; apply phased_ret].
Qed.

(** A phase after the start of the process [p] on the backup. *)
Lemma phase_restores process base name dir p t t' :
  Forall calm t -> runs_backup base name dir p t -> p ∈ omap startedBy t ->
  phase (betweenProcesses p process) t' -> restores process base name dir (t ++ t').
Proof.
  intros Ht Hrun Hp [_ Hg] c k v. apply guarded_app; [by apply calm_restores|].
  eapply guarded_mono; [apply Hg|]. intros t1 [Hd [_ (src & Hsrc & Hrep)]]. split; [done|].
  exists p, src. split_and!.
  - eapply runs_backup_mono; [|exact Hrun]. intros x Hx. apply elem_of_app. by left.
  - rewrite omap_app. apply elem_of_app. by left.
  - done.
  - eapply reportedBy_mono; [|exact Hrep]. intros x Hx. apply elem_of_app. by right.
Qed.

Definition restore_crash (c : crash) : Prop := c = OutOfFuel \/ c = NilDeref "envPair[1]".

Lemma restoreInto_any fuel process base name dir (s : EtcdServer) :
  wpm (restoreInto cfg gunzip fuel process base name dir) s
    (fun _ s' t => s' = s /\ omap startedBy t = omap stoppedBy t /\
       (forall p, p ∈ omap startedBy t -> proc_CurrentDir p = dir) /\ restores process base name dir t)
    (fun c t => restore_crash c /\ restores process base name dir t).
Proof.
  unfold restoreInto. apply wpm_bind. eapply wpm_mono; [apply RunEtcdFromBackup_any| |].
  2: { intros c t [-> Ht]. split; [by right|]. by apply calm_restores, tame_calm. }
  intros [p|e] s' t (-> & Hc & Hst & Hrun).
  2: { apply wpm_ret. rewrite app_nil_r. unfold started_is in Hst. rewrite Hst, (calm_stopped t Hc).
       split_and!; [done|done| |by apply calm_restores]. intros p Hp. by apply elem_of_nil in Hp. }
  specialize (Hrun p eq_refl). unfold started_is in Hst.
  assert (p ∈ omap startedBy t) as Hp by (rewrite Hst; by left).
  apply wpm_assoc, wpm_bind. eapply wpm_mono; [apply phased_transfer| |]; cbn.
  - intros r s' t' [-> Ht']. wpm_step. wpm_step. apply wpm_ret. cbn. split; [done|].
    destruct Ht' as [Hs Hg]. rewrite !omap_app, Hst, (calm_stopped t Hc), (still_started t' Hs), (still_stopped t' Hs).
    split; [done|]. split.
    + intros q ->%list_elem_of_singleton. destruct Hrun as (? & ? & ? & ? & ? & ? & Hr). by destruct_and! Hr; subst.
    + intros c k v. rewrite app_assoc. apply guarded_app; [by eapply phase_restores|].
      apply guarded_Forall. by repeat constructor.
  - intros c t' [-> Ht']. split; [by left|]. by eapply phase_restores.
Qed.

Lemma emits_store {A} (P : exchange RestoreSig -> Prop) (m : VM EtcdServer A) :
  emits (fun x => P (exL (exL x))) m -> emits P (store m).
Proof. intros H. by apply emits_viaL, emits_viaL. Qed.

Lemma emits_kv {A} (P : exchange RestoreSig -> Prop) (m : EM EtcdServer A) :
  (forall x, P (exL (exR x))) -> emits P (kv m).
Proof.
  intros H. apply emits_viaL, emits_viaR. intros s. apply wpm_any; intros; by apply Forall_true.
Qed.

Lemma restore_keeps_backups {P} `{!LeaderService P} fuel (ps : P) request :
  emits keepsBackups (DoRestore cfg gunzip fuel ps request).
Proof.
  assert (forall A (m : EM EtcdServer A), emits keepsBackups (kv m)) as Hkv
    by (intros; apply emits_kv; by intros [[] r]).
  assert (forall base name, emits keepsBackups (store (LoadInfo base name))) as H1
    by (intros; apply emits_store; unfold LoadInfo; emits_solve; done).
  assert (forall base name f, emits keepsBackups (store (DownloadBackup base name f))) as H2
    by (intros; apply emits_store; unfold DownloadBackup; emits_solve; done).
  assert (forall e, (forall r, keepsBackups (existT (inl (inl e) : op RestoreSig) r)) ->
    emits keepsBackups (store (vcall e))) as Hv.
  { intros e He. apply emits_store. refine (@emits_call VfsSig EtcdServer _ e _). exact He. }
  unfold DoRestore, restoreInto, RunEtcdFromBackup, startOnSnapshot, startProcess, RestoreV3Snapshot, expand,
    copyEtcd, awaitSource, processClient, BindirForEtcdVersion, validateHeader.
  repeat (first [apply Hkv | apply H1 | apply H2 | apply Hv; done | emits_step]); done.
Qed.

(** ** The request *)

Context {P : Type} `{!LeaderService P} (ps : P).

(** What a request may write, where it comes from: the store the request names,
    the etcd of this node, the backup the request names. *)
Definition requested (request : DoRestoreRequest) (s : EtcdServer) (c : list string) (k v : string)
    (t : rtrace) : Prop :=
  exists process base dir, es_process s = Some process /\
    existT (inr (RNewStore (DoRestore_Storage request)) : op RestoreSig) (Ok base) ∈ t /\
    restored process base (DoRestore_BackupName request) dir c k v t.

(** Nothing is asked without the authority of the leader, and keys that are
    written are those that were requested. *)
Definition permitted (request : DoRestoreRequest) (s : EtcdServer) (t : rtrace) : Prop :=
  (t <> [] -> exists hd, DoRestore_Header request = Some hd /\ authorises ps s hd) /\
  forall c k v, guarded (putsKey c k v) (requested request s c k v) t.

(** The etcd that was started is stopped, and its directory removed at the end. *)
Definition cleaned (t : rtrace) : Prop :=
  omap startedBy t = omap stoppedBy t /\
  forall p, p ∈ omap startedBy t -> exists t0 r,
    t = t0 ++ [existT (inl (inl (VRemoveAll (proc_CurrentDir p))) : op RestoreSig) r].

Lemma tame_cleaned t : Forall tame t -> cleaned t.
Proof.
  intros H%tame_still. split; [by rewrite still_started, still_stopped|].
  intros p Hp. rewrite still_started in Hp by done. by apply elem_of_nil in Hp.
Qed.

Lemma tame_permitted request s hd t :
  DoRestore_Header request = Some hd -> authorises ps s hd -> Forall tame t -> permitted request s t.
Proof.
  intros Hh Ha Ht. split; [by eauto|]. intros c k v. by apply tame_guarded.
Qed.

(** The part of a request that works in the directory [dir], after the store was
    opened at [base]. *)
Lemma restores_permitted request s hd process base dir t0 t1 t2 :
  DoRestore_Header request = Some hd -> authorises ps s hd -> es_process s = Some process ->
  existT (inr (RNewStore (DoRestore_Storage request)) : op RestoreSig) (Ok base) ∈ t0 ->
  Forall tame t0 -> restores process base (DoRestore_BackupName request) dir t1 -> Forall tame t2 ->
  permitted request s (t0 ++ t1 ++ t2).
Proof.
  intros Hh Ha Hp Hs H0 H1 H2. split; [by eauto|]. intros c k v.
  apply guarded_app; [by apply tame_guarded|].
  apply guarded_app; [|by apply tame_guarded].
  eapply guarded_mono; [apply H1|]. intros t (Hc & p & src & Hrun & Hst & Hsrc & Hrep).
  exists process, base, dir. split; [done|]. split; [apply elem_of_app; by left|]. split; [done|].
  exists p, src. split_and!; [| |done|].
  - eapply runs_backup_mono; [|exact Hrun]. intros x Hx. apply elem_of_app. by right.
  - rewrite omap_app. apply elem_of_app. by right.
  - eapply reportedBy_mono; [|exact Hrep]. intros x Hx. apply elem_of_app. by right.
Qed.

Lemma DoRestore_any fuel request (s : EtcdServer) :
  wpm (DoRestore cfg gunzip fuel ps request) s
    (fun _ s' t => s' = s /\ permitted request s t /\ cleaned t)
    (fun c t => permitted request s t /\
       (DoRestore_Header request = None /\ t = [] \/ restore_crash c)).
Proof.
  unfold DoRestore. apply wpm_bind. eapply wpm_mono; [apply validateHeader_spec| |].
  2: { intros c t [-> Hh]. split; [|by left]. split; [done|]. intros; apply guarded_nil. }
  intros [e|] s' t (-> & -> & hd & Hh & Hr).
  { apply wpm_ret. split; [done|]. split; [|by apply tame_cleaned]. split; [done|]. intros; apply guarded_nil. }
  assert (authorises ps s hd) as Ha by tauto. clear Hr. cbn [app].
  assert (forall t, Forall tame t -> s = s /\ permitted request s t /\ cleaned t) as Hearly.
  { intros t Ht. split; [done|]. split; [by eapply tame_permitted|by apply tame_cleaned]. }
  apply wpm_bind, wpm_get. cbn beta. destruct (es_process s) as [process|] eqn:Hp; [|apply wpm_ret; by apply Hearly].
  destruct (String.eqb (DoRestore_Storage request) ""); [apply wpm_ret; by apply Hearly|].
  destruct (String.eqb (DoRestore_BackupName request) ""); [apply wpm_ret; by apply Hearly|].
  wpm_step. wpm_step. destruct r as [base|e]; [|apply wpm_ret; apply Hearly; by repeat constructor].
  apply wpm_bind, wpm_store_call. intros tm. wpm_step. wpm_step. cbn zeta.
  apply wpm_bind, wpm_store_call. intros m.
  destruct m as [e|]; [apply wpm_ret; apply Hearly; by repeat constructor|].
  set (dir := PathJoin [r; "restore-etcd-" +:+ pretty (UnixNano tm)]). cbn [app].
  match goal with |- wpm _ _ (fun _ _ t' => _ /\ permitted _ _ (?a :: ?b :: ?c :: ?d :: t') /\ _) _ =>
    set (t0 := [a; b; c; d]) end.
  assert (Forall tame t0) as Ht0 by (by repeat constructor).
  apply wpm_bind. eapply wpm_mono; [apply restoreInto_any| |].
  - intros res s' t1 (-> & Hst & Hdir & Hres). apply wpm_bind, wpm_store_call. intros rr. apply wpm_ret.
    rewrite app_nil_r. set (t2 := [existT (inl (inl (VRemoveAll dir)) : op RestoreSig) rr] : rtrace).
    assert (Forall tame t2) as Ht2 by (by repeat constructor).
    split; [done|]. split; [eapply (restores_permitted _ _ hd process base dir t0); try done; by left|].
    change (cleaned (t0 ++ t1 ++ t2)). split.
    + by rewrite !omap_app, Hst, !(still_started t0), !(still_stopped t0), !(still_started t2), !(still_stopped t2)
        by by apply tame_still.
    + intros p. rewrite !omap_app, (still_started t0), (still_started t2), app_nil_r by by apply tame_still.
      intros Hp'. rewrite (Hdir p Hp'). exists (t0 ++ t1), rr. by rewrite app_assoc.
  - intros c t1 [Hc Hres]. split; [|by right]. rewrite <- (app_nil_r t1).
    eapply (restores_permitted _ _ hd process base dir t0); try done. by left.
Qed.
End Proofs.

(** C21: a restore is safe, whatever the backup store, the processes and the etcds
    do.  Nothing is asked of them unless the request has the authority of the
    current leader.  The state of the node server does not change, and no backup
    is written or removed.  Every key that is written goes to the etcd of this
    node and was reported, with its value, by an etcd that this request started
    on the snapshot of the backup it names (the chain of files is that of
    [runs_backup]).  If the request is answered, that etcd was stopped, and its
    directory was removed as the last step.  It crashes only on a request without
    a header, at the bound of the copy, or on a malformed variable of the
    manager's environment. *)
Theorem restore_is_safe {U} `{!UrlLib U} cfg `{!Codec BackupInfo} gunzip {P} `{!LeaderService P} (ps : P)
    fuel request s :
  wpm (DoRestore cfg gunzip fuel ps request) s
    (fun _ s' t => s' = s /\ Forall keepsBackups t /\ permitted gunzip ps request s t /\ cleaned t)
    (fun c t => Forall keepsBackups t /\ permitted gunzip ps request s t /\
       (DoRestore_Header request = None /\ t = [] \/ restore_crash c)).
Proof.
  eapply wpm_mono; [exact (wpm_conj _ _ _ _ _ _ (DoRestore_any cfg gunzip ps fuel request s)
    (restore_keeps_backups cfg gunzip fuel ps request s))| |]; cbn; tauto.
Qed.
