(* ===== verification/RestoreWorld.v ===== *)
(** * A restore that works

    [DoRestore] ([Restore.v]) with a reliable backup store, reliable etcds and an
    operating system that runs etcdctl and etcd as documented: the contents of
    the snapshot reach the etcd of the node, and with [BackupStore.v], a backup
    that is taken can be restored.  What a snapshot contains ([restoreKv]) and
    decompression are parameters. *)

From stdpp Require Import base gmap sets list strings pretty.
From Stdlib Require Import Ascii.
From S2P Require Import Prelude Effects EffectsSum ProtoEtcd GoLib GoTime Vfs EtcdVersions EtcdClient PrivateApi Binaries EtcdServer EtcdProcess BackupCleanup ClusterState CommandStore BackupStore Restore.

Local Open Scope Z_scope.

(** ** The world *)

(** The disk and the backup store, the contents of the etcds that run, those of
    the data directories on disk, and how etcdctl ended. *)
Record rworld := mkRWorld {
  rw_disk : disk;
  rw_etcds : stores;
  rw_dirs : gmap string (gmap string string);
  rw_ctl : bool;
}.

Definition set_disk (d : disk) (w : rworld) : rworld := mkRWorld d (rw_etcds w) (rw_dirs w) (rw_ctl w).
Definition set_etcds (e : stores) (w : rworld) : rworld := mkRWorld (rw_disk w) e (rw_dirs w) (rw_ctl w).

#[export] Instance disk_lens : Lens rw_disk set_disk.
Proof. by split; [|intros ? ? []|intros []]. Qed.
#[export] Instance etcds_lens : Lens rw_etcds set_etcds.
Proof. by split; [|intros ? ? []|intros []]. Qed.

Definition whole (w' _ : rworld) : rworld := w'.
#[export] Instance whole_lens : Lens (fun w : rworld => w) whole.
Proof. by split. Qed.

Section World.
Context (order : list nat) (tmp : string -> string) (tempRoot : string) (installed : string -> bool).
Context (environ : list string) (restoreKv : string -> option (gmap string string)).

(** etcdctl makes the directory of its last argument from the snapshot of its
    fourth one; etcd serves what is in its data directory. *)
Definition os_reliable : handler RunSig rworld := fun e w =>
  let local := d_local (rw_disk w) in
  let write f := set_disk (set_local f (rw_disk w)) w in
  match e return run_res e * rworld with
  | RStat p => (if installed p then StatOk else StatNotExist, w)
  | RTempDir => (tempRoot, w)
  | RNewStore storage => (Ok storage, w)
  | RNewCA | RCreateKeypairs _ _ => (None, w)
  | RCreate p => (None, write (<[p := ""]> local))
  | RWrite p data => (None, write (<[p := data]> local))
  | RCtlStart args =>
      match args !! 3%nat ≫= fun f => local !! f ≫= restoreKv, last args with
      | Some kvs, Some dir =>
          (None, mkRWorld (rw_disk w) (rw_etcds w) (<[dir := kvs]> (rw_dirs w)) true)
      | _, _ => (None, mkRWorld (rw_disk w) (rw_etcds w) (rw_dirs w) false)
      end
  | RCtlWait => (Ok (rw_ctl w), w)
  | REnviron => (environ, w)
  | RExec p c =>
      match cmd_env c !! "ETCD_DATA_DIR" ≫= fun dir => rw_dirs w !! dir, clientEndpoints p with
      | Some kvs, Ok src => (None, set_etcds (<[src := kvs]> (rw_etcds w)) w)
      | _, _ => (Some "etcd did not start", w)
      end
  | RStop p =>
      (None, match clientEndpoints p with
             | Ok src => set_etcds (delete src (rw_etcds w)) w
             | Err _ => w
             end)
  | RExited _ => (false, w)
  | RSleep => (tt, w)
  end.

Definition restore_reliable : handler RestoreSig rworld :=
  sum_handler (fun w => w) whole (fun w => w) whole
    (sum_handler rw_disk set_disk rw_etcds set_etcds (reliable order tmp) etcd_reliable) os_reliable.

Lemma evm_store {A} (m : VM EtcdServer A) s w Q :
  evm (reliable order tmp) m s (rw_disk w) (fun a s' d => Q a s' (set_disk d w)) ->
  evm restore_reliable (store m) s w Q.
Proof. intros H. apply evm_viaL; [apply _|]. apply evm_viaL; [apply _|]. exact H. Qed.

Lemma evm_kv {A} (m : EM EtcdServer A) s w Q :
  evm etcd_reliable m s (rw_etcds w) (fun a s' e => Q a s' (set_etcds e w)) ->
  evm restore_reliable (kv m) s w Q.
Proof. intros H. apply evm_viaL; [apply _|]. apply evm_viaR; [apply _|]. exact H. Qed.

Lemma evm_os (e : run_op) s w (Q : run_res e -> EtcdServer -> rworld -> Prop) :
  Q (fst (os_reliable e w)) s (snd (os_reliable e w)) -> evm restore_reliable (rcall e) s w Q.
Proof.
  intros H. refine (@evm_call RestoreSig EtcdServer _ restore_reliable (inr e) s w Q _).
  cbn [restore_reliable sum_handler]. by destruct (os_reliable e w).
Qed.

Lemma evm_disk (e : vfs_op) s w (Q : vfs_res e -> EtcdServer -> rworld -> Prop) :
  Q (fst (reliable order tmp e (rw_disk w))) s (set_disk (snd (reliable order tmp e (rw_disk w))) w) ->
  evm restore_reliable (store (vcall e)) s w Q.
Proof. intros H. apply evm_store. refine (@evm_call VfsSig EtcdServer _ _ e s (rw_disk w) _ _). exact H. Qed.

Ltac rstep :=
  lazymatch goal with
  | |- evm _ (mret _) _ _ _ => apply evm_ret
  | |- evm _ (mbind _ _) _ _ _ => apply evm_bind
  | |- evm _ (store (@call VfsSig _ ?e)) ?s ?w ?Q => refine (evm_disk e s w Q _); cbn [reliable fst snd]
  | |- evm _ (@call RestoreSig _ (inr ?e)) ?s ?w ?Q => refine (evm_os e s w Q _); cbn [os_reliable fst snd]
  end.

(** The socket of the etcd that reads the backup. *)
Definition restoreSocket (dir : string) : list string := ["unixs://" +:+ PathJoin [dir; "127.0.0.1:8002"]].

Lemma restore_url dir :
  IsAbs dir = true ->
  absoluteUrl dir "unixs://127.0.0.1:8002" = Ok ("unixs://" +:+ PathJoin [dir; "127.0.0.1:8002"]).
Proof.
  intros Hd. unfold absoluteUrl. change (unixScheme "unixs://127.0.0.1:8002") with "unixs". cbv zeta.
  change (String.eqb "unixs" "") with false. change (HasPrefix "unixs://127.0.0.1:8002" ("unixs" +:+ ":///")) with false.
  cbn iota. rewrite (proj2 (String.eqb_neq dir "")) by (by intros ->). by rewrite Hd.
Qed.

Lemma restore_endpoints binDir v dir :
  IsAbs dir = true -> clientEndpoints (restoreProcess binDir v dir) = Ok (restoreSocket dir).
Proof.
  intros Hd. change (clientEndpoints (restoreProcess binDir v dir)) with
    (match absoluteUrl dir "unixs://127.0.0.1:8002" with Err e => Err e | Ok u => Ok [u] end).
  by rewrite restore_url.
Qed.

Lemma Bindir_reliable cfg v d (s : EtcdServer) w :
  d ∈ binDirs cfg v "etcd" -> installed (PathJoin [d; "etcd"]) = true ->
  evm restore_reliable (BindirForEtcdVersion cfg v "etcd") s w
    (fun r s' w' => s' = s /\ w' = w /\ exists b, r = Ok b).
Proof.
  unfold BindirForEtcdVersion. generalize (binDirs cfg v "etcd"). intros l Hd Hi. apply evm_bind.
  induction l as [|b l IH]; [by apply elem_of_nil in Hd|]. cbn [for_each]. apply evm_bind, evm_bind.
  refine (evm_os (RStat (PathJoin [b; "etcd"])) s w _ _). cbn [os_reliable fst snd].
  destruct (installed (PathJoin [b; "etcd"])) eqn:E; cbn [stat_of RestoreSig_stat]; repeat apply evm_ret.
  - split; [done|]. split; [done|]. by eexists.
  - apply elem_of_cons in Hd as [->|Hd]; [congruence|]. by apply IH.
Qed.

Lemma expand_reliable gunzip file dest content data s w :
  d_local (rw_disk w) !! file = Some content -> gunzip content = Some (data, true) ->
  evm restore_reliable (expand gunzip file dest) s w (fun r s' w' => r = None /\ s' = s /\
    exists local, w' = set_disk (set_local local (rw_disk w)) w /\ local !! dest = Some data).
Proof.
  intros Hf Hg. unfold expand. rstep. rstep. rewrite Hf. cbn iota. rstep. rstep. cbn iota.
  rewrite Hg. rstep. rstep. cbn iota. rstep.
  split; [done|]. split; [done|]. eexists. split; [done|]. apply lookup_insert_eq.
Qed.

Lemma RestoreV3Snapshot_reliable binDir v dir file snapshot kvs s w :
  let p := restoreProcess binDir v dir in
  d_local (rw_disk w) !! file = Some snapshot -> restoreKv snapshot = Some kvs ->
  evm restore_reliable (RestoreV3Snapshot p file) s w (fun r s' w' => r = None /\ s' = s /\
    w' = mkRWorld (rw_disk w) (rw_etcds w) (<[proc_DataDir p := kvs]> (rw_dirs w)) true).
Proof.
  intros p Hf Hk. unfold RestoreV3Snapshot. change (findMyNode p) with (Some restoreNode). cbn iota.
  rstep. rstep.
  change (restoreArgs p restoreNode file !! 3%nat) with (Some file).
  change (last (restoreArgs p restoreNode file)) with (Some (proc_DataDir p)).
  cbn [mbind option_bind]. rewrite Hf. cbn [mbind option_bind]. rewrite Hk. cbn [fst snd]. rstep. rstep. by rstep.
Qed.

(** The manager's own variables are well formed, and do not move the data. *)
Definition environ_ok : Prop :=
  Forall (fun e => (HasPrefix e "ETCD_" = true -> contains_byte e "=" = true) /\
                   sets "ETCD_DATA_DIR" e = None) environ.

Context {U : Type} `{!UrlLib U}.

Lemma startProcess_reliable binDir v dir kvs s w :
  let p := restoreProcess binDir v dir in
  environ_ok -> IsAbs dir = true -> rw_dirs w !! proc_DataDir p = Some kvs ->
  evm restore_reliable (startProcess p) s w (fun r s' w' => r = None /\ s' = s /\
    w' = set_etcds (<[restoreSocket dir := kvs]> (rw_etcds w)) w).
Proof.
  intros p Henv Hd Hk. unfold startProcess. rstep. rstep.
  unfold startCommand. change (findMyNode p) with (Some restoreNode). cbn iota.
  apply Forall_and in Henv as [Hform Hno].
  destruct (overwrite_total environ (setAll (settings p restoreNode) ∅) Hform) as [env He]. rewrite He.
  pose proof (overwrite_lookup _ _ _ "ETCD_DATA_DIR" He) as Hl. rewrite (no_override _ _ Hno) in Hl.
  rewrite (setAll_lookup _ _ _ (proc_DataDir p) (settings_NoDup p restoreNode)) in Hl by by left.
  change (proc_IgnoreListenMetricsURLs p) with true. cbn iota zeta. rstep. cbn [cmd_env].
  rewrite lookup_delete_ne, Hl by done. cbn [mbind option_bind].
  pose proof (restore_endpoints binDir v dir Hd) as Hsrc. fold p in Hsrc. by rewrite Hk, Hsrc.
Qed.

Context (cfg : BinConfig) `{!Codec BackupInfo} (gunzip : string -> option (string * bool)).

(** An operation keeps the backups, and the etcds become [etcds]. *)
Definition world_after (w : rworld) (etcds : stores) (w' : rworld) : Prop :=
  d_files (rw_disk w') = d_files (rw_disk w) /\ rw_etcds w' = etcds.

Lemma startOnSnapshot_reliable binDir v dir file content snapshot kvs s w :
  let p := restoreProcess binDir v dir in
  environ_ok -> IsAbs dir = true -> d_local (rw_disk w) !! file = Some content ->
  gunzip content = Some (snapshot, true) -> restoreKv snapshot = Some kvs ->
  evm restore_reliable (startOnSnapshot gunzip p dir file) s w (fun r s' w' => r = Ok p /\ s' = s /\
    world_after w (<[restoreSocket dir := kvs]> (rw_etcds w)) w').
Proof.
  intros p Henv Hd Hf Hg Hk. unfold startOnSnapshot. cbv zeta. rstep.
  eapply evm_mono; [by eapply expand_reliable|]. intros r s' w' (-> & -> & local & -> & Hl). cbn iota.
  rstep. eapply evm_mono; [by eapply RestoreV3Snapshot_reliable|]. intros r s' w' (-> & -> & ->). cbn iota.
  rstep. eapply evm_mono; [eapply startProcess_reliable; [done..|]; apply lookup_insert_eq|].
  intros r s' w' (-> & -> & ->). cbn iota. by rstep.
Qed.

(** What makes the backup readable. *)
Record readable (d : disk) (base name : string) (kvs : gmap string string) : Prop := {
  rd_meta : exists json info, d_files d !! metaPath base name = Some json /\ FromJson json = Some info /\
    HasPrefix (Backup_EtcdVersion info) "2." = false /\
    exists b, b ∈ binDirs cfg (restoreVersion (Backup_EtcdVersion info)) "etcd" /\
      installed (PathJoin [b; "etcd"]) = true;
  rd_data : exists content snapshot, d_files d !! dataPath base name = Some content /\
    gunzip content = Some (snapshot, true) /\ restoreKv snapshot = Some kvs;
}.

Lemma RunEtcdFromBackup_reliable base name dir kvs s w :
  environ_ok -> IsAbs dir = true -> readable (rw_disk w) base name kvs ->
  evm restore_reliable (RunEtcdFromBackup cfg gunzip base name dir) s w (fun r s' w' => s' = s /\
    (exists b v, r = Ok (restoreProcess b v dir)) /\
    world_after w (<[restoreSocket dir := kvs]> (rw_etcds w)) w').
Proof.
  intros Henv Hd [(json & info & Hm & Hj & Hv & b & Hb & Hi) (content & snapshot & Hc & Hg & Hk)].
  unfold RunEtcdFromBackup. rstep. apply evm_store. eapply evm_mono; [by eapply LoadInfo_reliable|].
  intros r s' d (-> & -> & ->). cbn iota. rewrite Hv. cbv zeta. rstep. apply evm_store.
  eapply evm_mono; [by apply (DownloadBackup_reliable base order tmp s _ name _ content)|].
  intros r s' d (-> & -> & Hfiles & Hlocal). cbn iota. rstep.
  eapply evm_mono; [by eapply Bindir_reliable|]. intros r s' w' (-> & -> & binDir & ->). cbn iota.
  do 3 (rstep; rstep; cbn iota).
  eapply evm_mono; [by eapply startOnSnapshot_reliable|]. intros r s' w' (-> & -> & Hf & He).
  split; [done|]. split; [by eexists _, _|]. split; [|done]. rewrite Hf. done.
Qed.

Lemma processClient_reliable p c s w :
  clientEndpoints p = Ok c -> c <> [] ->
  evm restore_reliable (processClient p) s w (fun r s' w' => r = Ok c /\ s' = s /\ world_after w (rw_etcds w) w').
Proof.
  intros Hc Hne. unfold processClient. rewrite Hc. rstep. apply evm_kv. unfold newClient.
  destruct c as [|u c]; [done|]. by repeat evm_step.
Qed.

Lemma close_reliable {A} c (r : A) s w :
  evm restore_reliable (kv (ecall (EClose c)) ≫= fun _ => mret r) s w
    (fun r' s' w' => r' = r /\ s' = s /\ world_after w (rw_etcds w) w').
Proof. rstep. apply evm_kv. evm_step. by rstep. Qed.

Lemma world_after_trans w w1 w2 e1 e2 :
  world_after w e1 w1 -> world_after w1 e2 w2 -> world_after w e2 w2.
Proof. intros [H1 _] [H2 H3]. split; congruence. Qed.

Lemma copyEtcd_reliable fuel p src dest s w :
  clientEndpoints p = Ok src -> src <> [] -> src <> dest ->
  (forall k, is_Some (contents (rw_etcds w) src !! k) -> k <> "") -> (size (contents (rw_etcds w) src) < fuel)%nat ->
  evm restore_reliable (copyEtcd fuel p dest) s w (fun r s' w' => r = None /\ s' = s /\ exists etcds,
    world_after w etcds w' /\
    contents etcds dest = contents (rw_etcds w) src ∪ contents (rw_etcds w) dest /\
    forall e, e <> dest -> etcds !! e = rw_etcds w !! e).
Proof.
  intros Hsrc Hne Hdest Hk Hf. unfold copyEtcd. rstep. eapply evm_mono; [by apply processClient_reliable|].
  intros r s' w1 (-> & -> & Hw1). cbn iota. rstep.
  apply (evm_mono _ _ _ _ (fun r s' w' => r = None /\ s' = s /\ world_after w1 (rw_etcds w1) w')).
  { unfold awaitSource. rstep. change (seq 0 60) with (0%nat :: seq 1 59). cbn [for_each]. rstep. rstep.
    apply evm_kv. unfold Get. by repeat evm_step. }
  intros e s' w2 (-> & -> & Hw2). cbn iota.
  pose proof (world_after_trans _ _ _ _ _ Hw1 Hw2) as [Hfiles2 He2]. rewrite (proj2 Hw1) in He2.
  rstep. rstep. apply evm_kv. rewrite <- He2 in Hk, Hf.
  eapply evm_mono; [by apply CopyTo_reliable|]. intros n s' etcds (-> & -> & Hd & Ho). rstep. cbn [snd].
  eapply evm_mono; [apply close_reliable|]. intros r s' w' (-> & -> & Hw'). split; [done|]. split; [done|].
  exists etcds. rewrite <- He2. split; [|done]. destruct Hw' as [Hf' He']. split; [rewrite Hf'; exact Hfiles2|done].
Qed.

(** The keys of the backup reached [dest]; no other etcd has changed but the one
    behind [socket], which is gone; the backups are as they were. *)
Definition restoredTo (kvs : gmap string string) (dest socket : list string) (w w' : rworld) : Prop :=
  contents (rw_etcds w') dest = kvs ∪ contents (rw_etcds w) dest /\
  (forall e, e <> dest -> e <> socket -> rw_etcds w' !! e = rw_etcds w !! e) /\
  rw_etcds w' !! socket = None /\ d_files (rw_disk w') = d_files (rw_disk w).

Context (Henv : environ_ok) (kvs : gmap string string).
Context (Hkeys : forall k, is_Some (kvs !! k) -> k <> "") (fuel : nat) (Hfuel : (size kvs < fuel)%nat).

Lemma restoreInto_reliable process dest base name dir s w :
  IsAbs dir = true -> readable (rw_disk w) base name kvs ->
  clientEndpoints process = Ok dest -> dest <> [] -> dest <> restoreSocket dir ->
  evm restore_reliable (restoreInto cfg gunzip fuel process base name dir) s w (fun r s' w' =>
    r = None /\ s' = s /\ restoredTo kvs dest (restoreSocket dir) w w').
Proof.
  intros Hd Hr Hdest Hne Hsock. unfold restoreInto. rstep.
  eapply evm_mono; [by apply RunEtcdFromBackup_reliable|]. intros r s' w1 (-> & (b & v & ->) & Hw1). cbn iota.
  rstep. eapply evm_mono; [by apply processClient_reliable|]. intros r s' w2 (-> & -> & Hw2). cbn iota.
  pose proof (world_after_trans _ _ _ _ _ Hw1 Hw2) as [Hfiles2 He2]. rewrite (proj2 Hw1) in He2.
  assert (contents (rw_etcds w2) (restoreSocket dir) = kvs) as Hc.
  { rewrite He2. unfold contents. by rewrite lookup_insert_eq. }
  rstep. rstep. eapply evm_mono.
  { apply (copyEtcd_reliable fuel _ (restoreSocket dir) dest); rewrite ?Hc; try done. by apply restore_endpoints. }
  intros r s' w3 (-> & -> & etcds & Hw3 & Hcont & Hoth).
  eapply evm_mono; [apply close_reliable|]. intros r s' w4 (-> & -> & Hw4).
  pose proof (world_after_trans _ _ _ _ _ Hw3 Hw4) as [Hfiles4 He4]. rewrite (proj2 Hw3) in He4.
  rstep. rstep. rstep. rewrite restore_endpoints by done. split; [done|]. split; [done|].
  unfold restoredTo. cbn [rw_etcds rw_disk set_etcds]. rewrite He4. split_and!.
  - unfold contents in *. rewrite lookup_delete_ne by done. rewrite Hcont, Hc, He2.
    by rewrite lookup_insert_ne.
  - intros e H1 H2. rewrite lookup_delete_ne, Hoth, He2 by done. by rewrite lookup_insert_ne.
  - apply lookup_delete_eq.
  - congruence.
Qed.

(** The directory of a restore. *)
Definition restoreDir (t : time) : string := PathJoin [tempRoot; "restore-etcd-" +:+ pretty (UnixNano t)].

Lemma DoRestore_reliable {P} `{!LeaderService P} (ps : P) request hd process dest s w :
  DoRestore_Header request = Some hd -> authorises ps s hd -> es_process s = Some process ->
  DoRestore_Storage request <> "" -> DoRestore_BackupName request <> "" -> IsAbs tempRoot = true ->
  readable (rw_disk w) (DoRestore_Storage request) (DoRestore_BackupName request) kvs ->
  clientEndpoints process = Ok dest -> dest <> [] -> dest <> restoreSocket (restoreDir (d_now (rw_disk w))) ->
  evm restore_reliable (DoRestore cfg gunzip fuel ps request) s w (fun r s' w' =>
    r = None /\ s' = s /\ restoredTo kvs dest (restoreSocket (restoreDir (d_now (rw_disk w)))) w w').
Proof.
  intros Hh [Hname Hgrant] Hp Hst Hbk Hroot Hr Hdest Hne Hsock. unfold DoRestore, validateHeader, deref. rewrite Hh.
  rstep. rstep. rstep. rstep. apply evm_get. rewrite Hname, String.eqb_refl, Hgrant. cbn [negb]. rstep. cbn iota.
  rstep. apply evm_get. rewrite Hp, (proj2 (String.eqb_neq _ "") Hst), (proj2 (String.eqb_neq _ "") Hbk).
  do 4 (rstep; rstep; cbn iota zeta). fold (restoreDir (d_now (rw_disk w))). rstep.
  eapply evm_mono; [apply restoreInto_reliable; try done|].
  - unfold restoreDir. destruct (PathJoin_abs tempRoot ["restore-etcd-" +:+ pretty (UnixNano (d_now (rw_disk w)))] Hroot)
      as [b ->]. by destruct b.
  - intros r s' w' (-> & -> & Hw'). rstep. rstep. rstep. done.
Qed.
End World.

Lemma timed_version t info : Backup_EtcdVersion (timedInfo t info) = Backup_EtcdVersion info.
Proof. unfold timedInfo. by case_match. Qed.

(** C22: a backup can be restored.  On a reliable path store and with reliable
    etcds, a backup of a running etcd succeeds; and from then on, in every world
    in which its two files are still there and the etcd that can read it is
    installed, a request of the leader to restore it succeeds: the etcd of the
    node has then every key of the snapshot at the value of the snapshot, and its
    other keys as they were; the etcd that read the backup is gone, no other etcd
    has changed, and the backups are as they were. *)
Theorem backup_then_restore {U} `{!UrlLib U} `{!Codec BackupInfo} {P} `{!LeaderService P} (ps : P)
    order tmp tempRoot installed environ restoreKv cfg gunzip base info urls n d snapshot kvs fuel
  (Hbase : cleanPath base) (Htmp : cleanPath (tmp "")) (Hn : 0 <= n < 1000000)
  (Hyear : fourDigitYear (d_now d)) (Hurls : urls <> []) (Hjson : is_Some (ToJson (timedInfo (d_now d) info)))
  (Hversion : Backup_EtcdVersion info <> "") (Hv3 : HasPrefix (Backup_EtcdVersion info) "2." = false)
  (Hbin : exists b, b ∈ binDirs cfg (restoreVersion (Backup_EtcdVersion info)) "etcd" /\
     installed (PathJoin [b; "etcd"]) = true)
  (Hgz : gunzip (d_snapshot d) = Some (snapshot, true)) (Hkv : restoreKv snapshot = Some kvs)
  (Hkeys : forall k, is_Some (kvs !! k) -> k <> "") (Hfuel : (size kvs < fuel)%nat)
  (Henv : environ_ok environ) (Hroot : IsAbs tempRoot = true) :
  evm (reliable order tmp) (DoBackupTo base info urls) n d (fun r n' d' => exists name,
    r = Ok (mkDoBackupResponse name) /\
    forall w hd process dest s,
      d_files (rw_disk w) !! metaPath base name = d_files d' !! metaPath base name ->
      d_files (rw_disk w) !! dataPath base name = d_files d' !! dataPath base name ->
      authorises ps s hd -> es_process s = Some process -> clientEndpoints process = Ok dest -> dest <> [] ->
      let socket := restoreSocket (restoreDir tempRoot (d_now (rw_disk w))) in
      dest <> socket ->
      evm (restore_reliable order tmp tempRoot installed environ restoreKv)
        (DoRestore cfg gunzip fuel ps (mkDoRestoreRequest (Some hd) base name)) s w
        (fun r s' w' => r = None /\ s' = s /\ restoredTo kvs dest socket w w')).
Proof.
  destruct Hjson as [json Hj].
  eapply evm_mono; [by apply (backup_files base order tmp info urls n d json)|].
  intros r n' d' (-> & -> & _ & _ & Em & Ed). set (name := backupName (d_now d) (pad6 (nextSequence n))) in *.
  exists name. split; [done|]. intros w hd process dest s Hm Hd Ha Hp Hdest Hne socket Hsock.
  rewrite Em in Hm. rewrite Ed in Hd.
  apply (DoRestore_reliable order tmp tempRoot installed environ restoreKv cfg gunzip Henv kvs Hkeys fuel Hfuel
    ps _ hd process dest s w); try done; cbn.
  - intros ->. destruct Hbase as (comps & Hc & Hp' & [E|E]); [|done].
    destruct (Join_plain_nonempty comps Hc Hp') as (x & y & E' & _). congruence.
  - assert (plain name = true) as Hplain.
    { apply backupName_plain; [done|]. by apply pad6_no_slash, nextSequence_range. }
    by intros E; rewrite E in Hplain.
  - split; [|by exists (d_snapshot d), snapshot]. exists json, (timedInfo (d_now d) info). split; [done|].
    split; [by apply FromJson_ToJson|]. by rewrite timed_version.
Qed.

(** ** An instance *)

Module RestoreDemo.
Export ProcessDemo BackupDemo.
(** The leadership token "t" is the current one. *)
Inductive leader := Leader.
#[export] Instance leader_service : LeaderService leader := fun _ token => String.eqb token "t".
Definition header : CommonRequestHeader := mkCommonRequestHeader "t" "main".
Definition server : EtcdServer :=
  mkEtcdServer "/mnt" me "main" None None (Some process) "0.0.0.0" [] true true.
Definition node : list string := ["https://n1:8001"].
Definition kvs : gmap string string := {["/a" := "1"; "/b" := "2"]}.
Definition gunzip (s : string) : option (string * bool) :=
  if String.eqb s "snapshot" then Some ("raw", true) else None.
Definition restoreKv (s : string) : option (gmap string string) := if String.eqb s "raw" then Some kvs else None.
Definition installed (p : string) : bool := String.eqb p "/opt/etcd-v3.4.13/etcd".
Definition later : rworld := mkRWorld after {[node := {["/b" := "0"; "/c" := "3"]}]} ∅ false.
End RestoreDemo.
Import RestoreDemo.

Lemma backup_then_restore_witness :
  evm (reliable [] tmp) (DoBackupTo BackupDemo.base info ["http://127.0.0.1:4001"]) 0 before
    (fun r n' d' => exists name, r = Ok (mkDoBackupResponse name) /\
       (d_files d' = d_files after ->
        evm (restore_reliable [] tmp "/tmp" installed environ restoreKv)
          (DoRestore defaultBinConfig RestoreDemo.gunzip 3 Leader
             (mkDoRestoreRequest (Some header) BackupDemo.base name)) server later
          (fun r s' w' => r = None /\
             contents (rw_etcds w') node = {["/a" := "1"; "/b" := "2"; "/c" := "3"]}))).
Proof.
  eapply evm_mono; [apply (backup_then_restore Leader [] tmp "/tmp" installed environ restoreKv defaultBinConfig
    RestoreDemo.gunzip BackupDemo.base info ["http://127.0.0.1:4001"] 0 before "raw" kvs 3
    BackupDemo.backups_clean tmp_clean)|].
  - lia.
  - exact StoreDemo.noon_year.
  - discriminate.
  - exists "info". vm_compute. reflexivity.
  - discriminate.
  - vm_compute. reflexivity.
  - exists "/opt/etcd-v3.4.13". split; [apply (bool_decide_unpack _); vm_compute; exact I|vm_compute; reflexivity].
  - vm_compute. reflexivity.
  - vm_compute. reflexivity.
  - intros k Hk ->. vm_compute in Hk. by destruct Hk.
  - vm_compute. lia.
  - repeat constructor; vm_compute; congruence.
  - vm_compute. reflexivity.
  - intros r n' d' (nm & Hr & Hrest). exists nm. split; [exact Hr|]. intros Hd.
    eapply evm_mono; [apply (Hrest later header process node server)|].
    + rewrite Hd. reflexivity.
    + rewrite Hd. reflexivity.
    + split; vm_compute; reflexivity.
    + vm_compute. reflexivity.
    + vm_compute. reflexivity.
    + discriminate.
    + vm_compute. discriminate.
    + intros r' s' w' (Hr' & _ & Hc & _). split; [exact Hr'|]. rewrite Hc. vm_compute. reflexivity.
Defined.
