(* ===== verification/ControllerOps.v ===== *)
(** * The operations of the controller: pkg/controller

    The state of an [EtcdController] and the operations its cycle chooses from:
    reading the control store, backups, creating a cluster, adding and removing
    members, upgrades, restore, quarantine and TLS.  Each is the method of the
    same name.  An answer [(changed, err)] of the source is a pair. *)

From stdpp Require Import base gmap sets list strings.
From S2P Require Import Prelude Effects ProtoEtcd GoLib Binaries BackupCleanup ClusterState.

Local Open Scope Z_scope.

(** ** State *)

Definition removeUnhealthyDeadline : duration := Minute.
Definition defaultCycleInterval : duration := 10 * Second.

Record leadershipState := mkLeadershipState { ls_token : string; ls_ackedPeers : gset string }.

(** [peers.MyPeerId()] and [backupStore.Spec()] are constants of the objects the
    controller holds; [leaderLock != nil] is [m_leaderLock]; a nil map of
    [peerState] is [None], since writing to it panics. *)
Record EtcdController := mkEtcdController {
  m_clusterName : string;
  m_dnsSuffix : string;
  m_controlRefreshInterval : duration;
  m_backupInterval : duration;
  m_storeSpec : string;
  m_myPeerId : string;
  m_leaderLock : bool;
  m_leaderLockGuard : option nat;
  m_leadership : option leadershipState;
  m_peerState : option (gmap string time);
  m_CycleInterval : duration;
  m_lastBackup : time;
  m_backupCleanup : BackupCleanup;
  m_controlCommands : list StoredCommand;
  m_controlLastRead : time;
  m_controlClusterSpec : option ClusterSpec;
  m_disableEtcdTLS : bool;
}.

Definition set_guard (g : option nat) (m : EtcdController) : EtcdController :=
  mkEtcdController (m_clusterName m) (m_dnsSuffix m) (m_controlRefreshInterval m)
    (m_backupInterval m) (m_storeSpec m) (m_myPeerId m) (m_leaderLock m) g (m_leadership m)
    (m_peerState m) (m_CycleInterval m) (m_lastBackup m) (m_backupCleanup m)
    (m_controlCommands m) (m_controlLastRead m) (m_controlClusterSpec m) (m_disableEtcdTLS m).

Definition set_leadership (l : option leadershipState) (ps : option (gmap string time))
    (m : EtcdController) : EtcdController :=
  mkEtcdController (m_clusterName m) (m_dnsSuffix m) (m_controlRefreshInterval m)
    (m_backupInterval m) (m_storeSpec m) (m_myPeerId m) (m_leaderLock m) (m_leaderLockGuard m)
    l ps (m_CycleInterval m) (m_lastBackup m) (m_backupCleanup m)
    (m_controlCommands m) (m_controlLastRead m) (m_controlClusterSpec m) (m_disableEtcdTLS m).

Definition set_backup (t : time) (c : BackupCleanup) (m : EtcdController) : EtcdController :=
  mkEtcdController (m_clusterName m) (m_dnsSuffix m) (m_controlRefreshInterval m)
    (m_backupInterval m) (m_storeSpec m) (m_myPeerId m) (m_leaderLock m) (m_leaderLockGuard m)
    (m_leadership m) (m_peerState m) (m_CycleInterval m) t c
    (m_controlCommands m) (m_controlLastRead m) (m_controlClusterSpec m) (m_disableEtcdTLS m).

Definition set_control (cmds : list StoredCommand) (t : time) (spec : option ClusterSpec)
    (m : EtcdController) : EtcdController :=
  mkEtcdController (m_clusterName m) (m_dnsSuffix m) (m_controlRefreshInterval m)
    (m_backupInterval m) (m_storeSpec m) (m_myPeerId m) (m_leaderLock m) (m_leaderLockGuard m)
    (m_leadership m) (m_peerState m) (m_CycleInterval m) (m_lastBackup m) (m_backupCleanup m)
    cmds t spec (m_disableEtcdTLS m).

(** [NewEtcdController]; building the TLS client configuration is not modelled. *)
Definition NewEtcdController (leaderLock : bool) (storeSpec : string) (backupInterval : duration)
    (controlRefreshInterval : duration) (clusterName dnsSuffix myPeerId : string)
    (disableEtcdTLS : bool) : result EtcdController :=
  if String.eqb clusterName "" then Err "ClusterName is required"
  else Ok (mkEtcdController clusterName dnsSuffix controlRefreshInterval backupInterval storeSpec
             myPeerId leaderLock None None None defaultCycleInterval zeroTime NewBackupCleanup
             [] zeroTime None disableEtcdTLS).

Abbreviation CC := (M CtlSig EtcdController).
Abbreviation ccall e := (@call CtlSig EtcdController e).

(** The answer of an operation: whether something changed, and an error. *)
Definition verdict : Type := bool * option error.

(** [quorumSize]: Go's integer division truncates. *)
Definition quorumSize (desiredMemberCount : Z) : Z := Z.quot desiredMemberCount 2 + 1.

Definition len {V} (m : gmap string V) : Z := Z.of_nat (size m).

(** ** Leadership and the control store *)

Definition releaseLeaderLock : CC (option error) :=
  m ← get;
  match m_leaderLockGuard m with
  | None => mret None
  | Some g =>
      r ← ccall (CRelease g);
      match r with
      | Some _ => mret (Some "failed to release leader lock guard")
      | None => modify (set_guard None) ≫= fun _ => mret None
      end
  end.

Definition buildHeader : CC CommonRequestHeader :=
  m ← get;
  l ← deref "m.leadership" (m_leadership m);
  mret (mkCommonRequestHeader (ls_token l) (m_clusterName m)).

Definition refreshControlStore (ttl : duration) : CC (option error) :=
  t ← now;
  m ← get;
  if negb (ttl =? 0) && (t <? m_controlLastRead m + ttl) then mret None
  else
    c ← ccall CListCommands;
    match c with
    | Err e => mret (Some e)
    | Ok controlCommands =>
        s ← ccall CGetExpectedClusterSpec;
        match s with
        | Err e => mret (Some e)
        | Ok controlClusterSpec =>
            modify (set_control controlCommands t controlClusterSpec) ≫= fun _ => mret None
        end
    end.

Definition InvalidateControlStore : CC (option error) := refreshControlStore 0.

Definition isRestore (c : StoredCommand) : bool :=
  match Command_RestoreBackup (sc_data c) with Some _ => true | None => false end.

Definition getRestoreBackupCommand (m : EtcdController) : option StoredCommand :=
  List.find isRestore (m_controlCommands m).

Definition removeCommand (cmd : StoredCommand) : CC (option error) :=
  r ← ccall (CRemoveCommand cmd);
  modify (fun m => set_control [] zeroTime (m_controlClusterSpec m) m) ≫= fun _ => mret r.

Definition writeClusterSpec (newClusterSpec : ClusterSpec) : CC (option error) :=
  ccall (CSetExpectedClusterSpec newClusterSpec).

(** ** Member map *)

Definition memberInfo (dnsSuffix : string) (name : string) (p : etcdClusterPeerInfo)
    : MemberMapInfo :=
  mkMemberMapInfo name (member_dns dnsSuffix name) (Peer_Endpoints (cp_info (pe_peer p))).

Definition buildMemberMap (cs : etcdClusterState) : CC MemberMap :=
  m ← get;
  l ← range (cs_peers cs);
  mret (mkMemberMap (omap (fun e =>
    match Info_EtcdState (pe_info (snd e)), Info_NodeConfiguration (pe_info (snd e)) with
    | Some _, Some conf => Some (memberInfo (m_dnsSuffix m) (Node_Name conf) (snd e))
    | _, _ => None
    end) l)).

Definition broadcastMemberMap (cs : etcdClusterState) (memberMap : MemberMap) : CC (list error) :=
  l ← range (cs_peers cs);
  for_fold l [] (fun e errors =>
    r ← rpcUpdateEndpoints (pe_peer (snd e)) memberMap;
    match r with
    | Some err => mret (errors ++ [err])
    | None => mret errors
    end).

(** ** Backup *)

Definition doClusterBackup (clusterSpec : ClusterSpec) (cs : etcdClusterState)
    : CC (result DoBackupResponse) :=
  l ← range (cs_healthyMembers cs);
  r ← for_each l tt (fun e _ =>
        p ← FindPeer cs (snd e);
        match p with
        | None => mret (inl tt)
        | Some p =>
            header ← buildHeader;
            m ← get;
            let info := mkBackupInfo "" 0 (Some clusterSpec) in
            x ← rpcDoBackup (pe_peer p)
                  (mkDoBackupRequest (Some header) (m_storeSpec m) false (Some info));
            match x with
            | Err _ => mret (inl tt)
            | Ok resp => mret (inr resp)
            end
        end);
  match r with
  | inr resp => mret (Ok resp)
  | inl _ => mret (Err "no peer was able to perform a backup")
  end.

(** ** Quarantine *)

Definition updateQuarantine (cs : etcdClusterState) (quarantined : bool) : CC verdict :=
  l ← range (cs_peers cs);
  r ← for_each l false (fun e changed =>
        member ← FindMember cs (fst e);
        match member with
        | None => mret (inl changed)
        | Some _ =>
            header ← buildHeader;
            x ← rpcReconfigure (pe_peer (snd e))
                  (mkReconfigureRequest (Some header) "" quarantined false);
            match x with
            | Some _ => mret (inr (changed, Some "error reconfiguring peer to not be quarantined"))
            | None => mret (inl true)
            end
        end);
  mret (match r with inl changed => (changed, None) | inr v => v end).

(** ** Backup, periodically *)

Section Operations.
Context (ret : Retention) (zoneOf : nat -> time -> Z -> positive).
(** The bound on the wait for a restore command to become visible. *)
Context (waitFuel : nat).

Definition maybeBackup (clusterSpec : ClusterSpec) (cs : etcdClusterState) : CC (option error) :=
  t ← now;
  m ← get;
  if m_backupInterval m <? timeSub t (m_lastBackup m) then
    r ← doClusterBackup clusterSpec cs;
    match r with
    | Err e => mret (Some e)
    | Ok _ =>
        modify (fun m => set_backup t (m_backupCleanup m) m) ≫= fun _ =>
        zoom m_backupCleanup (fun c m => set_backup (m_lastBackup m) c m)
          (MaybeDoBackupMaintenance ret zoneOf) ≫= fun _ =>
        mret None
    end
  else mret None.

(** ** newcluster.go *)

Definition randomToken : CC string :=
  r ← ccall CRandRead;
  match r with
  | Ok b => mret (RawURLEncode b)
  | Err _ => die (Fatal "error generating random token")
  end.

(** Peers in the order of the iteration, until there are [desired]. *)
Fixpoint propose (desired : Z) (l proposal : list etcdClusterPeerInfo)
    : list etcdClusterPeerInfo :=
  match l with
  | [] => proposal
  | p :: l' =>
      let proposal' := proposal ++ [p] in
      if Z.of_nat (length proposal') =? desired then proposal' else propose desired l' proposal'
  end.

(** Whether there are enough peers for a cluster of [desired] members. *)
Definition enoughPeers (desired have : Z) : bool :=
  if have <? quorumSize desired then false
  else if have <? desired then quorumSize have =? quorumSize desired else true.

(** The proposed nodes and member map. *)
Definition buildProposal (proposal : list etcdClusterPeerInfo)
    : CC (list EtcdNode * list MemberMapInfo) :=
  for_fold proposal ([], []) (fun p acc =>
    m ← get;
    conf ← deref "p.info.NodeConfiguration" (Info_NodeConfiguration (pe_info p));
    let node := proposeNode (m_disableEtcdTLS m) conf in
    mret (fst acc ++ [node], snd acc ++ [memberInfo (m_dnsSuffix m) (Node_Name node) p])).

(** Stop any running etcd. *)
Definition stopAll (cs : etcdClusterState) : CC (option error) :=
  l ← range (cs_peers cs);
  r ← for_each l tt (fun e _ =>
        match Info_EtcdState (pe_info (snd e)) with
        | None => mret (inl tt)
        | Some _ =>
            header ← buildHeader;
            x ← rpcStopEtcd (pe_peer (snd e)) (mkStopEtcdRequest (Some header));
            match x with
            | Some _ => mret (inr "error stopping etcd peer")
            | None => mret (inl tt)
            end
        end);
  mret (match r with inr e => Some e | inl _ => None end).

(** One phase of the join, on every peer of the proposal. *)
Definition joinAll (phase : Phase) (clusterToken etcdVersion : string) (nodes : list EtcdNode)
    (proposal : list etcdClusterPeerInfo) : CC (option error) :=
  r ← for_each proposal tt (fun p _ =>
        header ← buildHeader;
        x ← rpcJoinCluster (pe_peer p)
              (mkJoinClusterRequest (Some header) phase clusterToken nodes etcdVersion);
        match x with
        | Some _ => mret (inr "error from JoinClusterRequest")
        | None => mret (inl tt)
        end);
  mret (match r with inr e => Some e | inl _ => None end).

(** The part of [createNewCluster] that sends requests. *)
Definition startCluster (cs : etcdClusterState) (clusterSpec : ClusterSpec)
    (clusterToken : string) (proposal : list etcdClusterPeerInfo) : CC verdict :=
  nm ← buildProposal proposal;
  let '(proposedNodes, members) := nm in
  e ← stopAll cs;
  match e with
  | Some e => mret (false, Some e)
  | None =>
      errors ← broadcastMemberMap cs (mkMemberMap members);
      match errors with
      | _ :: _ => mret (false, Some "unable to broadcast member map")
      | [] =>
          e ← joinAll PHASE_PREPARE clusterToken (Spec_EtcdVersion clusterSpec) proposedNodes proposal;
          match e with
          | Some e => mret (false, Some e)
          | None =>
              e ← joinAll PHASE_INITIAL_CLUSTER clusterToken (Spec_EtcdVersion clusterSpec)
                    proposedNodes proposal;
              match e with
              | Some e => mret (false, Some e)
              | None =>
                  e ← writeClusterSpec clusterSpec;
                  match e with
                  | Some e => mret (false, Some e)
                  | None => mret (true, None)
                  end
              end
          end
      end
  end.

Definition createNewCluster (cs : etcdClusterState) (clusterSpec : ClusterSpec) : CC verdict :=
  let desired := Spec_MemberCount clusterSpec in
  if negb (enoughPeers desired (len (cs_peers cs))) then mret (false, None)
  else
    clusterToken ← randomToken;
    l ← range (cs_peers cs);
    let proposal := propose desired (snd <$> l) [] in
    let n := Z.of_nat (length proposal) in
    if (n <? desired) && (quorumSize n <? quorumSize desired) then
      die (Fatal "Need to add dummy peers to force quorum size :-(")
    else startCluster cs clusterSpec clusterToken proposal.

(** ** Adding a member *)

(** The idle peers.  The loop also looks for configured peers that etcd does
    not know, dereferencing their node configuration; the list it builds of
    them is not used. *)
Definition idleForJoin (cs : etcdClusterState) : CC (list etcdClusterPeerInfo) :=
  l ← range (cs_peers cs);
  for_fold l [] (fun e idle =>
    match configuredState (snd e) with
    | None => mret (idle ++ [snd e])
    | Some _ =>
        ms ← range (cs_members cs);
        for_fold ms tt (fun _ _ =>
          deref "peer.info.NodeConfiguration" (Info_NodeConfiguration (pe_info (snd e)))
            ≫= fun _ => mret tt) ≫= fun _ =>
        mret idle
    end).

(** The token and version of the cluster, from the last configured peer. *)
Definition clusterIdentity (cs : etcdClusterState) : CC (string * string) :=
  l ← range (cs_peers cs);
  mret (match find_last (fun e => match configuredState (snd e) with
                                  | Some (_, c) => negb (String.eqb (Cluster_ClusterToken c) "")
                                  | None => false
                                  end) l with
        | Some (_, p) => match configuredState p with
                         | Some (st, c) => (Cluster_ClusterToken c, State_EtcdVersion st)
                         | None => ("", "")
                         end
        | None => ("", "")
        end).

(** A member as the nodes of a join request list it. *)
Definition memberNode (member : EtcdProcessMember) : EtcdNode :=
  mkEtcdNode (Member_Name member) (Member_PeerURLs member) (Member_ClientURLs member) []
    (isTLSEnabled member).

Definition sendJoin (p : etcdClusterPeerInfo) (phase : Phase) (clusterToken etcdVersion : string)
    (nodes : list EtcdNode) : CC (option error) :=
  header ← buildHeader;
  rpcJoinCluster (pe_peer p)
    (mkJoinClusterRequest (Some header) phase clusterToken nodes etcdVersion).

(** The part of [addNodeToCluster] after the backup: start etcd on [p]. *)
Definition joinPeer (cs : etcdClusterState) (p : etcdClusterPeerInfo) : CC verdict :=
  id ← clusterIdentity cs;
  let '(clusterToken, etcdVersion) := id in
  if String.eqb clusterToken "" then mret (false, Some "unable to determine cluster token")
  else
    ms ← range (cs_members cs);
    m ← get;
    conf ← deref "peer.info.NodeConfiguration" (Info_NodeConfiguration (pe_info p));
    let nodes := (memberNode <$> ms.*2) ++ [proposeNode (m_disableEtcdTLS m) conf] in
    e ← sendJoin p PHASE_PREPARE clusterToken etcdVersion nodes;
    match e with
    | Some _ => mret (false, Some "error from JoinClusterRequest (prepare)")
    | None =>
        r ← etcdAddMember cs conf;
        match r with
        | Err _ =>
            sendJoin p PHASE_CANCEL_PREPARE clusterToken "" [] ≫= fun _ =>
            mret (false, Some "error adding peer to cluster")
        | Ok _ =>
            e ← sendJoin p PHASE_JOIN_EXISTING clusterToken etcdVersion nodes;
            match e with
            | Some _ => mret (false, Some "error from JoinClusterRequest")
            | None => mret (true, None)
            end
        end
    end.

Definition addNodeToCluster (clusterSpec : ClusterSpec) (cs : etcdClusterState) : CC verdict :=
  if len (cs_healthyMembers cs) <? quorumSize (len (cs_members cs)) then
    mret (false, Some "can't expand cluster - don't have quorum")
  else
    idle ← idleForJoin cs;
    match idle with
    | [] => mret (false, None)
    | p0 :: _ =>
        b ← (if negb (len (cs_members cs) =? 0)
             then r ← doClusterBackup clusterSpec cs; mret (is_ok r)
             else mret true);
        if negb b then mret (false, Some "failed to backup (before adding peer)")
        else
          i ← ccall (CRandIntn (length idle));
          joinPeer cs (nth (i mod length idle) idle p0)
    end.

(** ** Removing a member *)

(** The first member, in the order of the iteration, that is not healthy and
    (unless healthy members may go too) has not been for long enough. *)
Definition unhealthyVictim (cs : etcdClusterState) (t : time) (removeHealthy : bool)
    : CC (option EtcdProcessMember) :=
  if len (cs_healthyMembers cs) <? len (cs_members cs) then
    l ← range (cs_members cs);
    r ← for_each l tt (fun e _ =>
          match cs_healthyMembers cs !! fst e with
          | Some _ => mret (inl tt)
          | None =>
              if removeHealthy then mret (inr (snd e))
              else
                m ← get;
                match default ∅ (m_peerState m) !! fst e with
                | None => die (Fatal "peerState unexpectedly nil")
                | Some lastEtcdHealthy =>
                    if timeSub t lastEtcdHealthy <? removeUnhealthyDeadline then mret (inl tt)
                    else mret (inr (snd e))
                end
          end);
    mret (match r with inr v => Some v | inl _ => None end)
  else mret None.

Definition removeNodeFromCluster (clusterSpec : ClusterSpec) (cs : etcdClusterState)
    (removeHealthy : bool) : CC verdict :=
  t ← now;
  victim ← unhealthyVictim cs t removeHealthy;
  if bool_decide (victim = None) && negb removeHealthy then mret (false, None)
  else
    victim ← match victim with
             | Some v => mret (Some v)
             | None => l ← range (cs_members cs); mret (snd <$> head l)
             end;
    match victim with
    | None => mret (false, Some "unable to pick a member to remove")
    | Some v =>
        b ← doClusterBackup clusterSpec cs;
        match b with
        | Err _ => mret (false, Some "failed to backup (before adding peer)")
        | Ok _ =>
            e ← etcdRemoveMember cs v;
            match e with
            | Some _ => mret (false, Some "failed to remove member")
            | None => mret (true, None)
            end
        end
    end.

(** ** upgrade.go *)

(** [prepareForUpgrade]: the peer of every member, if all members are healthy
    and the cluster has its full size. *)
Definition prepareForUpgrade (clusterSpec : ClusterSpec) (cs : etcdClusterState)
    : CC (result (gmap string etcdClusterPeerInfo)) :=
  ms ← range (cs_members cs);
  r ← for_each ms ∅ (fun e memberToPeer =>
        ps ← range (cs_peers cs);
        match find_last (fun q => match Info_NodeConfiguration (pe_info (snd q)) with
                                  | None => false
                                  | Some conf => String.eqb (Node_Name conf) (Member_Name (snd e))
                                  end) ps with
        | Some (_, p) => mret (inl (<[fst e := p]> memberToPeer))
        | None => mret (inr "unable to find peer for member")
        end);
  match r with
  | inr e => mret (Err e)
  | inl memberToPeer =>
      if negb (len (cs_healthyMembers cs) =? len (cs_members cs)) then
        mret (Err "cannot upgrade/downgrade cluster when not all members are healthy")
      else if negb (len (cs_members cs) =? Spec_MemberCount clusterSpec) then
        mret (Err "cannot upgrade/downgrade cluster when cluster is not at full member count")
      else mret (Ok memberToPeer)
  end.

(** Wait until the control store shows a restore command. *)
Definition awaitRestoreCommand : CC (option error) :=
  repeat_until waitFuel (
    e ← refreshControlStore 0;
    match e with
    | Some _ => mret (Some (Some "error refreshing commands"))
    | None =>
        m ← get;
        match getRestoreBackupCommand m with
        | Some _ => mret (Some None)
        | None => ccall (CSleep (5 * Second)) ≫= fun _ => mret None
        end
    end).

(** Stop etcd on the peer of every member. *)
Definition stopMembers (cs : etcdClusterState) (memberToPeer : gmap string etcdClusterPeerInfo)
    : CC (option error) :=
  ms ← range (cs_members cs);
  r ← for_each ms tt (fun e _ =>
        match memberToPeer !! fst e with
        | None => die (NilDeref "peer unexpectedly not found - logic error")
        | Some p =>
            header ← buildHeader;
            x ← rpcStopEtcd (pe_peer p) (mkStopEtcdRequest (Some header));
            match x with
            | Some _ => mret (inr "error stopping etcd peer")
            | None => mret (inl tt)
            end
        end);
  mret (match r with inr e => Some e | inl _ => None end).

Definition stopForUpgrade (clusterSpec : ClusterSpec) (cs : etcdClusterState) : CC verdict :=
  r ← prepareForUpgrade clusterSpec cs;
  match r with
  | Err e => mret (false, Some e)
  | Ok memberToPeer =>
      b ← doClusterBackup clusterSpec cs;
      match b with
      | Err _ => mret (false, Some "error doing backup before upgrade/downgrade")
      | Ok _ =>
          q ← updateQuarantine cs true;
          match snd q with
          | Some e => mret (false, Some e)
          | None =>
              b ← doClusterBackup clusterSpec cs;
              match b with
              | Err e => mret (false, Some e)
              | Ok backupResponse =>
                  let cmd := mkCommand 0 (Some (mkRestoreBackupCommand (Some clusterSpec)
                               (DoBackup_Name backupResponse))) None in
                  a ← ccall (CAddCommand cmd);
                  match a with
                  | Some _ => mret (false, Some "error adding restore command")
                  | None =>
                      w ← awaitRestoreCommand;
                      match w with
                      | Some e => mret (false, Some e)
                      | None =>
                          e ← stopMembers cs memberToPeer;
                          match e with
                          | Some e => mret (false, Some e)
                          | None => mret (true, None)
                          end
                      end
                  end
              end
          end
      end
  end.

(** Reconfigure the first member that does not run the version wanted. *)
Definition upgradeOne (clusterSpec : ClusterSpec) (cs : etcdClusterState)
    (memberToPeer : gmap string etcdClusterPeerInfo) : CC verdict :=
  ms ← range (cs_members cs);
  r ← for_each ms tt (fun e _ =>
        match memberToPeer !! fst e with
        | None => die (NilDeref "peer unexpectedly not found - logic error")
        | Some p =>
            st ← deref "peer.info.EtcdState" (Info_EtcdState (pe_info p));
            if String.eqb (State_EtcdVersion st) (Spec_EtcdVersion clusterSpec) then mret (inl tt)
            else
              header ← buildHeader;
              x ← rpcReconfigure (pe_peer p)
                    (mkReconfigureRequest (Some header) (Spec_EtcdVersion clusterSpec)
                       (State_Quarantined st) false);
              match x with
              | Some _ => mret (inr (false, Some "error reconfiguring etcd peer"))
              | None => mret (inr (true, None))
              end
        end);
  mret (match r with inr v => v | inl _ => (false, None) end).

Definition upgradeInPlace (clusterSpec : ClusterSpec) (cs : etcdClusterState) : CC verdict :=
  r ← prepareForUpgrade clusterSpec cs;
  match r with
  | Err e => mret (false, Some e)
  | Ok memberToPeer =>
      ms ← range (cs_members cs);
      c ← for_each ms tt (fun e _ =>
            match memberToPeer !! fst e with
            | None => die (NilDeref "peer unexpectedly not found - logic error")
            | Some p => match Info_EtcdState (pe_info p) with
                        | None => mret (inr "cannot upgrade; insufficient info for peer")
                        | Some _ => mret (inl tt)
                        end
            end);
      match c with
      | inr e => mret (false, Some e)
      | inl _ =>
          b ← doClusterBackup clusterSpec cs;
          match b with
          | Err e => mret (false, Some e)
          | Ok _ => upgradeOne clusterSpec cs memberToPeer
          end
      end
  end.

(** ** restore.go *)

(** The last peer, in the order of the iteration, with a healthy member. *)
Definition restorePeer (cs : etcdClusterState) : CC (option etcdClusterPeerInfo) :=
  l ← range (cs_peers cs);
  for_fold l None (fun e peer =>
    member ← FindHealthyMember cs (fst e);
    match member with
    | None => mret peer
    | Some _ => mret (Some (snd e))
    end).

Definition restoreBackupAndLiftQuarantine (clusterSpec : ClusterSpec) (cs : etcdClusterState)
    (cmd : StoredCommand) : CC verdict :=
  match Command_RestoreBackup (sc_data cmd) with
  | None => mret (false, Some "RestoreBackup not set")
  | Some rb =>
      if String.eqb (Restore_Backup rb) "" then mret (false, Some "RestoreBackup not set")
      else
        i ← ccall (CLoadInfo (Restore_Backup rb));
        match i with
        | Err _ => mret (false, Some "error reading backup info")
        | Ok None => mret (false, Some "etcd version not found")
        | Ok (Some info) =>
            if String.eqb (Backup_EtcdVersion info) "" then
              mret (false, Some "etcd version not found")
            else
              header ← buildHeader;
              m ← get;
              p ← restorePeer cs;
              match p with
              | None => mret (false, Some "unable to find peer on which to run restore operation")
              | Some p =>
                  e ← rpcDoRestore (pe_peer p)
                        (mkDoRestoreRequest (Some header) (m_storeSpec m) (Restore_Backup rb));
                  match e with
                  | Some _ => mret (false, Some "error restoring backup on peer")
                  | None =>
                      e ← writeClusterSpec clusterSpec;
                      match e with
                      | Some e => mret (false, Some e)
                      | None =>
                          e ← removeCommand cmd;
                          match e with
                          | Some e => mret (false, Some e)
                          | None => mret (true, None)
                          end
                      end
                  end
              end
        end
  end.

(** ** reconcile_configuration.go *)

Definition updatePeerURLs (peerID : string) (conf : EtcdNode) (st : EtcdState)
    (setPeerURLs : list string) : CC verdict :=
  let clientURLs := nodeClientUrls conf (State_Quarantined st) in
  match setPeerURLs with
  | [] => mret (false, None)
  | _ =>
      c ← NewClient clientURLs;
      match c with
      | Some _ => mret (false, Some "unable to reach peer")
      | None =>
          v ← (l ← ListMembers clientURLs;
               match l with
               | Err _ => mret (false, Some "error listing members on peer")
               | Ok members =>
                   match find_last (fun m => String.eqb (Member_Name m) peerID) members with
                   | None => mret (false, Some "peer had no member in cluster, can't reconfigure peerUrls")
                   | Some member =>
                       e ← SetPeerURLs clientURLs member setPeerURLs;
                       match e with
                       | Some _ => mret (false, Some "error reconfiguring peer with peerUrls")
                       | None => mret (true, None)
                       end
                   end
               end);
          LoggedClose clientURLs ≫= fun _ =>
          mret v
      end
  end.

Definition normalize (inp : list string) : list string := sort_strings inp.

(** The body of the loop of [reconcileTLS]: [inr] leaves the loop. *)
Definition reconcileTLSPeer (cs : etcdClusterState) (peerID : string) (p : etcdClusterPeerInfo)
    : CC (unit + verdict) :=
  match Info_NodeConfiguration (pe_info p) with
  | None => mret (inl tt)
  | Some conf =>
      match configuredState p with
      | None => mret (inl tt)
      | Some (st, c) =>
          match find_last (fun n => String.eqb (Node_Name n) (Node_Name conf)) (Cluster_Nodes c) with
          | None => mret (inl tt)
          | Some node =>
              member ← FindMember cs peerID;
              match member with
              | None => mret (inl tt)
              | Some member =>
                  let expected := normalize (RewriteScheme (Node_PeerUrls conf) "http://" "https://") in
                  let actual := normalize (Member_PeerURLs member) in
                  v ← (if bool_decide (actual = expected) then mret (false, None)
                       else updatePeerURLs peerID conf st expected);
                  match v with
                  | (true, _) | (_, Some _) => mret (inr v)
                  | (false, None) =>
                      if Node_TlsEnabled node then mret (inl tt)
                      else
                        header ← buildHeader;
                        x ← rpcReconfigure (pe_peer p)
                              (mkReconfigureRequest (Some header) "" (State_Quarantined st) true);
                        match x with
                        | Some _ => mret (inr (false, Some "error reconfiguring peer"))
                        | None => mret (inr (true, None))
                        end
                  end
              end
          end
      end
  end.

Definition reconcileTLS (cs : etcdClusterState) : CC verdict :=
  m ← get;
  if m_disableEtcdTLS m then mret (false, None)
  else
    l ← range (cs_peers cs);
    r ← for_each l tt (fun e _ => reconcileTLSPeer cs (fst e) (snd e));
    mret (match r with inr v => v | inl _ => (false, None) end).

(** [verifyEtcdVersion]; its first answer is always false. *)
Definition verifyEtcdVersion (cfg : BinConfig) (clusterSpec : ClusterSpec) : CC (option error) :=
  r ← BindirForEtcdVersion cfg (Spec_EtcdVersion clusterSpec) "etcd";
  match r with
  | Ok _ => mret None
  | Err _ => mret (Some "can't act as leader for unknown etcd version")
  end.
End Operations.
