(* ===== verification/Controller.v ===== *)
(** * The cycle of the controller: EtcdController.run

    [updateClusterState] takes the snapshot of a cycle and [run] is one cycle:
    find out whether this peer leads, make sure of the lock and of the
    acknowledgement of every peer, take the snapshot, and then do at most one
    of the operations of [ControllerOps].  [run] is split where the source has
    its sections; each piece ends by calling the next. *)

From stdpp Require Import base gmap sets list strings.
From S2P Require Import Prelude Effects ProtoEtcd GoLib EtcdVersions Binaries BackupCleanup ClusterState ControllerOps.

Local Open Scope Z_scope.

(** ** The snapshot *)

(** Collect info from each peer. *)
Definition collectInfo (peers : list cpeer) : CC (result (gmap string etcdClusterPeerInfo)) :=
  r ← for_each peers ∅ (fun p acc =>
        i ← rpcGetInfo p;
        match i with
        | Err _ => mret (inr "error from GetInfo from peer")
        | Ok info => mret (inl (<[cp_Id p := mkPeerEntry p info]> acc))
        end);
  mret (match r with inl m => Ok m | inr e => Err e end).

(** The members by id; an empty id is fatal. *)
Definition indexMembers (members : list EtcdProcessMember) : CC (gmap string EtcdProcessMember) :=
  for_fold members ∅ (fun mb acc =>
    if String.eqb (Member_ID mb) "" then die (Fatal "etcd member did not have ID")
    else mret (<[Member_ID mb := mb]> acc)).

(** The member list, from the first peer (in the order of the iteration) whose
    etcd answers. *)
Definition discoverMembers (peers : gmap string etcdClusterPeerInfo)
    : CC (gmap string EtcdProcessMember) :=
  l ← range peers;
  r ← for_each l tt (fun e _ =>
        match Info_NodeConfiguration (pe_info (snd e)), Info_EtcdState (pe_info (snd e)) with
        | Some conf, Some st =>
            let clientUrls := nodeClientUrls conf (State_Quarantined st) in
            match clientUrls with
            | [] => mret (inl tt)
            | _ =>
                c ← NewClient clientUrls;
                match c with
                | Some _ => mret (inl tt)
                | None =>
                    ms ← ListMembers clientUrls;
                    LoggedClose clientUrls ≫= fun _ =>
                    match ms with
                    | Err _ => mret (inl tt)
                    | Ok members => ix ← indexMembers members; mret (inr ix)
                    end
                end
            end
        | _, _ => mret (inl tt)
        end);
  mret (match r with inr ms => ms | inl _ => ∅ end).

(** The members that answer. *)
Definition checkHealth (cs : etcdClusterState) : CC (gmap string EtcdProcessMember) :=
  l ← range (cs_members cs);
  for_fold l ∅ (fun e healthy =>
    c ← newEtcdClient cs (snd e);
    match c with
    | Err _ => mret healthy
    | Ok client =>
        r ← ListMembers client;
        LoggedClose client ≫= fun _ =>
        match r with
        | Err _ => mret healthy
        | Ok _ => mret (<[fst e := snd e]> healthy)
        end
    end).

Definition updateClusterState (peers : list cpeer) : CC (result etcdClusterState) :=
  r ← collectInfo peers;
  match r with
  | Err e => mret (Err e)
  | Ok peerInfos =>
      members ← discoverMembers peerInfos;
      let cs := mkClusterState members peerInfos ∅ in
      healthy ← checkHealth cs;
      mret (Ok (mkClusterState members peerInfos healthy))
  end.

(** ** Pieces of the cycle *)

(** The stable order of the peers by id. *)
Definition id_le (a b : cpeer) : Prop := str_le (cp_Id a) (cp_Id b).
#[export] Instance id_le_dec a b : Decision (id_le a b) := _.

(** The health times of the members, with new members as healthy. *)
Definition updatePeerState (cs : etcdClusterState) (t : time) : CC unit :=
  l ← range (cs_members cs);
  for_fold l tt (fun e _ =>
    m ← get;
    ps ← deref "m.peerState" (m_peerState m);
    let last := default t (ps !! fst e) in
    let last := match cs_healthyMembers cs !! fst e with Some _ => t | None => last end in
    modify (set_leadership (m_leadership m) (Some (<[fst e := last]> ps)))).

(** The counting loops; the order of the iteration does not matter. *)
Definition countPeers (f : EtcdState -> bool) (cs : etcdClusterState) : Z :=
  Z.of_nat (length (List.filter (fun e =>
    match configuredState (snd e) with Some (st, _) => f st | None => false end)
    (map_to_list (cs_peers cs)))).

Definition configuredMembers : etcdClusterState -> Z := countPeers (fun _ => true).
Definition quarantinedMembers : etcdClusterState -> Z := countPeers State_Quarantined.
Definition nonQuarantinedMembers : etcdClusterState -> Z :=
  countPeers (fun st => negb (State_Quarantined st)).

(** A peer that does not run the version wanted. *)
Definition hasOtherVersion (clusterSpec : ClusterSpec) (p : etcdClusterPeerInfo) : bool :=
  match Info_EtcdState (pe_info p) with
  | None => false
  | Some st => negb (String.eqb (State_EtcdVersion st) (Spec_EtcdVersion clusterSpec))
  end.

Definition versionMismatch (clusterSpec : ClusterSpec) (cs : etcdClusterState)
    : list (string * etcdClusterPeerInfo) :=
  List.filter (fun e => hasOtherVersion clusterSpec (snd e)) (map_to_list (cs_peers cs)).

Definition canUpgradeInPlace (clusterSpec : ClusterSpec) (cs : etcdClusterState) : bool :=
  forallb (fun e => match Info_EtcdState (pe_info (snd e)) with
                    | None => true
                    | Some st => UpgradeInPlaceSupported (State_EtcdVersion st)
                                   (Spec_EtcdVersion clusterSpec)
                    end) (versionMismatch clusterSpec cs).

(** ** run *)

Section Cycle.
Context (cfg : BinConfig) (ret : Retention) (zoneOf : nat -> time -> Z -> positive).
Context (waitFuel : nat).

(** Turn on TLS, then upgrade or downgrade: the end of the cycle. *)
Definition runStable (clusterSpec : ClusterSpec) (cs : etcdClusterState) (acked : Z)
    : CC verdict :=
  v ← reconcileTLS cs;
  match v with
  | (true, _) | (_, Some _) => mret v
  | (false, None) =>
      match versionMismatch clusterSpec cs with
      | [] => mret (false, None)
      | _ =>
          if quorumSize (Spec_MemberCount clusterSpec) <=? acked then
            if canUpgradeInPlace clusterSpec cs then upgradeInPlace clusterSpec cs
            else stopForUpgrade waitFuel clusterSpec cs
          else mret (false, None)
      end
  end.

(** Whether to remove an unhealthy member to make room for an idle peer. *)
Definition runUnhealthy (clusterSpec : ClusterSpec) (cs : etcdClusterState) (acked : Z)
    : CC verdict :=
  if len (cs_healthyMembers cs) <? len (cs_members cs) then
    idle ← idlePeers cs;
    if bool_decide (idle = []) then runStable clusterSpec cs acked
    else if len (cs_members cs) <=? 2 then runStable clusterSpec cs acked
    else if len (cs_members cs) <=? Spec_MemberCount clusterSpec then
      runStable clusterSpec cs acked
    else if acked <? quorumSize (Spec_MemberCount clusterSpec) then
      runStable clusterSpec cs acked
    else removeNodeFromCluster clusterSpec cs false
  else runStable clusterSpec cs acked.

(** Bring the cluster to its size. *)
Definition runSize (clusterSpec : ClusterSpec) (cs : etcdClusterState) (acked : Z) : CC verdict :=
  if len (cs_members cs) <? Spec_MemberCount clusterSpec then
    if len (cs_members cs) =? 0 then
      InvalidateControlStore ≫= fun _ =>
      mret (false, Some "etcd has 0 members registered; must issue restore-backup command to proceed")
    else if quorumSize (len (cs_members cs)) <=? acked then addNodeToCluster clusterSpec cs
    else mret (false, None)
  else if len (cs_members cs) =? 0 then mret (false, None)
  else if Spec_MemberCount clusterSpec <? configuredMembers cs then
    if quorumSize (configuredMembers cs) <=? acked then
      removeNodeFromCluster clusterSpec cs true
    else mret (false, None)
  else runUnhealthy clusterSpec cs acked.

(** Backup, version check and quarantine. *)
Definition runCluster (clusterSpec : ClusterSpec) (cs : etcdClusterState) (acked : Z)
    : CC verdict :=
  (if len (cs_members cs) =? 0 then mret tt
   else maybeBackup ret zoneOf clusterSpec cs ≫= fun _ => mret tt) ≫= fun _ =>
  e ← verifyEtcdVersion cfg clusterSpec;
  match e with
  | Some e => mret (false, Some e)
  | None =>
      if 0 <? quarantinedMembers cs then
        if (quorumSize (Spec_MemberCount clusterSpec) <=? len (cs_healthyMembers cs))
           && bool_decide (versionMismatch clusterSpec cs = []) then
          if quorumSize (Spec_MemberCount clusterSpec) <=? acked
          then updateQuarantine cs false
          else mret (false, None)
        else if 0 <? nonQuarantinedMembers cs then updateQuarantine cs true
        else runSize clusterSpec cs acked
      else runSize clusterSpec cs acked
  end.

(** A restore command takes precedence over everything else. *)
Definition runSpec (cs : etcdClusterState) (acked : Z) : CC verdict :=
  m ← get;
  match m_controlClusterSpec m with
  | None => mret (false, None)
  | Some clusterSpec =>
      match getRestoreBackupCommand m with
      | None => runCluster clusterSpec cs acked
      | Some cmd =>
          e ← verifyEtcdVersion cfg clusterSpec;
          match e with
          | Some e => mret (false, Some e)
          | None =>
              match Command_RestoreBackup (sc_data cmd) ≫= Restore_ClusterSpec with
              | None => mret (false, Some "RestoreBackup was not set")
              | Some restoreSpec =>
                  if acked <? quorumSize (Spec_MemberCount clusterSpec) then mret (false, None)
                  else
                    v ← createNewCluster cs restoreSpec;
                    match snd v with
                    | Some e => mret (false, Some e)
                    | None => restoreBackupAndLiftQuarantine restoreSpec cs cmd
                    end
              end
          end
      end
  end.

(** The control store, and the creation of a cluster when there is none. *)
Definition runControl (cs : etcdClusterState) (acked : Z) : CC verdict :=
  m ← get;
  e ← refreshControlStore (m_controlRefreshInterval m);
  match e with
  | Some _ => mret (false, Some "error refreshing commands")
  | None =>
      n ← ccall CIsNewCluster;
      match n with
      | Err _ => mret (false, Some "error checking control store")
      | Ok false => runSpec cs acked
      | Ok true =>
          e ← refreshControlStore 0;
          match e with
          | Some _ => mret (false, Some "error refreshing control store")
          | None =>
              m ← get;
              match m_controlClusterSpec m with
              | None => runSpec cs acked
              | Some clusterSpec =>
                  e ← verifyEtcdVersion cfg clusterSpec;
                  match e with
                  | Some e => mret (false, Some e)
                  | None =>
                      if acked <? quorumSize (Spec_MemberCount clusterSpec) then mret (false, None)
                      else
                        v ← createNewCluster cs clusterSpec;
                        match v with
                        | (created, Some e) => mret (created, Some e)
                        | (true, None) =>
                            e ← ccall CMarkClusterCreated;
                            match e with
                            | Some e => mret (false, Some e)
                            | None => mret (true, None)
                            end
                        | (false, None) => mret (true, None)
                        end
                  end
              end
          end
      end
  end.

(** The snapshot, the health times and the broadcast of the member map. *)
Definition runLeader (peers : list cpeer) (acked : Z) : CC verdict :=
  r ← updateClusterState peers;
  match r with
  | Err _ => mret (false, Some "error building cluster state")
  | Ok cs =>
      t ← now;
      updatePeerState cs t ≫= fun _ =>
      memberMap ← buildMemberMap cs;
      broadcastMemberMap cs memberMap ≫= fun _ =>
      runControl cs acked
  end.

(** Assert the leadership; every peer must have acknowledged it. *)
Definition runAssert (peers : list cpeer) (l : leadershipState) : CC verdict :=
  e ← ccall (CAssertLeadership (ls_token l));
  match e with
  | Some _ => mret (false, Some "error during AssertLeadership")
  | None =>
      if forallb (fun p => bool_decide (cp_Id p ∈ ls_ackedPeers l)) peers
      then runLeader peers (Z.of_nat (length peers))
      else
        (* resign leadership *)
        modify (fun m => set_leadership None (m_peerState m) m) ≫= fun _ =>
        mret (false, None)
  end.

(** Bid for the leadership; the next cycle works with it. *)
Definition runBecomeLeader : CC verdict :=
  r ← ccall CBecomeLeader;
  match r with
  | Err _ => mret (false, Some "error during LeaderNotification")
  | Ok (acked, leadershipToken) =>
      e ← refreshControlStore 0;
      match e with
      | Some _ => mret (false, Some "error refreshing control store after leadership change")
      | None =>
          modify (set_leadership (Some (mkLeadershipState leadershipToken (list_to_set acked)))
                    (Some ∅)) ≫= fun _ =>
          mret (false, None)
      end
  end.

(** Take the leader lock, if there is one. *)
Definition acquireLeaderLock (id : string) : CC (option verdict) :=
  m ← get;
  if m_leaderLock m && bool_decide (m_leaderLockGuard m = None) then
    r ← ccall (CAcquire id);
    match r with
    | Err _ => mret (Some (false, Some "error acquiring leader lock"))
    | Ok None => mret (Some (false, None))
    | Ok (Some g) => modify (set_guard (Some g)) ≫= fun _ => mret None
    end
  else mret None.

Definition run : CC verdict :=
  infos ← ccall CPeers;
  m ← get;
  let peers := stable_sort id_le (newPeer <$> infos) in
  match find_last (fun p => String.eqb (cp_Id p) (m_myPeerId m)) peers with
  | None => mret (false, Some "cannot find self in list of peers")
  | Some me =>
      if negb (bool_decide (cp_Id <$> head peers = Some (cp_Id me))) then
        e ← releaseLeaderLock;
        mret (false, e)
      else
        v ← acquireLeaderLock (cp_Id me);
        match v with
        | Some v => mret v
        | None =>
            m ← get;
            match m_leadership m with
            | None => runBecomeLeader
            | Some l => runAssert peers l
            end
        end
  end.

(** One iteration of the loop of [Run]. *)
Definition runIteration : CC unit :=
  v ← run;
  match v with
  | (true, _) => mret tt
  | (false, _) => m ← get; ccall (CSleep (m_CycleInterval m)) ≫= fun _ => mret tt
  end.

(** [Run], for [n] iterations before the context ends. *)
Definition Run (n : nat) : CC unit :=
  for_fold (seq 0 n) tt (fun _ _ => runIteration) ≫= fun _ =>
  releaseLeaderLock ≫= fun _ =>
  mret tt.
End Cycle.
