(* ===== verification/ControllerDemo.v ===== *)
(** * A concrete environment of the controller

    A small cluster to run the controller on: nodes that do what they are told,
    an etcd whose members are the nodes that joined, and stores in memory.  It is
    the concrete input of the witnesses of the controller's theorems, and shows
    that the theorems' hypotheses can hold; nothing is proved from it. *)

From stdpp Require Import base gmap sets list strings.
From S2P Require Import Prelude Effects ProtoEtcd GoLib EtcdVersions Binaries BackupCleanup ClusterState ControllerOps Controller.

Local Open Scope Z_scope.

Module ControllerDemo.
(** A node: its configuration, its etcd state and whether its etcd answers. *)
Record node := mkNode { n_conf : EtcdNode; n_state : option EtcdState; n_up : bool }.

Record world := mkWorld {
  w_now : time;
  w_nodes : gmap string node;
  w_raft : list RaftMember;
  w_spec : option ClusterSpec;
  w_new : bool;
  w_commands : list StoredCommand;
  w_backups : nat;
}.

Definition on_node (id : string) (f : node -> node) (w : world) : world :=
  mkWorld (w_now w) (alter f id (w_nodes w)) (w_raft w) (w_spec w) (w_new w) (w_commands w)
    (w_backups w).
Definition on_raft (f : list RaftMember -> list RaftMember) (w : world) : world :=
  mkWorld (w_now w) (w_nodes w) (f (w_raft w)) (w_spec w) (w_new w) (w_commands w) (w_backups w).

(** The node whose etcd answers at one of [endpoints]. *)
Definition serves (endpoints : list string) (n : node) : bool :=
  n_up n && match n_state n with
            | None => false
            | Some st => existsb (fun u => bool_decide (u ∈ endpoints))
                           (nodeClientUrls (n_conf n) (State_Quarantined st))
            end.
Definition reachable (endpoints : list string) (w : world) : bool :=
  existsb (fun e => serves endpoints (snd e)) (map_to_list (w_nodes w)).

Definition raftMember (i : Z) (n : EtcdNode) : RaftMember :=
  mkRaftMember i (Node_Name n) (Node_PeerUrls n) (Node_ClientUrls n).

(** What an accepted join does to the node, and to etcd's membership. *)
Definition join (id : string) (rq : JoinClusterRequest) (w : world) : world :=
  let st q := mkEtcdState false (Some (mkEtcdCluster 0 (Join_ClusterToken rq) (Join_Nodes rq)))
                (Join_EtcdVersion rq) q in
  match Join_Phase rq, w_nodes w !! id with
  | PHASE_INITIAL_CLUSTER, Some n =>
      on_raft (fun ms => ms ++ [raftMember (Z.of_nat (length ms) + 1) (n_conf n)])
        (on_node id (fun n => mkNode (n_conf n) (Some (st true)) true) w)
  | PHASE_JOIN_EXISTING, Some n =>
      on_raft (fun ms => (fun m => if bool_decide (Raft_PeerURLs m = Node_PeerUrls (n_conf n))
                                   then raftMember (Raft_ID m) (n_conf n) else m) <$> ms)
        (on_node id (fun n => mkNode (n_conf n) (Some (st false)) true) w)
  | _, _ => w
  end.

Definition reconfigure (rq : ReconfigureRequest) (n : node) : node :=
  mkNode (n_conf n)
    ((fun st => mkEtcdState (State_NewCluster st) (State_Cluster st)
        (if String.eqb (Reconf_SetEtcdVersion rq) "" then State_EtcdVersion st
         else Reconf_SetEtcdVersion rq) (Reconf_Quarantined rq)) <$> n_state n) (n_up n).

Definition effect (e : ctl_op) (w : world) : world :=
  let '(mkWorld t nodes raft spec new cmds backups) := w in
  match e with
  | CNow => mkWorld (t + Second) nodes raft spec new cmds backups
  | CSetExpectedClusterSpec s => mkWorld t nodes raft (Some s) new cmds backups
  | CMarkClusterCreated => mkWorld t nodes raft spec false cmds backups
  | CAddCommand c => mkWorld t nodes raft spec new (cmds ++ [mkStoredCommand "command" c]) backups
  | CRemoveCommand _ => mkWorld t nodes raft spec new [] backups
  | CDoBackup _ _ => mkWorld t nodes raft spec new cmds (S backups)
  | CJoinCluster id rq => join id rq w
  | CReconfigure id rq => on_node id (reconfigure rq) w
  | CStopEtcd id _ => on_node id (fun n => mkNode (n_conf n) None false) w
  | CMemberAdd _ urls =>
      on_raft (fun ms => ms ++ [mkRaftMember (Z.of_nat (length ms) + 1) "" urls []]) w
  | CMemberRemove _ i => on_raft (List.filter (fun m => negb (Raft_ID m =? i))) w
  | _ => w
  end.

Definition answer (e : ctl_op) (w : world) : ctl_res e :=
  match e with
  | CNow => w_now w
  | CRange => []
  | CRandRead => Ok [1; 2; 3]
  | CRandIntn _ => 0%nat
  | CSleep _ => tt
  | CStat _ => StatOk
  | CPeers => (fun e => mkPeerInfo (fst e) [fst e]) <$> map_to_list (w_nodes w)
  | CBecomeLeader => Ok ((map_to_list (w_nodes w)).*1, "leader")
  | CAcquire _ => Ok (Some 1%nat)
  | CListCommands => Ok (w_commands w)
  | CGetExpectedClusterSpec => Ok (w_spec w)
  | CIsNewCluster => Ok (w_new w)
  | CLoadInfo _ => Ok (Some (mkBackupInfo "3.4.13" 0 (w_spec w)))
  | CListBackups => Ok []
  | CGetInfo id =>
      match w_nodes w !! id with
      | Some n => Ok (mkGetInfoResponse "main" (Some (n_conf n)) (n_state n))
      | None => Err "no such peer"
      end
  | CDoBackup id _ => Ok (mkDoBackupResponse ("backup-" +:+ id))
  | CMemberList urls => if reachable urls w then Ok (w_raft w) else Err "no answer"
  | CMemberAdd urls _ | CMemberRemove urls _ =>
      if reachable urls w then None else Some "no answer"
  | CAssertLeadership _ | CGetPeerClient _ | CRelease _ | CSetExpectedClusterSpec _
  | CMarkClusterCreated | CAddCommand _ | CRemoveCommand _ | CRemoveBackup _
  | CUpdateEndpoints _ _ | CJoinCluster _ _ | CReconfigure _ _ | CStopEtcd _ _
  | CDoRestore _ _ | CEtcdNew _ | CEtcdClose _ | CMemberUpdate _ _ _ => None
  end.

Definition env : handler CtlSig world := fun e w => (answer e w, effect e w).

(** ** Scenarios *)

Definition conf (name : string) : EtcdNode :=
  mkEtcdNode name ["https://" +:+ name +:+ ":2380"] ["https://" +:+ name +:+ ":4001"]
    ["https://" +:+ name +:+ ":3994"] true.

(** Idle nodes and a specification of what to create. *)
Definition idle (names : list string) (spec : ClusterSpec) : world :=
  mkWorld Hour (list_to_map ((fun x => (x, mkNode (conf x) None false)) <$> names)) []
    (Some spec) true [] 0.

Definition new_controller : EtcdController :=
  mkEtcdController "main" "internal" Minute Hour "mem://store" "a" true None None None
    defaultCycleInterval zeroTime NewBackupCleanup [] zeroTime None false.

Definition cycle : CC verdict := run defaultBinConfig defaultRetention (fun i _ _ => Pos.of_nat i) 3.

(** The controller and the world after [n] cycles. *)
Fixpoint after (n : nat) (s : EtcdController * world) : EtcdController * world :=
  match n with
  | O => s
  | S n =>
      match exec env (cycle (fst s)) (snd s) with
      | (_, Done (_, m), w) => after n (m, w)
      | (_, Crashed _, w) => (fst s, w)
      end
  end.

(** The snapshot that the controller [m] would take of [w]. *)
Definition snapshot (m : EtcdController) (w : world) : etcdClusterState :=
  match outcome_of env (updateClusterState (newPeer <$> answer CPeers w) m) w with
  | Done (Ok cs, _) => cs
  | _ => mkClusterState ∅ ∅ ∅
  end.

(** A cluster of three that a controller creates, the same cluster with a node
    more or a node down, and another specification for it. *)
Definition spec3 : ClusterSpec := mkClusterSpec 3 "3.4.13".
Definition start : EtcdController * world := (new_controller, idle ["a"; "b"; "c"] spec3).
Definition leader : EtcdController * world := after 1 start.
Definition stable : EtcdController * world := after 4 start.

Definition with_idle (name : string) (w : world) : world :=
  mkWorld (w_now w) (<[name := mkNode (conf name) None false]> (w_nodes w)) (w_raft w) (w_spec w)
    (w_new w) (w_commands w) (w_backups w).
Definition down (name : string) (w : world) : world :=
  on_node name (fun n => mkNode (n_conf n) (n_state n) false) w.
Definition later (d : duration) (w : world) : world :=
  mkWorld (w_now w + d) (w_nodes w) (w_raft w) (w_spec w) (w_new w) (w_commands w) (w_backups w).
Definition wanting (spec : ClusterSpec) (w : world) : world :=
  mkWorld (w_now w) (w_nodes w) (w_raft w) (Some spec) (w_new w) (w_commands w) (w_backups w).

Definition token : leadershipState := mkLeadershipState "leader" (list_to_set ["a"; "b"; "c"]).
Definition cs : etcdClusterState := snapshot (fst stable) (snd stable).

(** Started on idle nodes, the controller becomes leader, creates the cluster
    and lifts its quarantine in three cycles; then it leaves it alone. *)
Definition verdicts (n : nat) (s : EtcdController * world) : list (option verdict) :=
  (fun i => match outcome_of env (cycle (fst (after i s))) (snd (after i s)) with
            | Done (v, _) => Some v
            | Crashed _ => None
            end) <$> seq 0 n.
Example bootstrap :
  verdicts 5 start = [Some (false, None); Some (true, None); Some (true, None);
                      Some (false, None); Some (false, None)] /\
  (Raft_Name <$> w_raft (snd stable)) ≡ₚ ["a"; "b"; "c"] /\
  forallb (fun e => match n_state (snd e) with
                    | Some st => negb (State_Quarantined st) && n_up (snd e)
                    | None => false
                    end) (map_to_list (w_nodes (snd stable))) = true.
Proof.
  split; [vm_compute; reflexivity|]. split; [|vm_compute; reflexivity].
  apply (bool_decide_eq_true_1 _). vm_compute. reflexivity.
Qed.
End ControllerDemo.
