(* ===== verification/ControllerFootprint.v ===== *)
(** * The footprint of every operation of the controller

    Which kinds of changing exchanges an operation can make at all.  A theorem
    about one kind of exchange uses these lemmas for everything that does not
    make it. *)

From stdpp Require Import base gmap sets list strings.
From S2P Require Import Prelude Effects ProtoEtcd GoLib Binaries BackupCleanup ClusterState ControllerOps Controller.

Local Open Scope Z_scope.

Inductive kind :=
| KQuiet | KEndpoints | KJoin | KReconfigure | KStop | KBackup | KRestore | KMemberAdd
| KMemberUpdate | KMemberRemove | KSetSpec | KMarkCreated | KAddCommand | KRemoveCommand
| KRemoveBackup.

Definition kindOf (e : ctl_op) : kind :=
  match e with
  | CUpdateEndpoints _ _ => KEndpoints
  | CJoinCluster _ _ => KJoin
  | CReconfigure _ _ => KReconfigure
  | CStopEtcd _ _ => KStop
  | CDoBackup _ _ => KBackup
  | CDoRestore _ _ => KRestore
  | CMemberAdd _ _ => KMemberAdd
  | CMemberUpdate _ _ _ => KMemberUpdate
  | CMemberRemove _ _ => KMemberRemove
  | CSetExpectedClusterSpec _ => KSetSpec
  | CMarkClusterCreated => KMarkCreated
  | CAddCommand _ => KAddCommand
  | CRemoveCommand _ => KRemoveCommand
  | CRemoveBackup _ => KRemoveBackup
  | _ => KQuiet
  end.

#[export] Instance kind_eq_dec : EqDecision kind.
Proof. solve_decision. Defined.

(** Whether an exchange of the kind occurs. *)
Definition has (k : kind) (t : ctrace) : bool :=
  existsb (fun x : exchange CtlSig => bool_decide (kindOf (asked x) = k)) t.

Lemma has_true k t : has k t = true -> exists x : exchange CtlSig, x ∈ t /\ kindOf (asked x) = k.
Proof.
  intros (x & Hx & E)%existsb_exists. exists x. by apply list_elem_of_In in Hx; case_bool_decide.
Qed.

Lemma has_some k t : has k t = true -> ~ Forall (fun x : exchange CtlSig => kindOf (asked x) <> k) t.
Proof. intros (x & Hx & E)%has_true Hall. rewrite Forall_forall in Hall. by apply (Hall x Hx). Qed.

(** The exchange is a query, or of a kind that [f] admits. *)
Definition within (f : kind -> bool) (x : exchange CtlSig) : Prop :=
  kindOf (asked x) = KQuiet \/ f (kindOf (asked x)) = true.

Lemma within_not (f : kind -> bool) (P : exchange CtlSig -> Prop) t :
  (forall x, P x -> kindOf (asked x) <> KQuiet /\ f (kindOf (asked x)) = false) ->
  Forall (within f) t -> Forall (fun x => ~ P x) t.
Proof.
  intros HP Ht. eapply Forall_impl; [exact Ht|]. intros x [Hx|Hx] Hp; destruct (HP x Hp); congruence.
Qed.

Ltac footprint :=
  emits_solve; try (by left); try (right; cbn; first [assumption | reflexivity]); try done.

Section AnyState.
Context {S : Type} (f : kind -> bool).
Abbreviation fits m := (emits (S := S) (within f) m).

Lemma fits_withClient {T} p (fail : error -> T) request :
  fits request -> fits (withClient p fail request).
Proof. intros H. unfold withClient. footprint. Qed.
Lemma fits_NewClient endpoints : fits (NewClient endpoints).
Proof. unfold NewClient. footprint. Qed.
Lemma fits_LoggedClose endpoints : fits (LoggedClose endpoints).
Proof. unfold LoggedClose. footprint. Qed.
Lemma fits_ListMembers endpoints : fits (ListMembers endpoints).
Proof. unfold ListMembers. footprint. Qed.
Lemma fits_findByName name ms : fits (findByName name ms).
Proof. unfold findByName. footprint. Qed.
Lemma fits_FindPeer cs mb : fits (FindPeer cs mb).
Proof. unfold FindPeer. footprint. Qed.
Lemma fits_idlePeers cs : fits (idlePeers cs).
Proof. unfold idlePeers. footprint. Qed.
Hint Resolve fits_NewClient fits_LoggedClose fits_ListMembers : emits_db.
Lemma fits_newEtcdClient cs mb : fits (newEtcdClient cs mb).
Proof. unfold newEtcdClient. footprint. Qed.
Hint Resolve fits_newEtcdClient : emits_db.
Lemma fits_onAnyMember cs request :
  (forall c, fits (request c)) -> fits (onAnyMember cs request).
Proof. intros H. unfold onAnyMember. footprint. Qed.
Lemma fits_etcdAddMember cs node : f KMemberAdd = true -> fits (etcdAddMember cs node).
Proof.
  intros H. unfold etcdAddMember. apply emits_bind; [|intros; footprint].
  apply fits_onAnyMember. intros c. unfold AddMember. footprint.
Qed.
Lemma fits_etcdRemoveMember cs mb : f KMemberRemove = true -> fits (etcdRemoveMember cs mb).
Proof.
  intros H. unfold etcdRemoveMember. apply emits_bind; [|intros; footprint].
  apply fits_onAnyMember. intros c. unfold RemoveMember. footprint.
Qed.
Lemma fits_Bindir cfg v cmd : fits (BindirForEtcdVersion (Σ := CtlSig) cfg v cmd).
Proof.
  intros s. eapply wpm_mono; [apply BindirForEtcdVersion_spec| |done].
  intros r s' t (_ & Ht & _). eapply Forall_impl; [exact Ht|].
  intros x [p Hp]. left. by rewrite Hp.
Qed.

Lemma fits_rpcDoBackup p rq : f KBackup = true -> fits (rpcDoBackup p rq).
Proof. intros H. apply fits_withClient. footprint. Qed.
Lemma fits_rpcDoRestore p rq : f KRestore = true -> fits (rpcDoRestore p rq).
Proof. intros H. apply fits_withClient. footprint. Qed.
Lemma fits_rpcJoinCluster p rq : f KJoin = true -> fits (rpcJoinCluster p rq).
Proof. intros H. apply fits_withClient. footprint. Qed.
Lemma fits_rpcGetInfo p : fits (rpcGetInfo p).
Proof. apply fits_withClient. footprint. Qed.
Lemma fits_rpcUpdateEndpoints p mm : f KEndpoints = true -> fits (rpcUpdateEndpoints p mm).
Proof. intros H. apply fits_withClient. footprint. Qed.
Lemma fits_rpcReconfigure p rq : f KReconfigure = true -> fits (rpcReconfigure p rq).
Proof. intros H. apply fits_withClient. footprint. Qed.
Lemma fits_rpcStopEtcd p rq : f KStop = true -> fits (rpcStopEtcd p rq).
Proof. intros H. apply fits_withClient. footprint. Qed.
End AnyState.

#[export] Hint Resolve fits_NewClient fits_LoggedClose fits_ListMembers fits_findByName
  fits_FindPeer fits_idlePeers fits_newEtcdClient fits_etcdAddMember fits_etcdRemoveMember
  fits_Bindir fits_rpcDoBackup fits_rpcDoRestore fits_rpcJoinCluster fits_rpcGetInfo
  fits_rpcUpdateEndpoints fits_rpcReconfigure fits_rpcStopEtcd : emits_db.

Section Operations.
Context (f : kind -> bool).
Context (ret : Retention) (zoneOf : nat -> time -> Z -> positive) (waitFuel : nat).
Abbreviation fits m := (emits (S := EtcdController) (within f) m).

Lemma fits_buildHeader : fits buildHeader.
Proof. unfold buildHeader. footprint. Qed.
Lemma fits_releaseLeaderLock : fits releaseLeaderLock.
Proof. unfold releaseLeaderLock. footprint. Qed.
Lemma fits_refreshControlStore ttl : fits (refreshControlStore ttl).
Proof. unfold refreshControlStore. footprint. Qed.
Lemma fits_removeCommand cmd : f KRemoveCommand = true -> fits (removeCommand cmd).
Proof. intros H. unfold removeCommand. footprint. Qed.
Lemma fits_writeClusterSpec spec : f KSetSpec = true -> fits (writeClusterSpec spec).
Proof. intros H. unfold writeClusterSpec. footprint. Qed.
Lemma fits_buildMemberMap cs : fits (buildMemberMap cs).
Proof. unfold buildMemberMap. footprint. Qed.
Lemma fits_broadcastMemberMap cs mm : f KEndpoints = true -> fits (broadcastMemberMap cs mm).
Proof. intros H. unfold broadcastMemberMap. footprint. Qed.
Hint Resolve fits_buildHeader fits_refreshControlStore fits_removeCommand fits_writeClusterSpec
  fits_buildMemberMap fits_broadcastMemberMap : emits_db.

Lemma fits_doClusterBackup spec cs : f KBackup = true -> fits (doClusterBackup spec cs).
Proof. intros H. unfold doClusterBackup. footprint. Qed.
Lemma fits_updateQuarantine cs q : f KReconfigure = true -> fits (updateQuarantine cs q).
Proof. intros H. unfold updateQuarantine, FindMember. footprint. Qed.
Hint Resolve fits_doClusterBackup fits_updateQuarantine : emits_db.

Lemma fits_maybeBackup spec cs :
  f KBackup = true -> f KRemoveBackup = true -> fits (maybeBackup ret zoneOf spec cs).
Proof.
  intros H1 H2. unfold maybeBackup, MaybeDoBackupMaintenance, removeBackups. footprint.
Qed.

Lemma fits_stopAll cs : f KStop = true -> fits (stopAll cs).
Proof. intros H. unfold stopAll. footprint. Qed.
Lemma fits_joinAll ph tok v nodes l : f KJoin = true -> fits (joinAll ph tok v nodes l).
Proof. intros H. unfold joinAll. footprint. Qed.
Lemma fits_randomToken : fits randomToken.
Proof. unfold randomToken. footprint. Qed.
Lemma fits_buildProposal l : fits (buildProposal l).
Proof. unfold buildProposal. footprint. Qed.
Hint Resolve fits_maybeBackup fits_stopAll fits_joinAll fits_randomToken
  fits_buildProposal : emits_db.

Lemma fits_createNewCluster cs spec :
  f KStop = true -> f KEndpoints = true -> f KJoin = true -> f KSetSpec = true ->
  fits (createNewCluster cs spec).
Proof. intros. unfold createNewCluster, startCluster. footprint. Qed.

Lemma fits_idleForJoin cs : fits (idleForJoin cs).
Proof. unfold idleForJoin. footprint. Qed.
Lemma fits_clusterIdentity cs : fits (clusterIdentity cs).
Proof. unfold clusterIdentity. footprint. Qed.
Lemma fits_sendJoin p ph tok v nodes : f KJoin = true -> fits (sendJoin p ph tok v nodes).
Proof. intros. unfold sendJoin. footprint. Qed.
Lemma fits_unhealthyVictim cs t rh : fits (unhealthyVictim cs t rh).
Proof. unfold unhealthyVictim. footprint. Qed.
Lemma fits_prepareForUpgrade spec cs : fits (prepareForUpgrade spec cs).
Proof. unfold prepareForUpgrade. footprint. Qed.
Lemma fits_awaitRestoreCommand : fits (awaitRestoreCommand waitFuel).
Proof. unfold awaitRestoreCommand. footprint. Qed.
Lemma fits_stopMembers cs mp : f KStop = true -> fits (stopMembers cs mp).
Proof. intros. unfold stopMembers. footprint. Qed.
Lemma fits_upgradeOne spec cs mp : f KReconfigure = true -> fits (upgradeOne spec cs mp).
Proof. intros. unfold upgradeOne. footprint. Qed.
Lemma fits_restorePeer cs : fits (restorePeer cs).
Proof. unfold restorePeer, FindHealthyMember. footprint. Qed.
Lemma fits_verifyEtcdVersion cfg spec : fits (verifyEtcdVersion cfg spec).
Proof. unfold verifyEtcdVersion. footprint. Qed.
Hint Resolve fits_idleForJoin fits_clusterIdentity fits_sendJoin fits_unhealthyVictim
  fits_prepareForUpgrade fits_awaitRestoreCommand fits_stopMembers fits_upgradeOne
  fits_restorePeer fits_verifyEtcdVersion : emits_db.

Lemma fits_stopForUpgrade spec cs :
  f KBackup = true -> f KReconfigure = true -> f KAddCommand = true -> f KStop = true ->
  fits (stopForUpgrade waitFuel spec cs).
Proof. intros. unfold stopForUpgrade. footprint. Qed.
Lemma fits_upgradeInPlace spec cs :
  f KBackup = true -> f KReconfigure = true -> fits (upgradeInPlace spec cs).
Proof. intros. unfold upgradeInPlace. footprint. Qed.
Lemma fits_restoreBackup spec cs cmd :
  f KRestore = true -> f KSetSpec = true -> f KRemoveCommand = true ->
  fits (restoreBackupAndLiftQuarantine spec cs cmd).
Proof. intros. unfold restoreBackupAndLiftQuarantine. footprint. Qed.
Lemma fits_reconcileTLS cs :
  f KReconfigure = true -> f KMemberUpdate = true -> fits (reconcileTLS cs).
Proof.
  intros. unfold reconcileTLS, reconcileTLSPeer, updatePeerURLs, FindMember, SetPeerURLs. footprint.
Qed.

(** The snapshot only asks. *)
Lemma fits_updateClusterState peers : fits (updateClusterState peers).
Proof.
  unfold updateClusterState, collectInfo, discoverMembers, indexMembers, checkHealth. footprint.
Qed.
Lemma fits_updatePeerState cs t : fits (updatePeerState cs t).
Proof. unfold updatePeerState. footprint. Qed.
End Operations.

#[export] Hint Resolve fits_buildHeader fits_releaseLeaderLock fits_refreshControlStore
  fits_removeCommand fits_writeClusterSpec fits_buildMemberMap fits_broadcastMemberMap
  fits_doClusterBackup fits_updateQuarantine fits_maybeBackup fits_stopAll fits_joinAll
  fits_randomToken fits_buildProposal fits_createNewCluster fits_idleForJoin fits_clusterIdentity
  fits_sendJoin fits_unhealthyVictim fits_prepareForUpgrade fits_awaitRestoreCommand
  fits_stopMembers fits_upgradeOne fits_restorePeer fits_verifyEtcdVersion fits_stopForUpgrade
  fits_upgradeInPlace fits_restoreBackup fits_reconcileTLS fits_updateClusterState
  fits_updatePeerState : emits_db.
