(* ===== verification/ControllerInv.v ===== *)
(** * What every operation of the controller preserves

    One triple per operation of the controller: started by the leader whose
    leadership is [l], it keeps that leadership and the health times, every
    request it sends to a node carries the token of [l] and the name of the
    cluster, and it can crash only in the listed ways. *)

From stdpp Require Import base gmap sets list strings.
From S2P Require Import Prelude Effects ProtoEtcd GoLib EtcdVersions Binaries BackupCleanup ClusterState ControllerOps Controller.

Local Open Scope Z_scope.

(** The header of the requests of a leader. *)
Definition headerOf (l : leadershipState) (name : string) : CommonRequestHeader :=
  mkCommonRequestHeader (ls_token l) name.

(** What a request to a node shows: the requests whose message has a header
    carry [h]; [UpdateEndpoints] and [GetInfo], whose messages have none, go
    only to the peers [who]. *)
Definition carries (h : CommonRequestHeader) (who : list string) (x : exchange CtlSig) : Prop :=
  match asked x with
  | CUpdateEndpoints p _ | CGetInfo p => p ∈ who
  | CJoinCluster _ rq => Join_Header rq = Some h
  | CReconfigure _ rq => Reconf_Header rq = Some h
  | CStopEtcd _ rq => Stop_Header rq = Some h
  | CDoBackup _ rq => DoBackup_Header rq = Some h
  | CDoRestore _ rq => DoRestore_Header rq = Some h
  | _ => True
  end.

(** The ways in which a cycle can end the process: no entropy, a wait that is
    cut off by the bound of the model, and a peer that reports no node
    configuration. *)
Definition ctl_crash (c : crash) : Prop :=
  c = Fatal "error generating random token" \/ c = OutOfFuel \/
  c = NilDeref "p.info.NodeConfiguration" \/ c = NilDeref "peer.info.NodeConfiguration".

(** The leader [l] of the cluster [name], with health times for [ids]. *)
Definition leads (l : leadershipState) (name : string) (ids : gset string) (m : EtcdController)
    : Prop :=
  m_leadership m = Some l /\ m_clusterName m = name /\
  exists ps, m_peerState m = Some ps /\ ids ⊆ dom ps.

(** ** The snapshot and the requests to peers: any state *)

Section AnyState.
Context {S : Type} (I : S -> Prop) (h : CommonRequestHeader) (who : list string) (C : crash -> Prop).

Lemma hoare_withClient {T} (p : cpeer) (fail : error -> T) (request : CM S T) :
  hoare I (carries h who) C (fun _ => True) request ->
  hoare I (carries h who) C (fun _ => True) (withClient p fail request).
Proof. intros H. unfold withClient. hoare_solve. Qed.

Lemma hoare_NewClient endpoints : hoare I (carries h who) C (fun _ => True) (NewClient endpoints).
Proof. unfold NewClient. hoare_solve. Qed.

Lemma hoare_LoggedClose endpoints : hoare I (carries h who) C (fun _ => True) (LoggedClose endpoints).
Proof. unfold LoggedClose. hoare_solve. Qed.

(** Members have ids. *)
Lemma hoare_ListMembers endpoints :
  hoare I (carries h who) C (fun r => match r with
    | Ok ms => Forall (fun mb => Member_ID mb <> "") ms
    | Err _ => True end) (ListMembers endpoints).
Proof.
  unfold ListMembers. hoare_solve. apply Forall_fmap, Forall_true. intros mb.
  apply FormatUint_nonempty.
Qed.

Lemma hoare_findByName name members :
  hoare I (carries h who) C (fun _ => True) (findByName name members).
Proof. unfold findByName. hoare_solve. Qed.

Lemma hoare_FindPeer cs member : hoare I (carries h who) C (fun _ => True) (FindPeer cs member).
Proof. unfold FindPeer. hoare_solve. Qed.

Hint Resolve hoare_NewClient hoare_LoggedClose hoare_ListMembers : hoare_db.

Lemma hoare_newEtcdClient cs member :
  hoare I (carries h who) C (fun _ => True) (newEtcdClient cs member).
Proof. unfold newEtcdClient. hoare_solve. Qed.

Hint Resolve hoare_newEtcdClient : hoare_db.

Lemma hoare_onAnyMember cs request :
  (forall client, hoare I (carries h who) C (fun _ => True) (request client)) ->
  hoare I (carries h who) C (fun _ => True) (onAnyMember cs request).
Proof. intros H. unfold onAnyMember. hoare_solve. Qed.

Lemma hoare_etcdAddMember cs node : hoare I (carries h who) C (fun _ => True) (etcdAddMember cs node).
Proof.
  unfold etcdAddMember. eapply hoare_bind; [apply hoare_onAnyMember|]; unfold AddMember; hoare_solve.
Qed.

Lemma hoare_etcdRemoveMember cs mb :
  hoare I (carries h who) C (fun _ => True) (etcdRemoveMember cs mb).
Proof.
  unfold etcdRemoveMember. eapply hoare_bind; [apply hoare_onAnyMember|];
    unfold RemoveMember; hoare_solve.
Qed.

Lemma hoare_idlePeers cs : hoare I (carries h who) C (fun _ => True) (idlePeers cs).
Proof. unfold idlePeers. hoare_solve. Qed.

Lemma hoare_Bindir cfg v cmd :
  hoare I (carries h who) C (fun _ => True) (BindirForEtcdVersion (Σ := CtlSig) cfg v cmd).
Proof.
  apply hoare_pure_state. intros s. eapply wpm_mono; [apply BindirForEtcdVersion_spec| |done].
  intros r s' t (-> & Ht & _). split; [done|]. split; [|done].
  eapply Forall_impl; [exact Ht|]. intros x [p Hp]. unfold carries. by rewrite Hp.
Qed.
End AnyState.

#[export] Hint Resolve hoare_withClient hoare_NewClient hoare_LoggedClose hoare_ListMembers
  hoare_findByName hoare_FindPeer hoare_newEtcdClient hoare_etcdAddMember hoare_etcdRemoveMember
  hoare_idlePeers hoare_Bindir : hoare_db.

(** ** Pure facts about proposals *)

Lemma propose_spec desired l acc :
  0 < desired -> Z.of_nat (length acc) < desired ->
  propose desired l acc = acc ++ take (Z.to_nat desired - length acc) l.
Proof.
  intros Hd. revert acc. induction l as [|p l IH]; intros acc Hacc; simpl.
  - by rewrite take_nil, app_nil_r.
  - destruct (Z.eqb_spec (Z.of_nat (length (acc ++ [p]))) desired) as [E|E];
      rewrite length_app in E; simpl in E.
    + replace (Z.to_nat desired - length acc)%nat with 1%nat by lia. done.
    + rewrite IH by (rewrite length_app; simpl; lia). rewrite length_app, <- app_assoc. simpl.
      by replace (Z.to_nat desired - length acc)%nat
        with (S (Z.to_nat desired - (length acc + 1)))%nat by lia.
Qed.

(** With no positive size wanted, every peer is proposed. *)
Lemma propose_all desired l acc : desired <= 0 -> propose desired l acc = acc ++ l.
Proof.
  intros Hd. revert acc. induction l as [|p l IH]; intros acc; simpl; [by rewrite app_nil_r|].
  destruct (Z.eqb_spec (Z.of_nat (length (acc ++ [p]))) desired) as [E|E];
    rewrite length_app in E; simpl in E; [lia|]. by rewrite IH, <- app_assoc.
Qed.

Lemma quorumSize_mono a b : a <= b -> quorumSize a <= quorumSize b.
Proof. unfold quorumSize. intros. apply Z.add_le_mono_r, Z.quot_le_mono; lia. Qed.

(** A proposal never has a smaller quorum than wanted. *)
Lemma propose_quorum desired peers l :
  length l = size (peers : gmap string etcdClusterPeerInfo) ->
  enoughPeers desired (len peers) = true ->
  let n := Z.of_nat (length (propose desired l [])) in
  ~ (n < desired /\ quorumSize n < quorumSize desired).
Proof.
  intros Hl He n [Hn Hq]. subst n. destruct (decide (0 < desired)) as [Hd|Hd].
  - rewrite propose_spec in Hn, Hq by (simpl; lia). simpl in Hn, Hq.
    rewrite length_take in Hn, Hq. unfold enoughPeers, len in He.
    destruct (_ <? quorumSize desired) eqn:E1; [done|]. zify_bools.
    destruct (Z.of_nat (size peers) <? desired) eqn:E2; zify_bools; [|lia].
    replace (Nat.min (Z.to_nat desired - 0) (length l)) with (size peers) in Hq by lia. lia.
  - lia.
Qed.

(** ** The operations *)

(** Every peer of the snapshot is one of [who]. *)
Definition seen_peers (who : list string) (peers : gmap string etcdClusterPeerInfo) : Prop :=
  map_Forall (fun _ p => cp_Id (pe_peer p) ∈ who) peers.

Section Operations.
Context (l : leadershipState) (name : string) (who : list string) (ids : gset string).
Context (ret : Retention) (zoneOf : nat -> time -> Z -> positive) (waitFuel : nat).

Abbreviation triple := (hoare (leads l name ids) (carries (headerOf l name) who) ctl_crash).
Abbreviation safe := (triple (fun _ => True)).

Lemma hoare_buildHeader : triple (fun hd => hd = headerOf l name) buildHeader.
Proof.
  intros m (Hl & Hn & Hps). unfold buildHeader. apply wpm_bind, wpm_get; simpl. rewrite Hl.
  apply wpm_bind, wpm_ret, wpm_ret. rewrite Hn. done.
Qed.
Hint Resolve hoare_buildHeader : hoare_db.

Lemma leads_set_control cmds t spec m :
  leads l name ids m -> leads l name ids (set_control cmds t spec m).
Proof. by destruct m. Qed.
Lemma leads_set_backup t c m : leads l name ids m -> leads l name ids (set_backup t c m).
Proof. by destruct m. Qed.
Hint Resolve leads_set_control leads_set_backup : hoare_db.

Lemma hoare_refreshControlStore ttl : safe (refreshControlStore ttl).
Proof. unfold refreshControlStore. hoare_solve. Qed.
Lemma hoare_removeCommand cmd : safe (removeCommand cmd).
Proof. unfold removeCommand. hoare_solve. Qed.
Lemma hoare_writeClusterSpec spec : safe (writeClusterSpec spec).
Proof. unfold writeClusterSpec. hoare_solve. Qed.
Lemma hoare_buildMemberMap cs : safe (buildMemberMap cs).
Proof. unfold buildMemberMap. hoare_solve. Qed.
Hint Resolve hoare_refreshControlStore hoare_removeCommand hoare_writeClusterSpec
  hoare_buildMemberMap : hoare_db.

(** A request with our header. *)
Lemma hoare_rpcDoBackup p storage info :
  safe (rpcDoBackup p (mkDoBackupRequest (Some (headerOf l name)) storage false info)).
Proof. apply hoare_withClient. hoare_solve. Qed.
Lemma hoare_rpcDoRestore p storage b :
  safe (rpcDoRestore p (mkDoRestoreRequest (Some (headerOf l name)) storage b)).
Proof. apply hoare_withClient. hoare_solve. Qed.
Lemma hoare_rpcJoinCluster p ph tok nodes v :
  safe (rpcJoinCluster p (mkJoinClusterRequest (Some (headerOf l name)) ph tok nodes v)).
Proof. apply hoare_withClient. hoare_solve. Qed.
Lemma hoare_rpcReconfigure p v q tls :
  safe (rpcReconfigure p (mkReconfigureRequest (Some (headerOf l name)) v q tls)).
Proof. apply hoare_withClient. hoare_solve. Qed.
Lemma hoare_rpcStopEtcd p : safe (rpcStopEtcd p (mkStopEtcdRequest (Some (headerOf l name)))).
Proof. apply hoare_withClient. hoare_solve. Qed.
Lemma hoare_rpcUpdateEndpoints p mm : cp_Id p ∈ who -> safe (rpcUpdateEndpoints p mm).
Proof. intros H. apply hoare_withClient. hoare_solve. Qed.
Lemma hoare_rpcGetInfo p : cp_Id p ∈ who -> safe (rpcGetInfo p).
Proof. intros H. apply hoare_withClient. hoare_solve. Qed.
Hint Resolve hoare_rpcDoBackup hoare_rpcDoRestore hoare_rpcJoinCluster hoare_rpcReconfigure
  hoare_rpcStopEtcd hoare_rpcUpdateEndpoints hoare_rpcGetInfo : hoare_db.

Lemma hoare_broadcastMemberMap cs mm :
  seen_peers who (cs_peers cs) -> safe (broadcastMemberMap cs mm).
Proof.
  intros Hcs. unfold broadcastMemberMap. eapply hoare_bind; [apply hoare_range; done|]. intros order Hord.
  apply (hoare_for_fold _ _ _ (fun _ => True)); [done|]. intros [id p] acc Hin _.
  apply (hoare_bind _ _ _ (fun _ => True)); [|hoare_solve]. apply hoare_rpcUpdateEndpoints.
  apply (Hcs id). apply elem_of_map_to_list. by rewrite <- Hord.
Qed.

Lemma hoare_doClusterBackup spec cs : safe (doClusterBackup spec cs).
Proof. unfold doClusterBackup. hoare_solve. Qed.

Lemma hoare_updateQuarantine cs q : safe (updateQuarantine cs q).
Proof. unfold updateQuarantine, FindMember. hoare_solve. Qed.
Hint Resolve hoare_broadcastMemberMap hoare_doClusterBackup hoare_updateQuarantine : hoare_db.

Lemma hoare_MaybeDoBackupMaintenance :
  safe (zoom m_backupCleanup (fun c m => set_backup (m_lastBackup m) c m)
          (MaybeDoBackupMaintenance ret zoneOf)).
Proof.
  intros m Hm. unfold wpm, zoom. apply wp_bind.
  assert (emits (carries (headerOf l name) who) (MaybeDoBackupMaintenance (Σ := CtlSig) ret zoneOf)) as H.
  { unfold MaybeDoBackupMaintenance, removeBackups. emits_solve; done. }
  eapply wp_mono; [exact (wp_conj _ _ _
    (MaybeDoBackupMaintenance_spec ret zoneOf (m_backupCleanup m)) (H (m_backupCleanup m)))|].
  clear H.
  intros t [[r c]|c] [H Ht]; simpl; [|done]. rewrite app_nil_r. auto using leads_set_backup.
Qed.
Hint Resolve hoare_MaybeDoBackupMaintenance : hoare_db.

Lemma hoare_maybeBackup spec cs : safe (maybeBackup ret zoneOf spec cs).
Proof. unfold maybeBackup. hoare_solve. Qed.
Hint Resolve hoare_maybeBackup : hoare_db.

(** ** Creating a cluster *)

Lemma hoare_randomToken : safe randomToken.
Proof. unfold randomToken. hoare_solve. by left. Qed.

Lemma hoare_buildProposal proposal : safe (buildProposal proposal).
Proof.
  unfold buildProposal. hoare_solve.
  apply hoare_deref; [done|]. intros _. right; right; by left.
Qed.

Lemma hoare_stopAll cs : safe (stopAll cs).
Proof. unfold stopAll. hoare_solve. Qed.

Lemma hoare_joinAll ph tok v nodes proposal : safe (joinAll ph tok v nodes proposal).
Proof. unfold joinAll. hoare_solve. Qed.
Hint Resolve hoare_randomToken hoare_buildProposal hoare_stopAll hoare_joinAll : hoare_db.

Lemma hoare_startCluster cs spec tok proposal :
  seen_peers who (cs_peers cs) -> safe (startCluster cs spec tok proposal).
Proof. intros Hcs. unfold startCluster. hoare_solve. Qed.
Hint Resolve hoare_startCluster : hoare_db.

Lemma hoare_createNewCluster cs spec :
  seen_peers who (cs_peers cs) -> safe (createNewCluster cs spec).
Proof.
  intros Hcs. unfold createNewCluster. hoare_solve. exfalso. zify_bools.
  match goal with H : ?order ≡ₚ map_to_list (cs_peers cs) |- _ =>
    destruct (propose_quorum (Spec_MemberCount spec) (cs_peers cs) (snd <$> order)); [|done|done];
    rewrite length_fmap, H; apply length_map_to_list end.
Qed.
Hint Resolve hoare_createNewCluster : hoare_db.

(** ** Adding and removing members *)

Lemma hoare_peerConf (p : etcdClusterPeerInfo) :
  safe (deref "peer.info.NodeConfiguration" (Info_NodeConfiguration (pe_info p))).
Proof. apply hoare_deref; [done|]. intros _. by right; right; right. Qed.
Hint Resolve hoare_peerConf : hoare_db.

Lemma hoare_idleForJoin cs : safe (idleForJoin cs).
Proof. unfold idleForJoin. hoare_solve. Qed.
Lemma hoare_clusterIdentity cs : safe (clusterIdentity cs).
Proof. unfold clusterIdentity. hoare_solve. Qed.
Lemma hoare_sendJoin p ph tok v nodes : safe (sendJoin p ph tok v nodes).
Proof. unfold sendJoin. hoare_solve. Qed.
Hint Resolve hoare_idleForJoin hoare_clusterIdentity hoare_sendJoin : hoare_db.

Lemma hoare_joinPeer cs p : safe (joinPeer cs p).
Proof. unfold joinPeer. hoare_solve. Qed.
Hint Resolve hoare_joinPeer : hoare_db.

Lemma hoare_addNodeToCluster spec cs : safe (addNodeToCluster spec cs).
Proof. unfold addNodeToCluster. hoare_solve. Qed.

(** Every member has a health time, so the fatal branch is not taken. *)
Lemma hoare_unhealthyVictim cs t rh :
  dom (cs_members cs) ⊆ ids -> safe (unhealthyVictim cs t rh).
Proof.
  intros Hids. unfold unhealthyVictim. destruct (_ <? _); [|hoare_solve].
  eapply hoare_bind; [apply hoare_range; done|]. intros order Hord.
  eapply (hoare_bind _ _ _ (fun _ => True)); [|intros; by apply hoare_ret].
  apply hoare_for_each_any. intros [id mb] [] Hin.
  assert (id ∈ ids) as Hid.
  { apply Hids, elem_of_dom. exists mb. apply elem_of_map_to_list.
    by rewrite <- Hord. }
  destruct (cs_healthyMembers cs !! _); [by apply hoare_ret|].
  destruct rh; [by apply hoare_ret|].
  eapply hoare_bind; [apply hoare_get|]. intros m (_ & _ & ps & Hps & Hsub).
  rewrite Hps. simpl. destruct (ps !! id) eqn:E; [hoare_solve|].
  exfalso. apply not_elem_of_dom in E. set_solver.
Qed.
Hint Resolve hoare_unhealthyVictim : hoare_db.

Lemma hoare_removeNodeFromCluster spec cs rh :
  dom (cs_members cs) ⊆ ids -> safe (removeNodeFromCluster spec cs rh).
Proof. intros H. unfold removeNodeFromCluster. hoare_solve. Qed.

(** ** Upgrades *)

(** The map has a peer for every member. *)
Lemma hoare_prepareForUpgrade spec cs :
  triple (fun r => match r with
    | Ok mp => dom (cs_members cs) ⊆ dom (mp : gmap string etcdClusterPeerInfo)
    | Err _ => True end) (prepareForUpgrade spec cs).
Proof.
  unfold prepareForUpgrade. eapply hoare_bind; [apply hoare_range; done|]. intros order Hord.
  eapply hoare_bind with (R1 := fun r => match r with
    | inl mp => dom (cs_members cs) ⊆ dom mp | inr _ => True end).
  - eapply hoare_mono; [apply (hoare_for_each_seen _ _ _
      (fun seen (mp : gmap string etcdClusterPeerInfo) => forall e, e ∈ seen -> e.1 ∈ dom mp)
      (fun _ => True) order []); [set_solver|]|].
    + intros seen [id mb] mp Hin Hseen. eapply hoare_bind; [apply hoare_range; done|].
      intros ps _. destruct (find_last _ ps) as [[pid p]|]; apply hoare_ret; [|done].
      intros e [He|Heq%list_elem_of_singleton]%elem_of_app; rewrite dom_insert_L.
      * apply elem_of_union_r. by apply Hseen.
      * subst e. set_solver.
    + intros [mp|]; [|done]. simpl. intros H id (mb & Hmb)%elem_of_dom.
      apply (H (id, mb)). rewrite Hord. by apply elem_of_map_to_list.
  - intros [mp|e] Hmp; [|by apply hoare_ret]. hoare_solve.
Qed.
Hint Resolve hoare_prepareForUpgrade : hoare_db.

Lemma hoare_awaitRestoreCommand : safe (awaitRestoreCommand waitFuel).
Proof.
  unfold awaitRestoreCommand. apply hoare_repeat_until; [by right; left|].
  eapply (hoare_mono _ _ _ (fun _ => True)); [hoare_solve|]. by intros [?|].
Qed.
Hint Resolve hoare_awaitRestoreCommand : hoare_db.

Lemma member_has_peer cs (mp : gmap string etcdClusterPeerInfo) order id mb :
  dom (cs_members cs) ⊆ dom mp -> order ≡ₚ map_to_list (cs_members cs) ->
  (id, mb) ∈ order -> exists p, mp !! id = Some p.
Proof.
  intros Hd Hord Hin. apply elem_of_dom, Hd, elem_of_dom. exists mb.
  apply elem_of_map_to_list. by rewrite <- Hord.
Qed.

Lemma hoare_stopMembers cs mp :
  dom (cs_members cs) ⊆ dom mp -> safe (stopMembers cs mp).
Proof.
  intros Hd. unfold stopMembers. eapply hoare_bind; [apply hoare_range; done|]. intros order Hord.
  eapply (hoare_bind _ _ _ (fun _ => True)); [|intros; by apply hoare_ret].
  apply hoare_for_each_any. intros [id mb] [] Hin. simpl.
  destruct (member_has_peer cs mp order id mb) as [p ->]; [done..|]. hoare_solve.
Qed.
Hint Resolve hoare_stopMembers : hoare_db.

Lemma hoare_stopForUpgrade spec cs : safe (stopForUpgrade waitFuel spec cs).
Proof. unfold stopForUpgrade. hoare_solve. Qed.

Lemma hoare_upgradeOne spec cs mp :
  (forall id, id ∈ dom (cs_members cs) -> exists p st, mp !! id = Some p /\
     Info_EtcdState (pe_info p) = Some st) ->
  safe (upgradeOne spec cs mp).
Proof.
  intros Hd. unfold upgradeOne. eapply hoare_bind; [apply hoare_range; done|]. intros order Hord.
  eapply (hoare_bind _ _ _ (fun _ => True)); [|intros; by apply hoare_ret].
  apply hoare_for_each_any. intros [id mb] [] Hin. simpl.
  destruct (Hd id) as (p & st & -> & Hst).
  { apply elem_of_dom. exists mb. apply elem_of_map_to_list. by rewrite <- Hord. }
  rewrite Hst. simpl. eapply (hoare_bind _ _ _ (fun _ => True)); [by apply hoare_ret|].
  intros st' _. hoare_solve.
Qed.

Lemma hoare_upgradeInPlace spec cs : safe (upgradeInPlace spec cs).
Proof.
  unfold upgradeInPlace. eapply hoare_bind; [apply hoare_prepareForUpgrade|].
  intros [mp|e] Hmp; [|by apply hoare_ret].
  eapply hoare_bind; [apply hoare_range; done|]. intros order Hord.
  eapply hoare_bind with (R1 := fun r => match r with
    | inl _ => forall e, e ∈ order -> exists p st, mp !! e.1 = Some p /\
                 Info_EtcdState (pe_info p) = Some st
    | inr _ => True end).
  - eapply (hoare_for_each_seen _ _ _ (fun seen (_ : unit) => forall e, e ∈ seen ->
      exists p st, mp !! e.1 = Some p /\ Info_EtcdState (pe_info p) = Some st)
      (fun _ => True) order []); [set_solver|].
    intros seen [id mb] [] Hin Hseen. simpl.
    destruct (member_has_peer cs mp order id mb) as [p Hp]; [done..|]. rewrite Hp.
    destruct (Info_EtcdState (pe_info p)) as [st|] eqn:Hst; apply hoare_ret; [|done].
    intros e [He|Heq%list_elem_of_singleton]%elem_of_app; [by apply Hseen|]. subst e. simpl. eauto.
  - intros [[]|e] Hall; [|by apply hoare_ret].
    apply (hoare_bind _ _ _ (fun _ => True)); [apply hoare_doClusterBackup|].
    intros [b|e] _; [|by apply hoare_ret]. apply hoare_upgradeOne.
    intros id (mb & Hmb)%elem_of_dom. apply (Hall (id, mb)). rewrite Hord.
    by apply elem_of_map_to_list.
Qed.

(** ** Restore and TLS *)

Lemma hoare_restorePeer cs : safe (restorePeer cs).
Proof. unfold restorePeer, FindHealthyMember. hoare_solve. Qed.
Hint Resolve hoare_restorePeer : hoare_db.

Lemma hoare_restoreBackupAndLiftQuarantine spec cs cmd :
  safe (restoreBackupAndLiftQuarantine spec cs cmd).
Proof. unfold restoreBackupAndLiftQuarantine. hoare_solve. Qed.

Lemma hoare_updatePeerURLs id conf st urls : safe (updatePeerURLs id conf st urls).
Proof. unfold updatePeerURLs, SetPeerURLs. hoare_solve. Qed.
Hint Resolve hoare_updatePeerURLs : hoare_db.

Lemma hoare_reconcileTLSPeer cs id p : safe (reconcileTLSPeer cs id p).
Proof. unfold reconcileTLSPeer, FindMember. hoare_solve. Qed.
Hint Resolve hoare_reconcileTLSPeer : hoare_db.

Lemma hoare_reconcileTLS cs : safe (reconcileTLS cs).
Proof. unfold reconcileTLS. hoare_solve. Qed.

Lemma hoare_verifyEtcdVersion cfg spec : safe (verifyEtcdVersion cfg spec).
Proof. unfold verifyEtcdVersion. hoare_solve. Qed.
Hint Resolve hoare_addNodeToCluster hoare_removeNodeFromCluster hoare_stopForUpgrade
  hoare_upgradeInPlace hoare_restoreBackupAndLiftQuarantine hoare_reconcileTLS
  hoare_verifyEtcdVersion : hoare_db.

(** ** The cycle of a leader *)

Context (cfg : BinConfig).

Section Snapshot.
Context (cs : etcdClusterState) (Hids : dom (cs_members cs) ⊆ ids).
Context (Hpeers : seen_peers who (cs_peers cs)).

Lemma hoare_runStable spec acked : safe (runStable waitFuel spec cs acked).
Proof. unfold runStable. hoare_solve. Qed.
Hint Resolve hoare_runStable : hoare_db.

Lemma hoare_runUnhealthy spec acked : safe (runUnhealthy waitFuel spec cs acked).
Proof. unfold runUnhealthy. hoare_solve. Qed.
Hint Resolve hoare_runUnhealthy : hoare_db.

Lemma hoare_runSize spec acked : safe (runSize waitFuel spec cs acked).
Proof. unfold runSize, InvalidateControlStore. hoare_solve. Qed.
Hint Resolve hoare_runSize : hoare_db.

Lemma hoare_runCluster spec acked : safe (runCluster cfg ret zoneOf waitFuel spec cs acked).
Proof. unfold runCluster. hoare_solve. Qed.
Hint Resolve hoare_runCluster : hoare_db.

Lemma hoare_runSpec acked : safe (runSpec cfg ret zoneOf waitFuel cs acked).
Proof. unfold runSpec. hoare_solve. Qed.
Hint Resolve hoare_runSpec : hoare_db.

Lemma hoare_runControl acked : safe (runControl cfg ret zoneOf waitFuel cs acked).
Proof. unfold runControl. hoare_solve. Qed.
End Snapshot.

(** *** The snapshot *)

Lemma hoare_collectInfo peers :
  Forall (fun p => cp_Id p ∈ who) peers ->
  triple (fun r => match r with Ok m => seen_peers who m | Err _ => True end) (collectInfo peers).
Proof.
  intros Hp. unfold collectInfo. eapply hoare_bind.
  - apply (hoare_for_each _ _ _ (seen_peers who) (fun _ => True)); [apply map_Forall_empty|].
    intros p acc Hin Hacc. rewrite Forall_forall in Hp.
    apply (hoare_bind _ _ _ (fun _ => True)); [by apply hoare_rpcGetInfo, Hp|].
    intros [info|e] _; apply hoare_ret; [|done]. apply map_Forall_insert_2; [by apply Hp|done].
  - intros [m|e] H; by apply hoare_ret.
Qed.

Lemma hoare_indexMembers ms :
  Forall (fun mb => Member_ID mb <> "") ms -> safe (indexMembers ms).
Proof.
  intros H. unfold indexMembers. apply (hoare_for_fold _ _ _ (fun _ => True)); [done|].
  intros mb acc Hin _. rewrite Forall_forall in H. specialize (H mb Hin).
  destruct (String.eqb_spec (Member_ID mb) ""); [done|]. by apply hoare_ret.
Qed.
Hint Resolve hoare_collectInfo hoare_indexMembers : hoare_db.

Lemma hoare_discoverMembers peers : safe (discoverMembers peers).
Proof.
  unfold discoverMembers. eapply hoare_bind; [apply hoare_range; done|]. intros order _.
  eapply (hoare_bind _ _ _ (fun _ => True)); [|intros; by apply hoare_ret].
  apply hoare_for_each_any. intros [id p] [] _. simpl.
  destruct (Info_NodeConfiguration _) as [conf|]; [|hoare_solve].
  destruct (Info_EtcdState _) as [st|]; [|hoare_solve].
  destruct (nodeClientUrls _ _) eqn:Hu; [hoare_solve|]. rewrite <- Hu.
  apply (hoare_bind _ _ _ (fun _ => True)); [apply hoare_NewClient|].
  intros [e|] _; [hoare_solve|].
  eapply hoare_bind; [apply hoare_ListMembers|]. intros ms Hms.
  apply (hoare_bind _ _ _ (fun _ => True)); [apply hoare_LoggedClose|]. intros _ _.
  destruct ms as [ms|e]; [|hoare_solve].
  apply (hoare_bind _ _ _ (fun _ => True)); [by apply hoare_indexMembers|]. hoare_solve.
Qed.

Lemma hoare_checkHealth cs : safe (checkHealth cs).
Proof. unfold checkHealth. hoare_solve. Qed.
Hint Resolve hoare_discoverMembers hoare_checkHealth : hoare_db.

Lemma hoare_updateClusterState peers :
  Forall (fun p => cp_Id p ∈ who) peers ->
  triple (fun r => match r with Ok cs => seen_peers who (cs_peers cs) | Err _ => True end)
    (updateClusterState peers).
Proof.
  intros Hp. unfold updateClusterState. eapply hoare_bind; [by apply hoare_collectInfo|].
  intros [infos|e] H; [|by apply hoare_ret].
  apply (hoare_bind _ _ _ (fun _ => True)); [apply hoare_discoverMembers|]. intros ms _.
  apply (hoare_bind _ _ _ (fun _ => True)); [apply hoare_checkHealth|]. intros hs _. by apply hoare_ret.
Qed.
End Operations.

(** *** Health times *)

(** The health times cover the members after the update. *)
Lemma updatePeerState_spec l name who cs t m :
  leads l name ∅ m ->
  wpm (updatePeerState cs t) m
    (fun _ m' tr => leads l name (dom (cs_members cs)) m' /\
       Forall (carries (headerOf l name) who) tr) (fun _ _ => False).
Proof.
  intros Hm. unfold updatePeerState. apply wpm_bind, wpm_range. intros order r Hord.
  pose proof (wpm_for_fold
    (fun seen (_ : unit) m' tr => leads l name (list_to_set seen.*1) m' /\
       Forall (carries (headerOf l name) who) tr) (fun _ _ => False) order) as H.
  eapply wpm_mono; [apply (H _ [] tt m [existT (CRange : op CtlSig) r])| |done].
  - split; [done|]. by repeat constructor.
  - intros seen [id mb] [] m1 tr [(Hl & Hn & ps & Hps & Hsub) Htr] _.
    apply wpm_bind, wpm_get; simpl. rewrite Hps. apply wpm_bind, wpm_ret, wpm_modify.
    rewrite app_nil_r. split; [|done]. split; [done|]. split; [done|]. eexists. split; [done|].
    rewrite fmap_app, list_to_set_app_L, dom_insert_L. simpl. set_solver.
  - intros [] m' tr [(Hl & Hn & ps & Hps & Hsub) Htr]. split; [|done]. split; [done|].
    split; [done|]. exists ps. split; [done|]. intros id (mb & Hmb)%elem_of_dom. apply Hsub.
    apply elem_of_list_to_set, list_elem_of_fmap. exists (id, mb). split; [done|].
    simpl. rewrite Hord. by apply elem_of_map_to_list.
Qed.
