(* ===== verification/ControllerSafety.v ===== *)
(** * Safety of the controller's cycle

    What one cycle of the controller does to the system, in every environment:
    whether it may act at all, in which order it acts, and what it never does. *)

From stdpp Require Import base gmap sets list strings.
From S2P Require Import Prelude Effects ProtoEtcd GoLib EtcdVersions Binaries BackupCleanup ClusterState ControllerOps Controller ControllerDemo ControllerFootprint ControllerInv.

Local Open Scope Z_scope.

(** ** Who acts *)

(** The exchanges that change a node, etcd's membership or a store. *)
Definition acts (x : exchange CtlSig) : Prop :=
  match asked x with
  | CSetExpectedClusterSpec _ | CMarkClusterCreated | CAddCommand _ | CRemoveCommand _
  | CRemoveBackup _ | CUpdateEndpoints _ _ | CJoinCluster _ _ | CReconfigure _ _ | CStopEtcd _ _
  | CDoBackup _ _ | CDoRestore _ _ | CMemberAdd _ _ | CMemberUpdate _ _ _ | CMemberRemove _ _ => True
  | _ => False
  end.

Ltac quiet_tac :=
  repeat first [ apply List.Forall_nil | assumption
               | apply List.Forall_cons; [by intros []|]
               | apply Forall_app; split ].

(** What holds between cycles. *)
Definition ctl_wf (m : EtcdController) : Prop :=
  is_Some (m_leadership m) -> is_Some (m_peerState m).

(** The exchanges that obtain the leader lock, if it was not held. *)
Definition lock_held (m : EtcdController) (me : string) (lock : ctrace) : Prop :=
  (lock = [] /\ (m_leaderLock m = false \/ is_Some (m_leaderLockGuard m))) \/
  exists g, lock = [existT (CAcquire me : op CtlSig) (Ok (Some g))].

(** A trace in which the controller is entitled to act: it has the lowest id of
    the peers it sees, holds the leader lock if it was given one, asserted its leadership, and every
    peer it sees had acknowledged it; all that follows satisfies [carries]. *)
Definition entitled (m : EtcdController) (t : ctrace) : Prop :=
  exists l infos lock t',
    t = existT (CPeers : op CtlSig) infos :: lock ++
        existT (CAssertLeadership (ls_token l) : op CtlSig) None :: t' /\
    m_leadership m = Some l /\
    m_myPeerId m ∈ Peer_Id <$> infos /\
    Forall (fun i => str_le (m_myPeerId m) (Peer_Id i) /\ Peer_Id i ∈ ls_ackedPeers l) infos /\
    lock_held m (m_myPeerId m) lock /\
    Forall (carries (headerOf l (m_clusterName m)) (Peer_Id <$> infos)) t'.

Definition cycle_post (m : EtcdController) (t : ctrace) : Prop :=
  Forall (fun x => ~ acts x) t \/ entitled m t.

Section Cycle.
Context (cfg : BinConfig) (ret : Retention) (zoneOf : nat -> time -> Z -> positive).
Context (waitFuel : nat).

Lemma leads_weaken l name ids m : leads l name ids m -> leads l name ∅ m.
Proof. intros (? & ? & ps & ? & _). split; [done|]. split; [done|]. exists ps. set_solver. Qed.

Lemma runLeader_spec l name who peers acked :
  Forall (fun p => cp_Id p ∈ who) peers ->
  hoare (leads l name ∅) (carries (headerOf l name) who) ctl_crash (fun _ => True)
    (runLeader cfg ret zoneOf waitFuel peers acked).
Proof.
  intros Hp. unfold runLeader. eapply hoare_bind; [by apply hoare_updateClusterState|].
  intros [cs|e] Hcs; [|by apply hoare_ret].
  apply (hoare_bind _ _ _ (fun _ => True)); [by apply hoare_now|]. intros t _.
  intros m Hm. apply wpm_bind. eapply wpm_mono; [by apply updatePeerState_spec| |done].
  intros [] m1 t1 [Hm1 Ht1].
  enough (hoare (leads l name (dom (cs_members cs))) (carries (headerOf l name) who) ctl_crash
    (fun _ => True) (memberMap ← buildMemberMap cs; broadcastMemberMap cs memberMap ≫= fun _ =>
      runControl cfg ret zoneOf waitFuel cs acked)) as H.
  { eapply wpm_mono; [by apply H| |]; simpl.
    - intros v m2 t2 (Hm2 & Ht2 & _). rewrite Forall_app. eauto using leads_weaken.
    - intros c t2 (Ht2 & Hc). by rewrite Forall_app. }
  apply (hoare_bind _ _ _ (fun _ => True)); [apply hoare_buildMemberMap|]. intros mm _.
  apply (hoare_bind _ _ _ (fun _ => True)); [by apply hoare_broadcastMemberMap|]. intros _ _.
  by apply hoare_runControl.
Qed.

Lemma releaseLeaderLock_spec m :
  wpm releaseLeaderLock m
    (fun _ m' t => Forall (fun x => ~ acts x) t /\ (m' = m \/ m' = set_guard None m))
    (fun _ _ => False).
Proof.
  unfold releaseLeaderLock. wpm_steps; (split; [quiet_tac|]); auto.
Qed.

Lemma refreshControlStore_spec ttl m :
  wpm (refreshControlStore ttl) m
    (fun _ m' t => Forall (fun x => ~ acts x) t /\
       (m' = m \/ exists cmds tm spec, m' = set_control cmds tm spec m)) (fun _ _ => False).
Proof.
  unfold refreshControlStore. wpm_steps; (split; [quiet_tac|]); eauto.
Qed.

Lemma runBecomeLeader_spec m :
  ctl_wf m ->
  wpm runBecomeLeader m (fun _ m' t => Forall (fun x => ~ acts x) t /\ ctl_wf m')
    (fun _ _ => False).
Proof.
  intros Hwf. unfold runBecomeLeader. apply wpm_bind.
  refine (@wpm_call CtlSig EtcdController CBecomeLeader m _ _ _). intros [[acked token]|e]; simpl;
    [|apply wpm_ret; split; [quiet_tac|done]].
  apply wpm_bind. eapply wpm_mono; [apply refreshControlStore_spec| |done].
  intros [e|] m1 t1 [Ht1 Hm1]; simpl; wpm_steps; rewrite ?app_nil_r; (split; [quiet_tac|]); try done.
  - by destruct Hm1 as [->|(? & ? & ? & ->)].
  - intros _. by eexists.
Qed.

Lemma acquireLeaderLock_spec id m :
  wpm (acquireLeaderLock id) m
    (fun r m' t => Forall (fun x => ~ acts x) t /\
       match r with
       | Some _ => m' = m
       | None => lock_held m id t /\ (m' = m \/ exists g, m' = set_guard (Some g) m)
       end) (fun _ _ => False).
Proof.
  unfold acquireLeaderLock. apply wpm_bind, wpm_get; simpl. case_match eqn:E; zify_bools.
  - apply wpm_bind. refine (@wpm_call CtlSig EtcdController (CAcquire id) m _ _ _).
    intros [[g|]|e]; simpl; wpm_steps; (split; [quiet_tac|]); try done.
    split; [right; eauto|eauto].
  - apply wpm_ret. split; [constructor|]. split; [|by left]. left. split; [done|].
    apply andb_false_iff in E as [?|E]; [by left|right]. zify_bools.
    by destruct (m_leaderLockGuard m).
Qed.

(** The peers of a cycle, and the one with the lowest id. *)
Lemma sorted_lowest infos me :
  cp_Id <$> head (stable_sort id_le (newPeer <$> infos)) = Some me ->
  me ∈ Peer_Id <$> infos /\ Forall (fun i => str_le me (Peer_Id i)) infos.
Proof.
  pose proof (stable_sort_perm id_le (newPeer <$> infos)) as Hperm.
  assert (Total id_le) by (intros a b; apply (total str_le)).
  assert (PreOrder id_le).
  { split; [intros a; exact (reflexivity (R := str_le) _)
           |intros a b c Hab Hbc; exact (str_le_trans _ _ _ Hab Hbc)]. }
  pose proof (stable_sort_sorted id_le (newPeer <$> infos)) as Hs.
  destruct (stable_sort id_le (newPeer <$> infos)) as [|x rest]; [done|]. intros [= <-].
  assert (forall i, i ∈ infos -> newPeer i ∈ x :: rest) as Hin.
  { intros i Hi. rewrite Hperm. apply list_elem_of_fmap. eauto. }
  split.
  - assert (x ∈ newPeer <$> infos) as (i & -> & Hi)%list_elem_of_fmap by (rewrite <- Hperm; by left).
    apply list_elem_of_fmap. by exists i.
  - apply Forall_forall. intros i Hi. apply (sorted_head_le id_le x rest (newPeer i) Hs).
    by apply Hin.
Qed.

Lemma runAssert_spec l infos m :
  m_leadership m = Some l -> ctl_wf m ->
  let peers := stable_sort id_le (newPeer <$> infos) in
  let post t := Forall (fun x => ~ acts x) t \/
    exists t', t = existT (CAssertLeadership (ls_token l) : op CtlSig) None :: t' /\
      Forall (fun i => Peer_Id i ∈ ls_ackedPeers l) infos /\
      Forall (carries (headerOf l (m_clusterName m)) (Peer_Id <$> infos)) t' in
  wpm (runAssert cfg ret zoneOf waitFuel peers l) m
    (fun _ m' t => ctl_wf m' /\ post t) (fun c t => post t /\ ctl_crash c).
Proof.
  intros Hl Hwf peers post. unfold runAssert. apply wpm_bind.
  refine (@wpm_call CtlSig EtcdController (CAssertLeadership _) m _ _ _). intros [e|]; simpl.
  { apply wpm_ret. split; [done|]. left. quiet_tac. }
  destruct (forallb _ peers) eqn:Hall; simpl.
  - assert (Forall (fun i => Peer_Id i ∈ ls_ackedPeers l) infos) as Hack.
    { apply Forall_forall. intros i Hi. rewrite forallb_forall in Hall.
      apply (bool_decide_eq_true_1 (cp_Id (newPeer i) ∈ ls_ackedPeers l)), Hall.
      apply list_elem_of_In. subst peers. rewrite stable_sort_perm. apply list_elem_of_fmap. eauto. }
    assert (leads l (m_clusterName m) ∅ m) as Hlead.
    { split; [done|]. split; [done|]. destruct Hwf as [ps Hps]; [by eexists|].
      exists ps. split; [done|set_solver]. }
    assert (Forall (fun p => cp_Id p ∈ Peer_Id <$> infos) peers) as Hp.
    { apply Forall_forall. subst peers. intros p. rewrite stable_sort_perm.
      intros (i & -> & Hi)%list_elem_of_fmap. apply list_elem_of_fmap. by exists i. }
    eapply wpm_mono; [apply (runLeader_spec l (m_clusterName m) _ peers _ Hp m Hlead)| |]; simpl.
    + intros v m' t (Hm' & Ht & _). split; [|right; eauto].
      intros _. destruct Hm' as (_ & _ & ps & Hps & _). by eexists.
    + intros c t [Ht Hc]. split; [right; eauto|done].
  - apply wpm_bind, wpm_modify, wpm_ret. split; [by intros [? ?]|]. left. quiet_tac.
Qed.

Lemma run_spec m :
  ctl_wf m ->
  wpm (run cfg ret zoneOf waitFuel) m (fun _ m' t => ctl_wf m' /\ cycle_post m t)
    (fun c t => cycle_post m t /\ ctl_crash c).
Proof.
  intros Hwf. unfold run. apply wpm_bind.
  refine (@wpm_call CtlSig EtcdController CPeers m _ _ _). intros infos; simpl.
  apply wpm_bind, wpm_get; simpl. set (peers := stable_sort id_le (newPeer <$> infos)).
  destruct (find_last _ peers) as [me|] eqn:Hme; [|apply wpm_ret; split; [done|left; quiet_tac]].
  apply find_last_Some in Hme as [_ Hme]. zify_bools.
  case_bool_decide as Hhd; simpl.
  2:{ apply wpm_bind. eapply wpm_mono; [apply releaseLeaderLock_spec| |done].
      intros e m' t [Ht Hm']. apply wpm_ret. split; [by destruct Hm' as [->| ->]|].
      left. rewrite app_nil_r. quiet_tac. }
  apply sorted_lowest in Hhd as [Hin Hlow]. rewrite Hme in *.
  apply wpm_bind. eapply wpm_mono; [apply acquireLeaderLock_spec| |done].
  intros [v|] m1 t1 [Ht1 Hm1]; simpl.
  { apply wpm_ret. rewrite app_nil_r. subst m1. split; [done|left; quiet_tac]. }
  destruct Hm1 as [Hlock Hm1].
  assert (ctl_wf m1 /\ m_leadership m1 = m_leadership m /\ m_clusterName m1 = m_clusterName m)
    as (Hwf1 & Hl1 & Hn1) by (destruct Hm1 as [->|[g ->]]; done).
  apply wpm_bind, wpm_get; simpl. destruct (m_leadership m1) as [l|] eqn:Hl.
  - eapply wpm_mono; [apply (runAssert_spec l infos m1 Hl Hwf1)| |]; simpl.
    + intros v m2 t2 [Hwf2 [Ht2|(t' & -> & Hack & Ht')]]; (split; [done|]).
      * left. quiet_tac.
      * right. exists l, infos, t1, t'. rewrite Hn1 in Ht'. do 3 (split; [done|]).
        split; [|done]. apply Forall_and. done.
    + intros c t2 [[Ht2|(t' & -> & Hack & Ht')] Hc]; (split; [|done]).
      * left. quiet_tac.
      * right. exists l, infos, t1, t'. rewrite Hn1 in Ht'. do 3 (split; [done|]).
        split; [|done]. apply Forall_and. done.
  - eapply wpm_mono; [apply (runBecomeLeader_spec m1 Hwf1)| |done].
    intros v m2 t2 [Ht2 Hwf2]. split; [done|]. left. quiet_tac.
Qed.
End Cycle.

(** ** Theorems *)

(** C1: one writer.  If a cycle changes anything (a node, the membership of
    etcd, a store), in any environment and however the cycle ends, then the
    controller was already leader when the cycle began, has the lowest id of
    all the peers it sees, holds the leader lock when it was configured with
    one, and has asserted its leadership successfully in this cycle, before any
    of the changes and after every peer it sees had acknowledged it; every
    JoinCluster, Reconfigure, StopEtcd, DoBackup and DoRestore request carries
    its token and the name of its cluster; and the requests whose messages have
    no header, GetInfo and UpdateEndpoints, go only to those peers. *)
Theorem only_the_leader_acts cfg ret zoneOf waitFuel m t o
  (Hwf : ctl_wf m)
  (Hrun : runs (run cfg ret zoneOf waitFuel m) t o)
  (Hact : exists x, x ∈ t /\ acts x) : entitled m t.
Proof.
  pose proof (wp_runs _ _ _ _ Hrun (run_spec cfg ret zoneOf waitFuel m Hwf)) as H.
  assert (cycle_post m t) as [Hq|He]; [by destruct o as [[v m']|c]; destruct H| |done].
  destruct Hact as (x & Hx & Ha). rewrite Forall_forall in Hq. by destruct (Hq x Hx).
Qed.

(** C12: the cycle does not panic on its own state.  From a controller that was
    just created, every number of cycles, in every environment, either ends
    normally with its invariant (a leader has a table of health times), or
    crashes only for want of entropy, because a peer reported no node
    configuration, or at the bound on the wait for a restore command: never on
    a nil leadership or health table, a member without id, the fatal quorum
    check, or a missing peer of a member. *)
Theorem cycles_keep_invariant cfg ret zoneOf waitFuel lock store bi ci name dns me tls m n t o
  (Hnew : NewEtcdController lock store bi ci name dns me tls = Ok m)
  (Hrun : runs (Run cfg ret zoneOf waitFuel n m) t o) :
  match o with
  | Done (_, m') => ctl_wf m'
  | Crashed c => ctl_crash c
  end.
Proof.
  assert (ctl_wf m) as Hwf.
  { unfold NewEtcdController in Hnew. case_match; simplify_eq. by intros [? ?]. }
  enough (wpm (Run cfg ret zoneOf waitFuel n) m (fun _ m' _ => ctl_wf m') (fun c _ => ctl_crash c)) as H.
  { pose proof (wp_runs _ _ _ _ Hrun H) as H'. by destruct o as [[v m']|c]. }
  unfold Run. apply wpm_bind.
  pose proof (wpm_for_fold (fun _ (_ : unit) m' _ => ctl_wf m') (fun c _ => ctl_crash c) (seq 0 n)
    (fun _ _ => runIteration cfg ret zoneOf waitFuel) [] tt m [] Hwf) as Hloop.
  eapply wpm_mono; [apply Hloop| |done].
  - intros _ _ _ m1 _ Hm1 _. unfold runIteration. apply wpm_bind.
    eapply wpm_mono; [by apply run_spec| |by intros c ? [_ ?]].
    intros [[] e] m2 t2 [Hm2 _]; by wpm_steps.
  - intros [] m1 t1 Hm1. apply wpm_bind.
    eapply wpm_mono; [apply releaseLeaderLock_spec| |done].
    intros e m2 t2 [_ Hm2]. apply wpm_ret. by destruct Hm2 as [->| ->].
Qed.

Module SafetyDemo.
Definition m : EtcdController := fst ControllerDemo.leader.
Definition w : ControllerDemo.world := snd ControllerDemo.leader.
Definition t : ctrace := trace_of ControllerDemo.env (ControllerDemo.cycle m) w.
Definition three : CC unit :=
  Run defaultBinConfig defaultRetention (fun i _ _ => Pos.of_nat i) 3 3.
Definition o : outcome (unit * EtcdController) :=
  outcome_of ControllerDemo.env (three ControllerDemo.new_controller) (snd ControllerDemo.start).
End SafetyDemo.

Lemma only_the_leader_acts_witness :
  has KJoin SafetyDemo.t = true /\ entitled SafetyDemo.m SafetyDemo.t.
Proof.
  split; [vm_compute; reflexivity|].
  refine (only_the_leader_acts defaultBinConfig defaultRetention (fun i _ _ => Pos.of_nat i) 3
    SafetyDemo.m SafetyDemo.t _ _ (exec_runs ControllerDemo.env _ SafetyDemo.w) _).
  - intros _. vm_compute. by eexists.
  - destruct (has_true KJoin SafetyDemo.t) as (x & Hx & E); [vm_compute; reflexivity|].
    exists x. split; [exact Hx|]. unfold acts. by destruct (asked x).
Defined.

Lemma cycles_keep_invariant_witness :
  match SafetyDemo.o with
  | Done (_, m') => ctl_wf m' /\ is_Some (m_leadership m')
  | Crashed _ => False
  end.
Proof.
  pose proof (cycles_keep_invariant defaultBinConfig defaultRetention (fun i _ _ => Pos.of_nat i) 3
    true "mem://store" Hour Minute "main" "internal" "a" false ControllerDemo.new_controller 3 _ _
    eq_refl (exec_runs ControllerDemo.env _ (snd ControllerDemo.start))) as H.
  change (match SafetyDemo.o with Done (_, m') => ctl_wf m' | Crashed c => ctl_crash c end) in H.
  destruct SafetyDemo.o as [[[] m']|c] eqn:E; [split; [exact H|]|]; vm_compute in E.
  - injection E as <-. by eexists.
  - discriminate E.
Defined.
