(* ===== verification/ControllerGuards.v ===== *)
(** * In which order the controller acts

    Theorems about the order of the exchanges of a cycle: etcd's membership
    changes only after a backup, an upgrade in place touches one node and only
    after a backup, and a cluster is stopped for an upgrade only when its
    restoration is assured. *)

From stdpp Require Import base gmap sets list strings.
From S2P Require Import Prelude Effects ProtoEtcd GoLib EtcdVersions Binaries BackupCleanup ClusterState ControllerOps Controller ControllerDemo ControllerFootprint.

Local Open Scope Z_scope.

(** ** Backups *)

(** A backup for [spec] succeeded on a peer that has a healthy member. *)
Definition backed_up (cs : etcdClusterState) (spec : ClusterSpec) (resp : DoBackupResponse)
    (t : ctrace) : Prop :=
  exists mid mb p rq,
    cs_healthyMembers cs !! mid = Some mb /\ cs_peers cs !! Member_Name mb = Some p /\
    DoBackup_Info rq = Some (mkBackupInfo "" 0 (Some spec)) /\
    existT (CDoBackup (cp_Id (pe_peer p)) rq : op CtlSig) (Ok resp) ∈ t.

Lemma backed_up_app cs spec resp t t' : backed_up cs spec resp t -> backed_up cs spec resp (t ++ t').
Proof. intros (? & ? & ? & ? & ? & ? & ? & ?). do 4 eexists. do 3 (split; [done|]). set_solver. Qed.
Lemma backed_up_app_r cs spec resp t t' :
  backed_up cs spec resp t -> backed_up cs spec resp (t' ++ t).
Proof. intros (? & ? & ? & ? & ? & ? & ? & ?). do 4 eexists. do 3 (split; [done|]). set_solver. Qed.

Definition only (ks : list kind) (k : kind) : bool :=
  existsb (fun k' => match k, k' with
    | KEndpoints, KEndpoints | KJoin, KJoin | KReconfigure, KReconfigure | KStop, KStop
    | KBackup, KBackup | KRestore, KRestore | KMemberAdd, KMemberAdd | KMemberUpdate, KMemberUpdate
    | KMemberRemove, KMemberRemove | KSetSpec, KSetSpec | KMarkCreated, KMarkCreated
    | KAddCommand, KAddCommand | KRemoveCommand, KRemoveCommand
    | KRemoveBackup, KRemoveBackup => true
    | _, _ => false end) ks.

Lemma find_In_fst {A} (f : string * A -> bool) l e :
  List.find f l = Some e -> e ∈ l /\ f e = true.
Proof. intros H. apply find_some in H as [H1 H2]. by rewrite list_elem_of_In. Qed.

Lemma FindPeer_spec {S} cs mb (s : S) :
  wpm (FindPeer cs mb) s
    (fun r s' t => s' = s /\ Forall (within (only [])) t /\
       forall p, r = Some p -> cs_peers cs !! Member_Name mb = Some p) (fun _ _ => False).
Proof.
  unfold FindPeer. apply wpm_bind, wpm_range. intros l r Hl. apply wpm_ret. simpl.
  split; [done|]. split; [by repeat constructor|]. intros p Hp.
  destruct (List.find _ l) as [[id p']|] eqn:E; [|done]. injection Hp as <-.
  apply find_In_fst in E as [Hin Heq]. simpl in Heq. apply String.eqb_eq in Heq as ->.
  rewrite Hl in Hin. by apply elem_of_map_to_list in Hin.
Qed.

Lemma withClient_spec {S T} p (fail : error -> T) (request : CM S T) s Q C :
  (forall e r, Q (fail e) s [existT (CGetPeerClient (cp_Id p) : op CtlSig) r]) ->
  wpm request s (fun a s' t => Q a s' (existT (CGetPeerClient (cp_Id p) : op CtlSig) None :: t))
    (fun c t => C c (existT (CGetPeerClient (cp_Id p) : op CtlSig) None :: t)) ->
  wpm (withClient p fail request) s Q C.
Proof.
  intros Hf Hr. unfold withClient. apply wpm_bind.
  refine (@wpm_call CtlSig S (CGetPeerClient _) s _ _ _). intros [e|]; simpl; [|done].
  by apply wpm_ret.
Qed.

(** A request to a node and the answer, or a failure to connect. *)
Lemma rpcDoBackup_spec {S} p rq (s : S) :
  wpm (rpcDoBackup p rq) s
    (fun r s' t => s' = s /\ Forall (within (only [KBackup])) t /\
       forall resp, r = Ok resp -> existT (CDoBackup (cp_Id p) rq : op CtlSig) (Ok resp) ∈ t)
    (fun _ _ => False).
Proof.
  apply withClient_spec.
  - intros. split; [done|]. split; [by repeat constructor|done].
  - refine (@wpm_call CtlSig S (CDoBackup _ rq) s _ _ _). intros r. split; [done|].
    split; [constructor; [by left|]; constructor; [by right|constructor]|].
    intros resp ->. right. by left.
Qed.

Lemma doClusterBackup_spec spec cs m :
  wpm (doClusterBackup spec cs) m
    (fun r m' t => m' = m /\ Forall (within (only [KBackup])) t /\
       forall resp, r = Ok resp -> backed_up cs spec resp t)
    (fun _ t => Forall (within (only [KBackup])) t /\ m_leadership m = None).
Proof.
  unfold doClusterBackup. apply wpm_bind, wpm_range. intros l r Hl. apply wpm_bind.
  pose proof (wpm_for_each (fun _ (_ : unit) m' t => m' = m /\ Forall (within (only [KBackup])) t)
    (fun resp m' t => m' = m /\ Forall (within (only [KBackup])) t /\ backed_up cs spec resp t)
    (fun _ t => Forall (within (only [KBackup])) t /\ m_leadership m = None) l) as H.
  eapply wpm_mono; [apply (H _ [] tt m [existT (CRange : op CtlSig) r])| |]; clear H.
  - split; [done|]. by repeat constructor.
  - intros seen [mid mb] [] m1 t [-> Ht] Hin. simpl. apply wpm_bind.
    eapply wpm_mono; [apply FindPeer_spec| |done]. intros [p|] m1 t1 (-> & Ht1 & Hp); simpl.
    2:{ apply wpm_ret. rewrite app_nil_r. split; [done|]. apply Forall_app. split; [done|].
        eapply Forall_impl; [exact Ht1|]. intros x [?|?]; [by left|done]. }
    specialize (Hp p eq_refl). unfold buildHeader.
    assert (Forall (within (only [KBackup])) t1) as Ht1'.
    { eapply Forall_impl; [exact Ht1|]. intros x [?|?]; [by left|done]. }
    apply wpm_bind, wpm_bind, wpm_get; simpl.
    destruct (m_leadership m) as [ld|] eqn:Hld; simpl;
      [|apply wpm_bind, wpm_die; rewrite ?app_nil_r; split; [by apply Forall_app|done]].
    apply wpm_bind, wpm_ret, wpm_ret; simpl. apply wpm_bind, wpm_get; simpl. apply wpm_bind.
    eapply wpm_mono; [apply rpcDoBackup_spec| |done].
    intros [resp|e] m2 t2 (-> & Ht2 & Hresp); simpl; apply wpm_ret; rewrite ?app_nil_r.
    + split; [done|]. split; [by rewrite !Forall_app|].
      apply backed_up_app_r. eexists mid, mb, p, _. split_and!.
      4:{ apply elem_of_app. right. by apply Hresp. }
      * apply elem_of_map_to_list. by rewrite <- Hl.
      * done.
      * done.
    + split; [done|]. by rewrite !Forall_app.
  - intros [[]|resp] m' t Hr; simpl; apply wpm_ret; rewrite app_nil_r.
    + destruct Hr as [-> Ht]. split; [done|]. split; [done|done].
    + destruct Hr as (-> & Ht & Hb). split; [done|]. split; [done|]. by intros ? [= <-].
  - intros c t [Ht Hl']. done.
Qed.

(** ** Membership *)

(** etcd is asked to add or remove a member. *)
Definition member_change (x : exchange CtlSig) : Prop :=
  kindOf (asked x) = KMemberAdd \/ kindOf (asked x) = KMemberRemove.

Definition backup_done (t : ctrace) : Prop :=
  exists id rq resp, existT (CDoBackup id rq : op CtlSig) (Ok resp) ∈ t.

Lemma backup_done_app t t' : backup_done t -> backup_done (t ++ t').
Proof. intros (id & rq & resp & H). exists id, rq, resp. set_solver. Qed.
Lemma backup_done_app_r t t' : backup_done t' -> backup_done (t ++ t').
Proof. intros (id & rq & resp & H). exists id, rq, resp. set_solver. Qed.

(** Everything but the two membership calls. *)
Definition noMembership (k : kind) : bool :=
  match k with KMemberAdd | KMemberRemove => false | _ => true end.

Lemma emits_no_change {A} (m : CC A) :
  emits (within noMembership) m -> emits (fun x => ~ member_change x) m.
Proof.
  intros H. eapply emits_mono; [exact H|]. intros x [E|E] [F|F]; rewrite F in E; done.
Qed.

Abbreviation guarded_change m := (gd member_change backup_done m).

Ltac no_change := apply emits_no_change; footprint.

Lemma etcdAddMember_nobody cs node :
  cs_members cs = ∅ -> emits (S := EtcdController) (within noMembership) (etcdAddMember cs node).
Proof.
  intros He. unfold etcdAddMember. apply emits_bind; [|intros []; footprint].
  intros s. unfold onAnyMember. apply wpm_bind, wpm_range. intros l r Hl.
  rewrite He, map_to_list_empty in Hl. apply Permutation_nil_r in Hl as ->. simpl.
  apply wpm_bind, wpm_ret, wpm_ret. by repeat constructor.
Qed.

Lemma joinPeer_nobody cs p :
  cs_members cs = ∅ -> emits (within noMembership) (joinPeer cs p).
Proof.
  intros He. unfold joinPeer. pose proof (etcdAddMember_nobody cs).
  footprint.
Qed.

Lemma backup_guards spec cs m :
  wpm (doClusterBackup spec cs) m
    (fun r _ t => Forall (fun x => ~ member_change x) t /\ (is_ok r = true -> backup_done t))
    (fun _ t => Forall (fun x => ~ member_change x) t).
Proof.
  assert (forall t, Forall (within (only [KBackup])) t -> Forall (fun x => ~ member_change x) t) as Hw.
  { intros t. apply within_not. intros x [->| ->]; done. }
  eapply wpm_mono; [apply doClusterBackup_spec| |].
  - intros r m' t (_ & Ht & Hr). split; [auto|]. destruct r as [resp|]; [|done]. intros _.
    destruct (Hr resp eq_refl) as (? & ? & ? & ? & _ & _ & _ & ?). do 3 eexists. done.
  - intros c t [Ht _]. auto.
Qed.

Lemma gd_addNodeToCluster spec cs : guarded_change (addNodeToCluster spec cs).
Proof.
  unfold addNodeToCluster. destruct (_ <? _); [apply gd_emits; no_change|].
  apply gd_bind; [exact backup_done_app_r|no_change|]. intros [|p0 idle]; [apply gd_emits; no_change|].
  destruct (len (cs_members cs) =? 0) eqn:E; simpl.
  - assert (cs_members cs = ∅) as He by (zify_bools; unfold len in E; apply map_size_empty_inv; lia).
    pose proof (fun p => joinPeer_nobody cs p He) as Hjoin.
    apply gd_emits, emits_no_change. footprint.
  - apply (gd_bind_met _ _ backup_done_app_r (fun b => b = true)); [apply backup_done_app| |].
    + intros s. apply wpm_bind. eapply wpm_mono; [apply backup_guards| |done].
      intros r s' t [Ht Hr]. apply wpm_ret. by rewrite app_nil_r.
    + intros []; [by left|right]. simpl. apply gd_emits; no_change.
Qed.

Lemma gd_removeNodeFromCluster spec cs rh : guarded_change (removeNodeFromCluster spec cs rh).
Proof.
  unfold removeNodeFromCluster.
  apply gd_bind; [exact backup_done_app_r|no_change|]. intros t.
  apply gd_bind; [exact backup_done_app_r|no_change|]. intros v.
  destruct (_ && _); [apply gd_emits; no_change|].
  apply gd_bind; [exact backup_done_app_r|no_change|]. intros [victim|]; [|apply gd_emits; no_change].
  apply (gd_bind_met _ _ backup_done_app_r (fun r => is_ok r = true));
    [apply backup_done_app|apply backup_guards|].
  intros [resp|e]; [by left|right]. apply gd_emits; no_change.
Qed.

(** The cycle, piece by piece. *)
Ltac guard_step :=
  first
    [ apply gd_addNodeToCluster | apply gd_removeNodeFromCluster
    | apply gd_bind; [exact backup_done_app_r|no_change; fail|intros]
    | match goal with |- gd _ _ (match ?x with _ => _ end) => destruct x end
    | apply gd_emits; no_change; fail ].

Section Cycle.
Context (cfg : BinConfig) (ret : Retention) (zoneOf : nat -> time -> Z -> positive).
Context (waitFuel : nat).

Lemma gd_runUnhealthy spec cs acked : guarded_change (runUnhealthy waitFuel spec cs acked).
Proof.
  assert (guarded_change (runStable waitFuel spec cs acked)) as Hstable.
  { apply gd_emits, emits_no_change. unfold runStable. footprint. }
  unfold runUnhealthy. repeat first [exact Hstable | guard_step].
Qed.

Lemma gd_runCluster spec cs acked :
  guarded_change (runCluster cfg ret zoneOf waitFuel spec cs acked).
Proof.
  assert (guarded_change (runSize waitFuel spec cs acked)) as Hsize.
  { unfold runSize, InvalidateControlStore.
    repeat first [apply gd_runUnhealthy | guard_step]. }
  unfold runCluster. repeat first [exact Hsize | guard_step].
Qed.

Lemma gd_runControl cs acked : guarded_change (runControl cfg ret zoneOf waitFuel cs acked).
Proof.
  assert (guarded_change (runSpec cfg ret zoneOf waitFuel cs acked)) as Hspec.
  { unfold runSpec. repeat first [apply gd_runCluster | guard_step]. }
  unfold runControl. repeat first [exact Hspec | guard_step].
Qed.

Lemma gd_run : guarded_change (run cfg ret zoneOf waitFuel).
Proof.
  unfold run, acquireLeaderLock, runBecomeLeader, runAssert, runLeader.
  repeat first [apply gd_runControl | guard_step].
Qed.
End Cycle.

(** ** Theorems *)

(** C2: etcd's membership changes only after a backup.  In every cycle, in every
    environment and however the cycle ends, each call that adds a member to
    etcd or removes one comes after a backup that a node reported as done in
    this cycle. *)
Theorem membership_after_backup cfg ret zoneOf waitFuel m t o
  (Hrun : runs (run cfg ret zoneOf waitFuel m) t o) :
  guarded member_change backup_done t.
Proof.
  pose proof (wp_runs _ _ _ _ Hrun (gd_run cfg ret zoneOf waitFuel m)) as H.
  by destruct o as [[v m']|c].
Qed.

Module GuardDemo.
(** The stable cluster, when a fourth node is there and wanted. *)
Definition m : EtcdController :=
  let m := fst ControllerDemo.stable in
  set_leadership (Some (mkLeadershipState "leader" (list_to_set ["a"; "b"; "c"; "d"])))
    (m_peerState m) m.
Definition w : ControllerDemo.world :=
  ControllerDemo.later Hour (ControllerDemo.with_idle "d"
    (ControllerDemo.wanting (mkClusterSpec 4 "3.4.13") (snd ControllerDemo.stable))).
Definition t : ctrace := trace_of ControllerDemo.env (ControllerDemo.cycle m) w.
End GuardDemo.

Lemma membership_after_backup_witness :
  has KMemberAdd GuardDemo.t = true /\ guarded member_change backup_done GuardDemo.t.
Proof.
  split; [vm_compute; reflexivity|].
  exact (membership_after_backup _ _ _ _ _ _ _ (exec_runs ControllerDemo.env (ControllerDemo.cycle GuardDemo.m) GuardDemo.w)).
Defined.
