(* ===== verification/ClusterCreation.v ===== *)
(** * Creating a cluster

    [createNewCluster] as a two-phase commit: which peers it proposes, what it
    sends them and in which order, and what its success means. *)

From stdpp Require Import base gmap sets list strings.
From S2P Require Import Prelude Effects ProtoEtcd GoLib Binaries BackupCleanup ClusterState ControllerOps Controller ControllerDemo ControllerFootprint ControllerInv ControllerGuards.

Local Open Scope Z_scope.

(** ** Requests *)

(** A query, or one of the requests of [R]. *)
Definition sends (R : ctl_op -> Prop) (x : exchange CtlSig) : Prop :=
  kindOf (asked x) = KQuiet \/ R (asked x).

Lemma sends_mono (R R' : ctl_op -> Prop) t :
  (forall e, R e -> R' e) -> Forall (sends R) t -> Forall (sends R') t.
Proof. intros H Ht. eapply Forall_impl; [exact Ht|]. intros x [?|?]; [by left|right; auto]. Qed.

(** A request whose answer is an error or nothing. *)
Ltac rpc_tac e s :=
  apply withClient_spec;
  [ intros; split; [done|]; split; [by repeat constructor; left|done]
  | refine (@wpm_call CtlSig _ e s _ _ _); intros r; split; [done|];
    split; [constructor; [by left|]; constructor; [by right|constructor]|];
    intros ->; right; by left ].

Section Requests.
Context {S : Type}.

Lemma rpcJoinCluster_spec p rq (s : S) :
  wpm (rpcJoinCluster p rq) s
    (fun r s' t => s' = s /\ Forall (sends (fun e => e = CJoinCluster (cp_Id p) rq)) t /\
       (r = None -> existT (CJoinCluster (cp_Id p) rq : op CtlSig) None ∈ t)) (fun _ _ => False).
Proof. rpc_tac (CJoinCluster (cp_Id p) rq : op CtlSig) s. Qed.

Lemma rpcStopEtcd_spec p rq (s : S) :
  wpm (rpcStopEtcd p rq) s
    (fun r s' t => s' = s /\ Forall (sends (fun e => e = CStopEtcd (cp_Id p) rq)) t /\
       (r = None -> existT (CStopEtcd (cp_Id p) rq : op CtlSig) None ∈ t)) (fun _ _ => False).
Proof. rpc_tac (CStopEtcd (cp_Id p) rq : op CtlSig) s. Qed.

Lemma rpcReconfigure_spec p rq (s : S) :
  wpm (rpcReconfigure p rq) s
    (fun r s' t => s' = s /\ Forall (sends (fun e => e = CReconfigure (cp_Id p) rq)) t /\
       (r = None -> existT (CReconfigure (cp_Id p) rq : op CtlSig) None ∈ t)) (fun _ _ => False).
Proof. rpc_tac (CReconfigure (cp_Id p) rq : op CtlSig) s. Qed.
End Requests.

Lemma buildHeader_eq l m (Q : CommonRequestHeader -> EtcdController -> ctrace -> Prop) C :
  m_leadership m = Some l -> Q (headerOf l (m_clusterName m)) m [] -> wpm buildHeader m Q C.
Proof.
  intros Hl HQ. unfold buildHeader. apply wpm_bind, wpm_get; simpl. rewrite Hl.
  by apply wpm_bind, wpm_ret, wpm_ret.
Qed.

(** The join request of one phase. *)
Definition joinRequest (l : leadershipState) (m : EtcdController) (tok v : string)
    (nodes : list EtcdNode) (ph : Phase) : JoinClusterRequest :=
  mkJoinClusterRequest (Some (headerOf l (m_clusterName m))) ph tok nodes v.

Lemma joinAll_spec l ph tok v nodes proposal m :
  m_leadership m = Some l ->
  wpm (joinAll ph tok v nodes proposal) m
    (fun r m' t => m' = m /\
       Forall (sends (fun e => exists p, p ∈ proposal /\
         e = CJoinCluster (cp_Id (pe_peer p)) (joinRequest l m tok v nodes ph))) t /\
       (r = None -> forall p, p ∈ proposal ->
         existT (CJoinCluster (cp_Id (pe_peer p)) (joinRequest l m tok v nodes ph) : op CtlSig) None ∈ t))
    (fun _ _ => False).
Proof.
  intros Hl. unfold joinAll. apply wpm_bind.
  eapply wpm_mono; [apply (wpm_for_all m
    (sends (fun e => exists p, p ∈ proposal /\
         e = CJoinCluster (cp_Id (pe_peer p)) (joinRequest l m tok v nodes ph)))
    (fun p t => existT (CJoinCluster (cp_Id (pe_peer p)) (joinRequest l m tok v nodes ph) : op CtlSig)
                  None ∈ t) (fun _ => True))| |done].
  - set_solver.
  - set_solver.
  - intros p [] Hp. apply wpm_bind. apply (buildHeader_eq l); [done|]. apply wpm_bind.
    eapply wpm_mono; [apply rpcJoinCluster_spec| |done].
    intros [e|] m1 t1 (-> & Ht1 & Hok); apply wpm_ret; rewrite app_nil_r; simpl;
      (split; [done|]); (split; [eapply sends_mono; [|exact Ht1]; naive_solver|]); [done|].
    by apply Hok.
  - intros [[]|e] m1 t1 (-> & Ht1 & Hok); apply wpm_ret; rewrite app_nil_r; (split; [done|]);
      (split; [done|]); done.
Qed.

Lemma stopAll_spec l cs m :
  m_leadership m = Some l ->
  wpm (stopAll cs) m
    (fun r m' t => m' = m /\ Forall (within (only [KStop])) t /\
       (r = None -> forall id p, cs_peers cs !! id = Some p -> is_Some (Info_EtcdState (pe_info p)) ->
          exists rq, existT (CStopEtcd (cp_Id (pe_peer p)) rq : op CtlSig) None ∈ t))
    (fun _ _ => False).
Proof.
  intros Hl. unfold stopAll. apply wpm_bind, wpm_range. intros order r Hord. apply wpm_bind.
  eapply wpm_mono; [apply (wpm_for_all m (within (only [KStop]))
    (fun (e : string * etcdClusterPeerInfo) t => is_Some (Info_EtcdState (pe_info (snd e))) ->
       exists rq, existT (CStopEtcd (cp_Id (pe_peer (snd e))) rq : op CtlSig) None ∈ t)
    (fun _ => True))| |done].
  - intros e t t' H Hs. destruct (H Hs) as [rq ?]. exists rq. set_solver.
  - intros e t t' H Hs. destruct (H Hs) as [rq ?]. exists rq. set_solver.
  - intros [id p] [] Hp. simpl. destruct (Info_EtcdState (pe_info p)) as [st|] eqn:Hst; simpl.
    + apply wpm_bind, (buildHeader_eq l); [done|]. apply wpm_bind.
      eapply wpm_mono; [apply rpcStopEtcd_spec| |done].
      intros [e|] m1 t1 (-> & Ht1 & Hok); apply wpm_ret; rewrite app_nil_r; simpl; (split; [done|]);
        (split; [eapply Forall_impl; [exact Ht1|]; intros x [?|Hx];
                 [by left|right; by rewrite Hx]|]); [done|].
      intros _. eexists. by apply Hok.
    + apply wpm_ret. split; [done|]. split; [constructor|]. by intros [? ?].
  - intros [[]|e] m1 t1 (-> & Ht1 & Hok); apply wpm_ret; rewrite app_nil_r; (split; [done|]);
      (split; [constructor; [by left|done]|]); [|done].
    intros _ id p Hp Hs. destruct (Hok (id, p)) as [rq ?]; [|done|].
    { rewrite Hord. by apply elem_of_map_to_list. }
    exists rq. by right.
Qed.

(** The proposed nodes are the configurations of the proposed peers. *)
Definition confs_of (proposal : list etcdClusterPeerInfo) (confs : list EtcdNode) : Prop :=
  Forall2 (fun p c => Info_NodeConfiguration (pe_info p) = Some c) proposal confs.

Lemma buildProposal_spec proposal m :
  wpm (buildProposal proposal) m
    (fun nm m' t => m' = m /\ t = [] /\ exists confs, confs_of proposal confs /\
       fst nm = proposeNode (m_disableEtcdTLS m) <$> confs)
    (fun _ t => t = []).
Proof.
  unfold buildProposal.
  pose proof (wpm_for_fold (Σ := CtlSig) (fun done (acc : list EtcdNode * list MemberMapInfo) m' t =>
    m' = m /\ t = [] /\ exists confs, confs_of done confs /\
      fst acc = proposeNode (m_disableEtcdTLS m) <$> confs) (fun _ t => t = []) proposal) as H.
  eapply wpm_mono; [apply (H _ [] ([], []) m [])| |done]; [|..].
  - split; [done|]. split; [done|]. exists []. split; [constructor|done].
  - intros seen p acc m1 t (-> & -> & confs & Hc & Hacc) _. apply wpm_bind, wpm_get; simpl.
    apply wpm_bind. destruct (Info_NodeConfiguration (pe_info p)) as [conf|] eqn:Hp; [|by apply wpm_die].
    apply wpm_ret, wpm_ret; simpl. split; [done|]. split; [done|]. exists (confs ++ [conf]). split.
    + apply Forall2_app; [done|]. by repeat constructor.
    + by rewrite fmap_app, Hacc.
  - intros nm m' t H'. exact H'.
Qed.

(** ** The whole operation *)

Section Creation.
Context (l : leadershipState) (m : EtcdController) (cs : etcdClusterState) (spec : ClusterSpec).
Context (Hl : m_leadership m = Some l).

Definition no_join (t : ctrace) : Prop := Forall (fun x : exchange CtlSig => kindOf (asked x) <> KJoin) t.

Definition request (tok : string) (confs : list EtcdNode) (ph : Phase) : JoinClusterRequest :=
  joinRequest l m tok (Spec_EtcdVersion spec) (proposeNode (m_disableEtcdTLS m) <$> confs) ph.

(** Only requests of phase [ph] for this proposal. *)
Definition joins_only (tok : string) (confs : list EtcdNode) (proposal : list etcdClusterPeerInfo)
    (ph : Phase) (t : ctrace) : Prop :=
  Forall (sends (fun e => (exists p, p ∈ proposal /\
    e = CJoinCluster (cp_Id (pe_peer p)) (request tok confs ph)) \/
    e = CSetExpectedClusterSpec spec)) t.

(** Every peer of the proposal accepted the request of phase [ph]. *)
Definition all_accepted (tok : string) (confs : list EtcdNode)
    (proposal : list etcdClusterPeerInfo) (ph : Phase) (t : ctrace) : Prop :=
  forall p, p ∈ proposal ->
    existT (CJoinCluster (cp_Id (pe_peer p)) (request tok confs ph) : op CtlSig) None ∈ t.

(** A two-phase creation of a cluster of [proposal]: [t0] stops what runs,
    [tp] prepares, and [ti] starts the cluster. *)
Record creation (tok : string) (proposal : list etcdClusterPeerInfo) (confs : list EtcdNode)
    (t0 tp ti : ctrace) (created : bool) : Prop := {
  cr_confs : confs_of proposal confs;
  cr_before : no_join t0;
  cr_stopped id p : cs_peers cs !! id = Some p -> is_Some (Info_EtcdState (pe_info p)) ->
    exists rq, existT (CStopEtcd (cp_Id (pe_peer p)) rq : op CtlSig) None ∈ t0;
  cr_prepare : joins_only tok confs proposal PHASE_PREPARE tp;
  cr_initial : joins_only tok confs proposal PHASE_INITIAL_CLUSTER ti;
  cr_prepared : ti <> [] -> all_accepted tok confs proposal PHASE_PREPARE tp;
  cr_created : created = true ->
    ti <> [] /\ all_accepted tok confs proposal PHASE_INITIAL_CLUSTER ti /\
    existT (CSetExpectedClusterSpec spec : op CtlSig) None ∈ ti;
}.

Definition start_post (tok : string) (proposal : list etcdClusterPeerInfo) (created : bool)
    (t : ctrace) : Prop :=
  (created = false /\ no_join t) \/
  exists confs t0 tp ti, t = t0 ++ tp ++ ti /\ creation tok proposal confs t0 tp ti created.

Lemma within_no_join f t : f KJoin = false -> Forall (within f) t -> no_join t.
Proof.
  intros Hf Ht. eapply Forall_impl; [exact Ht|].
  intros x [E|E] Hk; rewrite Hk in E; [done|congruence].
Qed.

Lemma joinAll_creation tok confs proposal ph :
  wpm (joinAll ph tok (Spec_EtcdVersion spec) (proposeNode (m_disableEtcdTLS m) <$> confs) proposal) m
    (fun r m' t => m' = m /\ joins_only tok confs proposal ph t /\
       (r = None -> all_accepted tok confs proposal ph t)) (fun _ _ => False).
Proof.
  eapply wpm_mono; [by apply (joinAll_spec l)| |done]. intros r m' t (-> & Ht & Hok).
  split; [done|]. split; [|done]. eapply sends_mono; [|exact Ht]. naive_solver.
Qed.

Lemma broadcast_no_join mm :
  wpm (broadcastMemberMap cs mm) m (fun _ m' t => m' = m /\ no_join t) (fun _ _ => False).
Proof.
  unfold broadcastMemberMap. apply wpm_bind, wpm_range. intros order r _.
  pose proof (wpm_for_fold (Σ := CtlSig) (fun _ (_ : list error) m' t => m' = m /\ no_join t)
    (fun _ _ => False) order) as H.
  eapply wpm_mono; [apply (H _ [] [] m [existT (CRange : op CtlSig) r])| |done].
  - split; [done|]. by repeat constructor.
  - intros seen [id p] errs m1 t [-> Ht] _. apply wpm_bind. apply withClient_spec.
    + intros e r'. apply wpm_ret. rewrite app_nil_r. split; [done|].
      apply Forall_app. split; [done|by repeat constructor].
    + refine (@wpm_call CtlSig _ (CUpdateEndpoints _ mm) m _ _ _).
      intros [e|]; apply wpm_ret; rewrite app_nil_r; (split; [done|]); apply Forall_app;
        (split; [done|by repeat constructor]).
  - intros errs m' t H'. exact H'.
Qed.

Lemma startCluster_spec tok proposal :
  wpm (startCluster cs spec tok proposal) m
    (fun v m' t => m' = m /\ start_post tok proposal (fst v) t)
    (fun _ t => no_join t).
Proof.
  unfold startCluster. apply wpm_bind. eapply wpm_mono; [apply buildProposal_spec| |].
  2:{ intros c t ->. constructor. }
  intros [nodes members] m1 t1 (-> & -> & confs & Hconfs & Hn). simpl in Hn. subst nodes.
  apply wpm_bind. eapply wpm_mono; [by apply (stopAll_spec l)| |done].
  intros [e|] m1 t1 (-> & Ht1 & Hstop); simpl.
  { apply wpm_ret. split; [done|]. left. split; [done|]. rewrite app_nil_r.
    by apply (within_no_join (only [KStop])). }
  apply (within_no_join (only [KStop])) in Ht1; [|done].
  apply wpm_bind. eapply wpm_mono; [apply broadcast_no_join| |done].
  intros errs m1 t2 [-> Ht2]; simpl.
  assert (no_join (t1 ++ t2)) as H12 by (by apply Forall_app).
  destruct errs as [|e errs].
  2:{ apply wpm_ret. split; [done|]. left. split; [done|]. by rewrite app_nil_r. }
  assert (forall id p, cs_peers cs !! id = Some p -> is_Some (Info_EtcdState (pe_info p)) ->
    exists rq, existT (CStopEtcd (cp_Id (pe_peer p)) rq : op CtlSig) None ∈ t1 ++ t2) as Hst.
  { intros id p Hp Hs. destruct (Hstop eq_refl id p Hp Hs) as [rq Hrq]. exists rq. set_solver. }
  apply wpm_bind. eapply wpm_mono; [apply (joinAll_creation tok confs proposal PHASE_PREPARE)| |done].
  intros [e|] m1 tp (-> & Htp & Hprep); simpl.
  { apply wpm_ret. split; [done|]. right. exists confs, (t1 ++ t2), tp, [].
    split; [by rewrite <- !app_assoc|]. split; try done. constructor. }
  specialize (Hprep eq_refl). apply wpm_bind.
  eapply wpm_mono; [apply (joinAll_creation tok confs proposal PHASE_INITIAL_CLUSTER)| |done].
  intros [e|] m1 ti (-> & Hti & Hinit); simpl.
  { apply wpm_ret. split; [done|]. right. exists confs, (t1 ++ t2), tp, ti.
    split; [by rewrite app_nil_r, <- !app_assoc|]. by split. }
  specialize (Hinit eq_refl). apply wpm_bind. unfold writeClusterSpec.
  refine (@wpm_call CtlSig _ (CSetExpectedClusterSpec spec) m _ _ _). intros r; simpl.
  assert (joins_only tok confs proposal PHASE_INITIAL_CLUSTER
    (ti ++ [existT (CSetExpectedClusterSpec spec : op CtlSig) r])) as Hti'.
  { apply Forall_app. split; [done|]. apply List.Forall_cons; [right; by right|constructor]. }
  destruct r as [e|]; apply wpm_ret; (split; [done|]); right;
    exists confs, (t1 ++ t2), tp; (eexists; split; [by rewrite <- !app_assoc|]); split; try done.
  intros _. split; [by destruct ti|]. split; [intros p Hp; apply elem_of_app; left; auto|].
  apply elem_of_app. right. by left.
Qed.

Lemma creation_prepend tok proposal confs t t0 tp ti created :
  no_join t -> creation tok proposal confs t0 tp ti created ->
  creation tok proposal confs (t ++ t0) tp ti created.
Proof.
  intros Ht []. split; try done; [by apply Forall_app|].
  intros id p Hp Hs. destruct (cr_stopped0 id p Hp Hs) as [rq ?]. exists rq. set_solver.
Qed.

(** What [createNewCluster] does when it sends join requests. *)
Definition create_post (created : bool) (t : ctrace) : Prop :=
  (created = false /\ no_join t) \/
  exists tok order confs t0 tp ti,
    order ≡ₚ map_to_list (cs_peers cs) /\ t = t0 ++ tp ++ ti /\
    enoughPeers (Spec_MemberCount spec) (len (cs_peers cs)) = true /\
    creation tok (propose (Spec_MemberCount spec) order.*2 []) confs t0 tp ti created.

Lemma createNewCluster_spec :
  wpm (createNewCluster cs spec) m
    (fun v m' t => m' = m /\ create_post (fst v) t) (fun _ t => no_join t).
Proof.
  unfold createNewCluster. destruct (enoughPeers _ _) eqn:Henough; simpl.
  2:{ apply wpm_ret. split; [done|]. left. split; [done|constructor]. }
  apply wpm_bind. unfold randomToken. apply wpm_bind.
  refine (@wpm_call CtlSig _ CRandRead m _ _ _). intros [b|e]; simpl;
    [|apply wpm_die; by repeat constructor].
  apply wpm_ret; simpl. apply wpm_bind, wpm_range. intros order r Hord. simpl.
  assert (forall t : ctrace, no_join t -> no_join (existT (CRandRead : op CtlSig) (Ok b) ::
    existT (range_op (Σ := CtlSig)) r :: t)) as Hpre.
  { intros t Ht. constructor; [done|]. by constructor. }
  case_match; [apply wpm_die; by apply Hpre; constructor|].
  eapply wpm_mono; [apply startCluster_spec| |]; simpl; [|auto].
  intros v m' t (-> & [[Hf Hn]|(confs & t0 & tp & ti & -> & Hcr)]); (split; [done|]); [left; auto|].
  right. exists (RawURLEncode b), order, confs.
  eexists ([existT (CRandRead : op CtlSig) (Ok b); existT (range_op (Σ := CtlSig)) r] ++ t0), tp, ti.
  split; [done|]. split; [done|]. split; [done|]. apply creation_prepend; [|done].
  apply Hpre. constructor.
Qed.
End Creation.

(** The size of a proposal. *)
Lemma proposal_quorum cs spec order :
  order ≡ₚ map_to_list (cs_peers cs) -> 0 < Spec_MemberCount spec ->
  enoughPeers (Spec_MemberCount spec) (len (cs_peers cs)) = true ->
  let n := Z.of_nat (length (propose (Spec_MemberCount spec) order.*2 [])) in
  n <= Spec_MemberCount spec /\ quorumSize n = quorumSize (Spec_MemberCount spec).
Proof.
  intros Hord Hd Henough n. subst n.
  assert (length order.*2 = size (cs_peers cs)) as Hlen
    by (rewrite length_fmap, Hord; apply length_map_to_list).
  pose proof (propose_quorum _ (cs_peers cs) order.*2 Hlen Henough) as Hq.
  rewrite propose_spec in Hq |- * by (simpl; lia). simpl in Hq |- *.
  rewrite length_take in Hq |- *.
  assert (Z.of_nat (Nat.min (Z.to_nat (Spec_MemberCount spec) - 0) (length order.*2))
            <= Spec_MemberCount spec) as Hle by lia.
  split; [done|]. apply quorumSize_mono in Hle as Hle'.
  destruct (decide (Z.of_nat (Nat.min (Z.to_nat (Spec_MemberCount spec) - 0) (length order.*2))
    = Spec_MemberCount spec)) as [->|Hne]; [done|]. lia.
Qed.

(** ** Theorems *)

(** C3: creating a cluster is a two-phase commit.  If a creation (by a leader,
    in any environment) sends any join request, then it proposes some of the
    peers of the snapshot, at most as many as wanted and with the same quorum,
    under one fresh token and with one list of nodes (their configurations,
    with the scheme the TLS setting asks for); before the first join request
    every peer that reported an etcd state has accepted to stop; all PREPARE
    requests come before the first INITIAL_CLUSTER request, which is sent only
    if every proposed peer accepted to prepare; and it reports success only if
    every proposed peer accepted to start and the specification was stored. *)
Theorem creation_is_two_phase l m cs spec t o
  (Hl : m_leadership m = Some l)
  (Hrun : runs (createNewCluster cs spec m) t o)
  (Hjoin : ~ no_join t) :
  exists v tok order confs t0 tp ti,
    let proposal := propose (Spec_MemberCount spec) order.*2 [] in
    o = Done (v, m) /\ order ≡ₚ map_to_list (cs_peers cs) /\ t = t0 ++ tp ++ ti /\
    creation l m cs spec tok proposal confs t0 tp ti (fst v) /\
    (0 < Spec_MemberCount spec ->
       Z.of_nat (length proposal) <= Spec_MemberCount spec /\
       quorumSize (Z.of_nat (length proposal)) = quorumSize (Spec_MemberCount spec)).
Proof.
  pose proof (wp_runs _ _ _ _ Hrun (createNewCluster_spec l m cs spec Hl)) as H.
  destruct o as [[v m']|c]; [|done].
  destruct H as [-> [[_ ?]|(tok & order & confs & t0 & tp & ti & Hord & -> & Hen & Hcr)]]; [done|].
  exists v, tok, order, confs, t0, tp, ti. repeat (split; [done|]).
  intros Hd. by apply (proposal_quorum cs).
Qed.

Module CreationDemo.
Definition m : EtcdController := fst ControllerDemo.leader.
Definition w : ControllerDemo.world := snd ControllerDemo.leader.
Definition cs : etcdClusterState := ControllerDemo.snapshot m w.
Definition create := createNewCluster cs ControllerDemo.spec3 m.
Definition t : ctrace := trace_of ControllerDemo.env create w.
End CreationDemo.

Lemma creation_is_two_phase_witness :
  exists tok (order : list (string * etcdClusterPeerInfo)) confs t0 tp ti,
    CreationDemo.t = t0 ++ tp ++ ti /\
    creation ControllerDemo.token CreationDemo.m CreationDemo.cs ControllerDemo.spec3 tok
      (propose 3 order.*2 []) confs t0 tp ti true.
Proof.
  assert (runs CreationDemo.create CreationDemo.t (Done ((true, None), CreationDemo.m))) as Hrun
    by (apply exec_runs_eq; vm_compute; reflexivity).
  destruct (creation_is_two_phase ControllerDemo.token CreationDemo.m CreationDemo.cs
    ControllerDemo.spec3 CreationDemo.t _ ltac:(vm_compute; reflexivity) Hrun
    (has_some KJoin CreationDemo.t ltac:(vm_compute; reflexivity)))
    as (v & tok & order & confs & t0 & tp & ti & Ho & _ & Ht & Hcr & _).
  exists tok, order, confs, t0, tp, ti. split; [exact Ht|].
  injection Ho as <-. exact Hcr.
Defined.
