(* ===== verification/ClusterMembers.v ===== *)
(** * Adding and removing members

    The order in which [addNodeToCluster] involves the new node and etcd, and
    which member [removeNodeFromCluster] picks. *)

From stdpp Require Import base gmap sets list strings.
From S2P Require Import Prelude Effects ProtoEtcd GoLib Binaries BackupCleanup ClusterState ControllerOps Controller ControllerDemo ControllerFootprint ControllerInv ControllerGuards ClusterCreation.

Local Open Scope Z_scope.

(** ** Queries *)

(** A program that only asks and leaves the state alone. *)
Definition quietly {S A} (m : CM S A) : Prop :=
  forall s, wpm m s (fun _ s' t => s' = s /\ Forall (within (only [])) t) (fun _ _ => False).

Lemma quiet_within f t : Forall (within (only [])) t -> Forall (within f) t.
Proof. intros Ht. eapply Forall_impl; [exact Ht|]. intros x [?|?]; [by left|done]. Qed.

Lemma quiet_sends R t : Forall (within (only [])) t -> Forall (sends R) t.
Proof. intros Ht. eapply Forall_impl; [exact Ht|]. intros x [?|?]; [by left|done]. Qed.

Lemma quietly_bind {S A B} (m : CM S A) (f : A -> CM S B) :
  quietly m -> (forall a, quietly (f a)) -> quietly (m ≫= f).
Proof.
  intros Hm Hf s. apply wpm_bind. eapply wpm_mono; [apply Hm| |done].
  intros a s' t [-> Ht]. eapply wpm_mono; [apply Hf| |done].
  intros b s' t' [-> Ht']. split; [done|]. by apply Forall_app.
Qed.
Lemma quietly_ret {S A} (a : A) : quietly (mret a : CM S A).
Proof. intros s. apply wpm_ret. split; [done|constructor]. Qed.
Lemma quietly_call {S} (e : ctl_op) : kindOf e = KQuiet -> quietly (call (e : op CtlSig) : CM S _).
Proof. intros H s. apply wpm_call. intros r. split; [done|]. repeat constructor. done. Qed.
Lemma quietly_range {S V} (m : gmap string V) : quietly (range m : CM S _).
Proof. apply quietly_bind; [by apply quietly_call|]. intros. apply quietly_ret. Qed.

Lemma quietly_NewClient {S} ep : quietly (NewClient ep : CM S _).
Proof.
  unfold NewClient. destruct ep; [apply quietly_ret|].
  apply quietly_bind; [by apply quietly_call|]. intros []; apply quietly_ret.
Qed.
Lemma quietly_LoggedClose {S} ep : quietly (LoggedClose ep : CM S _).
Proof. apply quietly_bind; [by apply quietly_call|]. intros. apply quietly_ret. Qed.
Lemma quietly_newEtcdClient {S} cs mb : quietly (newEtcdClient cs mb : CM S _).
Proof.
  apply quietly_bind; [apply quietly_range|]. intros l.
  apply quietly_bind; [apply quietly_NewClient|]. intros []; apply quietly_ret.
Qed.

(** ** Calls to etcd *)

(** A request to etcd, on some member: it succeeded if the answer says so. *)
Lemma onAnyMember_spec {S} cs (req : list string -> CM S (option error)) (f : kind -> bool)
    (D : ctrace -> Prop) (s : S) :
  (forall t t', D t -> D (t ++ t')) -> (forall t t', D t' -> D (t ++ t')) ->
  (forall c s, wpm (req c) s
     (fun r s' t => s' = s /\ Forall (within f) t /\ (r = None -> D t)) (fun _ _ => False)) ->
  wpm (onAnyMember cs req) s
    (fun r s' t => s' = s /\ Forall (within f) t /\ (is_Some r -> D t)) (fun _ _ => False).
Proof.
  intros HDl HDr Hreq. unfold onAnyMember. apply wpm_bind, wpm_range. intros order r Hord.
  apply wpm_bind.
  pose proof (wpm_for_each (fun _ (_ : unit) s' t => s' = s /\ Forall (within f) t)
    (fun (_ : EtcdProcessMember) s' t => s' = s /\ Forall (within f) t /\ D t)
    (fun _ _ => False) order) as H.
  eapply wpm_mono; [apply (H _ [] tt s [existT (CRange : op CtlSig) r])| |done]; clear H.
  - split; [done|]. repeat constructor.
  - intros seen [id mb] [] s1 t [-> Ht] _. apply wpm_bind.
    eapply wpm_mono; [apply quietly_newEtcdClient| |done]. intros c s1 t1 [-> Ht1].
    apply (quiet_within f) in Ht1. destruct c as [client|e]; simpl.
    2:{ apply wpm_ret. rewrite app_nil_r. split; [done|]. by apply Forall_app. }
    apply wpm_bind. eapply wpm_mono; [apply Hreq| |done]. intros err s1 t2 (-> & Ht2 & Herr).
    apply wpm_bind. eapply wpm_mono; [apply quietly_LoggedClose| |done]. intros _ s1 t3 [-> Ht3].
    apply (quiet_within f) in Ht3.
    destruct err as [e|]; apply wpm_ret; rewrite app_nil_r; (split; [done|]).
    + by rewrite !Forall_app.
    + split; [by rewrite !Forall_app|]. auto.
  - intros [[]|mb] s' t H; simpl; apply wpm_ret; rewrite app_nil_r.
    + destruct H as [-> Ht]. split; [done|]. split; [done|]. by intros [? ?].
    + destruct H as (-> & Ht & HD). done.
Qed.

(** etcd accepted the peer URLs of a new member. *)
Definition member_added (urls : list string) (t : ctrace) : Prop :=
  exists ep, existT (CMemberAdd ep urls : op CtlSig) None ∈ t.

Lemma etcdAddMember_spec {S} cs node (s : S) :
  wpm (etcdAddMember cs node) s
    (fun r s' t => s' = s /\ Forall (within (only [KMemberAdd])) t /\
       (is_ok r = true -> member_added (Node_PeerUrls node) t)) (fun _ _ => False).
Proof.
  unfold etcdAddMember. apply wpm_bind.
  eapply wpm_mono; [apply (onAnyMember_spec cs _ (only [KMemberAdd]) (member_added (Node_PeerUrls node)))
                   | |done].
  - intros t t' [ep ?]. exists ep. set_solver.
  - intros t t' [ep ?]. exists ep. set_solver.
  - intros c s1. unfold AddMember. refine (@wpm_call CtlSig S (CMemberAdd c _) s1 _ _ _). intros r.
    split; [done|]. split; [constructor; [by right|constructor]|]. intros ->. exists c. by left.
  - intros [mb|] s' t (-> & Ht & HD); apply wpm_ret; rewrite app_nil_r; (split; [done|]);
      (split; [done|]); [|done]. intros _. by apply HD.
Qed.

(** ** Adding *)

(** An idle peer of the snapshot. *)
Definition idle_peer (cs : etcdClusterState) (p : etcdClusterPeerInfo) : Prop :=
  (exists pid, cs_peers cs !! pid = Some p) /\ configuredState p = None.

(** The members of etcd followed by the peer itself. *)
Definition lists_members (m : EtcdController) (cs : etcdClusterState) (conf : EtcdNode)
    (nodes : list EtcdNode) : Prop :=
  exists ms, ms ≡ₚ map_to_list (cs_members cs) /\
    nodes = (memberNode <$> ms.*2) ++ [proposeNode (m_disableEtcdTLS m) conf].

(** The peer [id] is ready to join with [rq]: it is idle, [rq] lists the members
    of etcd and then the peer itself, the peer had accepted to prepare for the
    same cluster, and etcd had accepted a member with the URLs of the peer. *)
Definition ready_to_join (m : EtcdController) (cs : etcdClusterState) (id : string)
    (rq : JoinClusterRequest) (t : ctrace) : Prop :=
  (exists p conf, idle_peer cs p /\ cp_Id (pe_peer p) = id /\
     Info_NodeConfiguration (pe_info p) = Some conf /\
     lists_members m cs conf (Join_Nodes rq) /\
     member_added (Node_PeerUrls conf) t) /\
  existT (CJoinCluster id (mkJoinClusterRequest (Join_Header rq) PHASE_PREPARE
            (Join_ClusterToken rq) (Join_Nodes rq) (Join_EtcdVersion rq)) : op CtlSig) None ∈ t.

Lemma ready_grows m cs id rq (t t' : ctrace) :
  (forall x, x ∈ t -> x ∈ t') -> ready_to_join m cs id rq t -> ready_to_join m cs id rq t'.
Proof.
  intros Hsub [(p & conf & ? & ? & ? & ? & ep & ?) ?]. split; [|by apply Hsub].
  exists p, conf. split_and!; try done. exists ep. by apply Hsub.
Qed.
Lemma ready_app m cs id rq t t' : ready_to_join m cs id rq t -> ready_to_join m cs id rq (t ++ t').
Proof. apply ready_grows. set_solver. Qed.
Lemma ready_app_r m cs id rq t t' : ready_to_join m cs id rq t' -> ready_to_join m cs id rq (t ++ t').
Proof. apply ready_grows. set_solver. Qed.

Definition joins_as (id : string) (rq : JoinClusterRequest) (x : exchange CtlSig) : Prop :=
  asked x = CJoinCluster id rq /\ Join_Phase rq = PHASE_JOIN_EXISTING.

Lemma sends_not_existing R id rq t :
  Forall (sends R) t -> (forall e, R e -> e = CJoinCluster id rq ->
    Join_Phase rq <> PHASE_JOIN_EXISTING) ->
  Forall (fun x => ~ joins_as id rq x) t.
Proof.
  intros Ht HR. eapply Forall_impl; [exact Ht|]. intros x [Hk|Hx] [Ha Hp].
  - rewrite Ha in Hk. done.
  - by eapply HR.
Qed.

Section Adding.
Context (l : leadershipState) (m : EtcdController) (cs : etcdClusterState).
Context (Hl : m_leadership m = Some l).

Lemma sendJoin_spec p ph tok v nodes :
  wpm (sendJoin p ph tok v nodes) m
    (fun r m' t => m' = m /\
       Forall (sends (fun e => e = CJoinCluster (cp_Id (pe_peer p)) (joinRequest l m tok v nodes ph))) t /\
       (r = None -> existT (CJoinCluster (cp_Id (pe_peer p)) (joinRequest l m tok v nodes ph) : op CtlSig)
                      None ∈ t)) (fun _ _ => False).
Proof.
  unfold sendJoin. apply wpm_bind, (buildHeader_eq l); [done|]. apply rpcJoinCluster_spec.
Qed.

Lemma joinPeer_guarded p id rq :
  idle_peer cs p ->
  wpm (joinPeer cs p) m
    (fun _ m' t => m' = m /\ guarded (joins_as id rq) (ready_to_join m cs id rq) t)
    (fun _ t => guarded (joins_as id rq) (ready_to_join m cs id rq) t).
Proof.
  intros Hidle.
  assert (forall t, Forall (within (only [KMemberAdd])) t -> Forall (fun x => ~ joins_as id rq x) t)
    as Hq.
  { intros t Ht. eapply within_not; [|exact Ht]. intros x [-> _]. done. }
  unfold joinPeer, clusterIdentity. apply wpm_bind, wpm_bind, wpm_range. intros o1 r1 _.
  apply wpm_ret; simpl. destruct (match find_last _ o1 with Some _ => _ | None => _ end) as [tok v].
  assert (forall e r, Forall (fun x => ~ joins_as id rq x)
    [existT (range_op (Σ := CtlSig)) e; existT (range_op (Σ := CtlSig)) r]) as Hranges.
  { intros e r. repeat constructor; by intros [? ?]. }
  destruct (String.eqb tok "").
  { apply wpm_ret. split; [done|]. apply guarded_Forall. rewrite ?app_nil_r.
    apply (Forall_inv_tail (a := existT (range_op (Σ := CtlSig)) r1)), Hranges. }
  apply wpm_bind, wpm_range. intros ms r2 Hms. simpl. apply wpm_bind, wpm_get; simpl.
  apply wpm_bind. destruct (Info_NodeConfiguration (pe_info p)) as [conf|] eqn:Hconf;
    [apply wpm_ret|apply wpm_die, guarded_Forall, Hranges].
  set (nodes := (memberNode <$> ms.*2) ++ [proposeNode (m_disableEtcdTLS m) conf]).
  simpl. apply wpm_bind. eapply wpm_mono; [apply sendJoin_spec| |done].
  intros e m1 tp (-> & Htp & Hok).
  assert (Forall (fun x => ~ joins_as id rq x) tp) as Htp'.
  { eapply sends_not_existing; [exact Htp|]. intros e' -> [= _ <-]. done. }
  destruct e as [e|]; simpl.
  { apply wpm_ret. split; [done|]. rewrite ?app_nil_r.
    apply guarded_Forall. apply (Forall_app_2 _ [_; _] tp); [apply Hranges|done]. }
  specialize (Hok eq_refl). apply wpm_bind. eapply wpm_mono; [apply etcdAddMember_spec| |done].
  intros r m1 tm (-> & Htm & Hadd). apply Hq in Htm. destruct r as [mb|e]; simpl.
  - specialize (Hadd eq_refl). apply wpm_bind. eapply wpm_mono; [apply sendJoin_spec| |done].
    intros e m1 tj (-> & Htj & _).
    assert (guarded (joins_as id rq) (ready_to_join m cs id rq)
      (([existT (range_op (Σ := CtlSig)) r1; existT (range_op (Σ := CtlSig)) r2] ++ tp ++ tm) ++ tj)) as Hg.
    { apply guarded_app; [apply guarded_Forall; rewrite !Forall_app; auto|].
      intros t1 x t2 Heq [Hx Hph]. apply ready_app, ready_app_r.
      assert (x ∈ tj) as Hin by (rewrite Heq; set_solver).
      rewrite Forall_forall in Htj. destruct (Htj x Hin) as [Hk|Hs]; rewrite Hx in *; [done|].
      injection Hs as -> ->. split; [|apply elem_of_app; by left].
      exists p, conf. split_and!; try done; [by exists ms|]. destruct Hadd as [ep ?]. exists ep. set_solver. }
    simpl in Hg. rewrite <- app_assoc in Hg.
    destruct e; apply wpm_ret; rewrite ?app_nil_r; done.
  - apply wpm_bind. eapply wpm_mono; [apply sendJoin_spec| |done]. intros e' m1 tc (-> & Htc & _).
    apply wpm_ret. split; [done|]. rewrite ?app_nil_r. apply guarded_Forall.
    apply (Forall_app_2 _ [_; _]); [apply Hranges|]. rewrite !Forall_app.
    split_and!; [done|done|]. eapply sends_not_existing; [exact Htc|]. intros e'' -> [= _ <-]. done.
Qed.
End Adding.

(** The idle peers of the snapshot, or a crash on a missing configuration. *)
Lemma idleForJoin_spec cs m :
  wpm (idleForJoin cs) m
    (fun idle m' t => m' = m /\ Forall (within (only [])) t /\ Forall (idle_peer cs) idle)
    (fun _ t => Forall (within (only [])) t).
Proof.
  unfold idleForJoin. apply wpm_bind, wpm_range. intros order r Hord.
  pose proof (wpm_for_fold (Σ := CtlSig) (fun _ (idle : list etcdClusterPeerInfo) m' t =>
    m' = m /\ Forall (within (only [])) t /\ Forall (idle_peer cs) idle) (fun _ t => Forall (within (only [])) t) order) as H.
  eapply wpm_mono; [apply (H _ [] [] m [existT (CRange : op CtlSig) r])| |done]; clear H.
  - split; [done|]. by repeat constructor.
  - intros seen [id p] idle m1 t (-> & Ht & Hidle) Hin. simpl. destruct (configuredState p) eqn:Hp.
    2:{ apply wpm_ret. rewrite app_nil_r. split; [done|]. split; [done|]. apply Forall_app.
        split; [done|]. repeat constructor; [|done]. exists id.
        by apply elem_of_map_to_list; rewrite <- Hord. }
    apply wpm_bind, wpm_range. intros ms r' _. apply wpm_bind.
    assert (Forall (within (only [])) (t ++ [existT (range_op (Σ := CtlSig)) r'])) as Ht'.
    { apply Forall_app. split; [done|]. by repeat constructor. }
    destruct (Info_NodeConfiguration (pe_info p)) as [conf|].
    + eapply wpm_mono with (Q := fun _ m' t => m' = m /\ t = []) (C := fun _ _ => False); [| |done].
      { clear. induction ms as [|x ms IH]; [by apply wpm_ret|]. simpl.
        by apply wpm_bind, wpm_bind, wpm_ret, wpm_ret. }
      intros [] m1 t1 [-> ->]. apply wpm_ret. rewrite !app_nil_r. done.
    + destruct ms as [|x ms]; [by apply wpm_ret, wpm_ret|]. simpl.
      by apply wpm_bind, wpm_bind, wpm_die.
  - intros idle m' t H'. exact H'.
Qed.

Lemma addNodeToCluster_guarded l m cs spec id rq :
  m_leadership m = Some l ->
  wpm (addNodeToCluster spec cs) m
    (fun _ _ t => guarded (joins_as id rq) (ready_to_join m cs id rq) t)
    (fun _ t => guarded (joins_as id rq) (ready_to_join m cs id rq) t).
Proof.
  intros Hl.
  assert (forall f t, f KJoin = false -> Forall (within f) t -> Forall (fun x => ~ joins_as id rq x) t)
    as Hq.
  { intros f t Hf Ht. eapply within_not; [|exact Ht]. by intros x [-> _]. }
  unfold addNodeToCluster. destruct (_ <? _); [apply wpm_ret, guarded_nil|].
  apply wpm_bind. eapply wpm_mono; [apply idleForJoin_spec| |].
  2:{ intros c t Ht. by eapply guarded_Forall, (Hq (only [])). }
  intros idle m1 t1 (-> & Ht1 & Hidle). apply (Hq (only [])) in Ht1; [|done].
  destruct idle as [|p0 idle]; [apply wpm_ret, guarded_Forall; by rewrite app_nil_r|].
  apply wpm_bind. eapply wpm_mono with
    (Q := fun _ m' t => m' = m /\ Forall (fun x => ~ joins_as id rq x) t)
    (C := fun _ t => Forall (fun x => ~ joins_as id rq x) t).
  { destruct (negb _); [|apply wpm_ret; split; [done|constructor]]. apply wpm_bind.
    eapply wpm_mono; [apply doClusterBackup_spec| |].
    - intros r m1 t (-> & Ht & _). apply wpm_ret. rewrite app_nil_r. split; [done|].
      by apply (Hq (only [KBackup])).
    - intros c t [Ht _]. by apply (Hq (only [KBackup])). }
  - intros b m1 t2 [-> Ht2]. destruct b; simpl;
      [|apply wpm_ret, guarded_Forall; rewrite app_nil_r; by apply Forall_app].
    apply wpm_bind. refine (@wpm_call CtlSig _ (CRandIntn _) m _ _ _). intros i.
    assert (Forall (fun x => ~ joins_as id rq x) (t1 ++ t2 ++ [existT (CRandIntn (S (length idle)) : op CtlSig) i]))
      as Hpre.
    { rewrite !Forall_app. split_and!; [done|done|]. repeat constructor. by intros [? ?]. }
    assert (forall t, guarded (joins_as id rq) (ready_to_join m cs id rq) t ->
      guarded (joins_as id rq) (ready_to_join m cs id rq)
        (t1 ++ t2 ++ [existT (CRandIntn (S (length idle)) : op CtlSig) i] ++ t)) as Happ.
    { intros t Ht. rewrite !app_assoc. rewrite !app_assoc in Hpre.
      apply guarded_app; [by apply guarded_Forall|].
      eapply guarded_mono; [exact Ht|]. intros t0. apply ready_app_r. }
    eapply wpm_mono; [apply (joinPeer_guarded l m cs Hl)| |].
    + rewrite List.Forall_forall in Hidle. 
      refine (Hidle _ (nth_In (n := i mod length (p0 :: idle))%nat (p0 :: idle) p0 _)).
      by apply Nat.mod_upper_bound.
    + intros v m1 t3 [_ Ht3]. by apply Happ.
    + intros c t3 Ht3. by apply Happ.
  - intros c t Ht. apply guarded_Forall. by apply Forall_app.
Qed.

(** ** Removing *)

(** The clock showed [tm] during [t]. *)
Definition ctl_clock (tm : time) (t : ctrace) : Prop :=
  (existT (CNow : op CtlSig) tm : exchange CtlSig) ∈ t.

(** [id] was last seen healthy at least the deadline before [tm]. *)
Definition unhealthy_for_long (m : EtcdController) (tm : time) (id : string) : Prop :=
  exists ps last, m_peerState m = Some ps /\ ps !! id = Some last /\
    removeUnhealthyDeadline <= timeSub tm last.

(** The members that may be removed. *)
Definition removable (m : EtcdController) (cs : etcdClusterState) (tm : time) (removeHealthy : bool)
    (id : string) : Prop :=
  (cs_healthyMembers cs !! id = None /\ (removeHealthy = false -> unhealthy_for_long m tm id)) \/
  (removeHealthy = true /\ dom (cs_members cs) ⊆ dom (cs_healthyMembers cs)).

(** The victim, if there is one; the cases in which there is none. *)
Lemma unhealthyVictim_spec cs tm rh m :
  wpm (unhealthyVictim cs tm rh) m
    (fun r m' t => m' = m /\ Forall (within (only [])) t /\
       match r with
       | Some v => exists id, cs_members cs !! id = Some v /\ cs_healthyMembers cs !! id = None /\
                     (rh = false -> unhealthy_for_long m tm id)
       | None => rh = true -> len (cs_members cs) <= len (cs_healthyMembers cs) \/
                   dom (cs_members cs) ⊆ dom (cs_healthyMembers cs)
       end) (fun _ t => Forall (within (only [])) t).
Proof.
  unfold unhealthyVictim. destruct (len _ <? _) eqn:E; zify_bools.
  2:{ apply wpm_ret. split; [done|]. split; [constructor|]. by left. }
  apply wpm_bind, wpm_range. intros order r Hord. apply wpm_bind.
  pose proof (wpm_for_each (Σ := CtlSig)
    (fun seen (_ : unit) m' t => m' = m /\ Forall (within (only [])) t /\
       (rh = true -> forall e, e ∈ seen -> is_Some (cs_healthyMembers cs !! fst e)))
    (fun v m' t => m' = m /\ Forall (within (only [])) t /\
       exists id, cs_members cs !! id = Some v /\ cs_healthyMembers cs !! id = None /\
         (rh = false -> unhealthy_for_long m tm id))
    (fun _ t => Forall (within (only [])) t) order) as H.
  eapply wpm_mono; [apply (H _ [] tt m [existT (CRange : op CtlSig) r])| |done]; clear H.
  - split; [done|]. split; [by repeat constructor|]. intros _ e He. by apply elem_of_nil in He.
  - intros seen [id mb] [] m1 t (-> & Ht & Hseen) Hin. simpl.
    rewrite Hord in Hin. apply elem_of_map_to_list in Hin.
    destruct (cs_healthyMembers cs !! id) eqn:Hh; simpl.
    { apply wpm_ret. rewrite app_nil_r. split; [done|]. split; [done|].
      intros Hrh e' [He|He%list_elem_of_singleton]%elem_of_app; [auto|]. subst e'. simpl. by rewrite Hh. }
    destruct rh; [apply wpm_ret; rewrite app_nil_r; split; [done|]; split; [done|]; by exists id|].
    apply wpm_bind, wpm_get; simpl.
    destruct (m_peerState m) as [ps|] eqn:Hps; simpl; [|apply wpm_die; by rewrite app_nil_r].
    destruct (ps !! id) as [last|] eqn:Hlast; simpl; [|apply wpm_die; by rewrite app_nil_r].
    destruct (timeSub tm last <? removeUnhealthyDeadline) eqn:Hage; zify_bools; apply wpm_ret;
      rewrite app_nil_r; (split; [done|]); (split; [done|]); [done|].
    exists id. split; [done|]. split; [done|]. intros _. by exists ps, last.
  - intros [[]|v] m' t H; simpl; apply wpm_ret; rewrite app_nil_r.
    + destruct H as (-> & Ht & Hall). split; [done|]. split; [done|]. intros Hrh. right.
      intros id (mb & Hmb)%elem_of_dom. apply elem_of_dom. apply (Hall Hrh (id, mb)).
      rewrite Hord. by apply elem_of_map_to_list.
    + exact H.
Qed.

(** etcd was asked to remove [mb], and nothing else. *)
Definition removes_only (mb : EtcdProcessMember) (x : exchange CtlSig) : Prop :=
  forall ep id, asked x = CMemberRemove ep id -> id = Member_idv3 mb.

Lemma quiet_removes mb f t :
  f KMemberRemove = false -> Forall (within f) t -> Forall (removes_only mb) t.
Proof.
  intros Hf Ht. eapply Forall_impl; [exact Ht|]. intros x [E|E] ep id Ha; rewrite Ha in E; [done|].
  simpl in E. congruence.
Qed.

Lemma emits_etcdRemoveMember {S} cs mb : emits (S := S) (removes_only mb) (etcdRemoveMember cs mb).
Proof.
  assert (forall A (m : CM S A), quietly m -> emits (removes_only mb) m) as Hq.
  { intros A m Hm s1. eapply wpm_mono; [apply Hm| |done]. intros a s' t [_ Ht].
    by apply (quiet_removes mb (only [])). }
  unfold etcdRemoveMember, onAnyMember, RemoveMember.
  repeat first [apply Hq, quietly_newEtcdClient | apply Hq, quietly_LoggedClose | emits_step];
    intros ep id Ha; by simplify_eq/=.
Qed.

(** Either nothing is removed, or only the victim. *)
Definition remove_post (m : EtcdController) (cs : etcdClusterState) (removeHealthy : bool)
    (t : ctrace) : Prop :=
  Forall (fun x : exchange CtlSig => kindOf (asked x) <> KMemberRemove) t \/
  exists id mb tm, cs_members cs !! id = Some mb /\ ctl_clock tm t /\
    removable m cs tm removeHealthy id /\ Forall (removes_only mb) t.

Lemma removeNodeFromCluster_spec m cs spec rh :
  dom (cs_healthyMembers cs) ⊆ dom (cs_members cs) ->
  wpm (removeNodeFromCluster spec cs rh) m
    (fun _ _ t => remove_post m cs rh t) (fun _ t => remove_post m cs rh t).
Proof.
  intros Hsub.
  assert (forall f t, f KMemberRemove = false -> Forall (within f) t ->
    Forall (fun x : exchange CtlSig => kindOf (asked x) <> KMemberRemove) t) as Hq.
  { intros f t Hf Ht. eapply Forall_impl; [exact Ht|].
    intros x [E|E] Hk; rewrite Hk in E; [done|congruence]. }
  unfold removeNodeFromCluster, now. apply wpm_bind, wpm_bind.
  refine (@wpm_call CtlSig _ CNow m _ _ _). intros tm. apply wpm_ret; simpl.
  set (x0 := existT (CNow : op CtlSig) tm : exchange CtlSig).
  assert (within (only [KBackup]) x0) as Hx0 by by left.
  apply wpm_bind. eapply wpm_mono; [apply unhealthyVictim_spec| |].
  2:{ intros c t Ht. left. apply (Hq (only [KBackup])); [done|].
      constructor; [done|by apply quiet_within]. }
  intros v m1 t1 (-> & Ht1 & Hv). apply (quiet_within (only [KBackup])) in Ht1.
  destruct (bool_decide (v = None) && negb rh) eqn:Hnone; simpl.
  { apply wpm_ret. left. apply (Hq (only [KBackup])); [done|]. constructor; [done|].
    by rewrite app_nil_r. }
  apply wpm_bind. eapply wpm_mono with (C := fun _ _ => False)
    (Q := fun w m' t => m' = m /\ Forall (within (only [KBackup])) t /\
       forall mb, w = Some mb -> exists id, cs_members cs !! id = Some mb /\ removable m cs tm rh id);
    [| |done].
  { destruct v as [v|].
    - apply wpm_ret. split; [done|]. split; [constructor|]. intros mb [= <-].
      destruct Hv as (id & Hid & Hh & Hlong). exists id. split; [done|]. by left.
    - destruct rh; [|done]. apply wpm_bind, wpm_range. intros order r Hord. apply wpm_ret.
      split; [done|]. split; [constructor; [by left|constructor]|]. intros mb Hmb.
      destruct order as [|[id mb'] order]; [done|]. simplify_eq/=. exists id.
      split; [apply elem_of_map_to_list; rewrite <- Hord; by left|]. right. split; [done|].
      destruct (Hv eq_refl) as [Hle|?]; [|done].
      assert (dom (cs_healthyMembers cs) = dom (cs_members cs)) as ->; [|done].
      apply set_subseteq_size_eq; [done|]. unfold len in Hle. rewrite !size_dom. lia. }
  intros w m1 t2 (-> & Ht2 & Hw). destruct w as [mb|]; simpl.
  2:{ apply wpm_ret. left. apply (Hq (only [KBackup])); [done|]. constructor; [done|].
      rewrite app_nil_r. by apply Forall_app. }
  destruct (Hw mb eq_refl) as (id & Hid & Hrem).
  assert (Forall (within (only [KBackup])) (x0 :: t1 ++ t2)) as Hpre.
  { constructor; [done|]. by apply Forall_app. }
  apply wpm_bind. eapply wpm_mono; [apply doClusterBackup_spec| |].
  - intros b m1 t3 (-> & Ht3 & _).
    assert (Forall (within (only [KBackup])) ((x0 :: t1 ++ t2) ++ t3)) as Hpre'.
    { by apply Forall_app. }
    destruct b as [resp|e]; simpl.
    2:{ apply wpm_ret. left. apply (Hq (only [KBackup])); [done|].
        rewrite app_nil_r. simpl in Hpre'. by rewrite <- app_assoc in Hpre'. }
    assert (forall t4, Forall (removes_only mb) t4 -> remove_post m cs rh (x0 :: t1 ++ t2 ++ t3 ++ t4))
      as Hend.
    { intros t4 Ht4. right. exists id, mb, tm. split; [done|]. split; [by left|]. split; [done|].
      apply (quiet_removes mb) in Hpre'; [|done]. simpl in Hpre'.
      rewrite !app_assoc, app_comm_cons. rewrite <- app_assoc in Hpre'. apply Forall_app.
      split; [by rewrite <- app_assoc|done]. }
    apply wpm_bind. eapply wpm_mono; [apply emits_etcdRemoveMember| |].
    + intros e m1 t4 Ht4. destruct e; apply wpm_ret; rewrite app_nil_r; by apply Hend.
    + intros c t4 Ht4. by apply Hend.
  - intros c t3 [Ht3 _]. left. apply (Hq (only [KBackup])); [done|].
    rewrite app_assoc. apply (Forall_app_2 _ (x0 :: t1 ++ t2) t3); done.
Qed.

(** ** Theorems *)

(** C13: a node is told to join an existing cluster only when both sides are
    ready.  Whenever a leader expands the cluster, in any environment, each
    JOIN_EXISTING request goes to an idle peer of the snapshot and lists the
    members of etcd followed by the peer itself; it comes after the same peer
    accepted a PREPARE for the same token, nodes and version, and after etcd
    accepted a new member with the URLs of that peer. *)
Theorem join_existing_is_ready l m cs spec t o id rq
  (Hl : m_leadership m = Some l)
  (Hrun : runs (addNodeToCluster spec cs m) t o) :
  guarded (joins_as id rq) (ready_to_join m cs id rq) t.
Proof.
  pose proof (wp_runs _ _ _ _ Hrun (addNodeToCluster_guarded l m cs spec id rq Hl)) as H.
  by destruct o as [[v m']|c].
Qed.

(** C14: which member is removed.  A removal, in any environment, asks etcd to
    remove at most one member: one of the snapshot that is not healthy, and,
    when only unhealthy members may go, has not been healthy for at least the
    deadline; a healthy member goes only when healthy members may go and no
    member is unhealthy. *)
Theorem removal_picks_unhealthy m cs spec removeHealthy t o
  (Hsub : dom (cs_healthyMembers cs) ⊆ dom (cs_members cs))
  (Hrun : runs (removeNodeFromCluster spec cs removeHealthy m) t o) :
  remove_post m cs removeHealthy t.
Proof.
  pose proof (wp_runs _ _ _ _ Hrun (removeNodeFromCluster_spec m cs spec removeHealthy Hsub)) as H.
  by destruct o as [[v m']|c].
Qed.

Module MembersDemo.
(** The stable cluster with an idle node, and with a member down for an hour. *)
Definition m : EtcdController := fst ControllerDemo.stable.
Definition spec4 : ClusterSpec := mkClusterSpec 4 "3.4.13".
Definition grown : ControllerDemo.world := ControllerDemo.with_idle "d" (snd ControllerDemo.stable).
Definition cs4 : etcdClusterState := ControllerDemo.snapshot m grown.
Definition t_add : ctrace := trace_of ControllerDemo.env (addNodeToCluster spec4 cs4 m) grown.
(** The request that the new node gets last. *)
Definition last_join (t : ctrace) : option (string * JoinClusterRequest) :=
  last (omap (fun x : exchange CtlSig => match asked x with
                                         | CJoinCluster id rq => Some (id, rq)
                                         | _ => None
                                         end) t).
Definition joined : string * JoinClusterRequest :=
  default ("", mkJoinClusterRequest None PHASE_UNKNOWN "" [] "") (last_join t_add).

Definition broken : ControllerDemo.world :=
  ControllerDemo.later Hour (ControllerDemo.down "b" (snd ControllerDemo.stable)).
Definition cs_broken : etcdClusterState := ControllerDemo.snapshot m broken.
Definition t_remove : ctrace :=
  trace_of ControllerDemo.env (removeNodeFromCluster ControllerDemo.spec3 cs_broken false m) broken.
End MembersDemo.

Lemma join_existing_is_ready_witness :
  fst MembersDemo.joined = "d" /\ Join_Phase (snd MembersDemo.joined) = PHASE_JOIN_EXISTING /\
  guarded (joins_as "d" (snd MembersDemo.joined))
    (ready_to_join MembersDemo.m MembersDemo.cs4 "d" (snd MembersDemo.joined)) MembersDemo.t_add.
Proof.
  do 2 (split; [vm_compute; reflexivity|]).
  exact (join_existing_is_ready ControllerDemo.token MembersDemo.m MembersDemo.cs4 MembersDemo.spec4 _ _ _ _
    ltac:(vm_compute; reflexivity) (exec_runs ControllerDemo.env _ MembersDemo.grown)).
Defined.

Lemma removal_picks_unhealthy_witness :
  has KMemberRemove MembersDemo.t_remove = true /\
  remove_post MembersDemo.m MembersDemo.cs_broken false MembersDemo.t_remove.
Proof.
  split; [vm_compute; reflexivity|].
  refine (removal_picks_unhealthy MembersDemo.m MembersDemo.cs_broken ControllerDemo.spec3 false _ _ _
    (exec_runs ControllerDemo.env _ MembersDemo.broken)).
  apply (bool_decide_eq_true_1 _). vm_compute. reflexivity.
Defined.
