(* ===== verification/ClusterUpgrade.v ===== *)
(** * Upgrades and quarantine

    [upgradeInPlace] reconfigures one node per cycle, after a backup;
    [stopForUpgrade] stops the cluster only when it is quarantined, backed up
    and its restoration is ordered. *)

From stdpp Require Import base gmap sets list strings.
From S2P Require Import Prelude Effects ProtoEtcd GoLib Binaries BackupCleanup ClusterState ControllerOps Controller ControllerDemo ControllerFootprint ControllerInv ControllerGuards ClusterCreation ClusterMembers.

Local Open Scope Z_scope.

(** ** The peer of every member *)

(** [mp] has, for every member, a peer with the member's name. *)
Definition maps_members (cs : etcdClusterState) (mp : gmap string etcdClusterPeerInfo) : Prop :=
  forall id mb, cs_members cs !! id = Some mb ->
    exists p pid conf, mp !! id = Some p /\ cs_peers cs !! pid = Some p /\
      Info_NodeConfiguration (pe_info p) = Some conf /\ Node_Name conf = Member_Name mb.

Definition ready_for_upgrade (cs : etcdClusterState) (spec : ClusterSpec) : Prop :=
  len (cs_healthyMembers cs) = len (cs_members cs) /\
  len (cs_members cs) = Spec_MemberCount spec.

Lemma prepareForUpgrade_spec spec cs m :
  wpm (prepareForUpgrade spec cs) m
    (fun r m' t => m' = m /\ Forall (within (only [])) t /\
       forall mp, r = Ok mp -> maps_members cs mp /\ ready_for_upgrade cs spec)
    (fun _ _ => False).
Proof.
  unfold prepareForUpgrade. apply wpm_bind, wpm_range. intros order r Hord. apply wpm_bind.
  pose proof (wpm_for_each (Σ := CtlSig)
    (fun seen (mp : gmap string etcdClusterPeerInfo) m' t => m' = m /\ Forall (within (only [])) t /\
       forall id mb, id ∈ seen.*1 -> cs_members cs !! id = Some mb ->
         exists p pid conf, mp !! id = Some p /\ cs_peers cs !! pid = Some p /\
         Info_NodeConfiguration (pe_info p) = Some conf /\ Node_Name conf = Member_Name mb)
    (fun (_ : string) m' t => m' = m /\ Forall (within (only [])) t) (fun _ _ => False) order) as H.
  eapply wpm_mono; [apply (H _ [] ∅ m [existT (CRange : op CtlSig) r])| |done]; clear H.
  - split; [done|]. split; [by repeat constructor|]. intros id mb He. by apply elem_of_nil in He.
  - intros seen [id mb] mp m1 t (-> & Ht & Hseen) Hin. apply wpm_bind, wpm_range. intros ps r' Hps.
    assert (Forall (within (only [])) (t ++ [existT (range_op (Σ := CtlSig)) r'])) as Ht'.
    { apply Forall_app. split; [done|]. by repeat constructor. }
    destruct (find_last _ ps) as [[pid p]|] eqn:Hf; simpl; apply wpm_ret; [|done].
    split; [done|]. split; [done|]. apply find_last_Some in Hf as [Hpin Hname]. simpl in Hname.
    destruct (Info_NodeConfiguration (pe_info p)) as [conf|] eqn:Hconf; [|done].
    apply String.eqb_eq in Hname. rewrite Hps in Hpin. apply elem_of_map_to_list in Hpin.
    rewrite Hord in Hin. apply elem_of_map_to_list in Hin.
    intros id' mb' Hid' Hmb'. destruct (decide (id' = id)) as [->|Hne].
    + simplify_eq. exists p, pid, conf. by rewrite lookup_insert_eq.
    + rewrite fmap_app in Hid'. apply elem_of_app in Hid' as [Hid'|Hid'%list_elem_of_singleton]; [|done].
      destruct (Hseen id' mb' Hid' Hmb') as (p' & pid' & conf' & ?). exists p', pid', conf'.
      by rewrite lookup_insert_ne by done.
  - intros [mp|e] m' t H; [destruct H as (-> & Ht & Hall)|destruct H as [-> Ht]].
    2:{ apply wpm_ret. rewrite app_nil_r. by split. }
    simpl. destruct (negb _) eqn:E1; [apply wpm_ret; rewrite app_nil_r; by split|].
    destruct (negb (len (cs_members cs) =? _)) eqn:E2; [apply wpm_ret; rewrite app_nil_r; by split|].
    zify_bools. apply wpm_ret. rewrite app_nil_r. split; [done|]. split; [done|].
    intros ? [= <-]. split; [|done]. intros id mb Hmb. apply Hall; [|done].
    apply list_elem_of_fmap. exists (id, mb). split; [done|]. rewrite Hord.
    by apply elem_of_map_to_list.
Qed.

(** ** In place *)

(** The exchanges that reconfigure a node. *)
Definition reconfigures (x : exchange CtlSig) : bool :=
  match asked x with CReconfigure _ _ => true | _ => false end.

(** [x] upgrades a peer of a member that runs another version, and changes
    nothing else about it. *)
Definition upgrades (l : leadershipState) (m : EtcdController) (cs : etcdClusterState)
    (spec : ClusterSpec) (x : exchange CtlSig) : Prop :=
  exists pid p st, cs_peers cs !! pid = Some p /\ Info_EtcdState (pe_info p) = Some st /\
    State_EtcdVersion st <> Spec_EtcdVersion spec /\
    (exists id mb conf, cs_members cs !! id = Some mb /\
       Info_NodeConfiguration (pe_info p) = Some conf /\ Node_Name conf = Member_Name mb) /\
    asked x = CReconfigure (cp_Id (pe_peer p))
      (mkReconfigureRequest (Some (headerOf l (m_clusterName m))) (Spec_EtcdVersion spec)
         (State_Quarantined st) false).

(** At most one exchange of [t] reconfigures, and it is an upgrade. *)
Definition upgrades_one (l : leadershipState) (m : EtcdController) (cs : etcdClusterState)
    (spec : ClusterSpec) (t : ctrace) : Prop :=
  Forall (within (only [])) t \/
  exists t1 x, t = t1 ++ [x] /\ Forall (within (only [])) t1 /\ upgrades l m cs spec x.

Lemma upgradeOne_spec l spec cs mp m :
  m_leadership m = Some l -> maps_members cs mp ->
  wpm (upgradeOne spec cs mp) m
    (fun v _ t => upgrades_one l m cs spec t /\
       (v = (true, None) -> exists x, x ∈ t /\ upgrades l m cs spec x))
    (fun _ t => Forall (within (only [])) t).
Proof.
  intros Hl Hmp. unfold upgradeOne. apply wpm_bind, wpm_range. intros order r Hord. apply wpm_bind.
  pose proof (wpm_for_each (Σ := CtlSig)
    (fun _ (_ : unit) m' t => m' = m /\ Forall (within (only [])) t)
    (fun (v : verdict) _ t => upgrades_one l m cs spec t /\
       (v = (true, None) -> exists x, x ∈ t /\ upgrades l m cs spec x))
    (fun _ t => Forall (within (only [])) t) order) as H.
  eapply wpm_mono; [apply (H _ [] tt m [existT (CRange : op CtlSig) r])| |done]; clear H.
  - split; [done|]. by repeat constructor.
  - intros seen [id mb] [] m1 t [-> Ht] Hin. simpl. rewrite Hord in Hin.
    apply elem_of_map_to_list in Hin. destruct (Hmp id mb Hin) as (p & pid & conf & -> & Hp & Hc & Hn).
    apply wpm_bind. destruct (Info_EtcdState (pe_info p)) as [st|] eqn:Hst; simpl;
      [apply wpm_ret|apply wpm_die; by rewrite app_nil_r].
    destruct (String.eqb_spec (State_EtcdVersion st) (Spec_EtcdVersion spec)) as [Ev|Ev].
    { apply wpm_ret. by rewrite !app_nil_r. }
    apply wpm_bind, (buildHeader_eq l); [done|]. apply wpm_bind.
    assert (forall r', upgrades l m cs spec (existT (CReconfigure (cp_Id (pe_peer p))
      (mkReconfigureRequest (Some (headerOf l (m_clusterName m))) (Spec_EtcdVersion spec)
         (State_Quarantined st) false) : op CtlSig) r')) as Hup.
    { intros r'. exists pid, p, st. split_and!; try done. by exists id, mb, conf. }
    apply withClient_spec.
    + intros e r'. apply wpm_ret. split; [|done]. left. rewrite !app_nil_r.
      apply Forall_app. split; [done|]. by repeat constructor.
    + refine (@wpm_call CtlSig _ (CReconfigure _ _) m _ _ _). intros r'.
      assert (upgrades_one l m cs spec (t ++ [existT (CGetPeerClient (cp_Id (pe_peer p)) : op CtlSig) None;
        existT (CReconfigure (cp_Id (pe_peer p)) (mkReconfigureRequest
          (Some (headerOf l (m_clusterName m))) (Spec_EtcdVersion spec) (State_Quarantined st) false)
          : op CtlSig) r'])) as H1.
      { right. eexists (t ++ [_]), _. split; [by rewrite <- app_assoc|]. split; [|apply Hup].
        apply Forall_app. split; [done|]. by repeat constructor. }
      destruct r' as [e|]; apply wpm_ret; (split; [done|]); [done|].
      intros _. eexists. split; [|apply (Hup None)]. set_solver.
  - intros [[]|v] m' t H; simpl; apply wpm_ret; rewrite app_nil_r; [|done].
    destruct H as [_ Ht]. split; [by left|done].
Qed.

(** What an upgrade in place does: queries and a backup, and then at most one
    node is reconfigured. *)
Definition in_place_post (l : leadershipState) (m : EtcdController) (cs : etcdClusterState)
    (spec : ClusterSpec) (t : ctrace) : Prop :=
  Forall (within (only [KBackup])) t \/
  exists t0 tu resp, t = t0 ++ tu /\ Forall (within (only [KBackup])) t0 /\
    ready_for_upgrade cs spec /\ backed_up cs spec resp t0 /\ upgrades_one l m cs spec tu.

Lemma upgradeInPlace_spec l spec cs m :
  m_leadership m = Some l ->
  wpm (upgradeInPlace spec cs) m
    (fun _ _ t => in_place_post l m cs spec t) (fun _ t => in_place_post l m cs spec t).
Proof.
  intros Hl. unfold upgradeInPlace. apply wpm_bind.
  eapply wpm_mono; [apply prepareForUpgrade_spec| |done]. intros r m1 t1 (-> & Ht1 & Hr).
  apply (quiet_within (only [KBackup])) in Ht1.
  destruct r as [mp|e]; simpl; [|apply wpm_ret; left; by rewrite app_nil_r].
  destruct (Hr mp eq_refl) as [Hmp Hready].
  apply wpm_bind, wpm_range. intros order r Hord. apply wpm_bind.
  eapply wpm_mono with (Q := fun _ m' t => m' = m /\ t = []) (C := fun _ t => t = []).
  - pose proof (wpm_for_each (Σ := CtlSig) (fun _ (_ : unit) m' t => m' = m /\ t = [])
      (fun (_ : string) m' t => m' = m /\ t = []) (fun _ t => t = []) order) as H.
    eapply wpm_mono; [apply (H _ [] tt m []); [done|]| |done]; clear H.
    + intros seen [id mb] [] m1 t [-> ->] _. simpl. destruct (mp !! id) as [p|]; [|by apply wpm_die].
      by destruct (Info_EtcdState (pe_info p)); apply wpm_ret.
    + by intros [[]|e] m' t H.
  - intros c m1 t2 [-> ->]. simpl.
    set (pre := t1 ++ [existT (range_op (Σ := CtlSig)) r]).
    assert (Forall (within (only [KBackup])) pre) as Hpre.
    { apply Forall_app. split; [done|]. by repeat constructor. }
    destruct c as [[]|e]; [|apply wpm_ret; by left]. apply wpm_bind.
    eapply wpm_mono; [apply doClusterBackup_spec| |].
    2:{ intros c t3 [Ht3 _]. left. apply Forall_app. split; [done|]. by constructor; [left|]. }
    intros b m1 t3 (-> & Ht3 & Hb).
    assert (Forall (within (only [KBackup])) (pre ++ t3)) as Hpre3 by by apply Forall_app.
    assert (forall t, t1 ++ existT range_op r :: t3 ++ t = (pre ++ t3) ++ t) as Hassoc.
    { intros t. subst pre. by rewrite <- !app_assoc. }
    destruct b as [resp|e].
    2:{ apply wpm_ret. left. rewrite Hassoc. by rewrite app_nil_r. }
    assert (backed_up cs spec resp (pre ++ t3)) as Hbk by (apply backed_up_app_r; auto).
    eapply wpm_mono; [by apply (upgradeOne_spec l)| |].
    + intros v m2 t4 [Hu _]. right. exists (pre ++ t3), t4, resp. rewrite Hassoc. done.
    + intros c t4 Ht4. left. rewrite Hassoc. apply Forall_app. split; [done|by apply quiet_within].
  - intros c t2 ->. left. apply Forall_app. split; [done|]. by repeat constructor.
Qed.

(** ** Quarantine *)

Definition quarantineRequest (l : leadershipState) (m : EtcdController) (q : bool) : ReconfigureRequest :=
  mkReconfigureRequest (Some (headerOf l (m_clusterName m))) "" q false.

(** Every peer that is a member of etcd accepted to be (un)quarantined. *)
Definition all_quarantined (l : leadershipState) (m : EtcdController) (cs : etcdClusterState)
    (q : bool) (t : ctrace) : Prop :=
  forall pid p id mb, cs_peers cs !! pid = Some p -> cs_members cs !! id = Some mb ->
    Member_Name mb = pid ->
    existT (CReconfigure (cp_Id (pe_peer p)) (quarantineRequest l m q) : op CtlSig) None ∈ t.

Lemma findByName_spec {S} name members (s : S) :
  wpm (findByName name members) s
    (fun r s' t => s' = s /\ Forall (within (only [])) t /\
       (r = None -> forall id mb, members !! id = Some mb -> Member_Name mb <> name)) (fun _ _ => False).
Proof.
  unfold findByName. apply wpm_bind, wpm_range. intros order r Hord. apply wpm_ret.
  split; [done|]. split; [by repeat constructor|]. intros Hnone id mb Hmb Hname.
  destruct (List.find _ order) eqn:Hf; [done|].
  pose proof (find_none _ _ Hf (id, mb)) as Hno. simpl in Hno.
  rewrite Hname, String.eqb_refl in Hno. discriminate Hno.
  apply list_elem_of_In. rewrite Hord. by apply elem_of_map_to_list.
Qed.

Lemma updateQuarantine_spec l cs q m :
  m_leadership m = Some l ->
  wpm (updateQuarantine cs q) m
    (fun v m' t => m' = m /\
       Forall (sends (fun e => exists pid p, cs_peers cs !! pid = Some p /\
         e = CReconfigure (cp_Id (pe_peer p)) (quarantineRequest l m q))) t /\
       (snd v = None -> all_quarantined l m cs q t)) (fun _ _ => False).
Proof.
  intros Hl. unfold updateQuarantine. apply wpm_bind, wpm_range. intros order r Hord. apply wpm_bind.
  eapply wpm_mono; [apply (wpm_for_all (Σ := CtlSig) m
    (sends (fun e => exists pid p, cs_peers cs !! pid = Some p /\
         e = CReconfigure (cp_Id (pe_peer p)) (quarantineRequest l m q)))
    (fun (e : string * etcdClusterPeerInfo) t => forall id mb, cs_members cs !! id = Some mb ->
       Member_Name mb = fst e ->
       existT (CReconfigure (cp_Id (pe_peer (snd e))) (quarantineRequest l m q) : op CtlSig) None ∈ t)
    (fun v : verdict => snd v <> None))| |done].
  - intros e t t' H id mb Hmb Hn. apply elem_of_app. left. eauto.
  - intros e t t' H id mb Hmb Hn. apply elem_of_app. right. eauto.
  - intros [pid p] changed Hin. rewrite Hord in Hin. apply elem_of_map_to_list in Hin. simpl.
    apply wpm_bind. eapply wpm_mono; [apply findByName_spec| |done].
    intros member m1 t1 (-> & Ht1 & Hnone).
    apply (quiet_sends (fun e => exists pid p, cs_peers cs !! pid = Some p /\
         e = CReconfigure (cp_Id (pe_peer p)) (quarantineRequest l m q))) in Ht1.
    destruct member as [mb0|]; simpl.
    2:{ apply wpm_ret. rewrite app_nil_r. split; [done|]. split; [done|].
        intros id mb Hmb Hn. exfalso. by apply (Hnone eq_refl id mb). }
    apply wpm_bind, (buildHeader_eq l); [done|]. apply wpm_bind.
    eapply wpm_mono; [apply rpcReconfigure_spec| |done].
    intros x m1 t2 (-> & Ht2 & Hok). simpl.
    assert (Forall (sends (fun e => exists pid p, cs_peers cs !! pid = Some p /\
      e = CReconfigure (cp_Id (pe_peer p)) (quarantineRequest l m q))) (t1 ++ t2)) as Ht12.
    { apply Forall_app. split; [done|]. eapply sends_mono; [|exact Ht2]. intros e ->. by exists pid, p. }
    destruct x as [e|]; apply wpm_ret; rewrite app_nil_r; (split; [done|]); (split; [done|]); [done|].
    intros id mb Hmb Hn. apply elem_of_app. right. by apply Hok.
  - intros [changed|v] m' t (-> & Ht & Hall); apply wpm_ret; rewrite app_nil_r; (split; [done|]);
      (split; [constructor; [by left|done]|]); simpl.
    + intros _ pid p id mb Hp Hmb Hn. right.
      apply (Hall (pid, p)) with id mb; [|done|done].
      rewrite Hord. by apply elem_of_map_to_list.
    + done.
Qed.

(** ** Stopping the cluster *)

(** The control store listed a restore command. *)
Definition restore_visible (t : ctrace) : Prop :=
  exists cmds c, existT (CListCommands : op CtlSig) (Ok cmds) ∈ t /\ c ∈ cmds /\ isRestore c = true.

(** Refreshing the control store leaves the leadership and the name alone. *)
Definition same_leader (m m' : EtcdController) : Prop :=
  m_leadership m' = m_leadership m /\ m_clusterName m' = m_clusterName m.

Lemma refresh_spec m :
  wpm (refreshControlStore 0) m
    (fun r m' t => same_leader m m' /\ Forall (within (only [])) t /\
       (r = None -> forall c, getRestoreBackupCommand m' = Some c -> restore_visible t))
    (fun _ _ => False).
Proof.
  unfold refreshControlStore. apply wpm_bind. unfold now. apply wpm_bind.
  refine (@wpm_call CtlSig _ CNow m _ _ _). intros tm. apply wpm_ret; simpl.
  apply wpm_bind, wpm_get; simpl. apply wpm_bind.
  refine (@wpm_call CtlSig _ CListCommands m _ _ _). intros [cmds|e]; simpl;
    [|apply wpm_ret; split; [done|]; split; [by repeat constructor|done]].
  apply wpm_bind. refine (@wpm_call CtlSig _ CGetExpectedClusterSpec m _ _ _). intros [spec|e]; simpl;
    [|apply wpm_ret; split; [done|]; split; [by repeat constructor|done]].
  apply wpm_bind, wpm_modify, wpm_ret. split; [done|]. split; [by repeat constructor|].
  intros _ c Hc. unfold getRestoreBackupCommand in Hc. simpl in Hc.
  apply find_some in Hc as [Hin Hr]. exists cmds, c.
  split; [right; by left|]. split; [by apply list_elem_of_In|done].
Qed.

Lemma restore_visible_app t t' : restore_visible t' -> restore_visible (t ++ t').
Proof. intros (cmds & c & ? & ?). exists cmds, c. set_solver. Qed.

Lemma awaitRestoreCommand_spec fuel m :
  wpm (awaitRestoreCommand fuel) m
    (fun r m' t => same_leader m m' /\ Forall (within (only [])) t /\ (r = None -> restore_visible t))
    (fun _ t => Forall (within (only [])) t).
Proof.
  revert m. unfold awaitRestoreCommand. induction fuel as [|fuel IH]; intros m; simpl.
  { apply wpm_die. constructor. }
  apply wpm_bind, wpm_bind. eapply wpm_mono; [apply refresh_spec| |done].
  intros e m1 t1 (Hs & Ht1 & Hvis). destruct e as [e|]; simpl.
  { apply wpm_ret, wpm_ret. rewrite !app_nil_r. done. }
  apply wpm_bind, wpm_get; simpl. destruct (getRestoreBackupCommand m1) as [c|] eqn:Hc.
  { apply wpm_ret, wpm_ret. rewrite !app_nil_r. split; [done|]. split; [done|]. eauto. }
  apply wpm_bind. refine (@wpm_call CtlSig _ (CSleep _) m1 _ _ _). intros []. apply wpm_ret. simpl.
  eapply wpm_mono; [apply IH| |].
  - intros r m2 t2 ((Hs1 & Hs2) & Ht2 & Hr). destruct Hs as [Hs3 Hs4].
    split; [split; congruence|]. rewrite <- app_assoc. split.
    + apply Forall_app. split; [done|]. by constructor; [left|].
    + intros Hn. apply restore_visible_app. apply (restore_visible_app [_]). auto.
  - intros c t2 Ht2. rewrite <- app_assoc. apply Forall_app. split; [done|]. by constructor; [left|].
Qed.

Definition no_stop (t : ctrace) : Prop :=
  Forall (fun x : exchange CtlSig => kindOf (asked x) <> KStop) t.

Lemma within_no_stop f t : f KStop = false -> Forall (within f) t -> no_stop t.
Proof.
  intros Hf Ht. eapply Forall_impl; [exact Ht|].
  intros x [E|E] Hk; rewrite Hk in E; [done|congruence].
Qed.

(** A cluster ready to be stopped for an upgrade: backed up, quarantined, backed
    up again, and a restore of the second backup ordered and visible. *)
Record stoppable (l : leadershipState) (m : EtcdController) (cs : etcdClusterState)
    (spec : ClusterSpec) (t : ctrace) : Prop := {
  so_no_stop : no_stop t;
  so_ready : ready_for_upgrade cs spec;
  so_order : exists tb1 tq tb2 tw resp1 resp2,
    t = tb1 ++ tq ++ tb2 ++
        existT (CAddCommand (mkCommand 0 (Some (mkRestoreBackupCommand (Some spec)
                  (DoBackup_Name resp2))) None) : op CtlSig) None :: tw /\
    backed_up cs spec resp1 tb1 /\ all_quarantined l m cs true tq /\
    backed_up cs spec resp2 tb2 /\ restore_visible tw;
}.

Definition stop_upgrade_post (l : leadershipState) (m : EtcdController) (cs : etcdClusterState)
    (spec : ClusterSpec) (t : ctrace) : Prop :=
  no_stop t \/ exists t0 ts, t = t0 ++ ts /\ stoppable l m cs spec t0.

Lemma stopForUpgrade_spec l fuel spec cs m :
  m_leadership m = Some l ->
  wpm (stopForUpgrade fuel spec cs) m
    (fun _ _ t => stop_upgrade_post l m cs spec t) (fun _ t => stop_upgrade_post l m cs spec t).
Proof.
  intros Hl. unfold stopForUpgrade. apply wpm_bind.
  eapply wpm_mono; [apply prepareForUpgrade_spec| |done]. intros r m1 t1 (-> & Ht1 & Hr).
  apply (within_no_stop (only [])) in Ht1 as Hn1; [|done].
  destruct r as [mp|e]; simpl; [|apply wpm_ret; left; by rewrite app_nil_r].
  destruct (Hr mp eq_refl) as [Hmp Hready]. apply wpm_bind.
  assert (forall t, Forall (within (only [KBackup])) t -> no_stop t) as Hbn
    by (intros t; by apply within_no_stop).
  eapply wpm_mono; [apply doClusterBackup_spec| |].
  2:{ intros c t [Ht _]. left. apply Forall_app. split; [done|]. by apply Hbn. }
  intros b m1 tb1 (-> & Hb1 & Hbk1). apply Hbn in Hb1.
  destruct b as [resp1|e]; simpl; [|apply wpm_ret; left; rewrite app_nil_r; by apply Forall_app].
  specialize (Hbk1 _ eq_refl). apply wpm_bind. eapply wpm_mono; [by apply (updateQuarantine_spec l)| |done].
  intros v m1 tq (-> & Htq & Hq).
  assert (no_stop tq) as Hnq.
  { eapply Forall_impl; [exact Htq|]. intros x [E|(pid & p & _ & E)] Hk;
      [by rewrite E in Hk|by rewrite E in Hk]. }
  destruct (snd v) as [e|] eqn:Ev; simpl.
  { apply wpm_ret. left. rewrite app_nil_r. unfold no_stop. by rewrite !Forall_app. }
  specialize (Hq Ev). apply wpm_bind. eapply wpm_mono; [apply doClusterBackup_spec| |].
  2:{ intros c t [Ht _]. left. apply Hbn in Ht. unfold no_stop. by rewrite !Forall_app. }
  intros b m1 tb2 (-> & Hb2 & Hbk2). apply Hbn in Hb2.
  destruct b as [resp2|e]; simpl.
  2:{ apply wpm_ret. left. rewrite app_nil_r. unfold no_stop. by rewrite !Forall_app. }
  specialize (Hbk2 _ eq_refl). apply wpm_bind.
  refine (@wpm_call CtlSig _ (CAddCommand _) m _ _ _). intros a; simpl.
  set (xa := existT (CAddCommand _ : op CtlSig) a : exchange CtlSig).
  assert (forall t, no_stop t -> no_stop (t1 ++ tb1 ++ tq ++ tb2 ++ xa :: t)) as Hpre.
  { intros t Ht. unfold no_stop. rewrite !Forall_app. split_and!; try done. by constructor. }
  destruct a as [e|]; [apply wpm_ret; left; apply Hpre; constructor|].
  apply wpm_bind. eapply wpm_mono; [apply awaitRestoreCommand_spec| |].
  2:{ intros c t Ht. left. by apply Hpre, (within_no_stop (only [])). }
  intros w m2 tw ([Hs1 Hs2] & Htw & Hvis). apply (within_no_stop (only [])) in Htw; [|done].
  destruct w as [e|]; simpl; [apply wpm_ret; left; rewrite app_nil_r; by apply Hpre|].
  assert (stoppable l m cs spec (t1 ++ tb1 ++ tq ++ tb2 ++ xa :: tw)) as Hst.
  { split; [by apply Hpre|done|]. exists (t1 ++ tb1), tq, tb2, tw, resp1, resp2.
    split; [by rewrite <- app_assoc|]. split; [by apply backed_up_app_r|]. auto. }
  assert (forall ts, stop_upgrade_post l m cs spec (t1 ++ tb1 ++ tq ++ tb2 ++ xa :: tw ++ ts)) as Hend.
  { intros ts. right. exists (t1 ++ tb1 ++ tq ++ tb2 ++ xa :: tw), ts. split; [|done].
    by rewrite <- !app_assoc. }
  apply wpm_bind, wpm_any; [|intros; by apply Hend].
  intros [e|] m3 ts; apply wpm_ret; rewrite ?app_nil_r; by apply Hend.
Qed.

(** ** Theorems *)

(** C6: an upgrade in place is fault tolerant.  A leader that upgrades in place
    sends, in any environment, at most one Reconfigure request in the cycle;
    before it all members were healthy, the cluster had its full size and a
    node with a healthy member had taken a backup; the request goes to the peer
    of a member whose etcd has another version, and sets the wanted version,
    keeping the quarantine flag and TLS as they are. *)
Theorem upgrade_in_place_one_node l m cs spec t o
  (Hl : m_leadership m = Some l)
  (Hrun : runs (upgradeInPlace spec cs m) t o) : in_place_post l m cs spec t.
Proof.
  pose proof (wp_runs _ _ _ _ Hrun (upgradeInPlace_spec l spec cs m Hl)) as H.
  by destruct o as [[v m']|c].
Qed.

(** C5: a cluster is stopped for an upgrade only when it can be restored.  If a
    leader stops any node for an upgrade, in any environment, then before the
    first stop: all members were healthy and the cluster had its full size; a
    backup was taken; every peer that is a member accepted to be quarantined;
    after that a second backup was taken; a command to restore exactly that
    backup to the wanted specification was stored; and the control store then
    showed a restore command. *)
Theorem stop_for_upgrade_is_restorable l m cs spec fuel t o
  (Hl : m_leadership m = Some l)
  (Hrun : runs (stopForUpgrade fuel spec cs m) t o)
  (Hstop : ~ no_stop t) :
  exists t0 ts, t = t0 ++ ts /\ stoppable l m cs spec t0.
Proof.
  pose proof (wp_runs _ _ _ _ Hrun (stopForUpgrade_spec l fuel spec cs m Hl)) as H.
  assert (stop_upgrade_post l m cs spec t) as [?|?] by (by destruct o as [[v m']|c]); done.
Qed.

(** The quarantine of a cluster is set as a whole.  When [updateQuarantine]
    reports no error, every peer whose id is the name of a member accepted a
    request with the wanted flag; it sends no other request, and no request to
    a peer that is not in the snapshot. *)
Theorem quarantine_is_uniform l m cs q t v m'
  (Hl : m_leadership m = Some l)
  (Hrun : runs (updateQuarantine cs q m) t (Done (v, m'))) :
  m' = m /\
  Forall (sends (fun e => exists pid p, cs_peers cs !! pid = Some p /\
    e = CReconfigure (cp_Id (pe_peer p)) (quarantineRequest l m q))) t /\
  (snd v = None -> all_quarantined l m cs q t).
Proof. exact (wp_runs _ _ _ _ Hrun (updateQuarantine_spec l cs q m Hl)). Qed.

Module UpgradeDemo.
(** The stable cluster, of which another version is wanted. *)
Definition m : EtcdController := fst ControllerDemo.stable.
Definition w : ControllerDemo.world := snd ControllerDemo.stable.
Definition cs : etcdClusterState := ControllerDemo.cs.
Definition spec : ClusterSpec := mkClusterSpec 3 "3.5.1".
Definition t_up : ctrace := trace_of ControllerDemo.env (upgradeInPlace spec cs m) w.
Definition t_stop : ctrace := trace_of ControllerDemo.env (stopForUpgrade 3 spec cs m) w.
Definition t_quarantine : ctrace := trace_of ControllerDemo.env (updateQuarantine cs true m) w.
Lemma leads : m_leadership m = Some ControllerDemo.token.
Proof. vm_compute. reflexivity. Qed.
End UpgradeDemo.

Lemma upgrade_in_place_one_node_witness :
  has KReconfigure UpgradeDemo.t_up = true /\
  in_place_post ControllerDemo.token UpgradeDemo.m UpgradeDemo.cs UpgradeDemo.spec UpgradeDemo.t_up.
Proof.
  split; [vm_compute; reflexivity|].
  exact (upgrade_in_place_one_node _ _ _ _ _ _ UpgradeDemo.leads
    (exec_runs ControllerDemo.env _ UpgradeDemo.w)).
Defined.

Lemma stop_for_upgrade_is_restorable_witness :
  exists t0 ts, UpgradeDemo.t_stop = t0 ++ ts /\
    stoppable ControllerDemo.token UpgradeDemo.m UpgradeDemo.cs UpgradeDemo.spec t0.
Proof.
  refine (stop_for_upgrade_is_restorable _ _ _ _ _ _ _ UpgradeDemo.leads
    (exec_runs ControllerDemo.env _ UpgradeDemo.w) _).
  apply has_some. vm_compute. reflexivity.
Defined.

Lemma quarantine_is_uniform_witness :
  all_quarantined ControllerDemo.token UpgradeDemo.m UpgradeDemo.cs true UpgradeDemo.t_quarantine.
Proof.
  assert (runs (updateQuarantine UpgradeDemo.cs true UpgradeDemo.m) UpgradeDemo.t_quarantine
    (Done ((true, None), UpgradeDemo.m))) as Hrun by (apply exec_runs_eq; vm_compute; reflexivity).
  exact (proj2 (proj2 (quarantine_is_uniform _ _ _ _ _ _ _ UpgradeDemo.leads Hrun)) eq_refl).
Defined.
