(* ===== verification/EtcdManager.v ===== *)
(** * Start-up of the manager: cmd/etcd-manager/main.go

    [RunEtcdManager] puts the components together: it mounts the volume, finds
    out who this node is, publishes it, loads the certificate authorities, makes
    sure that legacy data is not overlooked, and then starts the node server, the
    controller and the peer server: the first two in goroutines, the controller
    after a sleep of two seconds.  A [schedule] interleaves the goroutines with
    the calls of the main one.  The peer identity and the scan for legacy
    data are those of [Legacy.v], the discovery by files that of
    [VolumesExternal.v]; the other components are called through the operations
    of [MainSig], one for each constructor or method that is called. *)

From Stdlib Require Import Ascii.
From stdpp Require Import base gmap sets list strings.
From S2P Require Import Prelude Effects EffectsSum ProtoEtcd GoLib Vfs PrivateApi Volumes VolumesExternal Legacy.

Local Open Scope Z_scope.

(** ** Options *)

Record EtcdManagerOptions := mkManagerOptions {
  o_PKIDir : string;
  o_Address : string;
  o_VolumeProviderID : string;
  o_PeerUrls : string;
  o_GrpcPort : Z;
  o_ClientUrls : string;
  o_QuarantineClientUrls : string;
  o_ClusterName : string;
  o_ListenAddress : string;
  o_BackupStorePath : string;
  o_DataDir : string;
  o_VolumeTags : list string;
  o_NameTag : string;
  o_BackupInterval : string;
  o_DiscoveryPollInterval : string;
  o_DNSSuffix : string;
  o_ControlRefreshInterval : Z;                (* nanoseconds *)
  o_Insecure : bool;
  o_EtcdInsecure : bool;
  o_ListenMetricsURLs : string;
  o_EtcdManagerMetricsPort : Z;
  o_NetworkCIDR : string;
}.

(** The values before the flags are parsed. *)
Definition InitDefaults : EtcdManagerOptions :=
  mkManagerOptions "/etc/kubernetes/pki/etcd-manager" "" "" "https://__address__:2380" 8000
    "https://__address__:4001" "https://__address__:8001" "" "0.0.0.0" "" "" [] "" "15m" "60s" ""
    (10 * 365 * 24 * 3600 * 1000000000) false false "" 0 "".

(** ** Operations *)

(** What the node server is made of. *)
Record serverArgs := mkServerArgs {
  sa_DataDir : string;
  sa_ClusterName : string;
  sa_ListenAddress : string;
  sa_ListenMetricsURLs : list string;
  sa_Node : EtcdNode;
  sa_TLS : bool;                               (* with the two authorities *)
  sa_PeerClientIPs : list string;
}.

(** What is run in a goroutine: the metrics endpoint, the loop of the node
    server, the loop of the controller. *)
Inductive goroutine :=
| RunMetrics (port : Z)
| RunEtcdServer
| RunController.

Inductive main_op : Type :=
| MGo (delay : duration) (g : goroutine)       (* go: sleep for [delay], then run [g] *)
| MNewVolumes (provider : string)              (* the constructor of the provider *)
| MWaitForVolumes                              (* Boot.WaitForVolumes with it *)
| MMyIP
| MBuildVfsPath (p : string)
| MLoadCA (name : string)
| MGRPCServerConfig (id : string)
| MGRPCClientConfig (id : string)
| MNewServer (info : PeerInfo) (discovery : bool) (port : Z) (dnsSuffix : string) (tls : bool) (poll : Z)
| MNewBackupStore (p : string)
| MNewCommandStore (p : string)
| MNewEtcdServer (a : serverArgs)
| MNewEtcdController (clusterName dnsSuffix : string) (backupInterval refresh : Z) (insecure : bool)
| MListenAndServe (endpoint : string).
Definition main_res (e : main_op) : Type :=
  match e with
  | MGo _ _ => unit
  | MWaitForVolumes => list Volume
  | MMyIP | MBuildVfsPath _ => result string
  | _ => option error
  end.
Definition MainSig : sig := Sig main_op main_res.
Definition ManagerSig : sig := LegSig ⊕ DiscSig ⊕ MainSig.
Abbreviation MM := (M ManagerSig unit).
Abbreviation mcall e := (@call ManagerSig unit (inr e)).
Definition onLegacy {A} (m : M LegSig unit A) : MM A := viaL (viaL m).
Definition onDiscovery {A} (m : M DiscSig unit A) : MM A := viaL (viaR m).

(** ** Names and URLs *)

Definition expandUrls (urls address name : string) : list string :=
  (fun s => ReplaceString (ReplaceString s "__address__" address) "__name__" name) <$> Split urls ",".

Definition memberName (myPeerId dnsSuffix : string) : string :=
  if String.eqb dnsSuffix "" then myPeerId
  else (if HasSuffix myPeerId "." then myPeerId else myPeerId +:+ ".") +:+ TrimPrefix dnsSuffix ".".

Definition insecureNode (n : EtcdNode) : EtcdNode :=
  mkEtcdNode (Node_Name n) (RewriteScheme (Node_PeerUrls n) "https://" "http://")
    (RewriteScheme (Node_ClientUrls n) "https://" "http://")
    (RewriteScheme (Node_QuarantinedClientUrls n) "https://" "http://") (Node_TlsEnabled n).

Definition etcdNodeInfo (o : EtcdManagerOptions) (myPeerId address : string) : EtcdNode :=
  let name := memberName myPeerId (o_DNSSuffix o) in
  let n := mkEtcdNode myPeerId (expandUrls (o_PeerUrls o) address name) (expandUrls (o_ClientUrls o) address name)
             (expandUrls (o_QuarantineClientUrls o) address name) false in
  if o_EtcdInsecure o then insecureNode n else n.

Section Manager.
(** [net.ParseCIDR] and [net.ParseIP] accept the text, [time.ParseDuration], [json.Marshal] *)
Context (ParseCIDR ParseIP : string -> bool) (ParseDuration : string -> option Z)
  (Marshal : DiscoveryNode -> result string).

(** ** The phases of the start *)

Definition providers : list string := ["aws"; "gce"; "openstack"; "do"; "hetzner"; "azure"; "scaleway"; "external"].

(** The interval between backups. *)
Definition checkOptions (o : EtcdManagerOptions) : result Z :=
  if String.eqb (o_ClusterName o) "" then Err "cluster-name is required"
  else if String.eqb (o_BackupStorePath o) "" then Err "backup-store is required"
  else if negb (String.eqb (o_NetworkCIDR o) "") && negb (String.eqb (o_VolumeProviderID o) "openstack") then
    Err "network-cidr is only supported with provider 'openstack'"
  else if negb (String.eqb (o_NetworkCIDR o) "") && negb (ParseCIDR (o_NetworkCIDR o)) then Err "parsing network-cidr"
  else match ParseDuration (o_BackupInterval o) with
       | None => Err "invalid backup-interval duration"
       | Some d => Ok d
       end.

(** The data directory, the address and the identity that the volume gives; a
    failing constructor ends the process. *)
Definition mountVolume (o : EtcdManagerOptions) : MM (result (string * string * string)) :=
  if String.eqb (o_VolumeProviderID o) "" then mret (Ok (o_DataDir o, o_Address o, ""))
  else if bool_decide (o_VolumeProviderID o ∉ providers) then die (Fatal "unknown volume-provider")
  else
    e ← mcall (MNewVolumes (o_VolumeProviderID o));
    match e with
    | Some e => die (Fatal e)
    | None =>
        vs ← mcall MWaitForVolumes;
        match vs with
        | [] => mret (Err "no volumes were mounted")
        | _ :: _ :: _ => mret (Err "multiple volumes were mounted")
        | [v] =>
            ip ← mcall MMyIP;
            mret (match ip with Err e => Err e | Ok address => Ok (vol_Mountpoint v, address, vol_EtcdName v) end)
        end
    end.

(** The identity of the node. *)
Definition peerIdFor (dataDir id : string) : MM (result string) :=
  if String.eqb id "" then
    r ← onLegacy (PersistentPeerId dataDir);
    mret (match r with Err _ => Err "error getting persistent peer id" | Ok id => Ok id end)
  else mret (Ok id).

(** Without a provider the node publishes itself in a directory. *)
Definition discoverBy (o : EtcdManagerOptions) (myPeerId address : string) : MM (option error) :=
  if negb (String.eqb (o_VolumeProviderID o) "") then mret None
  else
    p ← mcall (MBuildVfsPath "file:///tmp/discovery");
    match p with
    | Err _ => mret (Some "error parsing vfs path")
    | Ok p =>
        d ← onDiscovery (NewVFSDiscovery Marshal p (mkDiscoveryNode myPeerId [mkNodeEndpoint address (o_GrpcPort o)]));
        mret (match d with Err _ => Some "error building discovery" | Ok _ => None end)
    end.

(** Steps that may fail, one after the other. *)
Definition attempt (steps : list (MM (option error))) : MM (option error) :=
  r ← for_each steps tt (fun m _ => e ← m; mret (match e with Some e => inr e | None => inl tt end));
  mret (match r with inr e => Some e | inl _ => None end).

Definition wrapError (msg : string) (m : MM (option error)) : MM (option error) :=
  e ← m; mret (match e with Some _ => Some msg | None => None end).

Definition loadKeys (o : EtcdManagerOptions) (myPeerId : string) : MM (option error) :=
  let needDir := if String.eqb (o_PKIDir o) "" then mret (Some "pki-dir is required for secure configurations") else mret None in
  attempt
    ((if o_Insecure o then [] else
        [needDir; mcall (MLoadCA "etcd-manager-ca"); mcall (MGRPCServerConfig myPeerId); mcall (MGRPCClientConfig myPeerId)]) ++
     (if o_EtcdInsecure o then [] else
        [needDir; wrapError "error loading etcd-peers-ca keypair" (mcall (MLoadCA "etcd-peers-ca"));
         wrapError "error loading etcd-clients-ca keypair" (mcall (MLoadCA "etcd-clients-ca"))])).

Definition newPeerServer (o : EtcdManagerOptions) (myPeerId grpcEndpoint : string) : MM (option error) :=
  match ParseDuration (o_DiscoveryPollInterval o) with
  | None => mret (Some "invalid discovery-poll-interval duration")
  | Some poll =>
      wrapError "error building server"
        (mcall (MNewServer (mkPeerInfo myPeerId [grpcEndpoint]) true (o_GrpcPort o) (o_DNSSuffix o) (negb (o_Insecure o)) poll))
  end.

(** The stores, and the scan for legacy data. *)
Definition openStores (o : EtcdManagerOptions) (dataDir : string) : MM (option error) :=
  b ← mcall (MNewBackupStore (o_BackupStorePath o));
  match b with
  | Some _ => mret (Some "error initializing backup store")
  | None =>
      c ← mcall (MNewCommandStore (o_BackupStorePath o));
      match c with
      | Some _ => die (Fatal "error initializing command store")
      | None =>
          r ← onLegacy (ScanForExisting dataDir);
          match r with
          | Err _ => die (Fatal "error performing scan for legacy data")
          | Ok _ => mret None
          end
      end
  end.

(** The servers and the controller; the peer server runs until it fails. *)
Definition launch (o : EtcdManagerOptions) (backupInterval : Z) (a : serverArgs) (grpcEndpoint : string) : MM (option error) :=
  e ← mcall (MNewEtcdServer a);
  match e with
  | Some _ => mret (Some "error initializing etcd server")
  | None =>
      mcall (MGo 0 RunEtcdServer) ≫= fun _ =>
      e ← mcall (MNewEtcdController (o_ClusterName o) (o_DNSSuffix o) backupInterval (o_ControlRefreshInterval o) (o_EtcdInsecure o));
      match e with
      | Some _ => mret (Some "error building etcd controller")
      | None =>
          mcall (MGo (2 * Second) RunController) ≫= fun _ =>
          wrapError "error creating private API server" (mcall (MListenAndServe grpcEndpoint))
      end
  end.

Definition serverArgsFor (o : EtcdManagerOptions) (dataDir address myPeerId : string) : serverArgs :=
  mkServerArgs dataDir (o_ClusterName o) (o_ListenAddress o)
    (expandUrls (o_ListenMetricsURLs o) address (memberName myPeerId (o_DNSSuffix o)))
    (etcdNodeInfo o myPeerId address) (negb (o_EtcdInsecure o)) [address].

(** From the mounted volume on. *)
Definition runNode (o : EtcdManagerOptions) (backupInterval : Z) (dataDir address0 id : string) : MM (option error) :=
  e ← onLegacy (lcall (LMkdirAll dataDir));
  match e with
  | Some _ => mret (Some "error doing mkdirs on base directory")
  | None =>
      r ← peerIdFor dataDir id;
      match r with
      | Err e => mret (Some e)
      | Ok myPeerId =>
          let address := if String.eqb address0 "" then "127.0.0.1" else address0 in
          let grpcEndpoint := JoinHostPort address (Itoa (o_GrpcPort o)) in
          e ← attempt [discoverBy o myPeerId address; loadKeys o myPeerId; newPeerServer o myPeerId grpcEndpoint; openStores o dataDir];
          match e with
          | Some e => mret (Some e)
          | None =>
              if ParseIP address then launch o backupInterval (serverArgsFor o dataDir address myPeerId) grpcEndpoint
              else mret (Some "unable to parse address")
          end
      end
  end.

Definition RunEtcdManager (o : EtcdManagerOptions) : MM (option error) :=
  match checkOptions o with
  | Err e => mret (Some e)
  | Ok backupInterval =>
      (if o_EtcdManagerMetricsPort o =? 0 then mret tt else mcall (MGo 0 (RunMetrics (o_EtcdManagerMetricsPort o)))) ≫= fun _ =>
      v ← mountVolume o;
      match v with
      | Err e => mret (Some e)
      | Ok (dataDir, address, id) => runNode o backupInterval dataDir address id
      end
  end.
End Manager.

(** ** What comes before what *)

Abbreviation MT := (trace ManagerSig).
Abbreviation mx e r := (@existT (op ManagerSig) (@res ManagerSig) (inr e) r).
Abbreviation mlx e r := (@existT (op ManagerSig) (@res ManagerSig) (inl (inl e)) r).

(** Neither a server nor the controller is made or started; the metrics
    endpoint of the options may be. *)
Definition preparing (o : EtcdManagerOptions) (x : exchange ManagerSig) : Prop :=
  match asked x with
  | inr (MGo _ (RunMetrics port)) => port = o_EtcdManagerMetricsPort o /\ port <> 0
  | inr (MNewEtcdServer _ | MGo _ _ | MNewEtcdController _ _ _ _ _ | MListenAndServe _) => False
  | _ => True
  end.

(** Where the data directory, the address and the identity come from. *)
Definition source (o : EtcdManagerOptions) (dataDir address id : string) (t : MT) : Prop :=
  if String.eqb (o_VolumeProviderID o) "" then dataDir = o_DataDir o /\ address = o_Address o /\ id = ""
  else exists v, mx MWaitForVolumes [v] ∈ t /\ mx MMyIP (Ok address) ∈ t /\ dataDir = vol_Mountpoint v /\ id = vol_EtcdName v.

(** The identity is that of the volume, or one that is on the disk. *)
Definition identified (dataDir id myPeerId : string) (t : MT) : Prop :=
  if String.eqb id "" then
    mlx (LReadFile (PathJoin [dataDir; "myid"])) (FileOk myPeerId) ∈ t \/
    mlx (LCreateFile (PathJoin [dataDir; "myid"]) myPeerId) None ∈ t
  else myPeerId = id.

(** There is no legacy data, or the cluster is marked as created. *)
Definition scanned (dataDir : string) (t : MT) : Prop :=
  (forall k, k ∈ etcdKeys -> exists f, mlx (LReadFile (manifestFile dataDir k)) f ∈ t /\
     (f = FileNotExist \/ exists b, f = FileOk b /\ TrimSpace b = ""%string)) \/
  mlx LMarkClusterCreated None ∈ t.

Definition keysLoaded (o : EtcdManagerOptions) (t : MT) : Prop :=
  o_EtcdInsecure o = false -> mx (MLoadCA "etcd-peers-ca") None ∈ t /\ mx (MLoadCA "etcd-clients-ca") None ∈ t.

(** What was established before a node server is made of [a]. *)
Definition prepared (o : EtcdManagerOptions) (a : serverArgs) (t : MT) : Prop :=
  exists dataDir address0 id myPeerId,
    a = serverArgsFor o dataDir (if String.eqb address0 "" then "127.0.0.1" else address0) myPeerId /\
    source o dataDir address0 id t /\ identified dataDir id myPeerId t /\ keysLoaded o t /\ scanned dataDir t.

Lemma source_grows o d a i t t' : t ⊆ t' -> source o d a i t -> source o d a i t'.
Proof. intros Ht. unfold source. destruct (String.eqb _ _); [done|]. intros (v & H1 & H2 & H3). exists v. auto. Qed.
Lemma identified_grows d i p t t' : t ⊆ t' -> identified d i p t -> identified d i p t'.
Proof. intros Ht. unfold identified. destruct (String.eqb _ _); [|done]. intros [H|H]; auto. Qed.
Lemma scanned_grows d t t' : t ⊆ t' -> scanned d t -> scanned d t'.
Proof. intros Ht [H|H]; [left|by right; auto]. intros k Hk. destruct (H k Hk) as (f & H1 & H2). exists f. auto. Qed.
Lemma keysLoaded_grows o t t' : t ⊆ t' -> keysLoaded o t -> keysLoaded o t'.
Proof. intros Ht H E. destruct (H E). auto. Qed.
Lemma prepared_grows o a t t' : t ⊆ t' -> prepared o a t -> prepared o a t'.
Proof.
  intros Ht (d & ad & i & p & E & H1 & H2 & H3 & H4). exists d, ad, i, p.
  eauto 10 using source_grows, identified_grows, scanned_grows, keysLoaded_grows.
Qed.

(** Operations of the other components start nothing. *)
Lemma preparing_legacy {A} o (m : M LegSig unit A) : emits (preparing o) (onLegacy m).
Proof.
  apply emits_viaL, emits_viaL. intros s. eapply wpm_mono; [apply wpm_any; [exact (fun _ _ _ => I)|exact (fun _ _ => I)]| |];
    intros; apply Forall_forall; by intros [] _.
Qed.
Lemma preparing_discovery {A} o (m : M DiscSig unit A) : emits (preparing o) (onDiscovery m).
Proof.
  apply emits_viaL, emits_viaR. intros s. eapply wpm_mono; [apply wpm_any; [exact (fun _ _ _ => I)|exact (fun _ _ => I)]| |];
    intros; apply Forall_forall; by intros [] _.
Qed.
#[export] Hint Resolve preparing_legacy preparing_discovery : emits_db.

(** The scan reads both manifests, or marks the cluster. *)
Lemma ScanForExisting_spec baseDir s :
  wpm (ScanForExisting baseDir) s
    (fun r _ t => forall b, r = Ok b ->
       (forall k, k ∈ etcdKeys -> exists f, lx (LReadFile (manifestFile baseDir k)) f ∈ t /\
          (f = FileNotExist \/ exists b, f = FileOk b /\ TrimSpace b = ""%string)) \/ lx LMarkClusterCreated None ∈ t)
    (fun _ _ => False).
Proof.
  unfold ScanForExisting. wpm_step.
  pose proof (wpm_for_each (fun seen (_ : unit) (_ : unit) (t : LT) => forall k, k ∈ seen -> exists f,
      lx (LReadFile (manifestFile baseDir k)) f ∈ t /\ (f = FileNotExist \/ exists b, f = FileOk b /\ TrimSpace b = ""%string))
    (fun r _ (t : LT) => forall b : bool, r = Ok b -> lx LMarkClusterCreated None ∈ t) (fun _ _ => False) etcdKeys) as Hloop.
  eapply wpm_mono; [eapply (Hloop _ [] tt s [])| |done].
  - by intros k H%elem_of_nil.
  - intros seen k _ s1 t1 Hs Hk. do 2 wpm_step.
    assert (forall f, f = r -> (f = FileNotExist \/ exists b, f = FileOk b /\ TrimSpace b = ""%string) -> forall k', k' ∈ seen ++ [k] -> exists f',
      lx (LReadFile (manifestFile baseDir k')) f' ∈ t1 ++ [lx (LReadFile (manifestFile baseDir k)) f] /\
      (f' = FileNotExist \/ exists b, f' = FileOk b /\ TrimSpace b = ""%string)) as Hsnoc.
    { intros f _ Hf k' [Hk'|Hk'%list_elem_of_singleton]%elem_of_app.
      - destruct (Hs k' Hk') as (f' & H1 & H2). exists f'. set_solver.
      - subst k'. exists f. set_solver. }
    destruct r as [b| |e].
    + destruct (String.eqb_spec (TrimSpace b) "") as [Hb|_]; [wpm_step; rewrite ?app_nil_r; apply Hsnoc; eauto|].
      do 3 wpm_step. destruct r; [done|]. intros _ _. set_solver.
    + wpm_step. rewrite ?app_nil_r. apply Hsnoc; auto.
    + by wpm_step.
  - intros [u|r] s' t H; wpm_step; rewrite app_nil_r; intros b Hb; [by left|]. right. by apply (H b).
Qed.

(** ** Rules for the steps *)

Lemma wp_bind_inv {Σ A B} (p : prog Σ A) (f : A -> prog Σ B) Q :
  wp (bind p f) Q ->
  wp p (fun t o => match o with
                   | Done a => wp (f a) (fun t' o' => Q (t ++ t') o')
                   | Crashed c => Q t (Crashed c)
                   end).
Proof. revert Q. induction p as [a|c|e k IH]; cbn; intros Q H; auto. intros r. apply (IH r _ (H r)). Qed.

Lemma wpm_bind_inv {Σ S A B} (m : M Σ S A) (f : A -> M Σ S B) s Q C :
  wpm (m ≫= f) s Q C ->
  wpm m s (fun a s' t => wpm (f a) s' (fun b s'' t' => Q b s'' (t ++ t')) (fun c t' => C c (t ++ t'))) C.
Proof. intros H. apply wp_bind_inv in H. eapply wp_mono; [exact H|]. by intros t [[a s']|c]. Qed.

Lemma wpm_attempt_nil s (Q : option error -> unit -> MT -> Prop) C : Q None s [] -> wpm (attempt []) s Q C.
Proof. intros H. unfold attempt. cbn [for_each]. do 2 wpm_step. done. Qed.

Lemma wpm_attempt_cons m rest s (Q : option error -> unit -> MT -> Prop) C :
  wpm m s (fun e s' t => match e with
    | Some e => Q (Some e) s' t
    | None => wpm (attempt rest) s' (fun r s'' t' => Q r s'' (t ++ t')) (fun c t' => C c (t ++ t'))
    end) C ->
  wpm (attempt (m :: rest)) s Q C.
Proof.
  intros H. unfold attempt. cbn [for_each]. do 3 wpm_step. eapply wpm_mono; [exact H| |done].
  intros [e|] s' t Ht; wpm_step; cbn iota.
  - do 2 wpm_step. by rewrite !app_nil_r.
  - rewrite app_nil_r. unfold attempt in Ht. apply wpm_bind_inv in Ht.
    eapply wpm_mono; [exact Ht| |done]. intros r s'' t' H'.
    change (Q (match r with inl _ => None | inr e => Some e end) s'' (t ++ t' ++ [])) in H'. wpm_step. by rewrite <- app_assoc.
Qed.

Lemma emits_attempt P steps : Forall (emits P) steps -> emits P (attempt steps).
Proof.
  intros H. induction H as [|m rest Hm Hrest IH]; intros s.
  - by apply wpm_attempt_nil.
  - apply wpm_attempt_cons. eapply wpm_mono; [apply Hm| |done]. intros [e|] s' t Ht; [done|].
    eapply wpm_mono; [apply IH| |]; cbn; intros; by apply Forall_app.
Qed.

(** ** The phases *)

Definition fatal (c : crash) : Prop := exists msg, c = Fatal msg.

Section Phases.
Context (o : EtcdManagerOptions).

Lemma mountVolume_spec s :
  wpm (mountVolume o) s
    (fun r _ t => Forall (preparing o) t /\ forall d a i, r = Ok (d, a, i) -> source o d a i t)
    (fun c t => Forall (preparing o) t /\ fatal c).
Proof.
  unfold mountVolume, source. destruct (String.eqb (o_VolumeProviderID o) "").
  { wpm_step. split; [done|]. by intros d a i [= <- <- <-]. }
  case_bool_decide; [wpm_step; split; [done|by eexists]|]. do 2 wpm_step.
  destruct r as [e|]; [wpm_step; split; [by repeat constructor|by eexists]|]. do 2 wpm_step.
  destruct r as [|v [|v' vs]]; [wpm_step; by repeat constructor| |wpm_step; by repeat constructor].
  do 3 wpm_step. split; [by repeat constructor|]. intros d a i E. destruct r as [ip|]; [|done]. injection E as <- <- <-.
  exists v. set_solver.
Qed.

Lemma peerIdFor_spec d i s :
  wpm (peerIdFor d i) s
    (fun r _ t => Forall (preparing o) t /\ forall p, r = Ok p -> identified d i p t)
    (fun c t => Forall (preparing o) t /\ fatal c).
Proof.
  eapply wpm_mono; [apply (wpm_conj _ _ (fun r _ t => forall p, r = Ok p -> identified d i p t) (fun _ _ t => Forall (preparing o) t)
    (fun c _ => fatal c) (fun _ t => Forall (preparing o) t))| |].
  3, 4: by naive_solver.
  - unfold peerIdFor, identified. destruct (String.eqb i ""); [|wpm_step; by intros p [= ->]]. wpm_step.
    unfold onLegacy. apply wpm_viaL, wpm_viaL. unfold PersistentPeerId. do 2 wpm_step. destruct r as [b| |e].
    + do 2 wpm_step. intros p [= ->]. left. set_solver.
    + do 2 wpm_step. destruct r as [bs|e]; [|wpm_step; by eexists]. do 2 wpm_step. destruct r; [by do 2 wpm_step|].
      do 3 wpm_step. wpm_step. intros p. destruct r; [done|]. intros [= <-]. right. cbn. set_solver.
    + by do 2 wpm_step.
  - revert s. change (emits (preparing o) (peerIdFor d i)). unfold peerIdFor. emits_solve.
Qed.

Lemma openStores_spec d s :
  wpm (openStores o d) s (fun r _ t => Forall (preparing o) t /\ (r = None -> scanned d t))
    (fun c t => Forall (preparing o) t /\ fatal c).
Proof.
  unfold openStores. do 2 wpm_step. destruct r; [wpm_step; by repeat constructor|]. do 2 wpm_step.
  destruct r; [wpm_step; split; [by repeat constructor|by eexists]|]. wpm_step.
  eapply wpm_mono; [apply (wpm_conj _ _ (fun r _ t => forall b, r = Ok b -> scanned d t) (fun _ _ t => Forall (preparing o) t)
    (fun _ _ => False) (fun _ t => Forall (preparing o) t))| |naive_solver].
  - unfold onLegacy. apply wpm_viaL, wpm_viaL. eapply wpm_mono; [apply ScanForExisting_spec| |done].
    intros r s' t H b Hb. destruct (H b Hb) as [Hk|Hm].
    + left. intros k Hk'. destruct (Hk k Hk') as (f & H1 & H2). exists f. split; [|done].
      exact (list_elem_of_fmap_2 exL _ _ (list_elem_of_fmap_2 exL _ _ H1)).
    + right. exact (list_elem_of_fmap_2 exL _ _ (list_elem_of_fmap_2 exL _ _ Hm)).
  - apply preparing_legacy.
  - intros r s' t [H1 H2]. destruct r as [b|e].
    + wpm_step. split; [cbn; repeat constructor; by rewrite app_nil_r|]. intros _. eapply scanned_grows; [|by apply (H1 b)]. set_solver.
    + wpm_step. split; [cbn; repeat constructor; by rewrite app_nil_r|by eexists].
Qed.

Lemma loadKeys_spec p s :
  wpm (loadKeys o p) s (fun r _ t => Forall (preparing o) t /\ (r = None -> keysLoaded o t))
    (fun c t => Forall (preparing o) t /\ fatal c).
Proof.
  unfold loadKeys, keysLoaded, wrapError. destruct (o_Insecure o), (o_EtcdInsecure o), (String.eqb (o_PKIDir o) ""); cbn [app];
    repeat match goal with
    | |- wpm (attempt []) _ _ _ => apply wpm_attempt_nil
    | |- wpm (attempt (_ :: _)) _ _ _ => apply wpm_attempt_cons
    | |- wpm _ _ _ _ => wpm_step
    | |- context [match ?r with Some _ => _ | None => _ end] => is_var r; destruct r; cbn iota
    end.
  all: cbn [app]; (split; [repeat (apply Forall_cons_2; [done|]); apply Forall_nil_2|]); intros; try done; set_solver.
Qed.
End Phases.

(** ** The order of the start *)

(** What must have happened before [x]. *)
Definition allowed (o : EtcdManagerOptions) (t : MT) (x : exchange ManagerSig) : Prop :=
  match asked x with
  | inr (MNewEtcdServer a) => prepared o a t
  | inr (MGo delay (RunMetrics port)) => port = o_EtcdManagerMetricsPort o /\ port <> 0
  | inr (MGo delay RunEtcdServer) => delay = 0 /\ exists a, mx (MNewEtcdServer a) None ∈ t
  | inr (MNewEtcdController _ _ _ _ _) => exists u, mx (MGo 0 RunEtcdServer) u ∈ t
  | inr (MGo delay RunController) => delay = 2 * Second /\
      (exists c d b r i, mx (MNewEtcdController c d b r i) None ∈ t) /\ exists u, mx (MGo 0 RunEtcdServer) u ∈ t
  | inr (MListenAndServe _) => exists u, mx (MGo (2 * Second) RunController) u ∈ t
  | _ => True
  end.
Definition orderly (o : EtcdManagerOptions) (t : MT) : Prop :=
  forall t1 x t2, t = t1 ++ x :: t2 -> allowed o t1 x.

Lemma orderly_preparing o t : Forall (preparing o) t -> orderly o t.
Proof.
  intros H t1 x t2 ->. apply Forall_app in H as [_ H]. apply Forall_cons in H as [H _].
  unfold preparing, allowed in *. destruct (asked x) as [|[]]; try done. by case_match.
Qed.

Lemma orderly_snoc o t x : orderly o t -> allowed o t x -> orderly o (t ++ [x]).
Proof.
  intros Ht Hx. assert (forall y, guarded (eq y) (fun t1 => allowed o t1 y) (t ++ [x])) as H.
  { intros y. apply guarded_app; [intros t1 z t2 E ->; by apply (Ht t1 z t2)|].
    intros [|w t1] z t2 E ->; [|by destruct t1]. injection E as <- _. by rewrite app_nil_r. }
  intros t1 y t2 E. by apply (H y t1 y t2).
Qed.

(** ** Schedules *)

(** A moment of the process: the main goroutine makes a call, or a goroutine it
    spawned begins to run. *)
Inductive event :=
| EMain (x : exchange ManagerSig)
| EBegin (g : goroutine).

(** The schedules of the calls [t] of the main goroutine, with the times: a
    goroutine begins at any time after it was spawned and its sleep is over,
    beside the further calls of the main goroutine. *)
Inductive schedule : MT -> list (time * event) -> Prop :=
| sched_nil : schedule [] []
| sched_main t es tm x : schedule t es -> Forall (fun e => fst e <= tm) es ->
    schedule (t ++ [x]) (es ++ [(tm, EMain x)])
| sched_begin t es tm tm0 delay g u : schedule t es -> Forall (fun e => fst e <= tm) es ->
    (tm0, EMain (mx (MGo delay g) u)) ∈ es -> tm0 + delay <= tm -> EBegin g ∉ es.*2 ->
    schedule t (es ++ [(tm, EBegin g)]).

(** The calls of the main goroutine. *)
Definition calls (es : list (time * event)) : MT :=
  omap (fun e => match snd e with EMain x => Some x | EBegin _ => None end) es.

(** What must have happened before a moment of a schedule. *)
Definition due (o : EtcdManagerOptions) (es : list (time * event)) (tm : time) (e : event) : Prop :=
  match e with
  | EMain x => allowed o (calls es) x
  | EBegin (RunMetrics port) => port = o_EtcdManagerMetricsPort o /\ port <> 0
  | EBegin RunEtcdServer => exists a, prepared o a (calls es) /\ mx (MNewEtcdServer a) None ∈ calls es
  | EBegin RunController =>
      (exists a, prepared o a (calls es) /\ mx (MNewEtcdServer a) None ∈ calls es) /\
      (exists c d b r i, mx (MNewEtcdController c d b r i) None ∈ calls es) /\
      exists tm0 u, (tm0, EMain (mx (MGo (2 * Second) RunController) u)) ∈ es /\ tm0 + 2 * Second <= tm
  end.

Lemma calls_app es es' : calls (es ++ es') = calls es ++ calls es'.
Proof. apply omap_app. Qed.

Lemma calls_elem es tm x : (tm, EMain x) ∈ es -> x ∈ calls es.
Proof. intros H. apply list_elem_of_omap. by exists (tm, EMain x). Qed.

Lemma schedule_calls t es : schedule t es -> calls es = t.
Proof.
  induction 1 as [|t es tm x _ IH _|t es tm tm0 delay g u _ IH]; [done|..]; rewrite calls_app; simpl; [by rewrite IH|].
  by rewrite app_nil_r.
Qed.

(** What an allowed call of the trace brings with it. *)
Lemma orderly_elem o t x : orderly o t -> x ∈ t -> exists t1, t1 ⊆ t /\ allowed o t1 x.
Proof.
  intros Ht (t1 & t2 & ->)%list_elem_of_split. exists t1. split; [set_solver|]. by apply (Ht t1 x t2).
Qed.

Lemma orderly_node o t u :
  orderly o t -> mx (MGo 0 RunEtcdServer) u ∈ t -> exists a, prepared o a t /\ mx (MNewEtcdServer a) None ∈ t.
Proof.
  intros Ht (t1 & Hs & _ & a & Ha)%(orderly_elem o); [|done]. exists a. split; [|by apply Hs].
  destruct (orderly_elem o t (mx (MNewEtcdServer a) None) Ht) as (t2 & Hs2 & Hp); [by apply Hs|].
  by eapply prepared_grows.
Qed.

(** Before the servers, only the metrics endpoint begins. *)
Lemma schedule_preparing o t es :
  Forall (preparing o) t -> schedule t es -> forall tm g, (tm, EBegin g) ∈ es -> exists port, g = RunMetrics port.
Proof.
  intros Ht Hs. induction Hs as [|t es tm x Hs IH _|t es tm tm0 delay g u Hs IH _ Hgo Htm _].
  - by intros tm g H%elem_of_nil.
  - apply Forall_app in Ht as [Ht _]. intros tm' g [H|[=]%list_elem_of_singleton]%elem_of_app. by apply (IH Ht tm').
  - intros tm' g' [H|[= -> ->]%list_elem_of_singleton]%elem_of_app; [by apply (IH Ht tm')|].
    apply calls_elem in Hgo. rewrite (schedule_calls _ _ Hs) in Hgo. rewrite Forall_forall in Ht. specialize (Ht _ Hgo).
    destruct g as [port| |]; [by exists port|done..].
Qed.

(** In every schedule of an orderly trace each moment is due. *)
Lemma schedule_due o t es :
  orderly o t -> schedule t es -> forall es1 tm e es2, es = es1 ++ (tm, e) :: es2 -> due o es1 tm e.
Proof.
  intros Ht Hs. induction Hs as [|t es tm x Hs IH _|t es tm tm0 delay g u Hs IH _ Hgo Htm _].
  - by intros [].
  - assert (orderly o t) as Ht' by (intros t1 y t2 E; apply (Ht t1 y (t2 ++ [x])); by rewrite E, <- app_assoc).
    intros es1 tm' e es2 E. destruct es2 as [|e2 es2 _] using rev_ind.
    + apply app_inj_tail in E as [<- [= <- <-]]. simpl. rewrite (schedule_calls _ _ Hs). by apply (Ht t x []).
    + rewrite app_comm_cons, app_assoc in E. apply app_inj_tail in E as [E _]. by eapply IH.
  - intros es1 tm' e es2 E. destruct es2 as [|e2 es2 _] using rev_ind.
    2:{ rewrite app_comm_cons, app_assoc in E. apply app_inj_tail in E as [E _]. by eapply IH. }
    apply app_inj_tail in E as [<- [= <- <-]]. simpl. pose proof (schedule_calls _ _ Hs) as Hc.
    pose proof (calls_elem _ _ _ Hgo) as Hin. rewrite Hc in Hin.
    destruct (orderly_elem o t _ Ht Hin) as (t1 & Ht1 & Ha). unfold allowed in Ha. simpl in Ha. rewrite Hc.
    destruct g as [port| |].
    + tauto.
    + destruct Ha as [-> _]. eapply orderly_node; [done|exact Hin].
    + destruct Ha as (-> & Hctl & u' & Hnode). split; [eapply orderly_node; [done|by apply Ht1]|]. split; [|by eauto].
      destruct Hctl as (c & d & b & r & i & H). exists c, d, b, r, i. by apply Ht1.
Qed.

Section Start.
Context (ParseIP : string -> bool) (ParseDuration : string -> option Z)
  (Marshal : DiscoveryNode -> result string) (o : EtcdManagerOptions).

Lemma launch_spec interval a ep s t0 :
  orderly o t0 -> prepared o a t0 ->
  wpm (launch o interval a ep) s (fun _ _ t => orderly o (t0 ++ t)) (fun _ _ => False).
Proof.
  intros Ht0 Ha. unfold launch, wrapError. do 2 wpm_step. set (x1 := mx (MNewEtcdServer a) r).
  assert (orderly o (t0 ++ [x1])) as H1 by (by apply orderly_snoc). destruct r as [e|]; [by wpm_step|].
  wpm_step. wpm_step. set (x2 := mx (MGo 0 RunEtcdServer) r). assert (orderly o ((t0 ++ [x1]) ++ [x2])) as H2.
  { apply orderly_snoc; [done|]. split; [done|]. exists a. set_solver. }
  do 2 wpm_step. match goal with |- context [mx (MNewEtcdController ?c ?d ?b ?r ?i) ?a] => set (x3 := mx (MNewEtcdController c d b r i) a) end.
  assert (orderly o (((t0 ++ [x1]) ++ [x2]) ++ [x3])) as H3.
  { apply orderly_snoc; [done|]. exists r. change (x2 ∈ (t0 ++ [x1]) ++ [x2]). set_solver. }
  rewrite <- !app_assoc in H3. destruct r0 as [e|]; [by wpm_step|]. wpm_step. wpm_step.
  set (x4 := mx (MGo (2 * Second) RunController) r0).
  assert (orderly o ((t0 ++ [x1; x2; x3]) ++ [x4])) as H4.
  { apply orderly_snoc; [done|]. split; [done|]. split.
    - do 5 eexists. apply elem_of_app. right. do 2 right. left.
    - exists r. apply elem_of_app. right. right. left. }
  do 3 wpm_step. match goal with |- context [mx (MListenAndServe ep) ?r] => set (x5 := mx (MListenAndServe ep) r) end.
  assert (orderly o (((t0 ++ [x1; x2; x3]) ++ [x4]) ++ [x5])) as H5.
  { apply orderly_snoc; [done|]. exists r0. change (x4 ∈ (t0 ++ [x1; x2; x3]) ++ [x4]). set_solver. }
  rewrite <- !app_assoc in H5. exact H5.
Qed.

Lemma discoverBy_spec id ad s :
  wpm (discoverBy Marshal o id ad) s (fun _ _ t => Forall (preparing o) t) (fun _ _ => False).
Proof.
  unfold discoverBy. destruct (negb _); [by wpm_step|]. do 2 wpm_step. destruct r; [|wpm_step; by repeat constructor].
  wpm_step. unfold onDiscovery. apply wpm_viaL, wpm_viaR. unfold NewVFSDiscovery, publish. cbn [vd_me vd_base].
  repeat wpm_step; cbn; by repeat constructor.
Qed.

Lemma newPeerServer_spec id ep s :
  wpm (newPeerServer ParseDuration o id ep) s (fun _ _ t => Forall (preparing o) t) (fun _ _ => False).
Proof.
  unfold newPeerServer, wrapError. destruct (ParseDuration _); [|by wpm_step]. do 3 wpm_step. by repeat constructor.
Qed.

Lemma steps_spec id ad ep d s :
  wpm (attempt [discoverBy Marshal o id ad; loadKeys o id; newPeerServer ParseDuration o id ep; openStores o d]) s
    (fun r _ t => Forall (preparing o) t /\ (r = None -> keysLoaded o t /\ scanned d t)) (fun c t => Forall (preparing o) t /\ fatal c).
Proof.
  apply wpm_attempt_cons. eapply wpm_mono; [apply discoverBy_spec| |done]. intros [e|] s1 t1 H1; [done|].
  apply wpm_attempt_cons. eapply wpm_mono; [apply loadKeys_spec| |]; cbn beta.
  2:{ intros c t2 [H2 Hc]. by rewrite Forall_app. }
  intros [e|] s2 t2 [H2 Hk]; [by rewrite Forall_app|]. specialize (Hk eq_refl).
  apply wpm_attempt_cons. eapply wpm_mono; [apply newPeerServer_spec| |done]. intros [e|] s3 t3 H3; [by rewrite !Forall_app|].
  apply wpm_attempt_cons. eapply wpm_mono; [apply openStores_spec| |]; cbn beta.
  2:{ intros c t4 [H4 Hc]. by rewrite !Forall_app. }
  intros [e|] s4 t4 [H4 Hs]; [by rewrite !Forall_app|]. specialize (Hs eq_refl). apply wpm_attempt_nil.
  rewrite !app_nil_r, !Forall_app. split; [done|]. intros _. split.
  - eapply keysLoaded_grows; [|exact Hk]. set_solver.
  - eapply scanned_grows; [|exact Hs]. set_solver.
Qed.

Lemma runNode_spec interval d ad i s t0 :
  Forall (preparing o) t0 -> source o d ad i t0 ->
  wpm (runNode ParseIP ParseDuration Marshal o interval d ad i) s
    (fun _ _ t => orderly o (t0 ++ t)) (fun c t => Forall (preparing o) (t0 ++ t) /\ fatal c).
Proof.
  intros Ht0 Hsrc. unfold runNode. wpm_step.
  eapply (wpm_mono _ _ (fun _ _ t => Forall (preparing o) t) _ (fun _ _ => False)); [|intros r s1 t1 H1|done].
  { unfold onLegacy. apply wpm_viaL, wpm_viaL. wpm_step. by repeat constructor. }
  assert (Forall (preparing o) (t0 ++ t1)) as Ht1 by (by apply Forall_app).
  destruct r as [e|]; [wpm_step; rewrite app_nil_r; by apply orderly_preparing|].
  wpm_step. eapply wpm_mono; [apply (peerIdFor_spec o)| |].
  2:{ intros c t2 [H2 Hc]. rewrite app_assoc, Forall_app. auto. }
  intros r s2 t2 [H2 Hid]. destruct r as [p|e].
  2:{ wpm_step. rewrite app_nil_r, app_assoc. apply orderly_preparing. by apply Forall_app. }
  specialize (Hid p eq_refl). set (address := if String.eqb ad "" then _ else _). cbv zeta.
  wpm_step. eapply wpm_mono; [apply steps_spec| |].
  2:{ intros c t3 [H3 Hc]. rewrite !app_assoc, !Forall_app in *. auto. }
  intros r s3 t3 [H3 Hready].
  assert (Forall (preparing o) (t0 ++ t1 ++ t2 ++ t3)) as Ht by (rewrite !Forall_app in *; naive_solver).
  destruct r as [e|]; [wpm_step; rewrite app_nil_r; by apply orderly_preparing|]. destruct (Hready eq_refl) as [Hk Hsc].
  destruct (ParseIP address); [|wpm_step; rewrite app_nil_r; by apply orderly_preparing].
  eapply wpm_mono; [apply (launch_spec _ _ _ _ (t0 ++ t1 ++ t2 ++ t3)); [by apply orderly_preparing|]| |done].
  - exists d, ad, i, p. split; [done|]. split; [eapply source_grows; [|exact Hsrc]; set_solver|].
    split; [eapply identified_grows; [|exact Hid]; set_solver|].
    split; [eapply keysLoaded_grows; [|exact Hk]; set_solver|]. eapply scanned_grows; [|exact Hsc]. set_solver.
  - intros r s4 t4 H4. cbn beta in H4. by rewrite <- !app_assoc in H4.
Qed.
End Start.

(** ** Theorems *)

(** C17: the manager starts in order, whatever its components answer and
    however its goroutines are scheduled.  A node server is made only of a data
    directory, an address and an identity that come from the one volume that was
    mounted (or, without a provider, from the options and a file in the data
    directory), after the certificate authorities of etcd were loaded unless etcd
    is to be insecure, and after the scan of that directory found no legacy data
    or marked the cluster as created, so that a legacy cluster is never created
    anew.  The node server begins to run only after that; the controller begins
    only after the node server was made and at least two seconds after its
    goroutine was spawned; the peer server, which lets others call in, is asked to
    serve only after that goroutine was spawned (nothing is said of which of the
    two is first).  The process ends early only with a fatal error, and then
    nothing has begun but the endpoint of the metrics. *)
Theorem startup_in_order ParseCIDR ParseIP ParseDuration Marshal o t out es
  (Hrun : runs (RunEtcdManager ParseCIDR ParseIP ParseDuration Marshal o tt) t out)
  (Hsched : schedule t es) :
  (forall es1 tm e es2, es = es1 ++ (tm, e) :: es2 -> due o es1 tm e) /\
  forall c, out = Crashed c -> fatal c /\ Forall (preparing o) t /\
    forall tm g, (tm, EBegin g) ∈ es -> exists port, g = RunMetrics port.
Proof.
  assert (wpm (RunEtcdManager ParseCIDR ParseIP ParseDuration Marshal o) tt
    (fun _ _ t => orderly o t) (fun c t => Forall (preparing o) t /\ fatal c)) as Hw.
  2:{ pose proof (wp_runs _ _ _ _ Hrun Hw) as H. destruct out as [[r s]|c].
      - split; [by apply (schedule_due o t)|]. intros c [=].
      - destruct H as [Hp Hc]. split; [by apply (schedule_due o t); [apply orderly_preparing|]|].
        intros c' [= <-]. split; [done|]. split; [done|]. by apply (schedule_preparing o t). }
  unfold RunEtcdManager. destruct (checkOptions _ _ _) as [interval|e]; [|wpm_step; apply orderly_preparing; constructor].
  wpm_step. eapply (wpm_mono _ _ (fun _ _ t => Forall (preparing o) t) _ (fun _ _ => False)); [|intros u s1 t1 H1|done].
  { destruct (Z.eqb_spec (o_EtcdManagerMetricsPort o) 0); wpm_step; by repeat constructor. }
  wpm_step. eapply wpm_mono; [apply mountVolume_spec| |].
  2:{ intros c t2 [H2 Hc]. by rewrite Forall_app. }
  intros r s2 t2 [H2 Hsrc]. assert (Forall (preparing o) (t1 ++ t2)) as Ht by (by apply Forall_app).
  destruct r as [[[d a] i]|e]; [|wpm_step; rewrite app_nil_r; by apply orderly_preparing].
  eapply wpm_mono; [apply (runNode_spec ParseIP ParseDuration Marshal o interval d a i s2 (t1 ++ t2)); [done|]| |]; cbn beta.
  - eapply source_grows; [|by apply Hsrc]. set_solver.
  - intros r s3 t3 H3. by rewrite <- app_assoc in H3.
  - intros c t3 H3. by rewrite <- app_assoc in H3.
Qed.

Module ManagerDemo.
(** A node on an external volume, with legacy data. *)
Definition volume : Volume := mkVolume "master-v" "v" "etcd-a" "/mnt/v" "10.0.0.1" "/mnt/v" "" "v".
Definition options : EtcdManagerOptions :=
  mkManagerOptions "/pki" "" "external" "https://__name__:2380" 3996 "https://__address__:4001" "https://__address__:3994"
    "main" "0.0.0.0" "s3://b" "" ["etcd-"] "" "15m" "60s" ".internal" 0 false false "" 0 "".
Definition machine : handler ManagerSig unit := fun e w =>
  match e with
  | inl (inl (LReadFile _)) => (FileOk "kind: Pod", w)
  | inl (inl (LReadDir _)) => (Ok [], w)
  | inl (inl LRandRead) => (Ok [], w)
  | inl (inl _) => (None, w)
  | inl (inr (DReadDir _)) => (Ok [], w)
  | inl (inr (DReadFile _)) => (Err "none", w)
  | inl (inr (DWriteFile _ _)) => (None, w)
  | inr (MGo _ _) => (tt, w)
  | inr MWaitForVolumes => ([volume], w)
  | inr (MMyIP | MBuildVfsPath _) => (Ok "10.0.0.1", w)
  | inr _ => (None, w)
  end.
Definition start : prog ManagerSig (option error * unit) :=
  RunEtcdManager (fun _ => true) (fun _ => true) (fun _ => Some 1) (fun _ => Ok "{}") options tt.
(** What the node server is made of. *)
Definition args : serverArgs :=
  mkServerArgs "/mnt/v" "main" "0.0.0.0" [""]
    (mkEtcdNode "etcd-a" ["https://etcd-a.internal:2380"] ["https://10.0.0.1:4001"] ["https://10.0.0.1:3994"] false) true ["10.0.0.1"].
End ManagerDemo.

(** The calls of the start, one nanosecond after the other, and then the node
    server and, two seconds later, the controller begin. *)
Fixpoint clocked (tm : time) (t : MT) : list (time * event) :=
  match t with
  | [] => []
  | x :: t' => (tm, EMain x) :: clocked (tm + 1) t'
  end.

Lemma clocked_schedule tm t t0 es :
  schedule t0 es -> Forall (fun e => fst e <= tm) es -> schedule (t0 ++ t) (es ++ clocked tm t).
Proof.
  revert tm t0 es. induction t as [|x t IH]; intros tm t0 es Hs Ht; simpl; [by rewrite !app_nil_r|].
  specialize (IH (tm + 1) (t0 ++ [x]) (es ++ [(tm, EMain x)])). rewrite <- !app_assoc in IH. apply IH.
  - by constructor.
  - apply Forall_app. split; [|constructor; [simpl; lia|done]]. eapply Forall_impl; [exact Ht|]. simpl. lia.
Qed.

Definition calledAll : MT := trace_of ManagerDemo.machine ManagerDemo.start tt.
Definition begun : list (time * event) :=
  clocked 0 calledAll ++ [(100, EBegin RunEtcdServer); (3 * Second, EBegin RunController)].

Lemma clocked_main tm t g : EBegin g ∉ (clocked tm t).*2.
Proof.
  revert tm. induction t as [|x t IH]; intros tm; simpl; [by intros H%elem_of_nil|].
  intros [[=]|H]%elem_of_cons. by apply (IH (tm + 1)).
Qed.

Lemma begun_schedule : schedule calledAll begun.
Proof.
  change begun with (clocked 0 calledAll ++ [(100, EBegin RunEtcdServer)] ++ [(3 * Second, EBegin RunController)]).
  rewrite app_assoc.
  pose proof (clocked_schedule 0 calledAll [] [] sched_nil (List.Forall_nil _)) as Hs. simpl in Hs.
  assert (forall tm g, EBegin g ∉ (clocked tm calledAll).*2) as Hb by (intros; apply clocked_main).
  assert (Forall (fun e => fst e <= 100) (clocked 0 calledAll)) as Hle by (vm_compute; repeat constructor; discriminate).
  assert (exists tm0, (tm0, EMain (mx (MGo 0 RunEtcdServer) tt)) ∈ clocked 0 calledAll /\ tm0 + 0 <= 100) as (tm1 & H1 & T1).
  { eexists. split; [let l := eval vm_compute in (clocked 0 calledAll) in change (clocked 0 calledAll) with l;
      repeat first [apply list_elem_of_here | apply list_elem_of_further]|lia]. }
  assert (exists tm0, (tm0, EMain (mx (MGo (2 * Second) RunController) tt)) ∈ clocked 0 calledAll /\ tm0 + 2 * Second <= 3 * Second)
    as (tm2 & H2 & T2).
  { eexists. split; [let l := eval vm_compute in (clocked 0 calledAll) in change (clocked 0 calledAll) with l;
      repeat first [apply list_elem_of_here | apply list_elem_of_further]|vm_compute; discriminate]. }
  apply (sched_begin _ _ _ tm2 (2 * Second) RunController tt).
  - by apply (sched_begin _ _ _ tm1 0 RunEtcdServer tt).
  - apply Forall_app. split; [eapply Forall_impl; [exact Hle|]; intros e He; etrans; [exact He|by vm_compute]|].
    by repeat constructor.
  - apply elem_of_app. by left.
  - exact T2.
  - rewrite fmap_app. intros [H|[=]%list_elem_of_singleton]%elem_of_app. by apply (Hb 0 RunController).
Qed.

Lemma startup_in_order_witness :
  (asked <$> List.filter (fun x : exchange ManagerSig => match asked x with inr (MNewEtcdServer _ | MGo _ _ | MListenAndServe _) => true | _ => false end)
    calledAll) =
  ((inr : main_op -> op ManagerSig) <$> [MNewEtcdServer ManagerDemo.args; MGo 0 RunEtcdServer; MGo (2 * Second) RunController; MListenAndServe "10.0.0.1:3996"]) /\
  schedule calledAll begun /\
  forall es1 tm e es2, begun = es1 ++ (tm, e) :: es2 -> due ManagerDemo.options es1 tm e.
Proof.
  split; [vm_compute; reflexivity|]. split; [exact begun_schedule|].
  refine (proj1 (startup_in_order (fun _ => true) (fun _ => true) (fun _ => Some 1) (fun _ => Ok "{}") ManagerDemo.options calledAll _
    begun _ begun_schedule)).
  apply exec_runs_eq. reflexivity.
Defined.
